(* ===== verification/_CoqProject ===== *)
-Q . S2P
Prelude.v
Text.v
Bytes.v
AddrSpace.v
Ptr.v
Pipe.v
TimeStat.v
TimeConv.v
FdTable.v
Path.v
Mount.v
SockAddr.v
Dirent.v
Futex.v
Io.v
Mmap.v
Process.v
Clone.v
Signal.v
Loader.v
Files.v
Open.v
Syscall.v
Entry.v
Machine.v
MachineInv.v
MachineRun.v
MachineIo.v
MachinePipe.v
MachineSample.v
UserLib.v
UserApps.v
UserMatrix.v
UserShell.v
UserRun.v
UserCalls.v
UserSample.v
Build.v
