(* ===== verification/Prelude.v ===== *)
(** * Vegar (StarryOS): a verification library of the kernel

    Vegar is a monolithic kernel in Rust on the ArceOS components.  A system call
    enters at [handle_syscall] of [src/syscall.rs], which decodes the registers
    and calls a handler of [api/src/imp]; the handlers check user pointers
    ([api/src/ptr.rs]), find files through the descriptor table
    ([api/src/file]), resolve paths and links ([api/src/path.rs]), and act on the
    processes, threads, futexes, address spaces and time counters that
    [core/src] keeps for each task.  [src/entry.rs] and [src/main.rs] start the
    user programs, [src/mm.rs] handles their page faults.  [apps/nimbos/rust]
    holds the programs of the default test case and their library; [build.rs] lists
    them in an assembly file.

    ** Files

    Each file opens with what it holds; the sources it models are:
    - [Prelude]: outcomes ([Ok], [Err], panic), the state-and-outcome monad,
      machine integers, the hint database [vegar], tactics.  [Text]: [str]
      methods and UTF-8.  [Bytes]: little-endian integers.  [AddrSpace]: the
      interface of [axmm]'s address spaces, [memory_addr] and mapping flags.
    - [Ptr]: [api/src/ptr.rs]: [check_region], the scan for a terminator, the
      typed accessors, user memory as a map from addresses to bytes.
    - [Pipe]: [api/src/file/pipe.rs]: ring buffer, blocking loops.
    - [FdTable]: [api/src/file/mod.rs], [imp/fs/fd_ops.rs], [imp/fs/pipe.rs]:
      the descriptor table over a heap of reference-counted objects.
    - [Files]: the [FileLike] trait and its implementations ([file/fs.rs],
      [file/stdio.rs], [file/net.rs], [file/pipe.rs]), chosen by concrete type.
    - [Open]: [sys_openat], [imp/fs/stat.rs], [sys_getcwd].  [Io]:
      [imp/fs/io.rs].  [Path]: [api/src/path.rs] and the path calls of
      [imp/fs/ctl.rs].  [Dirent]: [sys_getdents64].  [Mount]:
      [imp/fs/mount.rs].  [SockAddr]: [api/src/socket.rs].
    - [Mmap]: [imp/mm].  [Loader]: [core/src/mm.rs] and [imp/task/execve.rs].
    - [Process]: process and thread data of [core/src/task.rs],
      [imp/task/wait.rs], [imp/task/exit.rs].  [Clone]: the task tables and
      [imp/task/clone.rs].  [Signal]: [api/src/signal.rs], [imp/signal.rs].
      [Futex]: [core/src/futex.rs], [imp/futex.rs].
    - [TimeStat]: [core/src/time.rs].  [TimeConv]: [api/src/time.rs],
      [imp/time.rs], [imp/task/schedule.rs].
    - [Syscall]: [src/syscall.rs], [imp/sys.rs], and the composition of the
      handlers on descriptors, paths and memory.  [Entry]: [src/entry.rs],
      [src/main.rs], [src/mm.rs], [imp/task/thread.rs].
    - [Machine]: the kernel as a whole: every system call on one state of all
      processes, the devices they share and their threads; a thread that waits is
      cut where the source yields or sleeps ([pending]), so that a run of
      [machine_step] is an interleaving.  Every return to user code, from a call, a
      wait or a served page fault, checks for signals ([post_trap]).  [MachineInv] and [MachineRun] have what
      every step keeps, [MachineIo] what can make a transfer panic, [MachinePipe] a
      pipe between two processes, [MachineSample] a concrete machine.
    - [UserLib]: [apps/nimbos/rust/src], the stubs, console, clock, threads and
      panic handler as interaction trees over traps and memory.  [UserApps],
      [UserMatrix], [UserShell]: the programs of [src/bin].  [UserRun] runs them as
      the threads of the machine; [UserCalls] composes their stubs with the
      handlers of the kernel; [UserSample] computes whole runs.
    - [Build]: [build.rs], and the meaning of the directives that it writes.

    ** How the code is modelled

    Functions keep their names.  A handler is a function of the monad [M]: it
    passes the state on and ends with [Ok], [Err] or [Panic]; an early return
    by [?] keeps the state reached so far.  A release build wraps its
    arithmetic, so an operator that can overflow is followed by its wrap.
    Shared objects ([Arc]) are identities with their contents and counts in the
    state, so that sharing, cloning and dropping are visible.  What a lock
    protects is one step; a call that waits is a loop over such steps with an
    environment between them, the other threads.

    Code outside the repository ([axfs], [axmm], [axprocess], [axsignal],
    [axnet], [flatten_objects], [weak_map], the ELF parsers, ...) is a class of
    operations; what the theorems need of it is a second class of laws that
    state its documented behaviour.  The modules [Sample], [ProcessSample] and
    so on hold concrete instances, used only by the witnesses.

    ** What is proved

    - The whole kernel: through every interleaving of calls, faults, waits and
      exits the counts of the file objects stay exact; a step of one process leaves
      alone the memory, descriptors and directory that its namespace does not name,
      so that a process finds them as it left them; [read] and [write] bring the
      kernel down exactly when the check of the user's slice does, and a transfer
      that had to wait exactly when its bytes have been unmapped meanwhile; what
      one process writes to a pipe, another that waits at the other end finds in its
      memory, and it is let go when no writer is left.
    - Programs on the kernel: a run of programs is a run of the machine; what a
      program writes to its standard output reaches the console; for each stub of
      the library and each architecture, what it stores, the call and the arguments
      that the kernel decodes its trap to, and that it returns the answer (the stubs
      of threads and sleeps do not reach the call that they are meant for, and
      [exec] is always refused); a whole session of the shell, parent and child,
      whatever the kernel answers; the matrix program never overflows.
    - Descriptors: in every state reachable by system calls the strong count of
      an object is the number of descriptors that name it; a pipe end sees its
      peer closed exactly when no descriptor names it; failing calls leave
      nothing behind; [openat] is exact on every path; any run of a program,
      trap by trap, keeps all of this.
    - Pipes: the ring buffer refines a bounded queue, the bytes received are a
      prefix of the bytes sent under every interleaving, blocking calls
      complete, and what enters one descriptor leaves the other.
    - User memory: accepted regions are accessible and populated; the scan for
      a terminator ends and reads only checked pages, and panics only in the last
      page of the address space; strings, socket addresses, directory entries and
      time values survive the round trip; [getdents64] loses entries only when the
      file system reports an error.
    - Processes: exit, wait and their status; what a clone shares; who is woken
      by an exiting thread; which processes a signal reaches; requeueing loses
      no futex waiter; the task tables stay complete.
    - Programs: the loader follows the chain of interpreters that the files name
      and hands the last one the arguments that the chain builds up; segments are
      mapped with whole pages inside the file's bounds, unless their size wraps; a
      started program has the resources it should; what becomes of a page fault.
    - Dispatch: a call whose arguments are in the registers of the Linux convention
      reaches its handler with exactly these arguments, and the return register has
      the result or the negated code of the error.
    - Build: the file that the script writes assembles, and its table leads to the
      name and the exact contents of every program.
    Some theorems state behaviour that the code does not seem to intend, such
    as a failing [execve] that has already dropped the old image.

    ** Bounds and fuel

    Loops that may not end take fuel and answer [None] when it is used up; the
    theorems say how much is enough: the console read needs one turn per byte
    of room and one more; the scan for a terminator one turn per element up to
    the end of the address space; a blocking read or write of a pipe a number
    of turns given by what the environment does; loading one round per level of
    interpreters.  On the machine no call has a loop that waits: the fuel of [trap]
    bounds only the rounds of loading in [execve], and [None] says that it was used
    up or that the kernel panics.  Programs are interaction trees, which
    need no fuel; the recursion of [forktree] goes to the depth of the source.
    Numbers are shown with at most 64 digits, enough for every integer type.

    ** Not modelled

    The kernel's own accesses to user memory are checked for presence where a wait
    lies between the check of a pointer and its use: the transfers of [read],
    [write] and their vectors, and the status word of [waitpid]; elsewhere pointer
    and use are in one step.  The C programs and the other test cases under [apps]; the [Display], [AsRef]
    and [Deref] implementations, logging, and constructors that only wrap a value
    carry no behaviour.  Page tables, the scheduler, locks and the network stack
    belong to ArceOS.  Relaxed memory ordering of the atomics is not modelled: each
    is one word read or written in a step.  The loads and stores of a user program
    do not fault; where the compiler puts its variables is the answer of an event,
    and of [core::fmt] only what the programs print is modelled.

    ** Left open

    That every call of every thread is answered after finitely many of its turns
    depends on the scheduler, which is not part of the repository.  The page faults
    of user loads and stores would need a model of the processor; [handle_page_fault]
    itself is modelled and is a step of the machine. *)

From stdpp Require Import base list gmap strings option.
From Stdlib Require Import ZArith Lia Ascii String.
Import ListNotations.

#[global] Open Scope Z_scope.

(** ** Outcomes of Rust computations

    A fallible Rust function returns [Ok], [Err] or does not return at all
    because it panics ([unwrap] of [None], an [assert!], an index out of
    bounds).  The three ways out are three constructors, so "never panics" is
    a statement about a value. *)

Inductive outcome (E A : Type) : Type :=
| Ok (a : A)
| Err (e : E)
| Panic.
Arguments Ok {E A} a.
Arguments Err {E A} e.
Arguments Panic {E A}.

#[export] Instance outcome_ret {E} : MRet (outcome E) := fun A a => Ok a.
#[export] Instance outcome_bind {E} : MBind (outcome E) :=
  fun A B f m => match m with Ok a => f a | Err e => Err e | Panic => Panic end.
#[export] Instance outcome_fmap {E} : FMap (outcome E) :=
  fun A B f m => match m with Ok a => Ok (f a) | Err e => Err e | Panic => Panic end.
#[export] Instance outcome_eq_dec {E A} `{EqDecision E, EqDecision A} :
  EqDecision (outcome E A).
Proof. solve_decision. Defined.

(** [r.map_err(f)]. *)
Definition map_err {E F A} (f : E -> F) (m : outcome E A) : outcome F A :=
  match m with Ok a => Ok a | Err e => Err (f e) | Panic => Panic end.

(** [o.ok_or(e)]. *)
Definition ok_or {E A} (o : option A) (e : E) : outcome E A :=
  match o with Some a => Ok a | None => Err e end.

(** [r.unwrap()] and [o.unwrap()]. *)
Definition unwrap {E F A} (m : outcome E A) : outcome F A :=
  match m with Ok a => Ok a | _ => Panic end.
Definition unwrap_opt {E A} (o : option A) : outcome E A :=
  match o with Some a => Ok a | None => Panic end.

(** ** Errors

    [axerrno::LinuxError] and [axerrno::AxError]: the variants this repository
    names, and one constructor for the variants only its dependencies build. *)

Inductive LinuxError : Type :=
| EPERM | ENOENT | ESRCH | EINTR | EBADF | ECHILD | EAGAIN | ENOMEM | EFAULT
| EEXIST | ENODEV | ENOTDIR | EISDIR | EINVAL | EMFILE | EPIPE | ERANGE | ENOSYS
| EILSEQ | EOPNOTSUPP | EAFNOSUPPORT | EISCONN
| EOther (code : Z).

Inductive AxError : Type :=
| AxNotFound | AxAlreadyExists | AxInvalidInput | AxInvalidData | AxIsADirectory
| AxOther (code : Z).

#[export] Instance LinuxError_eq_dec : EqDecision LinuxError.
Proof. solve_decision. Defined.
#[export] Instance AxError_eq_dec : EqDecision AxError.
Proof. solve_decision. Defined.

Abbreviation LinuxResult := (outcome LinuxError).
Abbreviation AxResult := (outcome AxError).

(** [LinuxError::from(AxError)] is [axerrno]'s conversion: a parameter of the
    definitions that use it.  Nothing is assumed about it. *)
Class ErrorConv : Type := ax_into : AxError -> LinuxError.

(** ** State and outcome

    [M S E A] threads a state through a fallible computation.  An [Err] or a
    panic keeps the state reached so far, as it does in Rust, where an early
    return by [?] undoes nothing. *)

Definition M (S E A : Type) : Type := S -> outcome E A * S.

#[export] Instance M_ret {S E} : MRet (M S E) := fun A a s => (Ok a, s).
#[export] Instance M_bind {S E} : MBind (M S E) :=
  fun A B f m s =>
    match m s with
    | (Ok a, s') => f a s'
    | (Err e, s') => (Err e, s')
    | (Panic, s') => (Panic, s')
    end.

Definition fail {S E A} (e : E) : M S E A := fun s => (Err e, s).
Definition panic {S E A} : M S E A := fun s => (Panic, s).
Definition get {S E} : M S E S := fun s => (Ok s, s).
Definition put {S E} (s' : S) : M S E unit := fun _ => (Ok tt, s').
Definition modify {S E} (f : S -> S) : M S E unit := fun s => (Ok tt, f s).
Definition lift {S E A} (r : outcome E A) : M S E A := fun s => (r, s).
Definition guard_or {S E} (b : bool) (e : E) : M S E unit :=
  if b then mret tt else fail e.

(** Run a computation on one half of a product state. *)
Definition on_fst {S T E A} (m : M S E A) : M (S * T) E A :=
  fun '(s, t) => let '(r, s') := m s in (r, (s', t)).
Definition on_snd {S T E A} (m : M T E A) : M (S * T) E A :=
  fun '(s, t) => let '(r, t') := m t in (r, (s, t')).

Lemma M_bind_ok {S E A B} (m : M S E A) (f : A -> M S E B) s a s' :
  m s = (Ok a, s') -> (m ≫= f) s = f a s'.
Proof. unfold mbind, M_bind. intros ->. reflexivity. Qed.

Lemma M_bind_inv {S E A B} (m : M S E A) (f : A -> M S E B) s b s' :
  (m ≫= f) s = (Ok b, s') -> exists a s1, m s = (Ok a, s1) /\ f a s1 = (Ok b, s').
Proof. unfold mbind, M_bind. destruct (m s) as [[a|e|] s1]; [|done..]. eauto. Qed.

Lemma M_bind_err {S E A B} (m : M S E A) (f : A -> M S E B) s e s' :
  m s = (Err e, s') -> (m ≫= f) s = (Err e, s').
Proof. unfold mbind, M_bind. intros ->. reflexivity. Qed.

(** ** Machine integers

    Every target of this kernel is 64-bit, so [usize] and [u64] are 64 bits
    wide.  The kernel is built with the release profile, where the arithmetic
    operators wrap; a value of a w-bit type is a [Z] and the wrap is written
    where the source's operator or [as] cast performs it. *)

Definition wrap (w x : Z) : Z := x mod 2 ^ w.
Definition swrap (w x : Z) : Z := (x + 2 ^ (w - 1)) mod 2 ^ w - 2 ^ (w - 1).

Definition as_u8 (x : Z) : Z := wrap 8 x.
Definition as_u16 (x : Z) : Z := wrap 16 x.
Definition as_u32 (x : Z) : Z := wrap 32 x.
Definition as_u64 (x : Z) : Z := wrap 64 x.
Definition as_usize (x : Z) : Z := wrap 64 x.
Definition as_i32 (x : Z) : Z := swrap 32 x.
Definition as_i64 (x : Z) : Z := swrap 64 x.
Definition as_isize (x : Z) : Z := swrap 64 x.

Definition is_u8 (x : Z) : Prop := 0 <= x < 2 ^ 8.
Definition is_u16 (x : Z) : Prop := 0 <= x < 2 ^ 16.
Definition is_u32 (x : Z) : Prop := 0 <= x < 2 ^ 32.
Definition is_u64 (x : Z) : Prop := 0 <= x < 2 ^ 64.
Definition is_usize (x : Z) : Prop := 0 <= x < 2 ^ 64.
Definition is_i32 (x : Z) : Prop := - 2 ^ 31 <= x < 2 ^ 31.
Definition is_i64 (x : Z) : Prop := - 2 ^ 63 <= x < 2 ^ 63.

Lemma wrap_small w x : 0 <= x < 2 ^ w -> wrap w x = x.
Proof. apply Z.mod_small. Qed.

Lemma wrap_bound w x : 0 <= w -> 0 <= wrap w x < 2 ^ w.
Proof. intros. apply Z.mod_pos_bound. lia. Qed.

Lemma swrap_small w x :
  0 < w -> - 2 ^ (w - 1) <= x < 2 ^ (w - 1) -> swrap w x = x.
Proof.
  intros Hw Hx. unfold swrap.
  assert (2 ^ w = 2 * 2 ^ (w - 1)) as Hp.
  { rewrite <- Z.pow_succ_r by lia. f_equal. lia. }
  rewrite Z.mod_small; lia.
Qed.

Lemma swrap_bound w x :
  0 < w -> - 2 ^ (w - 1) <= swrap w x < 2 ^ (w - 1).
Proof.
  intros Hw. unfold swrap.
  assert (2 ^ w = 2 * 2 ^ (w - 1)) as Hp.
  { rewrite <- Z.pow_succ_r by lia. f_equal. lia. }
  pose proof (Z.mod_pos_bound (x + 2 ^ (w - 1)) (2 ^ w)). lia.
Qed.

(** A cast gives a value of its type. *)
Lemma as_u8_range x : is_u8 (as_u8 x).
Proof. apply wrap_bound. lia. Qed.
Lemma as_u32_range x : is_u32 (as_u32 x).
Proof. apply wrap_bound. lia. Qed.
Lemma as_usize_range x : is_usize (as_usize x).
Proof. apply wrap_bound. lia. Qed.
Lemma as_i32_range x : is_i32 (as_i32 x).
Proof. apply (swrap_bound 32). lia. Qed.
Lemma as_i64_range x : is_i64 (as_i64 x).
Proof. apply (swrap_bound 64). lia. Qed.
Lemma as_isize_range x : is_i64 (as_isize x).
Proof. apply as_i64_range. Qed.

(** [bits.contains(mask)] of the [bitflags] types: every bit of [mask] is set. *)
Definition contains (bits mask : Z) : bool := Z.land bits mask =? mask.

Lemma contains_spec bits mask :
  contains bits mask = true <->
  (forall i, Z.testbit mask i = true -> Z.testbit bits i = true).
Proof.
  unfold contains. rewrite Z.eqb_eq. split.
  - intros H i Hi. rewrite <- H in Hi. rewrite Z.land_spec in Hi.
    apply andb_true_iff in Hi. tauto.
  - intros H. apply Z.bits_inj. intros i. rewrite Z.land_spec.
    destruct (Z.testbit mask i) eqn:E.
    + rewrite (H i E). reflexivity.
    + apply andb_false_r.
Qed.

Lemma contains_lor bits m1 m2 :
  contains bits (Z.lor m1 m2) = contains bits m1 && contains bits m2.
Proof.
  apply eq_true_iff_eq. rewrite andb_true_iff, !contains_spec.
  setoid_rewrite Z.lor_spec. setoid_rewrite orb_true_iff. naive_solver.
Qed.

(** ** Strings

    A Rust [str] is a sequence of Unicode scalar values; a model string is the
    list of their code points, and [lit] reads an ASCII literal. *)

Abbreviation str := (list Z).
Definition lit (s : string) : str :=
  map (fun c => Z.of_nat (nat_of_ascii c)) (list_ascii_of_string s).

(** ** Automation *)

Create HintDb vegar discriminated.
#[export] Hint Resolve wrap_small wrap_bound swrap_small swrap_bound : vegar.
#[export] Hint Resolve as_u8_range as_u32_range as_usize_range as_i32_range as_i64_range as_isize_range : vegar.

(** Case analysis on the boolean tests of the source, turned into arithmetic. *)
Ltac split_tests :=
  repeat match goal with
  | |- context [Z.eqb ?a ?b] => destruct (Z.eqb_spec a b)
  | |- context [Z.ltb ?a ?b] => destruct (Z.ltb_spec a b)
  | |- context [Z.leb ?a ?b] => destruct (Z.leb_spec a b)
  | |- context [Nat.eqb ?a ?b] => destruct (Nat.eqb_spec a b)
  | |- context [Nat.ltb ?a ?b] => destruct (Nat.ltb_spec a b)
  | |- context [Nat.leb ?a ?b] => destruct (Nat.leb_spec a b)
  end.

(** Linear arithmetic with division and remainder by constants. *)
Ltac zdiv := Z.to_euclidean_division_equations; lia.

(** Unfold the monad to expose the next match of a stateful definition. *)
Ltac unfold_M :=
  unfold mbind, mret, M_bind, M_ret, outcome_bind, outcome_ret,
    fail, panic, get, put, modify, lift, guard_or, on_fst, on_snd in *.

(** ** Shared lemmas on lists *)

Lemma take_S_drop_lookup {A} (l : list A) n x :
  l !! n = Some x -> take (S n) l = take n l ++ [x].
Proof. intros H. apply take_S_r, H. Qed.

Lemma drop_lookup_cons {A} (l : list A) n x :
  l !! n = Some x -> drop n l = x :: drop (S n) l.
Proof. intros H. symmetry. apply drop_S in H. auto. Qed.
