(* ===== verification/Text.v ===== *)
(** * Strings of the standard library

    UTF-8 validation and the [str] methods the kernel uses.  A string is the
    list of its code points; positions of the source are byte positions at
    character boundaries, here they count characters. *)

From stdpp Require Import base list option sets.
From Stdlib Require Import ZArith Lia.
From S2P Require Import Prelude.
Import ListNotations.

(** ** UTF-8 *)

Definition in_range (lo hi b : Z) : bool := (lo <=? b) && (b <=? hi).
Definition cont (b : Z) : bool := in_range 128 191 b.

(** [core::str::from_utf8]: the well-formed byte sequences of the Unicode
    standard, table 3-7. *)
Fixpoint decode_utf8 (bs : list Z) : option str :=
  match bs with
  | [] => Some []
  | b0 :: r0 =>
      if in_range 0 127 b0 then cons b0 <$> decode_utf8 r0
      else match r0 with
      | [] => None
      | b1 :: r1 =>
          if in_range 194 223 b0 && cont b1
          then cons ((b0 - 192) * 64 + (b1 - 128)) <$> decode_utf8 r1
          else match r1 with
          | [] => None
          | b2 :: r2 =>
              if ((b0 =? 224) && in_range 160 191 b1
                  || in_range 225 236 b0 && cont b1
                  || (b0 =? 237) && in_range 128 159 b1
                  || in_range 238 239 b0 && cont b1) && cont b2
              then cons ((b0 - 224) * 4096 + (b1 - 128) * 64 + (b2 - 128)) <$> decode_utf8 r2
              else match r2 with
              | [] => None
              | b3 :: r3 =>
                  if ((b0 =? 240) && in_range 144 191 b1
                      || in_range 241 243 b0 && cont b1
                      || (b0 =? 244) && in_range 128 143 b1) && cont b2 && cont b3
                  then cons ((b0 - 240) * 262144 + (b1 - 128) * 4096
                             + (b2 - 128) * 64 + (b3 - 128)) <$> decode_utf8 r3
                  else None
              end
          end
      end
  end.

(** [char::encode_utf8]. *)
Definition encode_char (c : Z) : list Z :=
  if c <? 128 then [c]
  else if c <? 2048 then [192 + c / 64; 128 + c mod 64]
  else if c <? 65536 then [224 + c / 4096; 128 + c / 64 mod 64; 128 + c mod 64]
  else [240 + c / 262144; 128 + c / 4096 mod 64; 128 + c / 64 mod 64; 128 + c mod 64].

Definition encode_utf8 (s : str) : list Z := concat (map encode_char s).

(** A Unicode scalar value. *)
Definition scalar (c : Z) : Prop := 0 <= c < 55296 \/ 57344 <= c < 1114112.

#[export] Instance scalar_dec c : Decision (scalar c).
Proof. unfold scalar. apply _. Defined.

Lemma in_range_true lo hi b : lo <= b <= hi -> in_range lo hi b = true.
Proof. intros. unfold in_range. rewrite andb_true_iff, !Z.leb_le. lia. Qed.

Lemma in_range_false lo hi b : b < lo \/ hi < b -> in_range lo hi b = false.
Proof.
  intros. unfold in_range. apply andb_false_iff. rewrite !Z.leb_gt. lia.
Qed.

Lemma decode_encode_char c r :
  scalar c -> decode_utf8 (encode_char c ++ r) = cons c <$> decode_utf8 r.
Proof.
  intros Hs. unfold scalar in Hs. unfold encode_char.
  destruct (Z.ltb_spec c 128); [|destruct (Z.ltb_spec c 2048); [|destruct (Z.ltb_spec c 65536)]];
    cbn [app decode_utf8].
  - rewrite in_range_true by lia. done.
  - rewrite (in_range_false 0 127), (in_range_true 194 223) by zdiv.
    unfold cont. rewrite in_range_true by zdiv. cbn [andb]. f_equal. f_equal. zdiv.
  - rewrite (in_range_false 0 127), (in_range_false 194 223) by zdiv. cbn [andb].
    unfold cont. rewrite (in_range_true 128 191 (128 + c / 64 mod 64)),
      (in_range_true 128 191 (128 + c mod 64)) by zdiv.
    rewrite !andb_true_r.
    match goal with |- (if ?b then _ else _) = _ => replace b with true end.
    { f_equal. f_equal. zdiv. }
    symmetry. unfold in_range. rewrite !orb_true_iff, !andb_true_iff, !Z.eqb_eq, !Z.leb_le. zdiv.
  - rewrite (in_range_false 0 127), (in_range_false 194 223) by zdiv. cbn [andb].
    rewrite (in_range_false 225 236), (in_range_false 238 239) by zdiv.
    replace (240 + c / 262144 =? 224) with false by (symmetry; apply Z.eqb_neq; zdiv).
    replace (240 + c / 262144 =? 237) with false by (symmetry; apply Z.eqb_neq; zdiv).
    cbn [andb orb]. unfold cont.
    rewrite (in_range_true 128 191 (128 + c / 4096 mod 64)), (in_range_true 128 191 (128 + c / 64 mod 64)),
      (in_range_true 128 191 (128 + c mod 64)) by zdiv.
    rewrite !andb_true_r.
    match goal with |- (if ?b then _ else _) = _ => replace b with true end.
    { f_equal. f_equal. zdiv. }
    symmetry. unfold in_range. rewrite !orb_true_iff, !andb_true_iff, !Z.eqb_eq, !Z.leb_le. zdiv.
Qed.

Lemma decode_encode_utf8 s : Forall scalar s -> decode_utf8 (encode_utf8 s) = Some s.
Proof.
  induction 1 as [|c s Hc Hs IH]; [done|]. unfold encode_utf8 in *. simpl.
  rewrite decode_encode_char, IH by done. done.
Qed.

(** ** [str] methods *)

Definition SLASH : Z := 47.

(** [s.starts_with(c)], [s.ends_with(c)] for a character, and for a string. *)
Definition starts_with_char (s : str) (c : Z) : bool :=
  match s with x :: _ => x =? c | [] => false end.
Definition ends_with_char (s : str) (c : Z) : bool := starts_with_char (rev s) c.
Definition starts_with (s p : str) : bool := bool_decide (p `prefix_of` s).
Definition ends_with (s p : str) : bool := bool_decide (p `suffix_of` s).

Fixpoint drop_while (f : Z -> bool) (s : str) : str :=
  match s with x :: s' => if f x then drop_while f s' else s | [] => [] end.
Definition trim_by (f : Z -> bool) (s : str) : str :=
  rev (drop_while f (rev (drop_while f s))).

(** [char::is_whitespace] (the Unicode property White_Space) and
    [is_ascii_whitespace]. *)
Definition is_whitespace (c : Z) : bool :=
  in_range 9 13 c || (c =? 32) || (c =? 133) || (c =? 160) || (c =? 5760)
  || in_range 8192 8202 c || (c =? 8232) || (c =? 8233) || (c =? 8239)
  || (c =? 8287) || (c =? 12288).
Definition is_ascii_whitespace (c : Z) : bool :=
  (c =? 32) || (c =? 9) || (c =? 10) || (c =? 12) || (c =? 13).

Definition trim (s : str) : str := trim_by is_whitespace s.
Definition trim_ascii (s : str) : str := trim_by is_ascii_whitespace s.
Definition trim_matches (s : str) (c : Z) : str := trim_by (Z.eqb c) s.

(** [s.rfind(c)]: the position of the last [c]. *)
Fixpoint rfind (s : str) (c : Z) : option nat :=
  match s with
  | [] => None
  | x :: s' => match rfind s' c with
               | Some i => Some (S i)
               | None => if x =? c then Some O else None
               end
  end.

(** [s.rsplit_once(c)]. *)
Definition rsplit_once (s : str) (c : Z) : option (str * str) :=
  i ← rfind s c; Some (take i s, drop (S i) s).

(** [s.split(c)]: at least one piece. *)
Fixpoint split (s : str) (c : Z) : list str :=
  match s with
  | [] => [[]]
  | x :: s' => if x =? c then [] :: split s' c
               else match split s' c with
                    | p :: ps => (x :: p) :: ps
                    | [] => [[x]]
                    end
  end.

(** [s.splitn(2, f)]: split at the first character that satisfies [f]. *)
Fixpoint splitn2 (s : str) (f : Z -> bool) : list str :=
  match s with
  | [] => [[]]
  | x :: s' => if f x then [[]; s']
               else match splitn2 s' f with
                    | p :: ps => (x :: p) :: ps
                    | [] => [[x]]
                    end
  end.

(** [s[lo..hi]]; [None] is the panic of a bad range. *)
Definition slice {A} (s : list A) (lo hi : nat) : option (list A) :=
  if bool_decide (lo <= hi <= length s)%nat then Some (take (hi - lo) (drop lo s)) else None.

Lemma starts_with_char_spec s c : starts_with_char s c = true <-> exists r, s = c :: r.
Proof.
  destruct s as [|x s]; simpl; [naive_solver|]. rewrite Z.eqb_eq. naive_solver.
Qed.

Lemma ends_with_char_spec s c : ends_with_char s c = true <-> exists r, s = r ++ [c].
Proof.
  unfold ends_with_char. rewrite starts_with_char_spec. split.
  - intros [r E]. exists (rev r). rewrite <- (rev_involutive s), E. reflexivity.
  - intros [r ->]. exists (rev r). apply rev_unit.
Qed.

Lemma ends_with_char_app s c : ends_with_char (s ++ [c]) c = true.
Proof. apply ends_with_char_spec. eauto. Qed.

Lemma rfind_None s c : rfind s c = None <-> c ∉ s.
Proof.
  induction s as [|x s IH]; simpl; [set_solver|].
  destruct (rfind s c) as [i|] eqn:E.
  - split; [done|]. intros Hn. exfalso. apply Hn. right.
    destruct (decide (c ∈ s)); [done|]. apply IH in n. congruence.
  - destruct (Z.eqb_spec x c); [set_solver|]. set_solver.
Qed.

Lemma rfind_Some s c i :
  rfind s c = Some i -> s !! i = Some c /\ c ∉ drop (S i) s.
Proof.
  revert i. induction s as [|x s IH]; simpl; [done|]. intros i.
  destruct (rfind s c) as [j|] eqn:E.
  - intros [= <-]. simpl. by apply IH.
  - destruct (Z.eqb_spec x c) as [->|]; [|done]. intros [= <-].
    apply rfind_None in E. auto.
Qed.

Lemma rfind_app_r s c r : c ∉ r -> rfind (s ++ c :: r) c = Some (length s).
Proof.
  intros Hr. induction s as [|x s IH]; simpl.
  - apply rfind_None in Hr. by rewrite Hr, Z.eqb_refl.
  - by rewrite IH.
Qed.

(** Rejoining the pieces of [split] with the separator gives the string back. *)
Fixpoint intercalate (c : Z) (ps : list str) : str :=
  match ps with [] => [] | [p] => p | p :: ps' => p ++ c :: intercalate c ps' end.

Lemma split_not_nil s c : split s c <> [].
Proof. destruct s as [|x s]; simpl; [done|]. destruct (x =? c), (split s c); done. Qed.

Lemma intercalate_split s c : intercalate c (split s c) = s.
Proof.
  induction s as [|x s IH]; simpl; [done|].
  pose proof (split_not_nil s c). destruct (Z.eqb_spec x c) as [->|].
  - simpl. destruct (split s c); [done|]. by rewrite IH.
  - destruct (split s c) as [|p [|q ps]]; simpl in *; [done|by rewrite <- IH..].
Qed.

Lemma split_no_sep s c : Forall (fun p => c ∉ p) (split s c).
Proof.
  induction s as [|x s IH]; simpl; [constructor; [set_solver|constructor]|].
  destruct (Z.eqb_spec x c) as [->|]; [constructor; [set_solver|done]|].
  destruct (split s c) as [|p ps]; [constructor; [set_solver|constructor]|].
  apply Forall_cons in IH as [? ?]. constructor; [set_solver|done].
Qed.

(** ** Numbers

    [Display] and [LowerHex] of an unsigned integer: its digits in the base. *)
Fixpoint digits_of (fuel : nat) (base n : Z) (acc : str) : str :=
  match fuel with
  | O => acc
  | S k =>
      let d := n mod base in
      let acc := (if d <? 10 then 48 + d else 87 + d) :: acc in
      if n / base =? 0 then acc else digits_of k base (n / base) acc
  end.
(** Sixty-four digits are enough for every integer type. *)
Definition digits (base n : Z) : str := digits_of 64 base n [].

Definition is_digit (c : Z) : bool := in_range 48 57 c.
(** The number that decimal digits stand for. *)
Definition number_from (n : Z) (ds : str) : Z := fold_left (fun v c => 10 * v + (c - 48)) ds n.
Definition number : str -> Z := number_from 0.

Lemma digits_of_S k n acc :
  digits_of (S k) 10 n acc =
  if n / 10 =? 0 then (48 + n mod 10) :: acc else digits_of k 10 (n / 10) ((48 + n mod 10) :: acc).
Proof.
  cbn [digits_of]. pose proof (Z.mod_pos_bound n 10 ltac:(lia)). rewrite (proj2 (Z.ltb_lt _ _)) by lia.
  reflexivity.
Qed.

Lemma digits_of_digits fuel n acc :
  forallb is_digit acc = true -> forallb is_digit (digits_of fuel 10 n acc) = true.
Proof.
  revert n acc. induction fuel as [|k IH]; intros n acc Hacc; [exact Hacc|]. rewrite digits_of_S.
  assert (Hd : 0 <= n mod 10 < 10) by (apply Z.mod_pos_bound; lia).
  assert (H' : forallb is_digit ((48 + n mod 10) :: acc) = true).
  { cbn [forallb]. rewrite Hacc, andb_true_r. apply in_range_true. lia. }
  destruct (n / 10 =? 0); auto.
Qed.

Lemma number_digits_of k n acc :
  0 <= n < 10 ^ Z.of_nat (S k) -> number (digits_of (S k) 10 n acc) = number_from n acc.
Proof.
  revert n acc. induction k as [|k IH]; intros n acc Hn.
  all: rewrite digits_of_S; pose proof (Z.div_mod n 10 ltac:(lia)) as Hdm;
    pose proof (Z.mod_pos_bound n 10 ltac:(lia)) as Hd;
    destruct (Z.eqb_spec (n / 10) 0) as [H0|H0].
  1,3: unfold number, number_from; cbn [fold_left]; f_equal; lia.
  - exfalso. apply H0, Z.div_small. lia.
  - rewrite IH.
    + unfold number_from. cbn [fold_left]. f_equal. lia.
    + split; [apply Z.div_pos; lia|]. apply Z.div_lt_upper_bound; [lia|].
      rewrite (Nat2Z.inj_succ (S k)), Z.pow_succ_r in Hn by lia. lia.
Qed.

Lemma number_digits n : 0 <= n < 10 ^ 64 -> number (digits 10 n) = n.
Proof. intros Hn. unfold digits. rewrite (number_digits_of 63); [reflexivity|exact Hn]. Qed.

Lemma digits_inj n m : 0 <= n < 10 ^ 64 -> 0 <= m < 10 ^ 64 -> digits 10 n = digits 10 m -> n = m.
Proof. intros Hn Hm He. rewrite <- (number_digits n), <- (number_digits m), He; auto. Qed.

Lemma digits_not_nil n : digits 10 n <> [].
Proof.
  assert (forall f n acc, acc <> [] -> digits_of f 10 n acc <> []) as H.
  { induction f as [|f IH]; intros m acc Ha; [exact Ha|]. rewrite digits_of_S.
    destruct (_ / _ =? _); [done|]. apply IH. done. }
  unfold digits. rewrite digits_of_S. destruct (_ / _ =? _); [done|]. apply H. done.
Qed.

Lemma digits_all n : forallb is_digit (digits 10 n) = true.
Proof. apply digits_of_digits. reflexivity. Qed.
