(* ===== verification/Bytes.v ===== *)
(** * Integers in memory

    Little-endian and big-endian byte sequences (every target of this kernel is
    little-endian), and the byte swaps [to_be] / [from_be]. *)

From stdpp Require Import base list.
From Stdlib Require Import ZArith Lia.
From S2P Require Import Prelude.
Import ListNotations.

Fixpoint le_enc (n : nat) (x : Z) : list Z :=
  match n with O => [] | S n' => x mod 256 :: le_enc n' (x / 256) end.

Fixpoint le_dec (bs : list Z) : Z :=
  match bs with [] => 0 | b :: bs' => b + 256 * le_dec bs' end.

(** [u16::to_be], [u32::to_be] and their inverses on a little-endian machine:
    the bytes in reverse order. *)
Definition swap_bytes (n : nat) (x : Z) : Z := le_dec (rev (le_enc n x)).
Definition to_be16 : Z -> Z := swap_bytes 2.
Definition from_be16 : Z -> Z := swap_bytes 2.
Definition to_be32 : Z -> Z := swap_bytes 4.
Definition from_be32 : Z -> Z := swap_bytes 4.

Definition bytes (bs : list Z) : Prop := Forall is_u8 bs.

Lemma le_enc_length n x : length (le_enc n x) = n.
Proof. revert x. induction n; intros; simpl; auto. Qed.

Lemma le_enc_bytes n x : bytes (le_enc n x).
Proof.
  revert x. induction n as [|n IH]; intros x; constructor; [|apply IH].
  unfold is_u8. change (2 ^ 8) with 256. zdiv.
Qed.

Lemma le_dec_enc n x : le_dec (le_enc n x) = x mod 256 ^ Z.of_nat n.
Proof.
  revert x. induction n as [|n IH]; intros x; [by rewrite Z.mod_1_r|].
  cbn [le_enc le_dec]. rewrite IH, Nat2Z.inj_succ, Z.pow_succ_r by lia.
  rewrite Z.rem_mul_r by lia. lia.
Qed.

Lemma le_dec_enc_small n x : 0 <= x < 256 ^ Z.of_nat n -> le_dec (le_enc n x) = x.
Proof. intros. rewrite le_dec_enc. by apply Z.mod_small. Qed.

Lemma le_enc_dec bs : bytes bs -> le_enc (length bs) (le_dec bs) = bs.
Proof.
  induction 1 as [|b bs Hb Hbs IH]; [done|]. simpl. unfold is_u8 in Hb.
  change (2 ^ 8) with 256 in Hb. f_equal.
  - rewrite Z.mul_comm, Z.mod_add, Z.mod_small by lia. done.
  - rewrite Z.mul_comm, Z.div_add, Z.div_small by lia. done.
Qed.

Lemma le_dec_bound bs : bytes bs -> 0 <= le_dec bs < 256 ^ Z.of_nat (length bs).
Proof.
  induction 1 as [|b bs Hb Hbs IH]; [simpl; lia|]. cbn [le_dec length].
  unfold is_u8 in Hb. change (2 ^ 8) with 256 in Hb.
  rewrite Nat2Z.inj_succ, Z.pow_succ_r by lia. lia.
Qed.

Lemma bytes_rev bs : bytes bs -> bytes (rev bs).
Proof. unfold bytes. rewrite !Forall_forall. setoid_rewrite list_elem_of_In. setoid_rewrite <- in_rev. done. Qed.

Lemma le_enc_swap n x : le_enc n (swap_bytes n x) = rev (le_enc n x).
Proof.
  unfold swap_bytes.
  rewrite <- (le_enc_length n x) at 1. rewrite <- length_rev.
  apply le_enc_dec, bytes_rev, le_enc_bytes.
Qed.

Lemma swap_bytes_involutive n x :
  0 <= x < 256 ^ Z.of_nat n -> swap_bytes n (swap_bytes n x) = x.
Proof.
  intros Hx. unfold swap_bytes at 1. rewrite le_enc_swap, rev_involutive.
  by apply le_dec_enc_small.
Qed.

Lemma swap_bytes_bound n x : 0 <= swap_bytes n x < 256 ^ Z.of_nat n.
Proof.
  unfold swap_bytes. 
  pose proof (le_dec_bound (rev (le_enc n x)) (bytes_rev _ (le_enc_bytes n x))) as H.
  by rewrite length_rev, le_enc_length in H.
Qed.

#[export] Hint Resolve le_enc_bytes bytes_rev swap_bytes_bound : vegar.
