(* ===== verification/AddrSpace.v ===== *)
(** * Interfaces of the memory crates

    [axmm::AddrSpace], [memory_addr] and the page-table flags are code of other
    repositories.  What this kernel calls of them is a class of operations here,
    and what it relies on is a class of laws: the theorems that need a law say
    so, and [simple_aspace] is a concrete instance that satisfies all of them. *)

From stdpp Require Import base list gmap option.
From Stdlib Require Import ZArith Lia.
From S2P Require Import Prelude.
Import ListNotations.

Definition PAGE_SIZE_4K : Z := 4096.

(** [memory_addr::MemoryAddr] and [VirtAddrRange::from_start_size], which
    panics ([None]) when the range leaves the address space. *)
Class MemoryAddr : Type := {
  align_down : Z -> Z -> Z;
  align_up : Z -> Z -> Z;
  from_start_size : Z -> Z -> option (Z * Z)
}.

Definition align_down_4k `{MemoryAddr} (a : Z) : Z := align_down a PAGE_SIZE_4K.
Definition align_up_4k `{MemoryAddr} (a : Z) : Z := align_up a PAGE_SIZE_4K.

Class MemoryAddrOk `{MemoryAddr} : Prop := {
  align_down_spec a n : 0 <= a -> 0 < n -> align_down a n = n * (a / n);
  align_up_spec a n : 0 <= a -> 0 < n -> a + n - 1 < 2 ^ 64 ->
    align_up a n = n * ((a + n - 1) / n);
  from_start_size_spec s n : 0 <= s -> 0 <= n -> s + n < 2 ^ 64 ->
    from_start_size s n = Some (s, s + n);
  from_start_size_some s n r : 0 <= s -> 0 <= n -> from_start_size s n = Some r ->
    r = (s, s + n) /\ s + n < 2 ^ 64
}.

(** [axhal::paging::MappingFlags] and [PageSize]. *)
Class MappingFlags : Type := { MF_READ : Z; MF_WRITE : Z; MF_EXECUTE : Z; MF_USER : Z }.

Inductive PageSize : Type := Size4K | Size2M | Size1G.

Definition page_bytes (p : PageSize) : Z :=
  match p with Size4K => 4096 | Size2M => 2097152 | Size1G => 1073741824 end.

#[export] Instance PageSize_eq_dec : EqDecision PageSize.
Proof. solve_decision. Defined.

(** The operations of [axmm::AddrSpace] this kernel calls, and what the processor
    finds in the page tables: [as_present s (lo, hi) f] says that every byte of the
    range is mapped there with the rights [f], so that an access of the kernel does
    not fault. *)
Class AddrSpace (AS : Type) : Type := {
  as_base : AS -> Z;
  as_end : AS -> Z;
  check_region_access : AS -> Z * Z -> Z -> bool;
  populate_area : Z -> Z -> Z -> M AS AxError unit;
  as_map_alloc : Z -> Z -> Z -> bool -> PageSize -> M AS AxError unit;
  as_unmap : Z -> Z -> M AS AxError unit;
  as_protect : Z -> Z -> Z -> M AS AxError unit;
  as_write : Z -> PageSize -> list Z -> M AS AxError unit;
  find_free_area : AS -> Z -> Z -> Z * Z -> PageSize -> option Z;
  as_present : AS -> Z * Z -> Z -> bool
}.

(** A region whose access check succeeds lies inside the address space, which
    is the user half of the machine's. *)
Class AddrSpaceOk (AS : Type) `{AddrSpace AS} : Prop := {
  as_range s : 0 <= as_base s <= as_end s /\ as_end s <= 2 ^ 63;
  check_inside s lo hi f : check_region_access s (lo, hi) f = true ->
    lo < hi -> as_base s <= lo /\ hi <= as_end s
}.

(** [populate_area] has the pages of an accessible region in the page tables when it
    returns; a part of a region, or fewer rights, are then there too. *)
Class AddrSpaceMapped (AS : Type) `{AddrSpace AS} : Prop := {
  populate_present s lo n f s' a b : a < b -> populate_area lo n f s = (Ok tt, s') ->
    check_region_access s (a, b) f = true -> lo <= a -> b <= lo + n -> as_present s' (a, b) f = true;
  present_part s a b f a' b' f' : as_present s (a, b) f = true ->
    a <= a' -> a' <= b' -> b' <= b -> contains f f' = true -> as_present s (a', b') f' = true
}.

(** ** A concrete instance: one mapped interval

    In a module of its own, so that only the witnesses use it. *)

Module SimpleMem.

#[export] Instance memory_addr_impl : MemoryAddr := {
  align_down a n := n * (a / n);
  align_up a n := n * (wrap 64 (a + n - 1) / n);
  from_start_size s n := if s + n <? 2 ^ 64 then Some (s, s + n) else None
}.

#[export] Instance memory_addr_impl_ok : MemoryAddrOk.
Proof.
  split; simpl; intros; [reflexivity|..].
  - rewrite wrap_small by lia. reflexivity.
  - destruct (Z.ltb_spec (s + n) (2 ^ 64)); [reflexivity|lia].
  - destruct (Z.ltb_spec (s + n) (2 ^ 64)); [|discriminate]. split; congruence.
Qed.

#[export] Instance mapping_flags_impl : MappingFlags :=
  {| MF_READ := 1; MF_WRITE := 2; MF_EXECUTE := 4; MF_USER := 8 |}.

(** User space is [0x1000, 0x4000_0000); one interval of it is mapped, and every
    fallible operation checks its range. *)
Record simple_aspace : Type := mkSimple { map_lo : Z; map_hi : Z; map_flags : Z }.

Definition SIMPLE_BASE : Z := 4096.
Definition SIMPLE_END : Z := 1073741824.

Definition simple_in (lo hi : Z) : bool :=
  (SIMPLE_BASE <=? lo) && (lo <=? hi) && (hi <=? SIMPLE_END).

#[export] Instance simple_aspace_ops : AddrSpace simple_aspace := {
  as_base _ := SIMPLE_BASE;
  as_end _ := SIMPLE_END;
  check_region_access s '(lo, hi) f :=
    simple_in lo hi && (map_lo s <=? lo) && (hi <=? map_hi s) && contains (map_flags s) f;
  populate_area lo n f s :=
    if simple_in lo (lo + n) then (Ok tt, s) else (Err AxInvalidInput, s);
  as_map_alloc lo n f _ _ s :=
    if simple_in lo (lo + n) then (Ok tt, mkSimple lo (lo + n) f) else (Err AxInvalidInput, s);
  as_unmap lo n s :=
    if simple_in lo (lo + n)
    then (Ok tt, if (lo <=? map_lo s) && (map_hi s <=? lo + n) then mkSimple 0 0 0 else s)
    else (Err AxInvalidInput, s);
  as_protect lo n f s :=
    if simple_in lo (lo + n)
    then (Ok tt, if (lo <=? map_lo s) && (map_hi s <=? lo + n) then mkSimple (map_lo s) (map_hi s) f else s)
    else (Err AxInvalidInput, s);
  as_write lo _ bs s :=
    if simple_in lo (lo + Z.of_nat (length bs)) then (Ok tt, s) else (Err AxInvalidInput, s);
  find_free_area s hint n '(lo, hi) _ :=
    if hint + n <=? map_lo s then Some hint
    else if Z.max hint (map_hi s) + n <=? hi then Some (Z.max hint (map_hi s)) else None;
  as_present s '(lo, hi) f := (map_lo s <=? lo) && (hi <=? map_hi s) && contains (map_flags s) f
}.

#[export] Instance simple_aspace_ok : AddrSpaceOk simple_aspace.
Proof.
  split; [intros s; simpl; unfold SIMPLE_BASE, SIMPLE_END; lia|].
  intros s lo hi f Hc _. simpl in *. unfold simple_in in Hc.
  rewrite !andb_true_iff, !Z.leb_le in Hc. lia.
Qed.

#[export] Instance simple_aspace_mapped : AddrSpaceMapped simple_aspace.
Proof.
  split.
  - intros s lo n f s' a b _. simpl. destruct (simple_in lo (lo + n)); [|done]. intros [= <-] Hc _ _.
    destruct (simple_in a b); [exact Hc|done].
  - intros s a b f a' b' f'. simpl. rewrite !andb_true_iff, !Z.leb_le, !contains_spec.
    intros [[Hl Hh] Hf] ? ? ? Hf'. split; [lia|]. auto.
Qed.

End SimpleMem.
