(* ===== verification/Ptr.v ===== *)
(** * User pointers: [api/src/ptr.rs]

    Validation of user addresses before the kernel dereferences them, the scan
    for a terminating null that checks each page just before it reads it, and
    typed access to user memory for the system calls. *)

From stdpp Require Import base list gmap option strings.
From Stdlib Require Import ZArith Lia.
From S2P Require Import Prelude Text Bytes AddrSpace.
Import ListNotations.

(** [core::alloc::Layout]. *)
Record Layout : Type := mkLayout { layout_size : Z; layout_align : Z }.

(** [Layout::array::<T>(n)] fails when the size, rounded up to the alignment,
    exceeds [isize::MAX]. *)
Definition layout_array (l : Layout) (n : Z) : option Layout :=
  if layout_size l * n <=? 2 ^ 63 - layout_align l
  then Some (mkLayout (layout_size l * n) (layout_align l)) else None.

(** Types that live in user memory as a fixed number of bytes. *)
Class Pod (T : Type) : Type := {
  pod_layout : Layout;
  pod_enc : T -> list Z;
  pod_dec : list Z -> T
}.
Arguments pod_layout T {_}.

Class PodOk (T : Type) `{Pod T} : Prop := {
  pod_size_pos : 0 < layout_size (pod_layout T);
  pod_enc_length x : Z.of_nat (length (pod_enc x)) = layout_size (pod_layout T)
}.

(** ** User memory *)

Abbreviation umem := (gmap Z Z).

Fixpoint mem_read (m : umem) (a : Z) (n : nat) : list Z :=
  match n with O => [] | S n' => m !!! a :: mem_read m (a + 1) n' end.

Fixpoint mem_write (m : umem) (a : Z) (bs : list Z) : umem :=
  match bs with [] => m | b :: bs' => mem_write (<[a := b]> m) (a + 1) bs' end.

Definition load {T} `{Pod T} (m : umem) (a : Z) : T :=
  pod_dec (mem_read m a (Z.to_nat (layout_size (pod_layout T)))).
Definition store {T} `{Pod T} (m : umem) (a : Z) (x : T) : umem :=
  mem_write m a (pod_enc x).

Lemma mem_write_ne m a bs b :
  b < a \/ a + Z.of_nat (length bs) <= b -> mem_write m a bs !! b = m !! b.
Proof.
  revert m a. induction bs as [|x bs IH]; intros m a H; [done|]. simpl length in H. simpl.
  rewrite IH by lia. apply lookup_insert_ne. lia.
Qed.

Lemma mem_read_write m a bs : mem_read (mem_write m a bs) a (length bs) = bs.
Proof.
  revert m a. induction bs as [|x bs IH]; intros m a; [done|]. simpl. f_equal; [|apply IH].
  rewrite lookup_total_alt, mem_write_ne by lia. by rewrite lookup_insert_eq.
Qed.

Lemma mem_read_ext m m' a n :
  (forall b, a <= b < a + Z.of_nat n -> m !! b = m' !! b) -> mem_read m a n = mem_read m' a n.
Proof.
  revert a. induction n as [|n IH]; intros a H; [done|]. simpl. f_equal.
  - rewrite !lookup_total_alt, H by lia. done.
  - apply IH. intros. apply H. lia.
Qed.

Lemma mem_read_write_disjoint m a bs b n :
  b + Z.of_nat n <= a \/ a + Z.of_nat (length bs) <= b ->
  mem_read (mem_write m a bs) b n = mem_read m b n.
Proof. intros H. apply mem_read_ext. intros. apply mem_write_ne. lia. Qed.

Lemma load_store {T} `{PodOk T} m a (x : T) :
  load (store m a x) a = pod_dec (pod_enc x).
Proof.
  unfold load, store. rewrite <- (pod_enc_length x), Nat2Z.id. by rewrite mem_read_write.
Qed.

(** ** The address checks *)

Section Checks.
Context `{ErrorConv, MemoryAddr, MappingFlags} {AS : Type} `{AddrSpace AS}.

(** Run an address-space operation for its [AxError] converted by [?]. *)
Definition ax {A} (m : M AS AxError A) : M AS LinuxError A :=
  fun s => let '(r, s') := m s in (map_err ax_into r, s').

Definition check_region (start : Z) (layout : Layout) (access_flags : Z) : M AS LinuxError unit :=
  if negb (Z.land start (layout_align layout - 1) =? 0) then fail EFAULT
  else
    range ← lift (unwrap_opt (from_start_size start (layout_size layout)));
    aspace ← get;
    if negb (check_region_access aspace range access_flags) then fail EFAULT
    else
      let page_start := align_down_4k start in
      let page_end := align_up_4k (as_usize (start + layout_size layout)) in
      ax (populate_area page_start (as_usize (page_end - page_start)) access_flags).

(** [UserPtr::ACCESS_FLAGS] and [UserConstPtr::ACCESS_FLAGS]. *)
Definition UserPtr_ACCESS_FLAGS : Z := Z.lor MF_READ MF_WRITE.
Definition UserConstPtr_ACCESS_FLAGS : Z := MF_READ.

Definition is_null (p : Z) : bool := p =? 0.

(** The reference [get_as_mut] returns is the address, now validated. *)
Definition get_as_mut T `{Pod T} (p : Z) : M AS LinuxError Z :=
  check_region p (pod_layout T) UserPtr_ACCESS_FLAGS;; mret p.
Definition get_as_ref T `{Pod T} (p : Z) : M AS LinuxError Z :=
  check_region p (pod_layout T) UserConstPtr_ACCESS_FLAGS;; mret p.

Definition get_as_mut_slice T `{Pod T} (p len : Z) : M AS LinuxError (Z * Z) :=
  l ← lift (unwrap_opt (layout_array (pod_layout T) len));
  check_region p l UserPtr_ACCESS_FLAGS;; mret (p, len).
Definition get_as_slice T `{Pod T} (p len : Z) : M AS LinuxError (Z * Z) :=
  l ← lift (unwrap_opt (layout_array (pod_layout T) len));
  check_region p l UserConstPtr_ACCESS_FLAGS;; mret (p, len).

(** [nullable!(ptr.func(..))]. *)
Definition nullable {A} (p : Z) (m : M AS LinuxError A) : M AS LinuxError (option A) :=
  if is_null p then mret None else x ← m; mret (Some x).

(** ** The scan for a terminating null

    [read a] is the volatile read of one element; [None] is a page fault the
    kernel cannot resolve.  [count] bounds the page loop: it is the number of
    pages from [page] to [ptr], computed from the loop's own test. *)

Inductive scan_result : Type :=
| ScanOk (len : Z)
| ScanErr
| ScanPanic
| ScanFault
| ScanFuel.

Section Scan.
Context (aspace : AS) (flags size : Z) (read : Z -> option Z).

(** [while ptr >= page { check page; page += PAGE_SIZE_4K }]: the page pointer
    afterwards. *)
Fixpoint check_pages (count : nat) (ptr page : Z) : scan_result + Z :=
  match count with
  | O => inr page
  | S count' =>
      if page <=? ptr then
        match from_start_size page PAGE_SIZE_4K with
        | None => inl ScanPanic
        | Some range =>
            if check_region_access aspace range flags
            then check_pages count' ptr (page + PAGE_SIZE_4K)
            else inl ScanErr
        end
      else inr page
  end.

Fixpoint scan_null (fuel : nat) (start len page : Z) : scan_result :=
  match fuel with
  | O => ScanFuel
  | S fuel' =>
      let ptr := start + len * size in
      match check_pages (Z.to_nat ((ptr - page) / PAGE_SIZE_4K + 1)) ptr page with
      | inl r => r
      | inr page' =>
          match read ptr with
          | None => ScanFault
          | Some v => if v =? 0 then ScanOk len else scan_null fuel' start (len + 1) page'
          end
      end
  end.

Definition check_null_terminated (fuel : nat) (align start : Z) : scan_result :=
  if negb (Z.land start (align - 1) =? 0) then ScanErr
  else scan_null fuel start 0 (align_down_4k start).

End Scan.

(** [UserConstPtr<c_char>::get_as_str] on a process's memory.  The scan is given
    enough fuel for the whole of user space; the answers that stand for an
    unresolved fault or for missing fuel do not occur ([scan_below_last_page]). *)
Definition get_as_str (aspace : AS) (m : umem) (p : Z) : LinuxResult str :=
  match check_null_terminated aspace UserConstPtr_ACCESS_FLAGS 1 (fun a => m !! a)
          (S (Z.to_nat ((as_end aspace - p) / 1))) 1 p with
  | ScanOk n => ok_or (decode_utf8 (mem_read m p (Z.to_nat n))) EILSEQ
  | ScanErr => Err EFAULT
  | _ => Panic
  end.

(** ** A process as the system calls see it: its address space and its memory *)

Record UState : Type := mkUState { us_aspace : AS; us_mem : umem }.

Definition on_aspace {A} (m : M AS LinuxError A) : M UState LinuxError A :=
  fun u => let '(r, a) := m (us_aspace u) in (r, mkUState a (us_mem u)).

(** [*r] and [*r = x] for a validated reference [r]. *)
Definition deref T `{Pod T} (r : Z) : M UState LinuxError T :=
  fun u => (Ok (load (us_mem u) r), u).
Definition assign {T} `{Pod T} (r : Z) (x : T) : M UState LinuxError unit :=
  fun u => (Ok tt, mkUState (us_aspace u) (store (us_mem u) r x)).

(** [*p.get_as_ref()?] and [*p.get_as_mut()? = x]. *)
Definition read_user T `{Pod T} (p : Z) : M UState LinuxError T :=
  r ← on_aspace (get_as_ref T p); deref T r.
Definition write_user {T} `{Pod T} (p : Z) (x : T) : M UState LinuxError unit :=
  r ← on_aspace (get_as_mut T p); assign r x.

End Checks.
Arguments UState AS : clear implicits.

(** Integers in user memory. *)
Definition int_pod (n : nat) : Pod Z :=
  {| pod_layout := mkLayout (Z.of_nat n) (Z.of_nat n); pod_enc := le_enc n; pod_dec := le_dec |}.

(** ** Lemmas on the page arithmetic *)

Lemma land_pow2_mod start k : 0 <= k -> Z.land start (2 ^ k - 1) = start mod 2 ^ k.
Proof. intros Hk. rewrite <- Z.land_ones, Z.ones_equiv, Z.sub_1_r by lia. reflexivity. Qed.

Section Correct.
Context `{ErrorConv, MemoryAddrOk, MappingFlags} {AS : Type} `{AddrSpaceOk AS}.

Lemma align_down_4k_spec a :
  0 <= a -> align_down_4k a <= a < align_down_4k a + PAGE_SIZE_4K /\
    align_down_4k a mod PAGE_SIZE_4K = 0 /\ 0 <= align_down_4k a.
Proof.
  intros. unfold align_down_4k, PAGE_SIZE_4K. rewrite align_down_spec by lia. zdiv.
Qed.

Lemma align_up_4k_spec a :
  0 <= a -> a + PAGE_SIZE_4K <= 2 ^ 64 ->
  a <= align_up_4k a < a + PAGE_SIZE_4K /\ align_up_4k a mod PAGE_SIZE_4K = 0.
Proof.
  intros. unfold align_up_4k, PAGE_SIZE_4K in *. rewrite align_up_spec by lia. zdiv.
Qed.

Lemma region_checked start layout flags (s s' : AS) k :
  0 <= start < 2 ^ 64 -> 0 < layout_size layout < 2 ^ 63 ->
  0 <= k -> layout_align layout = 2 ^ k ->
  check_region start layout flags s = (Ok tt, s') ->
  start mod layout_align layout = 0 /\
  check_region_access s (start, start + layout_size layout) flags = true /\
  as_base s <= start /\ start + layout_size layout <= as_end s /\
  exists lo len, lo mod PAGE_SIZE_4K = 0 /\ len mod PAGE_SIZE_4K = 0 /\
    lo <= start < lo + PAGE_SIZE_4K /\
    start + layout_size layout <= lo + len < start + layout_size layout + PAGE_SIZE_4K /\
    populate_area lo len flags s = (Ok tt, s').
Proof.
  intros Hst Hsz Hk Ha. unfold check_region. unfold_M.
  rewrite Ha, land_pow2_mod by auto.
  destruct (Z.eqb_spec (start mod 2 ^ k) 0) as [Hal|]; [|discriminate]. simpl negb. cbv iota.
  destruct (from_start_size start (layout_size layout)) as [r|] eqn:Er; [|discriminate].
  apply from_start_size_some in Er as [-> Hlt]; [|lia..]. simpl.
  destruct (check_region_access s _ flags) eqn:Ec; [|discriminate]. simpl.
  destruct (check_inside s start (start + layout_size layout) flags Ec) as [Hb He]; [lia|].
  pose proof (as_range s) as Hr.
  destruct (align_down_4k_spec start) as (Hd & Hdm & Hd0); [lia|].
  destruct (align_up_4k_spec (start + layout_size layout)) as (Hu & Hum);
    [lia|unfold PAGE_SIZE_4K; lia|].
  unfold ax, as_usize. rewrite (wrap_small 64 (start + layout_size layout)) by lia.
  unfold PAGE_SIZE_4K in *. rewrite wrap_small by lia.
  destruct (populate_area _ _ _ s) as [[[]| |] s1] eqn:Ep; intros [= <-].
  split_and!; auto. eexists _, _. split_and!; try exact Ep; auto; try lia.
  rewrite Zminus_mod, Hum, Hdm. reflexivity.
Qed.

(** C16: what a successful check of a user region establishes: the address is
    aligned, the access check held on exactly the region, the region lies in
    user space, and the populate request that succeeded covers the region with
    whole pages and at most one page more on either side. *)
Theorem check_region_sound start layout flags (s s' : AS) k :
  0 <= start < 2 ^ 64 -> 0 < layout_size layout < 2 ^ 63 ->
  0 <= k -> layout_align layout = 2 ^ k ->
  check_region start layout flags s = (Ok tt, s') ->
  start mod layout_align layout = 0 /\
  check_region_access s (start, start + layout_size layout) flags = true /\
  as_base s <= start /\ start + layout_size layout <= as_end s /\
  exists lo len, lo mod PAGE_SIZE_4K = 0 /\ len mod PAGE_SIZE_4K = 0 /\
    lo <= start < lo + PAGE_SIZE_4K /\
    start + layout_size layout <= lo + len < start + layout_size layout + PAGE_SIZE_4K /\
    populate_area lo len flags s = (Ok tt, s').
Proof. apply region_checked. Qed.

(** A region that was just checked is in the page tables, and so is every part of it. *)
Lemma region_present `{!AddrSpaceMapped AS} start layout flags (s s' : AS) k a n f :
  0 <= start < 2 ^ 64 -> 0 < layout_size layout < 2 ^ 63 -> 0 <= k -> layout_align layout = 2 ^ k ->
  check_region start layout flags s = (Ok tt, s') ->
  start <= a -> 0 <= n -> a + n <= start + layout_size layout -> contains flags f = true ->
  as_present s' (a, a + n) f = true.
Proof.
  intros Hst Hsz Hk Ha Hc Hlo Hn Hhi Hf.
  destruct (region_checked start layout flags s s' k Hst Hsz Hk Ha Hc) as (_ & Hacc & _ & _ & lo & len & _ & _ & ? & ? & Hp).
  eapply present_part; [eapply (populate_present s lo len flags s' start (start + layout_size layout))|..]; auto; lia.
Qed.

Lemma contains_lor_l a b : contains (Z.lor a b) a = true.
Proof. apply contains_spec. intros i Hi. by rewrite Z.lor_spec, Hi. Qed.
Lemma contains_lor_r a b : contains (Z.lor a b) b = true.
Proof. rewrite Z.lor_comm. apply contains_lor_l. Qed.
Lemma contains_refl a : contains a a = true.
Proof. by apply contains_spec. Qed.

(** The slices of bytes. *)
Lemma byte_region_present `{!AddrSpaceMapped AS} p len flags (s s' : AS) a n f :
  is_usize p -> (l ← lift (unwrap_opt (layout_array (mkLayout 1 1) len)); check_region p l flags) s = (Ok tt, s') ->
  p <= a -> 0 < n -> a + n <= p + len -> contains flags f = true -> as_present s' (a, a + n) f = true.
Proof.
  intros Hp. unfold layout_array. unfold_M. cbn [layout_size layout_align].
  destruct (Z.leb_spec (1 * len) (2 ^ 63 - 1)); cbn [unwrap_opt]; [|done]. intros Hc ? ? ? Hf. unfold is_usize in Hp.
  eapply (region_present p _ flags s s' 0); [..|exact Hc| | | |exact Hf]; cbn [layout_size layout_align]; lia.
Qed.
Lemma mut_slice_present `{!AddrSpaceMapped AS} p len (s s' : AS) b :
  is_usize p -> get_as_mut_slice Z (H3 := int_pod 1) p len s = (Ok b, s') ->
  b = (p, len) /\ forall a n, p <= a -> 0 < n -> a + n <= p + len -> as_present s' (a, a + n) MF_WRITE = true.
Proof.
  intros Hp. unfold get_as_mut_slice. intros Hs.
  apply M_bind_inv in Hs as (l & s1 & El & Hs). apply M_bind_inv in Hs as ([] & s2 & Ec & [= <- <-]). split; [done|].
  intros. eapply (byte_region_present p len); eauto using contains_lor_r. by erewrite M_bind_ok.
Qed.
Lemma slice_present `{!AddrSpaceMapped AS} p len (s s' : AS) b :
  is_usize p -> get_as_slice Z (H3 := int_pod 1) p len s = (Ok b, s') ->
  b = (p, len) /\ forall a n, p <= a -> 0 < n -> a + n <= p + len -> as_present s' (a, a + n) MF_READ = true.
Proof.
  intros Hp. unfold get_as_slice. intros Hs.
  apply M_bind_inv in Hs as (l & s1 & El & Hs). apply M_bind_inv in Hs as ([] & s2 & Ec & [= <- <-]). split; [done|].
  intros. eapply (byte_region_present p len); eauto using contains_refl. by erewrite M_bind_ok.
Qed.

(** An aligned region that would run past the end of the 64-bit address space
    is not refused with an error: building its range panics. *)
Theorem check_region_overflow_panics start layout flags (s : AS) k :
  0 <= start < 2 ^ 64 -> 0 <= layout_size layout ->
  0 <= k -> layout_align layout = 2 ^ k -> start mod 2 ^ k = 0 ->
  2 ^ 64 <= start + layout_size layout ->
  check_region start layout flags s = (Panic, s).
Proof.
  intros Hst Hsz Hk Ha Hal Hov. unfold check_region. unfold_M.
  rewrite Ha, land_pow2_mod, Hal by auto. simpl negb. cbv iota.
  destruct (from_start_size start (layout_size layout)) as [r|] eqn:Er; [|done].
  apply from_start_size_some in Er as [_ ?]; lia.
Qed.

(** ** The scan *)

Section Scan.
Context (aspace : AS) (flags size : Z) (read : Z -> option Z).

Definition page_ok (q : Z) : Prop :=
  check_region_access aspace (q, q + PAGE_SIZE_4K) flags = true.

(** All the pages that start in [lo, hi) pass the check. *)
Definition pages_ok (lo hi : Z) : Prop :=
  forall q, lo <= q < hi -> q mod PAGE_SIZE_4K = 0 -> page_ok q.

Lemma pages_ok_app lo mid hi : pages_ok lo mid -> pages_ok mid hi -> pages_ok lo hi.
Proof. intros A B q Hq Hm. destruct (Z.lt_ge_cases q mid); [apply A|apply B]; auto; lia. Qed.

Lemma page_unique p q :
  p mod PAGE_SIZE_4K = 0 -> q mod PAGE_SIZE_4K = 0 -> p <= q < p + PAGE_SIZE_4K -> q = p.
Proof. unfold PAGE_SIZE_4K. intros. zdiv. Qed.

Lemma check_pages_spec count ptr page :
  0 <= page -> page mod PAGE_SIZE_4K = 0 -> ptr < 2 ^ 64 - PAGE_SIZE_4K ->
  ptr < page + PAGE_SIZE_4K * Z.of_nat count ->
  match check_pages aspace flags count ptr page with
  | inr page' => page <= page' /\ page' mod PAGE_SIZE_4K = 0 /\ ptr < page' /\
      pages_ok page page'
  | inl r => r = ScanErr /\ exists q, page <= q <= ptr /\ q mod PAGE_SIZE_4K = 0 /\
      pages_ok page q /\ ~ page_ok q
  end.
Proof.
  unfold PAGE_SIZE_4K in *. revert page. induction count as [|count IH]; intros page Hp Hm Hb Hc.
  { simpl. split_and!; auto; try lia. intros q Hq. lia. }
  cbn [check_pages]. destruct (Z.leb_spec page ptr) as [Hle|Hgt].
  2: { split_and!; auto; try lia. intros q Hq. lia. }
  unfold PAGE_SIZE_4K. rewrite from_start_size_spec by lia.
  destruct (check_region_access aspace _ flags) eqn:Ec.
  2: { split; auto. exists page. split_and!; auto; try lia.
       - intros q Hq. lia.
       - unfold page_ok, PAGE_SIZE_4K. congruence. }
  specialize (IH (page + 4096)). unfold PAGE_SIZE_4K in IH.
  assert (pages_ok page (page + 4096)) as Hok.
  { intros q Hq Hqm. replace q with page; [exact Ec|]. symmetry.
    apply page_unique; auto; unfold PAGE_SIZE_4K; lia. }
  destruct (check_pages aspace flags count ptr (page + 4096)) as [r|page'].
  - destruct IH as (-> & q & Hq & Hqm & Hqo & Hn); [zdiv..|]. split; auto. exists q.
    split_and!; auto; try lia. eapply pages_ok_app; eauto.
  - destruct IH as (? & ? & ? & ?); [zdiv..|]. split_and!; auto; try lia.
    eapply pages_ok_app; eauto.
Qed.

Context (k : Z) (Hk : 0 <= k <= 12) (Hsize : size = 2 ^ k).
Context (Hread : forall q a, q mod PAGE_SIZE_4K = 0 -> page_ok q ->
  q <= a -> a + size <= q + PAGE_SIZE_4K -> is_Some (read a)).

Lemma size_divides_page : 0 < size /\ exists c, PAGE_SIZE_4K = c * size.
Proof.
  rewrite Hsize. split; [lia|]. exists (2 ^ (12 - k)). unfold PAGE_SIZE_4K.
  rewrite <- Z.pow_add_r by lia. by replace (12 - k + k) with 12 by lia.
Qed.

(** An aligned element lies in one page. *)
Lemma element_in_page a q :
  a mod size = 0 -> q mod PAGE_SIZE_4K = 0 -> q <= a < q + PAGE_SIZE_4K ->
  a + size <= q + PAGE_SIZE_4K.
Proof.
  intros Ha Hq Hr. destruct size_divides_page as [Hs [c Hc]].
  apply Z.mod_divide in Ha as [x ->]; [|lia].
  apply Z.mod_divide in Hq as [y ->]; [|unfold PAGE_SIZE_4K; lia].
  rewrite Hc in *. assert (x < (y + 1) * c) as Hx.
  { apply (Z.mul_lt_mono_pos_r size); lia. }
  assert ((x + 1) * size <= (y + 1) * c * size) by (apply Z.mul_le_mono_nonneg_r; lia). lia.
Qed.

Definition nonzero_from (start i n : Z) : Prop :=
  forall j, i <= j < n -> exists v, read (start + j * size) = Some v /\ v <> 0.

Definition scan_post (start len : Z) (r : scan_result) : Prop :=
  match r with
  | ScanOk n => len <= n /\ read (start + n * size) = Some 0 /\ nonzero_from start len n /\
      pages_ok (align_down_4k start) (start + n * size + 1)
  | ScanErr => exists n q, len <= n /\ nonzero_from start len n /\
      q mod PAGE_SIZE_4K = 0 /\ align_down_4k start <= q <= start + n * size /\
      pages_ok (align_down_4k start) q /\ ~ page_ok q
  | _ => False
  end.

Lemma scan_post_step start len r v :
  read (start + len * size) = Some v -> v <> 0 ->
  scan_post start (len + 1) r -> scan_post start len r.
Proof.
  intros Hv Hnz. assert (forall n, len + 1 <= n -> nonzero_from start (len + 1) n ->
    nonzero_from start len n) as Hext.
  { intros n Hn Hz j Hj. destruct (decide (j = len)) as [->|]; [eauto|]. apply Hz. lia. }
  destruct r; simpl; auto.
  - intros (? & ? & ? & ?). split_and!; auto; lia.
  - intros (n & q & ? & ? & ?). exists n, q. split_and!; auto; try tauto; lia.
Qed.

Lemma scan_null_spec fuel start len page :
  0 <= start -> start mod size = 0 -> 0 <= len -> 0 <= page -> page mod PAGE_SIZE_4K = 0 ->
  align_down_4k start <= page -> pages_ok (align_down_4k start) page ->
  start < 2 ^ 64 - PAGE_SIZE_4K -> start + len * size <= Z.max start (as_end aspace) ->
  (0 < fuel)%nat -> as_end aspace - (start + len * size) < size * Z.of_nat fuel ->
  scan_post start len (scan_null aspace flags size read fuel start len page).
Proof.
  intros Hs0 Hal. pose proof (as_range aspace) as Has. destruct size_divides_page as [Hs _].
  revert len page. induction fuel as [|fuel IH];
    intros len page Hl Hp Hpm Hge Hok Hst Hend Hf0 Hf; [lia|]. cbn [scan_null].
  set (ptr := start + len * size) in *.
  assert (ptr < 2 ^ 64 - PAGE_SIZE_4K) as Hptr by (unfold PAGE_SIZE_4K in *; lia).
  pose proof (check_pages_spec (Z.to_nat ((ptr - page) / PAGE_SIZE_4K + 1)) ptr page
    Hp Hpm Hptr) as Hcp.
  destruct (check_pages _ _ _ ptr page) as [r|page'].
  { destruct Hcp as (-> & q & Hq & Hqm & Hqo & Hn); [unfold PAGE_SIZE_4K in *; zdiv|].
    exists len, q. split_and!; auto; try lia; [intros j Hj; lia|eapply pages_ok_app; eauto]. }
  destruct Hcp as (Hpp & Hpm' & Hlt & Hok'); [unfold PAGE_SIZE_4K in *; zdiv|].
  destruct (align_down_4k_spec ptr) as (Hd & Hdm & Hd0); [nia|].
  destruct (align_down_4k_spec start) as (Hd' & Hdm' & Hd0'); [lia|].
  assert (pages_ok (align_down_4k start) page') as Hall by (eapply pages_ok_app; eauto).
  assert (page_ok (align_down_4k ptr)) as Hpg.
  { apply Hall; auto. split; [|lia]. assert (start <= ptr) by nia.
    unfold PAGE_SIZE_4K in *. zdiv. }
  assert (ptr + size <= align_down_4k ptr + PAGE_SIZE_4K) as Hin.
  { apply element_in_page; auto. unfold ptr. by rewrite Z.mod_add by lia. }
  destruct (check_inside _ _ _ _ Hpg) as [_ He]; [unfold PAGE_SIZE_4K; lia|].
  destruct (Hread _ ptr Hdm Hpg) as [v Hv]; [lia..|]. rewrite Hv.
  destruct (Z.eqb_spec v 0) as [->|Hnz].
  { split_and!; auto; try lia; [intros j Hj; lia|]. fold ptr.
    intros q Hq. apply Hall. lia. }
  apply (scan_post_step start len _ v Hv Hnz).
  apply IH; auto; unfold ptr in *; lia.
Qed.

(** Below the last page of the address space no check of a page panics. *)
Lemma scan_below_last_page start :
  0 <= start < 2 ^ 64 - PAGE_SIZE_4K ->
  let r := check_null_terminated aspace flags size read
             (S (Z.to_nat ((as_end aspace - start) / size))) size start in
  (start mod size <> 0 /\ r = ScanErr) \/
  (start mod size = 0 /\ scan_post start 0 r).
Proof.
  intros Hst r. unfold r, check_null_terminated. rewrite Hsize, land_pow2_mod, <- Hsize by lia.
  destruct (Z.eqb_spec (start mod size) 0) as [Ha|Ha]; [right|left]; auto. split; auto. simpl negb.
  destruct size_divides_page as [Hs _].
  destruct (align_down_4k_spec start) as (Hd & Hdm & Hd0); [lia|].
  apply scan_null_spec; auto; try lia.
  - intros q Hq. lia.
  - rewrite Nat2Z.inj_succ. 
    destruct (Z.le_gt_cases 0 ((as_end aspace - start) / size)).
    + rewrite Z2Nat.id by lia. pose proof (Z.mul_succ_div_gt (as_end aspace - start) size). lia.
    + pose proof (Z.mul_succ_div_gt (as_end aspace - start) size). nia.
Qed.

(** In the last page the range of the first check leaves the address space. *)
Lemma scan_last_page fuel start :
  2 ^ 64 - PAGE_SIZE_4K <= start < 2 ^ 64 -> start mod size = 0 ->
  check_null_terminated aspace flags size read (S fuel) size start = ScanPanic.
Proof.
  intros Hst Ha. unfold check_null_terminated. rewrite Hsize, land_pow2_mod, <- Hsize by lia. rewrite Ha. simpl negb.
  destruct (align_down_4k_spec start) as (Hd & Hdm & Hd0); [unfold PAGE_SIZE_4K in *; lia|].
  cbn [scan_null]. rewrite Z.mul_0_l, Z.add_0_r. set (page := align_down_4k start) in *.
  assert (exists n, Z.to_nat ((start - page) / PAGE_SIZE_4K + 1) = S n) as [n ->].
  { exists (Z.to_nat ((start - page) / PAGE_SIZE_4K)). unfold PAGE_SIZE_4K in *. zdiv. }
  cbn [check_pages]. destruct (Z.leb_spec page start); [|lia].
  destruct (from_start_size page PAGE_SIZE_4K) as [r|] eqn:Er; [|done].
  apply from_start_size_some in Er as [_ Hr]; [|lia|unfold PAGE_SIZE_4K; lia]. unfold PAGE_SIZE_4K in *. zdiv.
Qed.

(** C17: the scan of a null-terminated user array, at every address.  From an
    address below the last page of the 64-bit address space it terminates within
    the size of user space, never faults and never panics: every page is checked
    before an element of it is read.  It answers [n] exactly when element [n] is the
    first null and every page up to it passed the check; it fails only when the
    address is misaligned or when it meets an inaccessible page before any null.
    From an aligned address in the last page it panics: the range of the first
    check ends beyond the address space. *)
Theorem check_null_terminated_correct start :
  0 <= start < 2 ^ 64 ->
  let r := check_null_terminated aspace flags size read
             (S (Z.to_nat ((as_end aspace - start) / size))) size start in
  (start mod size <> 0 /\ r = ScanErr) \/
  (start mod size = 0 /\ start < 2 ^ 64 - PAGE_SIZE_4K /\ scan_post start 0 r) \/
  (start mod size = 0 /\ 2 ^ 64 - PAGE_SIZE_4K <= start /\ r = ScanPanic).
Proof.
  intros Hst r. destruct (Z.lt_ge_cases start (2 ^ 64 - PAGE_SIZE_4K)) as [Hlt|Hge].
  - destruct (scan_below_last_page start) as [?|[? ?]]; [lia|by left|right; left; by split_and!].
  - destruct (decide (start mod size = 0)) as [Ha|Ha]; [right; right|left]; split_and!; auto; try lia.
    + unfold r. apply scan_last_page; [lia|done].
    + unfold r, check_null_terminated. rewrite Hsize, land_pow2_mod, <- Hsize by lia.
      by destruct (Z.eqb_spec (start mod size) 0).
Qed.

End Scan.
End Correct.

(** ** Strings in user memory *)

Section Str.
Context `{ErrorConv, MemoryAddrOk, MappingFlags} {AS : Type} `{AddrSpaceOk AS}.

(** Every byte of a page that may be read is there. *)
Definition mem_backs (aspace : AS) (m : umem) : Prop :=
  forall q a, q mod PAGE_SIZE_4K = 0 -> page_ok aspace UserConstPtr_ACCESS_FLAGS q ->
    q <= a < q + PAGE_SIZE_4K -> is_Some (m !! a).

Lemma mem_read_lookup m a n i b :
  mem_read m a n !! i = Some b -> b = m !!! (a + Z.of_nat i).
Proof.
  revert a i. induction n as [|n IH]; intros a [|i]; simpl; try done.
  - intros [= <-]. by rewrite Z.add_0_r.
  - intros ->%IH. f_equal. lia.
Qed.

Lemma mem_read_length m a n : length (mem_read m a n) = n.
Proof. revert a. induction n; intros; simpl; auto. Qed.

Lemma encode_char_nonzero c : scalar c -> c <> 0 -> Forall (fun b => b <> 0) (encode_char c).
Proof.
  unfold scalar, encode_char. intros Hs Hc.
  split_tests; repeat constructor; zdiv.
Qed.

Lemma encode_utf8_nonzero s :
  Forall scalar s -> 0 ∉ s -> Forall (fun b => b <> 0) (encode_utf8 s).
Proof.
  intros Hs Hz. unfold encode_utf8. apply Forall_concat, Forall_map.
  rewrite Forall_forall in *. intros c Hc. simpl. apply encode_char_nonzero; auto.
  intros ->. first [by apply Hz | by apply Hz, list_elem_of_In].
Qed.

(** A string that a process stores in readable memory as UTF-8 followed by
    a null byte is what [get_as_str] returns: the scan finds exactly its end and
    the validation accepts it. *)
Theorem get_as_str_roundtrip (aspace : AS) m p s :
  0 <= p < 2 ^ 64 - PAGE_SIZE_4K -> mem_backs aspace m ->
  Forall scalar s -> 0 ∉ s ->
  mem_read m p (length (encode_utf8 s ++ [0])) = encode_utf8 s ++ [0] ->
  pages_ok aspace UserConstPtr_ACCESS_FLAGS (align_down_4k p)
    (p + Z.of_nat (length (encode_utf8 s)) + 1) ->
  get_as_str aspace m p = Ok s.
Proof.
  intros Hp Hb Hs Hz Hm Hpg. set (bs := encode_utf8 s) in *.
  assert (forall i b, (bs ++ [0]) !! i = Some b -> m !!! (p + Z.of_nat i) = b) as Hat.
  { intros i b Hi. rewrite <- Hm in Hi. symmetry. by eapply mem_read_lookup. }
  pose proof (scan_below_last_page aspace UserConstPtr_ACCESS_FLAGS 1 (fun a => m !! a)
    0 ltac:(lia) eq_refl) as Hscan.
  specialize (Hscan (fun q a Hq Hok H1 H2 => Hb q a Hq Hok ltac:(lia)) p Hp).
  unfold get_as_str. destruct Hscan as [[Hbad _]|[_ Hpost]]; [by rewrite Z.mod_1_r in Hbad|].
  assert (forall n, 0 <= n -> nonzero_from 1 (fun a => m !! a) p 0 n ->
            n <= Z.of_nat (length bs)) as Hupto.
  { intros n Hn Hnz. destruct (Z.le_gt_cases n (Z.of_nat (length bs))); [done|].
    destruct (Hnz (Z.of_nat (length bs))) as (v & Hv & Hv0); [lia|]. rewrite Z.mul_1_r in Hv.
    apply lookup_total_correct in Hv. exfalso. apply Hv0. rewrite <- Hv.
    apply Hat. rewrite lookup_app_r, Nat.sub_diag by lia. done. }
  destruct (check_null_terminated _ _ _ _ _ _ _) as [n| | | |]; try done; simpl in Hpost.
  - destruct Hpost as (Hn & Hv & Hnz & _). rewrite Z.mul_1_r in Hv.
    assert (n = Z.of_nat (length bs)) as ->.
    { specialize (Hupto n Hn Hnz). destruct (decide (n = Z.of_nat (length bs))); [done|].
      destruct (lookup_lt_is_Some_2 bs (Z.to_nat n)) as [b Hbn]; [lia|].
      pose proof (Hat (Z.to_nat n) b ltac:(by apply lookup_app_l_Some)) as E.
      rewrite Z2Nat.id in E by lia. apply lookup_total_correct in Hv. 
      pose proof (encode_utf8_nonzero s Hs Hz) as Hf. rewrite Forall_lookup in Hf.
      exfalso. eapply (Hf _ _ Hbn). congruence. }
    rewrite Nat2Z.id. replace (mem_read m p (length bs)) with bs.
    { unfold bs. by rewrite decode_encode_utf8. }
    apply (list_eq_same_length _ _ (length bs)); [by rewrite mem_read_length|done|].
    intros i x y Hi Hx Hy. apply mem_read_lookup in Hy. rewrite Hy. symmetry.
    apply Hat. by apply lookup_app_l_Some.
  - destruct Hpost as (n & q & Hn & Hnz & Hqm & Hq & _ & Hbad). exfalso. apply Hbad.
    specialize (Hupto n Hn Hnz). apply Hpg; auto. lia.
Qed.

End Str.

(** ** Witnesses: one readable and writable interval of user memory *)

Module Sample.
Import SimpleMem.

#[export] Instance sample_conv : ErrorConv := fun e =>
  match e with
  | AxNotFound => ENOENT | AxAlreadyExists => EEXIST | AxInvalidInput => EINVAL
  | AxInvalidData => EINVAL | AxIsADirectory => EISDIR | AxOther n => EOther n
  end.

Definition sample_aspace : simple_aspace := mkSimple 4096 12288 3.

(** Every byte of the two pages is [A], but for a null at 4100. *)
Definition sample_read (a : Z) : option Z :=
  if (4096 <=? a) && (a <? 12288) then Some (if a =? 4100 then 0 else 65) else None.

Lemma sample_page_inside flags q :
  page_ok sample_aspace flags q -> 4096 <= q /\ q + PAGE_SIZE_4K <= 12288.
Proof.
  unfold page_ok. simpl. unfold simple_in. rewrite !andb_true_iff, !Z.leb_le. lia.
Qed.

Lemma check_region_sound_witness :
  check_region 4104 (mkLayout 8 8) 3 sample_aspace = (Ok tt, sample_aspace) /\
  4104 mod 8 = 0 /\ as_base sample_aspace <= 4104 /\ 4104 + 8 <= as_end sample_aspace.
Proof.
  split; [vm_compute; reflexivity|].
  destruct (check_region_sound 4104 (mkLayout 8 8) 3 sample_aspace sample_aspace 3)
    as (A & _ & B & C & _); [lia | simpl; lia | lia | reflexivity | vm_compute; reflexivity |].
  split; [exact A|]. split; [exact B|exact C].
Defined.

(** A scan that finds the null, and one in the last page. *)
Lemma check_null_terminated_correct_witness :
  scan_post sample_aspace 3 1 sample_read 4096 0
    (check_null_terminated sample_aspace 3 1 sample_read (S (Z.to_nat ((as_end sample_aspace - 4096) / 1))) 1 4096) /\
  check_null_terminated sample_aspace 3 1 sample_read
    (S (Z.to_nat ((as_end sample_aspace - (2 ^ 64 - 1)) / 1))) 1 (2 ^ 64 - 1) = ScanPanic.
Proof.
  assert (forall q a, q mod PAGE_SIZE_4K = 0 -> page_ok sample_aspace 3 q -> q <= a -> a + 1 <= q + PAGE_SIZE_4K ->
            is_Some (sample_read a)) as Hr.
  { intros q a _ Hq Hlo Hhi. apply sample_page_inside in Hq. unfold sample_read.
    destruct (Z.leb_spec 4096 a); [|lia]. destruct (Z.ltb_spec a 12288); [|lia]. eexists. reflexivity. }
  split.
  - destruct (check_null_terminated_correct sample_aspace 3 1 sample_read 0 ltac:(lia) eq_refl Hr 4096)
      as [[? _]|[(_ & _ & ?)|(_ & ? & _)]]; [lia|done|done|unfold PAGE_SIZE_4K in *; lia].
  - destruct (check_null_terminated_correct sample_aspace 3 1 sample_read 0 ltac:(lia) eq_refl Hr (2 ^ 64 - 1))
      as [[? _]|[(_ & ? & _)|(_ & _ & ?)]]; [lia|done|unfold PAGE_SIZE_4K in *; lia|done].
Defined.

(** The string [hi] at 4096, in one page of otherwise zero bytes. *)
Definition str_aspace : simple_aspace := mkSimple 4096 8192 3.
Definition str_mem : umem := mem_write ∅ 4096 (lit "hi"%string ++ replicate (Z.to_nat 4094) 0).

Lemma str_mem_backs : mem_backs str_aspace str_mem.
Proof.
  assert (forall m a bs b, a <= b < a + Z.of_nat (length bs) ->
            is_Some (mem_write m a bs !! b)) as Hw.
  { intros m a bs. revert m a. induction bs as [|x bs IH]; intros m a b; simpl length; [lia|].
    intros Hb. simpl. destruct (decide (b = a)) as [->|].
    - rewrite mem_write_ne by lia. rewrite lookup_insert_eq. eauto.
    - apply IH. lia. }
  intros q a _ Hok Ha. apply Hw. rewrite length_app, length_replicate.
  change (length (lit "hi"%string)) with 2%nat.
  unfold page_ok in Hok. revert Hok. simpl. unfold simple_in, PAGE_SIZE_4K in *.
  rewrite !andb_true_iff, !Z.leb_le. lia.
Qed.

(** The hypotheses of [get_as_str_roundtrip] at this memory. *)
Lemma hi_scalar : Forall scalar (lit "hi"%string).
Proof. apply (bool_decide_unpack _). vm_compute. exact I. Qed.

Lemma hi_no_null : 0 ∉ lit "hi"%string.
Proof. apply (bool_decide_unpack _). vm_compute. exact I. Qed.

Lemma hi_pages :
  pages_ok str_aspace UserConstPtr_ACCESS_FLAGS (align_down_4k 4096)
    (4096 + Z.of_nat (length (encode_utf8 (lit "hi"%string))) + 1).
Proof.
  intros q Hq Hm. assert (q = 4096) as ->; [|vm_compute; reflexivity].
  revert Hq Hm. change (align_down_4k 4096) with 4096.
  change (Z.of_nat (length (encode_utf8 (lit "hi"%string)))) with 2. unfold PAGE_SIZE_4K.
  intros. zdiv.
Qed.

Lemma get_as_str_roundtrip_witness : get_as_str str_aspace str_mem 4096 = Ok (lit "hi"%string).
Proof.
  apply (get_as_str_roundtrip str_aspace str_mem 4096 (lit "hi"%string));
    [unfold PAGE_SIZE_4K; lia | apply str_mem_backs | apply hi_scalar | apply hi_no_null
    | vm_compute; reflexivity | apply hi_pages].
Defined.

End Sample.
