(* ===== verification/Pipe.v ===== *)
(** * Pipes: [api/src/file/pipe.rs]

    The ring buffer ([PipeRingBuffer]) is refined to a bounded FIFO queue of
    bytes; the two blocking loops of [Pipe::read] and [Pipe::write] are modelled
    one lock-holding iteration at a time, so that other threads may run between
    two iterations, and composed into the whole calls. *)

From stdpp Require Import base list option relations.
From Stdlib Require Import ZArith Lia.
From S2P Require Import Prelude.
Import ListNotations.
#[local] Open Scope nat_scope.

Inductive RingBufferStatus : Type := Full | Empty | Normal.

#[export] Instance RingBufferStatus_eq_dec : EqDecision RingBufferStatus.
Proof. solve_decision. Defined.

Definition RING_BUFFER_SIZE : nat := 256.

Record PipeRingBuffer : Type := mkRing {
  arr : list Z;
  head : nat;
  tail : nat;
  status : RingBufferStatus
}.

Definition ring_new : PipeRingBuffer :=
  mkRing (replicate RING_BUFFER_SIZE 0%Z) 0 0 Empty.

(** [None] is the panic of an index out of bounds. *)
Definition write_byte (rb : PipeRingBuffer) (byte : Z) : option PipeRingBuffer :=
  if bool_decide (tail rb < length (arr rb)) then
    let arr' := <[tail rb := byte]> (arr rb) in
    let tail' := (tail rb + 1) mod RING_BUFFER_SIZE in
    Some (mkRing arr' (head rb) tail'
            (if tail' =? head rb then Full else Normal))
  else None.

Definition read_byte (rb : PipeRingBuffer) : option (Z * PipeRingBuffer) :=
  c ← arr rb !! head rb;
  let head' := (head rb + 1) mod RING_BUFFER_SIZE in
  Some (c, mkRing (arr rb) head' (tail rb)
             (if head' =? tail rb then Empty else Normal)).

Definition available_read (rb : PipeRingBuffer) : nat :=
  match status rb with
  | Empty => 0
  | _ => if head rb <? tail rb then tail rb - head rb
         else tail rb + RING_BUFFER_SIZE - head rb
  end.

Definition available_write (rb : PipeRingBuffer) : nat :=
  match status rb with
  | Full => 0
  | _ => RING_BUFFER_SIZE - available_read rb
  end.

(** [Arc<Mutex<PipeRingBuffer>>]: the buffer both ends share and the strong
    count of its [Arc]. *)
Record SharedRing : Type := mkShared { ring : PipeRingBuffer; strong_count : nat }.

Record Pipe : Type := mkPipe { readable : bool }.

Definition writable (p : Pipe) : bool := negb (readable p).

Definition pipe_new : (Pipe * Pipe) * SharedRing :=
  ((mkPipe true, mkPipe false), mkShared ring_new 2).

Definition closed (sh : SharedRing) : bool := strong_count sh =? 1.

(** How one iteration of a blocking loop ends: the call returns, or the lock is
    released and the loop goes round again. *)
Inductive iter (A B : Type) : Type :=
| Return (a : A)
| Again (b : B).
Arguments Return {A B} a.
Arguments Again {A B} b.

(** [for c in buf.iter_mut().take(n) { *c = ring_buffer.read_byte(); }]. *)
Fixpoint read_bytes (n : nat) (rb : PipeRingBuffer) : option (list Z * PipeRingBuffer) :=
  match n with
  | O => Some ([], rb)
  | S n' =>
      '(c, rb1) ← read_byte rb;
      '(cs, rb2) ← read_bytes n' rb1;
      Some (c :: cs, rb2)
  end.

(** One iteration of the loop of [read]: the number of bytes read and the
    buffer afterwards, or another turn. *)
Definition read_iter (sh : SharedRing) (buf : list Z)
  : option (iter (nat * list Z) unit * SharedRing) :=
  let read_size := available_read (ring sh) `min` length buf in
  if read_size =? 0 then
    if closed sh then Some (Return (0, buf), sh) else Some (Again tt, sh)
  else
    '(bs, rb) ← read_bytes read_size (ring sh);
    Some (Return (read_size, bs ++ drop read_size buf),
          mkShared rb (strong_count sh)).

(** [for _ in 0..n { if write_size == total_len { return .. } .. }]. *)
Fixpoint write_bytes (n : nat) (buf : list Z) (write_size : nat) (rb : PipeRingBuffer)
  : option (iter nat nat * PipeRingBuffer) :=
  match n with
  | O => Some (Again write_size, rb)
  | S n' =>
      if write_size =? length buf then Some (Return write_size, rb)
      else
        b ← buf !! write_size;
        rb' ← write_byte rb b;
        write_bytes n' buf (write_size + 1) rb'
  end.

(** One iteration of the loop of [write], from [write_size] bytes written. *)
Definition write_iter (sh : SharedRing) (buf : list Z) (write_size : nat)
  : option (iter nat nat * SharedRing) :=
  let loop_write := available_write (ring sh) in
  if loop_write =? 0 then
    if closed sh then Some (Return write_size, sh) else Some (Again write_size, sh)
  else
    '(r, rb) ← write_bytes loop_write buf write_size (ring sh);
    Some (r, mkShared rb (strong_count sh)).

(** The rest of the system between two iterations: what the other threads do to
    the shared ring while the lock is free.  [env i] is what happens before the
    [i]-th retry. *)
Definition environment : Type := nat -> SharedRing -> SharedRing.

(** Whole calls, run for at most [fuel] iterations; [None] when the call is
    still in its loop (or panicked, which the theorems exclude). *)
Fixpoint read_loop (fuel : nat) (env : environment) (i : nat) (sh : SharedRing) (buf : list Z)
  : option (LinuxResult (nat * list Z) * SharedRing) :=
  match fuel with
  | O => None
  | S fuel' =>
      '(r, sh') ← read_iter sh buf;
      match r with
      | Return v => Some (Ok v, sh')
      | Again _ => read_loop fuel' env (S i) (env i sh') buf
      end
  end.

Definition pipe_read (fuel : nat) (env : environment) (p : Pipe) (sh : SharedRing) (buf : list Z)
  : option (LinuxResult (nat * list Z) * SharedRing) :=
  if negb (readable p) then Some (Err EPERM, sh)
  else if bool_decide (buf = []) then Some (Ok (0, buf), sh)
  else read_loop fuel env 0 sh buf.

Fixpoint write_loop (fuel : nat) (env : environment) (i : nat) (sh : SharedRing)
    (buf : list Z) (write_size : nat) : option (LinuxResult nat * SharedRing) :=
  match fuel with
  | O => None
  | S fuel' =>
      '(r, sh') ← write_iter sh buf write_size;
      match r with
      | Return v => Some (Ok v, sh')
      | Again ws => write_loop fuel' env (S i) (env i sh') buf ws
      end
  end.

Definition pipe_write (fuel : nat) (env : environment) (p : Pipe) (sh : SharedRing) (buf : list Z)
  : option (LinuxResult nat * SharedRing) :=
  if negb (writable p) then Some (Err EPERM, sh)
  else if closed sh then Some (Err EPIPE, sh)
  else if bool_decide (buf = []) then Some (Ok 0, sh)
  else write_loop fuel env 0 sh buf 0.

(** [PollState { readable, writable }]. *)
Definition pipe_poll (p : Pipe) (sh : SharedRing) : bool * bool :=
  (readable p && (0 <? available_read (ring sh)),
   writable p && (0 <? available_write (ring sh))).

(** ** The ring buffer is a bounded FIFO queue *)

Record ring_wf (rb : PipeRingBuffer) : Prop := {
  wf_arr : length (arr rb) = RING_BUFFER_SIZE;
  wf_head : head rb < RING_BUFFER_SIZE;
  wf_tail : tail rb < RING_BUFFER_SIZE;
  wf_status : match status rb with Normal => head rb <> tail rb | _ => head rb = tail rb end
}.

Definition slot (rb : PipeRingBuffer) (i : nat) : Z :=
  arr rb !!! ((head rb + i) mod RING_BUFFER_SIZE).

(** The bytes in the buffer, oldest first. *)
Definition contents (rb : PipeRingBuffer) : list Z :=
  slot rb <$> seq 0 (available_read rb).

Lemma size_pos : 0 < RING_BUFFER_SIZE.
Proof. unfold RING_BUFFER_SIZE. lia. Qed.
#[local] Opaque RING_BUFFER_SIZE.

(** Index arithmetic modulo the buffer size, for indices below it. *)
Lemma mod_wrap a n : a < n + n -> a mod n = if a <? n then a else a - n.
Proof.
  intros H. split_tests; [now apply Nat.mod_small|].
  symmetry. apply (Nat.mod_unique a n 1); lia.
Qed.

Lemma mod_succ_cases a :
  a < RING_BUFFER_SIZE ->
  (a + 1) mod RING_BUFFER_SIZE = if a + 1 =? RING_BUFFER_SIZE then 0 else a + 1.
Proof.
  pose proof size_pos. intros. rewrite mod_wrap by lia. split_tests; lia.
Qed.

Lemma contents_length rb : length (contents rb) = available_read rb.
Proof. unfold contents. rewrite length_fmap, length_seq. reflexivity. Qed.

Lemma available_read_bound rb : ring_wf rb -> available_read rb <= RING_BUFFER_SIZE.
Proof.
  intros [? ? ? Hs]. unfold available_read.
  destruct (status rb); split_tests; lia.
Qed.

Lemma available_write_eq rb :
  ring_wf rb -> available_write rb = RING_BUFFER_SIZE - length (contents rb).
Proof.
  intros [? ? ? Hs]. rewrite contents_length. unfold available_write, available_read.
  destruct (status rb); split_tests; lia.
Qed.

Lemma ring_new_wf : ring_wf ring_new.
Proof.
  pose proof size_pos. split; simpl; try lia.
  apply length_replicate.
Qed.

Lemma ring_new_contents : contents ring_new = [].
Proof. reflexivity. Qed.

(** The slots of the buffer after a write: one more readable byte, the rest kept. *)
Lemma write_byte_avail rb b rb' :
  ring_wf rb -> status rb <> Full -> write_byte rb b = Some rb' ->
  available_read rb' = S (available_read rb) /\ ring_wf rb'.
Proof.
  intros [Ha Hh Ht Hs] Hnf. pose proof size_pos. unfold write_byte.
  case_bool_decide; [|discriminate]. intros [= <-]. split.
  - unfold available_read. simpl. rewrite mod_succ_cases by lia.
    destruct (Nat.eqb_spec (tail rb + 1) RING_BUFFER_SIZE);
      destruct (status rb); try done; split_tests; lia.
  - split; simpl; rewrite ?length_insert; auto.
    + apply Nat.mod_upper_bound. lia.
    + split_tests; auto.
Qed.

Lemma slot_insert_tail rb b i :
  ring_wf rb -> status rb <> Full -> i < available_read rb ->
  <[tail rb:=b]> (arr rb) !!! ((head rb + i) mod RING_BUFFER_SIZE) = slot rb i.
Proof.
  intros Hwf Hnf Hi. pose proof Hwf as [Ha Hh Ht Hs]. unfold slot.
  rewrite list_lookup_total_insert_ne; [done|].
  pose proof (available_read_bound rb Hwf). rewrite mod_wrap by lia.
  unfold available_read in Hi.
  destruct (status rb); [done|lia|]. revert Hi. split_tests; lia.
Qed.

Lemma slot_tail rb :
  ring_wf rb -> status rb <> Full ->
  (head rb + available_read rb) mod RING_BUFFER_SIZE = tail rb.
Proof.
  intros [Ha Hh Ht Hs] Hnf. unfold available_read.
  destruct (status rb); [done|..]; split_tests; rewrite mod_wrap by lia; split_tests; lia.
Qed.

Lemma write_byte_spec rb b :
  ring_wf rb -> status rb <> Full ->
  exists rb', write_byte rb b = Some rb' /\ ring_wf rb' /\
    contents rb' = contents rb ++ [b].
Proof.
  intros Hwf Hnf. pose proof Hwf as [Ha Hh Ht Hs].
  destruct (write_byte rb b) as [rb'|] eqn:E.
  2: { unfold write_byte in E. rewrite bool_decide_eq_true_2 in E by lia. done. }
  destruct (write_byte_avail rb b rb' Hwf Hnf E) as [Hav Hwf'].
  exists rb'. split_and!; auto. unfold contents. rewrite Hav, seq_S, fmap_app. simpl.
  unfold write_byte in E. rewrite bool_decide_eq_true_2 in E by lia. injection E as <-.
  f_equal.
  - apply list_fmap_ext. intros k i [Hk Hlt]%lookup_seq.
    unfold slot at 1; simpl. apply slot_insert_tail; auto; lia.
  - f_equal. unfold slot; simpl. rewrite slot_tail by auto.
    apply list_lookup_total_insert_eq. lia.
Qed.

Lemma read_byte_spec rb :
  ring_wf rb -> status rb <> Empty ->
  exists c rb', read_byte rb = Some (c, rb') /\ ring_wf rb' /\
    contents rb = c :: contents rb'.
Proof.
  intros Hwf Hne. pose proof Hwf as [Ha Hh Ht Hs]. pose proof size_pos.
  destruct (lookup_lt_is_Some_2 (arr rb) (head rb)) as [c Hc]; [lia|].
  unfold read_byte. rewrite Hc. simpl. eexists _, _. split_and!; [reflexivity|..].
  { split; simpl; auto.
    - apply Nat.mod_upper_bound. lia.
    - split_tests; auto. }
  set (rb' := mkRing _ _ _ _).
  assert (available_read rb = S (available_read rb')) as Hav.
  { unfold available_read, rb'; simpl. rewrite mod_succ_cases by lia.
    destruct (Nat.eqb_spec (head rb + 1) RING_BUFFER_SIZE);
      destruct (status rb); try done; split_tests; lia. }
  unfold contents. rewrite Hav. simpl. f_equal.
  - unfold slot. rewrite Nat.add_0_r, Nat.mod_small by lia. 
    by apply list_lookup_total_correct.
  - rewrite <- fmap_S_seq, <- list_fmap_compose. apply list_fmap_ext.
    intros k i _. unfold slot, rb'; simpl. f_equal.
    rewrite Nat.Div0.add_mod_idemp_l. f_equal. lia.
Qed.

Lemma not_empty_status rb : contents rb <> [] -> status rb <> Empty.
Proof. unfold contents, available_read. by destruct (status rb). Qed.

Lemma not_full_status rb :
  ring_wf rb -> length (contents rb) < RING_BUFFER_SIZE -> status rb <> Full.
Proof.
  intros [? ? ? Hs] H E. rewrite contents_length in H. unfold available_read in H.
  rewrite E in *. revert H. split_tests; lia.
Qed.
#[local] Hint Resolve not_empty_status not_full_status : vegar.

Lemma read_bytes_spec n rb :
  ring_wf rb -> n <= length (contents rb) ->
  exists rb', read_bytes n rb = Some (take n (contents rb), rb') /\ ring_wf rb' /\
    contents rb' = drop n (contents rb).
Proof.
  revert rb. induction n as [|n IH]; intros rb Hwf Hn.
  { exists rb. auto. }
  destruct (read_byte_spec rb) as (c & rb1 & E & Hwf1 & Hc); auto.
  { apply not_empty_status. intros C. rewrite C in Hn. simpl in Hn. lia. }
  rewrite Hc in Hn. simpl in Hn.
  destruct (IH rb1 Hwf1) as (rb2 & E2 & Hwf2 & Hc2); [lia|].
  exists rb2. simpl. rewrite E. simpl. rewrite E2. simpl. rewrite Hc. auto.
Qed.

Lemma write_bytes_spec n buf ws rb :
  ring_wf rb -> ws <= length buf -> n <= RING_BUFFER_SIZE - length (contents rb) ->
  exists rb', write_bytes n buf ws rb =
      Some (if length buf - ws <? n then Return (length buf) else Again (ws + n), rb') /\
    ring_wf rb' /\ contents rb' = contents rb ++ take n (drop ws buf).
Proof.
  revert ws rb. induction n as [|n IH]; intros ws rb Hwf Hws Hn; simpl.
  { exists rb. rewrite Nat.add_0_r, take_0, app_nil_r. auto. }
  destruct (Nat.eqb_spec ws (length buf)) as [->|Hne].
  { exists rb. rewrite Nat.sub_diag, drop_all, take_nil, app_nil_r. auto. }
  destruct (lookup_lt_is_Some_2 buf ws) as [b Hb]; [lia|].
  destruct (write_byte_spec rb b) as (rb1 & E1 & Hwf1 & Hc1); auto.
  { apply not_full_status; auto. lia. }
  destruct (IH (ws + 1) rb1) as (rb2 & E2 & Hwf2 & Hc2); auto; [lia|..].
  { rewrite Hc1, length_app. simpl. lia. }
  exists rb2. rewrite Hb. simpl. rewrite E1. simpl. rewrite E2.
  split_and!; auto.
  - split_tests; do 3 f_equal; lia.
  - rewrite Hc2, Hc1, (drop_lookup_cons buf ws b Hb), <- app_assoc. simpl.
    do 2 f_equal. f_equal. f_equal. lia.
Qed.

(** ** The abstract pipe

    A bounded queue of bytes; the two operations as a lock-holding iteration
    performs them. *)

Definition spec_read (q : list Z) (cl : bool) (buf : list Z)
  : iter (nat * list Z) unit * list Z :=
  let n := length q `min` length buf in
  if n =? 0 then (if cl then Return (0, buf) else Again tt, q)
  else (Return (n, take n q ++ drop n buf), drop n q).

Definition spec_write (q : list Z) (cl : bool) (buf : list Z) (ws : nat)
  : iter nat nat * list Z :=
  let room := RING_BUFFER_SIZE - length q in
  if room =? 0 then (if cl then Return ws else Again ws, q)
  else (if length buf - ws <? room then Return (length buf) else Again (ws + room),
        q ++ take room (drop ws buf)).

Lemma read_iter_refines sh buf :
  ring_wf (ring sh) ->
  exists sh', read_iter sh buf = Some (fst (spec_read (contents (ring sh)) (closed sh) buf), sh')
    /\ ring_wf (ring sh') /\ strong_count sh' = strong_count sh
    /\ contents (ring sh') = snd (spec_read (contents (ring sh)) (closed sh) buf).
Proof.
  intros Hwf. unfold read_iter, spec_read. rewrite contents_length.
  destruct (Nat.eqb_spec (available_read (ring sh) `min` length buf) 0) as [E|E].
  { exists sh. destruct (closed sh); auto. }
  destruct (read_bytes_spec (available_read (ring sh) `min` length buf) (ring sh))
    as (rb & Er & Hwf' & Hc); auto.
  { rewrite contents_length. lia. }
  eexists. rewrite Er. simpl. eauto.
Qed.

Lemma write_iter_refines sh buf ws :
  ring_wf (ring sh) -> ws <= length buf ->
  exists sh', write_iter sh buf ws =
      Some (fst (spec_write (contents (ring sh)) (closed sh) buf ws), sh')
    /\ ring_wf (ring sh') /\ strong_count sh' = strong_count sh
    /\ contents (ring sh') = snd (spec_write (contents (ring sh)) (closed sh) buf ws).
Proof.
  intros Hwf Hws. unfold write_iter, spec_write. rewrite available_write_eq by auto.
  destruct (Nat.eqb_spec (RING_BUFFER_SIZE - length (contents (ring sh))) 0) as [E|E].
  { exists sh. destruct (closed sh); auto. }
  destruct (write_bytes_spec (RING_BUFFER_SIZE - length (contents (ring sh))) buf ws (ring sh))
    as (rb & Er & Hwf' & Hc); auto.
  eexists. rewrite Er. simpl. eauto.
Qed.

(** Whatever an iteration answers, it leaves a ring in order. *)
Lemma write_bytes_wf n buf ws rb r rb' :
  ring_wf rb -> n <= RING_BUFFER_SIZE - length (contents rb) ->
  write_bytes n buf ws rb = Some (r, rb') -> ring_wf rb'.
Proof.
  revert ws rb. induction n as [|n IH]; intros ws rb Hwf Hn; simpl; [by intros [= _ <-]|].
  destruct (ws =? length buf); [by intros [= _ <-]|]. destruct (buf !! ws) as [b|]; [|done]. simpl.
  destruct (write_byte_spec rb b) as (rb1 & E1 & Hwf1 & Hc1); auto.
  { apply not_full_status; auto. lia. }
  rewrite E1. simpl. apply IH; [done|]. rewrite Hc1, length_app. simpl. lia.
Qed.
Lemma write_iter_wf sh buf ws r sh' : ring_wf (ring sh) -> write_iter sh buf ws = Some (r, sh') -> ring_wf (ring sh').
Proof.
  intros Hwf. unfold write_iter. destruct (_ =? 0); [destruct (closed sh); by intros [= _ <-]|].
  destruct (write_bytes _ _ _ _) as [[x rb]|] eqn:E; [|done]. simpl. intros [= _ <-].
  eapply write_bytes_wf; [exact Hwf| |exact E]. by rewrite available_write_eq.
Qed.
Lemma read_iter_wf sh buf r sh' : ring_wf (ring sh) -> read_iter sh buf = Some (r, sh') -> ring_wf (ring sh').
Proof. intros Hwf E. destruct (read_iter_refines sh buf Hwf) as (sh1 & E1 & Hwf1 & _). by rewrite E in E1; simplify_eq. Qed.

(** ** Theorems *)

(** C18: the two lock-holding iterations of the pipe are a refinement of the
    abstract bounded queue: on a well-formed buffer they never panic, they
    answer what the abstract operation answers, and the bytes left in the ring
    are the abstract queue afterwards. *)
Theorem pipe_iterations_refine_queue sh buf ws :
  ring_wf (ring sh) -> ws <= length buf ->
  (exists sh', read_iter sh buf =
      Some (fst (spec_read (contents (ring sh)) (closed sh) buf), sh')
    /\ ring_wf (ring sh') /\ strong_count sh' = strong_count sh
    /\ contents (ring sh') = snd (spec_read (contents (ring sh)) (closed sh) buf)) /\
  (exists sh', write_iter sh buf ws =
      Some (fst (spec_write (contents (ring sh)) (closed sh) buf ws), sh')
    /\ ring_wf (ring sh') /\ strong_count sh' = strong_count sh
    /\ contents (ring sh') = snd (spec_write (contents (ring sh)) (closed sh) buf ws)).
Proof. auto using read_iter_refines, write_iter_refines. Qed.

Lemma pipe_iterations_refine_queue_witness :
  ring_wf (ring (snd pipe_new)) /\
  exists sh', write_iter (snd pipe_new) [7; 8]%Z 0 =
      Some (fst (spec_write [] false [7; 8]%Z 0), sh')
    /\ ring_wf (ring sh') /\ strong_count sh' = 2
    /\ contents (ring sh') = snd (spec_write [] false [7; 8]%Z 0).
Proof.
  split; [apply ring_new_wf|].
  apply (pipe_iterations_refine_queue (snd pipe_new) [7; 8]%Z 0); [apply ring_new_wf|].
  simpl. lia.
Defined.

(** *** Every interleaving of readers and writers

    The shared ring with the bytes that all writers have put in and the bytes
    that all readers have taken out so far.  A step is one lock-holding
    iteration of some thread's [read] or [write], or the drop of an end. *)

Record pipe_sys : Type := mkSys { sys_sh : SharedRing; sent : list Z; received : list Z }.

Definition sys_init : pipe_sys := mkSys (snd pipe_new) [] [].

Definition iter_written (ws : nat) (r : iter nat nat) : nat :=
  match r with Return n => n - ws | Again n => n - ws end.

Definition iter_taken (r : iter (nat * list Z) unit) : list Z :=
  match r with Return (n, b) => take n b | Again _ => [] end.

Inductive pipe_step : pipe_sys -> pipe_sys -> Prop :=
| step_write s buf ws r sh' :
    ws <= length buf ->
    write_iter (sys_sh s) buf ws = Some (r, sh') ->
    pipe_step s (mkSys sh' (sent s ++ take (iter_written ws r) (drop ws buf)) (received s))
| step_read s buf r sh' :
    read_iter (sys_sh s) buf = Some (r, sh') ->
    pipe_step s (mkSys sh' (sent s) (received s ++ iter_taken r))
| step_drop s :
    strong_count (sys_sh s) = 2 ->
    pipe_step s (mkSys (mkShared (ring (sys_sh s)) 1) (sent s) (received s)).

Definition pipe_inv (s : pipe_sys) : Prop :=
  ring_wf (ring (sys_sh s)) /\
  sent s = received s ++ contents (ring (sys_sh s)).

Lemma spec_read_taken q cl buf :
  q = iter_taken (fst (spec_read q cl buf)) ++ snd (spec_read q cl buf).
Proof.
  unfold spec_read. destruct (Nat.eqb_spec (length q `min` length buf) 0).
  - destruct cl; reflexivity.
  - simpl. rewrite take_app_le by (rewrite length_take; lia).
    rewrite take_take, Nat.min_id. symmetry. apply take_drop.
Qed.

Lemma spec_write_appended q cl buf ws :
  ws <= length buf ->
  snd (spec_write q cl buf ws) =
  q ++ take (iter_written ws (fst (spec_write q cl buf ws))) (drop ws buf).
Proof.
  intros Hws. unfold spec_write.
  destruct (Nat.eqb_spec (RING_BUFFER_SIZE - length q) 0).
  - destruct cl; simpl; rewrite Nat.sub_diag; simpl; by rewrite app_nil_r.
  - simpl. f_equal. split_tests; simpl.
    + rewrite !take_ge; rewrite ?length_drop; auto; lia.
    + f_equal. lia.
Qed.

Lemma pipe_step_inv s s' : pipe_inv s -> pipe_step s s' -> pipe_inv s'.
Proof.
  intros [Hwf Hs] Hstep. destruct Hstep as [s buf ws r sh' Hws E|s buf r sh' E|s H2]; simpl.
  - destruct (write_iter_refines (sys_sh s) buf ws) as (sh1 & E1 & ? & _ & Hc); auto.
    rewrite E in E1. injection E1 as -> <-. split; auto; simpl.
    by rewrite Hs, Hc, spec_write_appended, app_assoc.
  - destruct (read_iter_refines (sys_sh s) buf) as (sh1 & E1 & ? & _ & Hc); auto.
    rewrite E in E1. injection E1 as -> <-. split; auto; simpl.
    by rewrite Hs, Hc, <- app_assoc, <- spec_read_taken.
  - split; auto.
Qed.

Lemma pipe_reachable_inv s : rtc pipe_step sys_init s -> pipe_inv s.
Proof.
  intros H. remember sys_init as s0 eqn:E.
  assert (pipe_inv s0) as Hi.
  { subst. split; [apply ring_new_wf|reflexivity]. }
  clear E. induction H; eauto using pipe_step_inv.
Qed.

(** C11: under every interleaving of any number of readers and writers, the
    bytes received so far followed by the bytes in the ring are exactly the
    bytes sent so far, in order: the pipe neither loses, duplicates nor
    reorders a byte, it never holds more than its capacity, and no iteration
    of any thread can panic. *)
Theorem pipe_fifo_all_interleavings s :
  rtc pipe_step sys_init s ->
  sent s = received s ++ contents (ring (sys_sh s)) /\
  length (contents (ring (sys_sh s))) <= RING_BUFFER_SIZE /\
  (forall buf, is_Some (read_iter (sys_sh s) buf)) /\
  (forall buf ws, ws <= length buf -> is_Some (write_iter (sys_sh s) buf ws)).
Proof.
  intros [Hwf Hs]%pipe_reachable_inv. split_and!; auto.
  - rewrite contents_length. by apply available_read_bound.
  - intros buf. destruct (read_iter_refines (sys_sh s) buf) as (? & -> & _); eauto.
  - intros buf ws H. destruct (write_iter_refines (sys_sh s) buf ws) as (? & -> & _); eauto.
Qed.

Lemma pipe_fifo_all_interleavings_witness :
  exists s, rtc pipe_step sys_init s /\ received s = [1; 2]%Z /\ sent s = [1; 2; 3]%Z /\
    sent s = received s ++ contents (ring (sys_sh s)).
Proof.
  eexists ?[s]. assert (rtc pipe_step sys_init ?s) as Hr.
  { eapply rtc_l; [eapply (step_write sys_init [1; 2; 3]%Z 0); [simpl; lia|vm_compute; reflexivity]|].
    eapply rtc_l; [eapply (step_read _ [0; 0]%Z); vm_compute; reflexivity|].
    apply rtc_refl. }
  split; [exact Hr|]. split; [reflexivity|]. split; [reflexivity|].
  apply (pipe_fifo_all_interleavings _ Hr).
Defined.

(** *** Whole calls *)

Definition env_wf (env : environment) : Prop :=
  forall i sh, ring_wf (ring sh) -> ring_wf (ring (env i sh)).

(** The others only read, and they make room before each retry of the writer. *)
Definition env_drains (env : environment) : Prop :=
  forall i sh, ring_wf (ring sh) ->
    0 < available_write (ring (env i sh)) /\
    exists n, n <= length (contents (ring sh)) /\ contents (ring (env i sh)) = drop n (contents (ring sh)).

(** What the readers take out of the ring in the course of a write: the bytes that
    are gone after each of their turns, in the order of the turns. *)
Definition removed (sh sh' : SharedRing) : list Z :=
  take (length (contents (ring sh)) - length (contents (ring sh'))) (contents (ring sh)).
Fixpoint write_taken (fuel : nat) (env : environment) (i : nat) (sh : SharedRing) (buf : list Z) (ws : nat) : list Z :=
  match fuel with
  | O => []
  | S fuel' =>
      match write_iter sh buf ws with
      | Some (Again ws', sh') => removed sh' (env i sh') ++ write_taken fuel' env (S i) (env i sh') buf ws'
      | _ => []
      end
  end.

Lemma removed_drained env i sh : env_drains env -> ring_wf (ring sh) ->
  removed sh (env i sh) ++ contents (ring (env i sh)) = contents (ring sh).
Proof.
  intros Hd Hw. destruct (Hd i sh Hw) as (_ & n & Hn & E). unfold removed. rewrite E, length_drop.
  replace (length (contents (ring sh)) - (length (contents (ring sh)) - n)) with n by lia. apply take_drop.
Qed.

(** One iteration of the writer keeps the order of the bytes. *)
Lemma write_iter_stream sh buf ws : ring_wf (ring sh) -> ws <= length buf ->
  exists r sh', write_iter sh buf ws = Some (r, sh') /\ ring_wf (ring sh') /\
    r = fst (spec_write (contents (ring sh)) (closed sh) buf ws) /\
    match r with
    | Return n => n = length buf -> contents (ring sh') = contents (ring sh) ++ drop ws buf
    | Again ws' => contents (ring sh') ++ drop ws' buf = contents (ring sh) ++ drop ws buf
    end.
Proof.
  intros Hw Hs. destruct (write_iter_refines sh buf ws Hw Hs) as (sh' & E & Hw' & _ & Hc).
  eexists _, sh'. split_and!; [exact E|done|done|]. rewrite Hc. unfold spec_write.
  split_tests; [destruct (closed sh)|..]; simpl.
  - intros ->. by rewrite drop_ge, app_nil_r by lia.
  - done.
  - intros _. f_equal. apply take_ge. rewrite length_drop. lia.
  - rewrite <- app_assoc. f_equal. rewrite <- (take_drop (RING_BUFFER_SIZE - length (contents (ring sh))) (drop ws buf)) at 2.
    f_equal. rewrite drop_drop. f_equal; lia.
Qed.

Lemma write_loop_stream env fuel i sh buf ws :
  env_wf env -> env_drains env -> ring_wf (ring sh) -> ws <= length buf ->
  forall sh', write_loop fuel env i sh buf ws = Some (Ok (length buf), sh') ->
  write_taken fuel env i sh buf ws ++ contents (ring sh') = contents (ring sh) ++ drop ws buf.
Proof.
  intros Henv Hdr. revert i sh ws. induction fuel as [|fuel IH]; intros i sh ws Hwf Hws sh'; [done|]. simpl.
  destruct (write_iter_stream sh buf ws Hwf Hws) as (r & s1 & -> & Hw1 & Er & Hs). simpl. destruct r as [n|ws'].
  - intros [= -> <-]. by rewrite Hs.
  - intros El. pose proof (removed_drained env i s1 Hdr Hw1) as Ed. rewrite <- Hs, <- Ed, <- !app_assoc. f_equal.
    apply IH; auto. revert Er. unfold spec_write. split_tests; [destruct (closed sh)|..]; simpl; intros [= ->]; lia.
Qed.

Lemma write_loop_drains env fuel i sh buf ws :
  env_wf env -> env_drains env ->
  ring_wf (ring sh) -> ws <= length buf -> 0 < available_write (ring sh) ->
  length buf - ws < fuel ->
  exists sh', write_loop fuel env i sh buf ws = Some (Ok (length buf), sh').
Proof.
  intros Henv Hdr. revert i sh ws.
  induction fuel as [|fuel IH]; intros i sh ws Hwf Hws Hav Hf; [lia|]. simpl.
  destruct (write_iter_refines sh buf ws) as (sh' & -> & Hwf' & _); auto. simpl.
  rewrite available_write_eq in Hav by auto. unfold spec_write.
  destruct (Nat.eqb_spec (RING_BUFFER_SIZE - length (contents (ring sh))) 0); [lia|].
  split_tests; simpl; [eauto|]. apply IH; auto; [lia|by apply Hdr|lia].
Qed.

(** C26: a blocking write sends its whole buffer.  When the other threads only read
    while the write waits, and make room before each retry, [write] returns the length of
    the buffer after at most one iteration per byte and two more, and what the readers
    took meanwhile, followed by what is in the ring at the end, is what was in the
    ring at the start followed by the bytes of the buffer, in order. *)
Theorem pipe_write_completes env sh buf :
  env_wf env -> env_drains env -> ring_wf (ring sh) -> closed sh = false ->
  exists sh', pipe_write (length buf + 2) env (mkPipe false) sh buf = Some (Ok (length buf), sh') /\
    (if bool_decide (buf = []) then [] else write_taken (length buf + 2) env 0 sh buf 0) ++ contents (ring sh') =
    contents (ring sh) ++ buf.
Proof.
  intros Henv Hdr Hwf Hcl. unfold pipe_write. simpl. rewrite Hcl.
  case_bool_decide as Hb; [subst; rewrite app_nil_r; eauto|].
  assert (exists sh', write_loop (length buf + 2) env 0 sh buf 0 = Some (Ok (length buf), sh')) as [sh' E].
  { rewrite Nat.add_succ_r. simpl.
    destruct (write_iter_refines sh buf 0) as (sh' & -> & Hwf' & _); [auto|lia|]. simpl.
    unfold spec_write. split_tests; [rewrite Hcl| |]; simpl; eauto;
      apply write_loop_drains; auto; try lia; by apply Hdr. }
  exists sh'. split; [exact E|]. by apply (write_loop_stream env _ 0 sh buf 0 Henv Hdr Hwf ltac:(lia)) in E.
Qed.

(** A reader that empties the ring before each retry, for a buffer that is larger than
    the ring: the write goes round more than once. *)
Definition reader : environment := fun _ sh =>
  match read_bytes (length (contents (ring sh))) (ring sh) with
  | Some (_, rb) => mkShared rb (strong_count sh)
  | None => sh
  end.
Lemma reader_spec sh : ring_wf (ring sh) -> ring_wf (ring (reader 0 sh)) /\ contents (ring (reader 0 sh)) = [].
Proof.
  intros Hw. unfold reader. destruct (read_bytes_spec (length (contents (ring sh))) (ring sh) Hw (le_n _)) as (rb & -> & Hw' & E).
  simpl. by rewrite E, drop_all.
Qed.

Lemma pipe_write_completes_witness :
  let buf := replicate 200 5%Z ++ replicate 100 6%Z in
  write_taken 302 reader 0 (snd pipe_new) buf 0 = replicate 200 5%Z ++ replicate 56 6%Z /\
  exists sh', pipe_write 302 reader (mkPipe false) (snd pipe_new) buf = Some (Ok 300, sh') /\
    write_taken 302 reader 0 (snd pipe_new) buf 0 ++ contents (ring sh') = buf.
Proof.
  intros buf. split; [vm_compute; reflexivity|]. apply (pipe_write_completes reader (snd pipe_new) buf).
  - intros i sh Hw. by apply (reader_spec sh Hw).
  - intros i sh Hw. destruct (reader_spec sh Hw) as [Hw' E]. split.
    + rewrite available_write_eq by exact Hw'. change (reader i sh) with (reader 0 sh). rewrite E. vm_compute. lia.
    + exists (length (contents (ring sh))). split; [lia|]. change (reader i sh) with (reader 0 sh). by rewrite E, drop_all.
  - apply ring_new_wf.
  - reflexivity.
Defined.

(** The shared ring as the reader finds it at its [k]-th retry. *)
Fixpoint evolve (env : environment) (i k : nat) (sh : SharedRing) : SharedRing :=
  match k with O => sh | S k' => evolve env (S i) k' (env i sh) end.

(** The answer of a read that found the ring as [sh]: the oldest bytes, as many
    as there are and fit; nothing only when the other end is closed. *)
Definition read_answer (sh : SharedRing) (buf : list Z) (n : nat) (buf' : list Z) : Prop :=
  n = length (contents (ring sh)) `min` length buf /\
  buf' = take n (contents (ring sh)) ++ drop n buf /\
  (n = 0 -> closed sh = true).

Lemma read_iter_cases sh buf :
  ring_wf (ring sh) -> buf <> [] ->
  (contents (ring sh) = [] /\ closed sh = false /\ read_iter sh buf = Some (Again tt, sh)) \/
  (exists n buf' sh', read_iter sh buf = Some (Return (n, buf'), sh') /\ read_answer sh buf n buf').
Proof.
  intros Hwf Hb. destruct (read_iter_refines sh buf) as (sh' & E & _); auto.
  unfold spec_read, read_answer in *.
  destruct (Nat.eqb_spec (length (contents (ring sh)) `min` length buf) 0) as [Ez|Enz].
  - destruct (closed sh) eqn:Hc; [right|left]; simpl in E.
    + eexists _, _, _. split; [exact E|]. rewrite Ez. auto.
    + destruct buf; [done|]. simpl in Ez. 
      assert (contents (ring sh) = []) as -> by (apply length_zero_iff_nil; lia).
      split_and!; auto. unfold read_iter in *. rewrite <- contents_length, Hc in *.
      destruct (_ =? 0) eqn:Et; [done|].
      apply Nat.eqb_neq in Et. simpl in *. lia.
  - right. eexists _, _, _. split; [exact E|]. split_and!; auto; lia.
Qed.

Lemma read_loop_ready env k i sh buf :
  env_wf env -> ring_wf (ring sh) -> buf <> [] ->
  (contents (ring (evolve env i k sh)) <> [] \/ closed (evolve env i k sh) = true) ->
  exists j n buf' sh', j <= k /\ read_loop (S k) env i sh buf = Some (Ok (n, buf'), sh') /\
    read_answer (evolve env i j sh) buf n buf'.
Proof.
  intros Henv. revert i sh. induction k as [|k IH]; intros i sh Hwf Hb Hr; simpl in Hr;
    (destruct (read_iter_cases sh buf) as [(Hq & Hc & E)|(n & buf' & sh' & E & Ha)];
      [auto|auto| |exists 0, n, buf', sh'; simpl; rewrite E; auto with lia]).
  - rewrite Hq, Hc in Hr. by destruct Hr.
  - destruct (IH (S i) (env i sh)) as (j & n & buf' & sh' & Hj & E' & Ha); auto.
    exists (S j), n, buf', sh'. simpl in *. rewrite E. simpl. auto with lia.
Qed.

(** A blocking read completes: if at its [k]-th retry the pipe holds a byte
    or its write end is gone, [read] has returned by then.  It answers with the
    oldest bytes of the pipe as it stood at the retry that succeeded, as many as
    there are and fit, and answers 0 only when the write end is gone. *)
Theorem pipe_read_completes env k sh buf :
  env_wf env -> ring_wf (ring sh) -> buf <> [] ->
  (contents (ring (evolve env 0 k sh)) <> [] \/ closed (evolve env 0 k sh) = true) ->
  exists j n buf' sh', j <= k /\
    pipe_read (S k) env (mkPipe true) sh buf = Some (Ok (n, buf'), sh') /\
    read_answer (evolve env 0 j sh) buf n buf'.
Proof.
  intros Henv Hwf Hb Hr. unfold pipe_read. simpl negb.
  rewrite bool_decide_eq_false_2 by done. by apply read_loop_ready.
Qed.

(** A writer that appends a byte at its first turn: the blocked reader wakes. *)
Definition one_byte_env : environment :=
  fun _ sh => match write_iter sh [9]%Z 0 with Some (_, sh') => sh' | None => sh end.

Lemma one_byte_env_wf : env_wf one_byte_env.
Proof.
  intros i sh Hwf. unfold one_byte_env.
  destruct (write_iter_refines sh [9]%Z 0) as (sh' & -> & ? & _); auto. simpl. lia.
Qed.

Lemma pipe_read_completes_witness :
  exists j n buf' sh', j <= 1 /\
    pipe_read 2 one_byte_env (mkPipe true) (snd pipe_new) [0; 0]%Z = Some (Ok (n, buf'), sh') /\
    read_answer (evolve one_byte_env 0 j (snd pipe_new)) [0; 0]%Z n buf'.
Proof.
  apply (pipe_read_completes one_byte_env 1 (snd pipe_new) [0; 0]%Z);
    [apply one_byte_env_wf | apply ring_new_wf | discriminate | left; vm_compute; discriminate].
Defined.

(** A write that exactly fills the pipe does not return while nobody reads:
    one iteration moves the whole buffer into the ring, and yet the call stays
    in its loop for ever, because the test for completion stands inside the
    byte loop and the full ring is only ever retried. *)
Theorem pipe_write_exact_fill_blocks sh buf :
  ring_wf (ring sh) -> closed sh = false -> buf <> [] ->
  length buf = available_write (ring sh) ->
  (exists sh', write_iter sh buf 0 = Some (Again (length buf), sh') /\
     contents (ring sh') = contents (ring sh) ++ buf) /\
  forall fuel, pipe_write fuel (fun _ s => s) (mkPipe false) sh buf = None.
Proof.
  intros Hwf Hcl Hb Hlen. rewrite available_write_eq in Hlen by auto.
  assert (length buf <> 0) as Hb' by (destruct buf; simpl; auto).
  destruct (write_iter_refines sh buf 0) as (sh' & E & Hwf' & Hs & Hc); [auto|lia|].
  unfold spec_write in E, Hc. rewrite <- Hlen in E, Hc.
  destruct (Nat.eqb_spec (length buf) 0) as [|_]; [lia|].
  rewrite Nat.sub_0_r, Nat.ltb_irrefl, drop_0 in *. simpl in E, Hc. rewrite firstn_all in Hc.
  split; [eauto|]. intros fuel. unfold pipe_write. simpl. rewrite Hcl.
  rewrite bool_decide_eq_false_2 by done.
  destruct fuel as [|fuel]; simpl; [done|]. rewrite E. simpl.
  assert (write_iter sh' buf (length buf) = Some (Again (length buf), sh')) as E'.
  { unfold write_iter. rewrite available_write_eq, Hc, length_app by auto.
    replace (_ - _) with 0 by lia. unfold closed in *. by rewrite Hs, Hcl. }
  generalize 1 at 1. induction fuel as [|fuel IH]; intros i; simpl; [done|]. rewrite E'. apply IH.
Qed.

Lemma pipe_write_exact_fill_blocks_witness :
  (exists sh', write_iter (snd pipe_new) (replicate 256 65%Z) 0 = Some (Again 256, sh') /\
     contents (ring sh') = contents ring_new ++ replicate 256 65%Z) /\
  forall fuel, pipe_write fuel (fun _ s => s) (mkPipe false) (snd pipe_new)
    (replicate 256 65%Z) = None.
Proof.
  exact (pipe_write_exact_fill_blocks (snd pipe_new) (replicate 256 65%Z)
    ring_new_wf eq_refl ltac:(discriminate) ltac:(vm_compute; reflexivity)).
Defined.
