(* ===== verification/TimeStat.v ===== *)
(** * Time statistics: [core/src/time.rs] and its callers in [core/src/task.rs]

    The user and system time of a task and its interval timer.  Time stamps and
    counters are [usize]; the operators wrap. *)

From stdpp Require Import base list.
From Stdlib Require Import ZArith Lia.
From S2P Require Import Prelude.
Import ListNotations.

Inductive TimerType : Type := NONE | REAL | VIRTUAL | PROF.

#[export] Instance TimerType_eq_dec : EqDecision TimerType.
Proof. solve_decision. Defined.

(** [TryFrom<i32>] of the [numeric_enum!], and [From<usize>]. *)
Definition timer_type_try_from (n : Z) : option TimerType :=
  if n =? -1 then Some NONE
  else if n =? 0 then Some REAL
  else if n =? 1 then Some VIRTUAL
  else if n =? 2 then Some PROF
  else None.

Definition timer_type_from (num : Z) : TimerType :=
  match timer_type_try_from (as_i32 num) with Some v => v | None => NONE end.

Record TimeStat : Type := mkTimeStat {
  utime_ns : Z;
  stime_ns : Z;
  user_timestamp : Z;
  kernel_timestamp : Z;
  timer_type : TimerType;
  timer_interval_ns : Z;
  timer_remained_ns : Z
}.

Definition ts_new : TimeStat := mkTimeStat 0 0 0 0 NONE 0 0.

Definition output (t : TimeStat) : Z * Z := (utime_ns t, stime_ns t).

Definition reset (t : TimeStat) (current_timestamp : Z) : TimeStat :=
  mkTimeStat 0 0 0 current_timestamp (timer_type t) (timer_interval_ns t) (timer_remained_ns t).

Definition update_timer (t : TimeStat) (delta : Z) : TimeStat :=
  if timer_remained_ns t =? 0 then t
  else if delta <? timer_remained_ns t then
    mkTimeStat (utime_ns t) (stime_ns t) (user_timestamp t) (kernel_timestamp t)
      (timer_type t) (timer_interval_ns t) (timer_remained_ns t - delta)
  else t.

Definition switch_into_kernel_mode (t : TimeStat) (now : Z) : TimeStat :=
  let delta := as_usize (now - kernel_timestamp t) in
  let t := mkTimeStat (as_usize (utime_ns t + delta)) (stime_ns t) (user_timestamp t) now
             (timer_type t) (timer_interval_ns t) (timer_remained_ns t) in
  if bool_decide (timer_type t <> NONE) then update_timer t delta else t.

Definition switch_into_user_mode (t : TimeStat) (now : Z) : TimeStat :=
  let delta := as_usize (now - kernel_timestamp t) in
  let t := mkTimeStat (utime_ns t) (as_usize (stime_ns t + delta)) now (kernel_timestamp t)
             (timer_type t) (timer_interval_ns t) (timer_remained_ns t) in
  if bool_decide (timer_type t = REAL) || bool_decide (timer_type t = PROF)
  then update_timer t delta else t.

Definition switch_from_old_task (t : TimeStat) (now : Z) : TimeStat :=
  let delta := as_usize (now - kernel_timestamp t) in
  let t := mkTimeStat (utime_ns t) (as_usize (stime_ns t + delta)) (user_timestamp t) now
             (timer_type t) (timer_interval_ns t) (timer_remained_ns t) in
  if bool_decide (timer_type t = REAL) || bool_decide (timer_type t = PROF)
  then update_timer t delta else t.

Definition switch_to_new_task (t : TimeStat) (now : Z) : TimeStat :=
  let delta := as_usize (now - kernel_timestamp t) in
  let t := mkTimeStat (utime_ns t) (stime_ns t) (user_timestamp t) now
             (timer_type t) (timer_interval_ns t) (timer_remained_ns t) in
  if bool_decide (timer_type t = REAL) then update_timer t delta else t.

Definition set_timer (t : TimeStat) (interval remained ty : Z) : bool * TimeStat :=
  let t := mkTimeStat (utime_ns t) (stime_ns t) (user_timestamp t) (kernel_timestamp t)
             (timer_type_from ty) interval remained in
  (bool_decide (timer_type t <> NONE), t).

(** [task.rs]: [time_stat_from_user_to_kernel] on entry of a system call,
    [time_stat_from_kernel_to_user] on its way out, and the output in seconds
    and microseconds. *)
Definition NANOS_PER_SEC : Z := 1000000000.
Definition NANOS_PER_MICROS : Z := 1000.

Definition time_stat_from_user_to_kernel (monotonic_ns : Z) (t : TimeStat) : TimeStat :=
  switch_into_kernel_mode t (as_usize monotonic_ns).
Definition time_stat_from_kernel_to_user (monotonic_ns : Z) (t : TimeStat) : TimeStat :=
  switch_into_user_mode t (as_usize monotonic_ns).

Definition time_stat_output (t : TimeStat) : Z * Z * Z * Z :=
  let '(utime_ns, stime_ns) := output t in
  (utime_ns / NANOS_PER_SEC, utime_ns / NANOS_PER_MICROS,
   stime_ns / NANOS_PER_SEC, stime_ns / NANOS_PER_MICROS).

(** ** Accounting over a run of system calls

    A system call is the pair of the times it enters and leaves the kernel. *)

Definition syscall_times (t : TimeStat) (ex : Z * Z) : TimeStat :=
  time_stat_from_kernel_to_user (snd ex) (time_stat_from_user_to_kernel (fst ex) t).

Definition run_syscalls (t : TimeStat) (exs : list (Z * Z)) : TimeStat :=
  foldl syscall_times t exs.

(** The clock does not run backwards and fits the counters. *)
Fixpoint clock_ok (from : Z) (exs : list (Z * Z)) : Prop :=
  match exs with
  | [] => True
  | (e, x) :: exs' => from <= e <= x /\ x < 2 ^ 64 /\ clock_ok x exs'
  end.

(** The time really spent in user mode since [from], and in the kernel. *)
Fixpoint user_time (from : Z) (exs : list (Z * Z)) : Z :=
  match exs with [] => 0 | (e, x) :: exs' => (e - from) + user_time x exs' end.
Fixpoint system_time (exs : list (Z * Z)) : Z :=
  match exs with [] => 0 | (e, x) :: exs' => (x - e) + system_time exs' end.

Lemma update_timer_times t d :
  utime_ns (update_timer t d) = utime_ns t /\ stime_ns (update_timer t d) = stime_ns t /\
  kernel_timestamp (update_timer t d) = kernel_timestamp t.
Proof. unfold update_timer. repeat case_match; auto. Qed.

Lemma syscall_times_fields t e x :
  is_usize e -> is_usize x ->
  let t' := syscall_times t (e, x) in
  utime_ns t' = as_usize (utime_ns t + as_usize (e - kernel_timestamp t)) /\
  stime_ns t' = as_usize (stime_ns t + as_usize (x - e)) /\
  kernel_timestamp t' = e.
Proof.
  unfold is_usize. intros He Hx. unfold syscall_times, time_stat_from_kernel_to_user,
    time_stat_from_user_to_kernel, switch_into_kernel_mode, switch_into_user_mode. cbn [fst snd].
  replace (as_usize e) with e by (symmetry; apply wrap_small, He).
  replace (as_usize x) with x by (symmetry; apply wrap_small, Hx).
  repeat case_match; rewrite ?(proj1 (update_timer_times _ _)),
    ?(proj1 (proj2 (update_timer_times _ _))), ?(proj2 (proj2 (update_timer_times _ _)));
    simpl; rewrite ?(proj1 (update_timer_times _ _)),
    ?(proj1 (proj2 (update_timer_times _ _))), ?(proj2 (proj2 (update_timer_times _ _))); auto.
Qed.

Lemma user_system_last from exs e x :
  user_time from (exs ++ [(e, x)]) + system_time exs = e - from.
Proof.
  revert from. induction exs as [|[e1 x1] exs IH]; intros from; simpl; [lia|].
  specialize (IH x1). lia.
Qed.

Lemma clock_ok_snoc from exs e x :
  clock_ok from (exs ++ [(e, x)]) ->
  clock_ok from exs /\ from <= e <= x /\ x < 2 ^ 64 /\ 0 <= system_time exs <= e - from /\
  from <= from_option fst from (last exs) <= e.
Proof.
  revert from. induction exs as [|[e1 x1] exs IH]; intros from; simpl; [intuition lia|].
  intros (H1 & H2 & (A & B & C & D & E)%IH). split_and!; auto; try lia;
    destruct exs as [|ex exs]; simpl in *; try lia; destruct (last (ex :: exs)); simpl in *; lia.
Qed.

Lemma system_time_snoc exs e x : system_time (exs ++ [(e, x)]) = system_time exs + (x - e).
Proof. induction exs as [|[e1 x1] exs IH]; simpl; lia. Qed.

Lemma run_syscalls_inv start exs :
  0 <= start -> clock_ok start exs ->
  let t := run_syscalls ts_new exs in
  utime_ns t = kernel_timestamp t /\ stime_ns t = system_time exs /\
  kernel_timestamp t = from_option fst 0 (last exs).
Proof.
  intros Hs. induction exs as [|[e x] exs IH] using rev_ind; [done|].
  intros (Hok & He & Hx & Hst & Hl)%clock_ok_snoc. destruct (IH Hok) as (Hu & Hsys & Hk).
  unfold run_syscalls in *. rewrite foldl_app, last_snoc, system_time_snoc. cbn [foldl].
  destruct (syscall_times_fields (foldl syscall_times ts_new exs) e x) as (Eu & Es & Ek);
    [unfold is_usize; lia..|].
  rewrite Eu, Es, Ek, Hu, Hsys, Hk. unfold as_usize.
  destruct (last exs); simpl in *; split_and!; auto; rewrite !wrap_small; rewrite ?wrap_small; lia.
Qed.

(** What the two counters of a task hold after a run of system calls.  The
    system time is exact: the sum of the times spent between kernel entry and
    exit.  The user time is the time of the last kernel entry: the true user
    time since the task started, plus the system time of every earlier call,
    plus the whole time before the task started, because an entry is measured
    from the previous entry ([kernel_timestamp]) and not from the last return
    to user mode. *)
Theorem time_accounting start exs e x :
  0 <= start -> clock_ok start (exs ++ [(e, x)]) ->
  let t := run_syscalls ts_new (exs ++ [(e, x)]) in
  stime_ns t = system_time (exs ++ [(e, x)]) /\
  utime_ns t = start + user_time start (exs ++ [(e, x)]) + system_time exs.
Proof.
  intros Hs Hok t. destruct (run_syscalls_inv start _ Hs Hok) as (Hu & Hsys & Hk).
  fold t in Hu, Hsys, Hk. rewrite last_snoc in Hk. simpl in Hk.
  pose proof (user_system_last start exs e x). split; [done|]. lia.
Qed.

Lemma time_accounting_witness :
  let t := run_syscalls ts_new ([(105, 110)] ++ [(113, 120)]) in
  stime_ns t = 12 /\ utime_ns t = 100 + 8 + 5.
Proof.
  apply (time_accounting 100 [(105, 110)] 113 120); [lia | simpl; lia].
Defined.

(** ** The interval timer *)

Inductive ts_op : Type :=
| OpIntoKernel (now : Z) | OpIntoUser (now : Z) | OpFromOld (now : Z) | OpToNew (now : Z)
| OpReset (now : Z).

Definition ts_exec (t : TimeStat) (op : ts_op) : TimeStat :=
  match op with
  | OpIntoKernel n => switch_into_kernel_mode t n
  | OpIntoUser n => switch_into_user_mode t n
  | OpFromOld n => switch_from_old_task t n
  | OpToNew n => switch_to_new_task t n
  | OpReset n => reset t n
  end.

Lemma update_timer_remained t d :
  0 <= d -> 0 < timer_remained_ns t ->
  0 < timer_remained_ns (update_timer t d) <= timer_remained_ns t.
Proof. intros. unfold update_timer. split_tests; simpl; lia. Qed.

Lemma ts_exec_remained t op :
  0 < timer_remained_ns t -> 0 < timer_remained_ns (ts_exec t op) <= timer_remained_ns t.
Proof.
  intros H. assert (forall x, 0 <= as_usize x) as Hd by (intros; apply wrap_bound; lia).
  destruct op; simpl; unfold switch_into_kernel_mode, switch_into_user_mode,
    switch_from_old_task, switch_to_new_task, reset; repeat case_match; simpl; try lia;
    match goal with |- context [update_timer ?t ?d] =>
      pose proof (update_timer_remained t d (Hd _)) as Hu end; simpl in Hu; lia.
Qed.

(** An armed timer only runs down and never expires: whatever sequence of
    mode and task switches follows, the remaining time never grows and never
    reaches zero, because a step at least as long as the remaining time is not
    subtracted at all. *)
Theorem timer_never_expires t ops :
  0 < timer_remained_ns t ->
  0 < timer_remained_ns (foldl ts_exec t ops) <= timer_remained_ns t.
Proof.
  revert t. induction ops as [|op ops IH]; intros t Ht; simpl; [lia|].
  pose proof (ts_exec_remained t op Ht) as H1. specialize (IH (ts_exec t op)). lia.
Qed.

Lemma timer_never_expires_witness :
  let t := snd (set_timer ts_new 10 10 0) in
  0 < timer_remained_ns (foldl ts_exec t [OpIntoKernel 4; OpIntoUser 1000]) <= 10.
Proof.
  apply (timer_never_expires (snd (set_timer ts_new 10 10 0))
           [OpIntoKernel 4; OpIntoUser 1000]).
  vm_compute. reflexivity.
Defined.
