(* ===== verification/TimeConv.v ===== *)
(** * Time values: [api/src/time.rs], [api/src/imp/time.rs] and the sleeping
    system call of [api/src/imp/task/schedule.rs]

    [TimeValue] is [core::time::Duration].  The trait [TimeValueLike] is a type
    class with the source's seven instances; the clocks of [axhal] are
    arguments of the system calls. *)

From stdpp Require Import base list gmap option.
From Stdlib Require Import ZArith Lia.
From S2P Require Import Prelude Bytes AddrSpace Ptr TimeStat.
Import ListNotations.

(** ** [core::time::Duration] *)

Record Duration : Type := mkDuration { as_secs : Z; subsec_nanos : Z }.
Abbreviation TimeValue := Duration.

Definition duration_ok (d : Duration) : Prop :=
  is_u64 (as_secs d) /\ 0 <= subsec_nanos d < NANOS_PER_SEC.

(** [Duration::new]: whole seconds carry over; [None] is its panic when the
    seconds overflow. *)
Definition duration_new (secs nanos : Z) : option Duration :=
  if nanos <? NANOS_PER_SEC then Some (mkDuration secs nanos)
  else if secs + nanos / NANOS_PER_SEC <? 2 ^ 64
  then Some (mkDuration (secs + nanos / NANOS_PER_SEC) (nanos mod NANOS_PER_SEC))
  else None.

Definition subsec_micros (d : Duration) : Z := subsec_nanos d / 1000.

Definition checked_sub (a b : Duration) : option Duration :=
  if as_secs a <? as_secs b then None
  else if subsec_nanos b <=? subsec_nanos a
  then Some (mkDuration (as_secs a - as_secs b) (subsec_nanos a - subsec_nanos b))
  else if as_secs a =? as_secs b then None
  else Some (mkDuration (as_secs a - as_secs b - 1)
               (subsec_nanos a + NANOS_PER_SEC - subsec_nanos b)).

Definition total_nanos (d : Duration) : Z := as_secs d * NANOS_PER_SEC + subsec_nanos d.

(** ** The trait and its instances *)

Class TimeValueLike (T : Type) : Type := {
  from_time_value : TimeValue -> T;
  to_time_value : T -> option TimeValue
}.

#[export] Instance TimeValue_like : TimeValueLike TimeValue :=
  {| from_time_value tv := tv; to_time_value tv := Some tv |}.

Record timespec : Type := mkTimespec { tv_sec : Z; tv_nsec : Z }.

#[export] Instance timespec_like : TimeValueLike timespec := {|
  from_time_value tv := mkTimespec (as_i64 (as_secs tv)) (as_i64 (subsec_nanos tv));
  to_time_value ts := duration_new (as_u64 (tv_sec ts)) (as_u32 (tv_nsec ts))
|}.

Record kernel_timespec : Type := mkKTimespec { kts_sec : Z; kts_nsec : Z }.

#[export] Instance kernel_timespec_like : TimeValueLike kernel_timespec := {|
  from_time_value tv := mkKTimespec (as_i64 (as_secs tv)) (as_i64 (subsec_nanos tv));
  to_time_value ts := duration_new (as_u64 (kts_sec ts)) (as_u32 (kts_nsec ts))
|}.

Record kernel_old_timespec : Type := mkOTimespec { ots_sec : Z; ots_nsec : Z }.

#[export] Instance kernel_old_timespec_like : TimeValueLike kernel_old_timespec := {|
  from_time_value tv := mkOTimespec (as_i64 (as_secs tv)) (as_i64 (subsec_nanos tv));
  to_time_value ts := duration_new (as_u64 (ots_sec ts)) (as_u32 (ots_nsec ts))
|}.

Record timeval : Type := mkTimeval { tval_sec : Z; tval_usec : Z }.

#[export] Instance timeval_like : TimeValueLike timeval := {|
  from_time_value tv := mkTimeval (as_i64 (as_secs tv)) (as_i64 (subsec_micros tv));
  to_time_value t := duration_new (as_u64 (tval_sec t)) (as_u32 (as_u32 (tval_usec t) * 1000))
|}.

Record kernel_old_timeval : Type := mkOTimeval { otv_sec : Z; otv_usec : Z }.

#[export] Instance kernel_old_timeval_like : TimeValueLike kernel_old_timeval := {|
  from_time_value tv := mkOTimeval (as_i64 (as_secs tv)) (as_i64 (subsec_micros tv));
  to_time_value t := duration_new (as_u64 (otv_sec t)) (as_u32 (as_u32 (otv_usec t) * 1000))
|}.

Record kernel_sock_timeval : Type := mkSTimeval { stv_sec : Z; stv_usec : Z }.

#[export] Instance kernel_sock_timeval_like : TimeValueLike kernel_sock_timeval := {|
  from_time_value tv := mkSTimeval (as_i64 (as_secs tv)) (as_i64 (subsec_micros tv));
  to_time_value t := duration_new (as_u64 (stv_sec t)) (as_u32 (as_u32 (stv_usec t) * 1000))
|}.

(** The two-word structures in user memory. *)
Definition two_words {T} (mk : Z -> Z -> T) (f g : T -> Z) : Pod T := {|
  pod_layout := mkLayout 16 8;
  pod_enc t := le_enc 8 (as_u64 (f t)) ++ le_enc 8 (as_u64 (g t));
  pod_dec bs := mk (as_i64 (le_dec (take 8 bs))) (as_i64 (le_dec (drop 8 bs)))
|}.
#[export] Instance timespec_pod : Pod timespec := two_words mkTimespec tv_sec tv_nsec.
#[export] Instance timeval_pod : Pod timeval := two_words mkTimeval tval_sec tval_usec.

(** ** System calls *)

Section Syscalls.
Context `{ErrorConv, MemoryAddr, MappingFlags} {AS : Type} `{AddrSpace AS}.
(** [linux_raw_sys]'s clock ids. *)
Context (CLOCK_REALTIME CLOCK_MONOTONIC : Z).

Definition sys_clock_gettime (wall mono : TimeValue) (clock_id ts : Z)
  : M (UState AS) LinuxError Z :=
  let store_now now := write_user ts (from_time_value now : timespec);; mret 0 in
  if as_u32 clock_id =? CLOCK_REALTIME then store_now wall
  else if as_u32 clock_id =? CLOCK_MONOTONIC then store_now mono
  else fail EINVAL.

Definition sys_gettimeofday (wall : TimeValue) (ts : Z) : M (UState AS) LinuxError Z :=
  write_user ts (from_time_value wall : timeval);; mret 0.

Record Tms : Type := mkTms { tms_utime : Z; tms_stime : Z; tms_cutime : Z; tms_cstime : Z }.

#[local] Instance tms_pod : Pod Tms := {|
  pod_layout := mkLayout 32 8;
  pod_enc t := le_enc 8 (tms_utime t) ++ le_enc 8 (tms_stime t)
               ++ le_enc 8 (tms_cutime t) ++ le_enc 8 (tms_cstime t);
  pod_dec bs := mkTms (le_dec (take 8 bs)) (le_dec (take 8 (drop 8 bs)))
                  (le_dec (take 8 (drop 16 bs))) (le_dec (drop 24 bs))
|}.

Definition sys_times (t : TimeStat) (ticks : Z) (tms : Z) : M (UState AS) LinuxError Z :=
  let '(_, utime_us, _, stime_us) := time_stat_output t in
  write_user tms (mkTms utime_us stime_us utime_us stime_us);;
  mret (as_isize ticks).

(** The end of [sys_nanosleep]: the remaining time, if any, is an interrupted
    sleep. *)
Definition nanosleep_finish (dur actual : Duration) (rem : Z)
  : M (UState AS * list Duration) LinuxError Z :=
  match checked_sub dur actual with
  | Some diff =>
      rem ← on_fst (on_aspace (nullable rem (get_as_mut timespec rem)));
      match rem with
      | Some r => on_fst (assign r (from_time_value diff : timespec))
      | None => mret tt
      end;;
      fail EINTR
  | None => mret 0
  end.

(** The duration asked for, once it is found valid. *)
Definition nanosleep_begin (req : Z) : M (UState AS) LinuxError Duration :=
  req ← read_user timespec req;
  if (tv_nsec req <? 0) || (999999999 <? tv_nsec req) || (tv_sec req <? 0) then fail EINVAL
  else lift (unwrap_opt (to_time_value req)).

(** [now] and [after] are the monotonic clock around [axtask::sleep]; the list
    in the state is the sleeps performed. *)
Definition sys_nanosleep (now after : TimeValue) (req rem : Z)
  : M (UState AS * list Duration) LinuxError Z :=
  dur ← on_fst (nanosleep_begin req);
  on_snd (modify (fun sleeps => sleeps ++ [dur]));;
  actual ← lift (unwrap_opt (checked_sub after now));
  nanosleep_finish dur actual rem.

End Syscalls.

(** ** Theorems *)

Lemma duration_new_ok secs nanos :
  nanos < NANOS_PER_SEC -> duration_new secs nanos = Some (mkDuration secs nanos).
Proof. intros. unfold duration_new. destruct (Z.ltb_spec nanos NANOS_PER_SEC); [done|lia]. Qed.

Lemma as_u64_i64 x : is_u64 x -> as_u64 (as_i64 x) = x.
Proof.
  unfold is_u64, as_u64, as_i64, wrap, swrap. intros. change (64 - 1) with 63.
  rewrite Zminus_mod, Zmod_mod, <- Zminus_mod. rewrite Z.add_simpl_r. by apply Z.mod_small.
Qed.

Lemma as_i64_small x : 0 <= x < 2 ^ 63 -> as_i64 x = x.
Proof. intros. unfold as_i64. apply swrap_small; lia. Qed.

Lemma as_u32_small x : 0 <= x < 2 ^ 32 -> as_u32 x = x.
Proof. apply wrap_small. Qed.

(** C33: converting a time value out and back through every implementation of
    the trait: exact through the nanosecond structures (for the whole range of
    seconds, although they are signed), and truncated to whole microseconds
    through the microsecond ones.  None of the seven panics. *)
Theorem time_value_roundtrip d :
  duration_ok d ->
  let us := mkDuration (as_secs d) (subsec_nanos d / 1000 * 1000) in
  to_time_value (from_time_value d : TimeValue) = Some d /\
  to_time_value (from_time_value d : timespec) = Some d /\
  to_time_value (from_time_value d : kernel_timespec) = Some d /\
  to_time_value (from_time_value d : kernel_old_timespec) = Some d /\
  to_time_value (from_time_value d : timeval) = Some us /\
  to_time_value (from_time_value d : kernel_old_timeval) = Some us /\
  to_time_value (from_time_value d : kernel_sock_timeval) = Some us.
Proof.
  intros [Hs Hn] us. unfold NANOS_PER_SEC in Hn.
  assert (duration_new (as_u64 (as_i64 (as_secs d))) (as_u32 (as_i64 (subsec_nanos d))) = Some d) as Hts.
  { rewrite as_u64_i64, as_i64_small, as_u32_small, duration_new_ok by
      (auto; unfold NANOS_PER_SEC; lia). by destruct d. }
  assert (duration_new (as_u64 (as_i64 (as_secs d)))
            (as_u32 (as_u32 (as_i64 (subsec_micros d)) * 1000)) = Some us) as Htv.
  { unfold subsec_micros. rewrite as_u64_i64, as_i64_small, !as_u32_small, duration_new_ok by
      (auto; unfold NANOS_PER_SEC; rewrite ?as_u32_small; zdiv). done. }
  auto 10.
Qed.

Lemma time_value_roundtrip_witness :
  to_time_value (from_time_value (mkDuration 7 1234567) : timeval)
  = Some (mkDuration 7 1234000).
Proof.
  apply (time_value_roundtrip (mkDuration 7 1234567)).
  unfold duration_ok, is_u64, NANOS_PER_SEC. simpl. lia.
Defined.

Lemma to_time_value_exact ts :
  0 <= tv_sec ts < 2 ^ 63 -> 0 <= tv_nsec ts < NANOS_PER_SEC ->
  to_time_value ts = Some (mkDuration (tv_sec ts) (tv_nsec ts)).
Proof.
  intros Hs Hn. simpl. unfold NANOS_PER_SEC in *. unfold as_u64, as_u32.
  rewrite !wrap_small by lia. apply duration_new_ok. unfold NANOS_PER_SEC. lia.
Qed.

(** Which time structures panic the kernel when they are converted without
    validation, as the futex and signal waits do: exactly those whose seconds,
    read as unsigned, overflow when the whole seconds of the nanosecond field
    are carried.  A structure with nanoseconds below one second never panics,
    and with non-negative seconds it is converted exactly. *)
Theorem to_time_value_panics ts :
  (to_time_value ts = None <->
    NANOS_PER_SEC <= as_u32 (tv_nsec ts) /\
    2 ^ 64 <= as_u64 (tv_sec ts) + as_u32 (tv_nsec ts) / NANOS_PER_SEC) /\
  (0 <= tv_sec ts < 2 ^ 63 -> 0 <= tv_nsec ts < NANOS_PER_SEC ->
    to_time_value ts = Some (mkDuration (tv_sec ts) (tv_nsec ts))) /\
  duration_new (as_u64 (-1)) (as_u32 NANOS_PER_SEC) = None.
Proof.
  split_and!; [|apply to_time_value_exact|reflexivity].
  simpl. unfold duration_new. split_tests; split; intros; try done; lia.
Qed.

Lemma checked_sub_spec a b :
  duration_ok a -> duration_ok b ->
  match checked_sub a b with
  | Some d => duration_ok d /\ total_nanos d = total_nanos a - total_nanos b
  | None => total_nanos a < total_nanos b
  end.
Proof.
  unfold duration_ok, is_u64, total_nanos, checked_sub, NANOS_PER_SEC. intros.
  split_tests; simpl; lia.
Qed.

Lemma total_nanos_nonneg d : duration_ok d -> 0 <= total_nanos d.
Proof. unfold duration_ok, is_u64, total_nanos, NANOS_PER_SEC. lia. Qed.

Section Nanosleep.
Context `{ErrorConv, MemoryAddr, MappingFlags} {AS : Type} `{AddrSpace AS}.

Definition timespec_valid (ts : timespec) : Prop :=
  0 <= tv_sec ts /\ 0 <= tv_nsec ts <= 999999999.

Lemma nanosleep_start now after req rem (u u1 : UState AS) sleeps ts :
  read_user timespec req u = (Ok ts, u1) -> tv_sec ts < 2 ^ 63 ->
  (~ timespec_valid ts -> sys_nanosleep now after req rem (u, sleeps) = (Err EINVAL, (u1, sleeps))) /\
  (timespec_valid ts -> forall actual, checked_sub after now = Some actual ->
     let dur := mkDuration (tv_sec ts) (tv_nsec ts) in
     sys_nanosleep now after req rem (u, sleeps)
     = nanosleep_finish dur actual rem (u1, sleeps ++ [dur])).
Proof.
  intros Hr Hs. unfold sys_nanosleep, nanosleep_begin, timespec_valid. unfold_M. rewrite Hr.
  destruct ((tv_nsec ts <? 0) || (999999999 <? tv_nsec ts) || (tv_sec ts <? 0)) eqn:E.
  - rewrite !orb_true_iff, !Z.ltb_lt in E. split; [done|lia].
  - rewrite !orb_false_iff, !Z.ltb_ge in E. split; [lia|]. intros Hv actual Ha.
    rewrite to_time_value_exact by (unfold NANOS_PER_SEC; lia).
    rewrite Ha. reflexivity.
Qed.

Lemma nanosleep_finish_spec dur actual rem (u : UState AS) sleeps :
  duration_ok dur -> duration_ok actual ->
  let r := nanosleep_finish dur actual rem (u, sleeps) in
  (total_nanos dur < total_nanos actual -> r = (Ok 0, (u, sleeps))) /\
  (total_nanos actual <= total_nanos dur -> exists diff,
     duration_ok diff /\ total_nanos diff = total_nanos dur - total_nanos actual /\
     (rem = 0 -> r = (Err EINTR, (u, sleeps))) /\
     (rem <> 0 -> forall a2, get_as_mut timespec rem (us_aspace u) = (Ok rem, a2) ->
       r = (Err EINTR, (mkUState a2 (store (us_mem u) rem (from_time_value diff : timespec)),
                        sleeps)))).
Proof.
  intros Hd Ha r. unfold r, nanosleep_finish.
  pose proof (checked_sub_spec dur actual Hd Ha) as Hs.
  destruct (checked_sub dur actual) as [diff|]; [|split; [done|lia]].
  destruct Hs as [Hok Ht]. pose proof (total_nanos_nonneg diff Hok).
  split; [lia|]. intros _. exists diff. split_and!; auto.
  - intros ->. by destruct u.
  - intros Hnz a2 Hg. unfold_M. unfold nullable, is_null, on_aspace, assign.
    destruct (Z.eqb_spec rem 0); [lia|]. unfold_M. by rewrite Hg.
Qed.

(** [nanosleep] on every branch, for a request that could be read.  An
    invalid request is refused and nothing sleeps.  A valid one sleeps exactly
    once, for exactly the requested time; the call succeeds when more time than
    requested has passed, and otherwise answers [EINTR] with the remaining time
    (requested minus slept) stored through [rem] unless it is null. *)
Theorem sys_nanosleep_branches now after req rem (u u1 : UState AS) sleeps ts :
  read_user timespec req u = (Ok ts, u1) -> tv_sec ts < 2 ^ 63 ->
  duration_ok now -> duration_ok after -> total_nanos now <= total_nanos after ->
  let dur := mkDuration (tv_sec ts) (tv_nsec ts) in
  let actual := total_nanos after - total_nanos now in
  let r := sys_nanosleep now after req rem (u, sleeps) in
  (~ timespec_valid ts -> r = (Err EINVAL, (u1, sleeps))) /\
  (timespec_valid ts -> total_nanos dur < actual -> r = (Ok 0, (u1, sleeps ++ [dur]))) /\
  (timespec_valid ts -> actual <= total_nanos dur -> exists diff,
     duration_ok diff /\ total_nanos diff = total_nanos dur - actual /\
     (rem = 0 -> r = (Err EINTR, (u1, sleeps ++ [dur]))) /\
     (rem <> 0 -> forall a2, get_as_mut timespec rem (us_aspace u1) = (Ok rem, a2) ->
       r = (Err EINTR, (mkUState a2 (store (us_mem u1) rem (from_time_value diff : timespec)),
                        sleeps ++ [dur])))).
Proof.
  intros Hr Hs Hnow Hafter Hmono dur actual r.
  destruct (nanosleep_start now after req rem u u1 sleeps ts Hr Hs) as [Hbad Hgood].
  pose proof (checked_sub_spec after now Hafter Hnow) as Hsub.
  destruct (checked_sub after now) as [act|]; [|lia]. destruct Hsub as [Hok Hact].
  assert (timespec_valid ts -> duration_ok dur) as Hdur.
  { unfold timespec_valid, duration_ok, is_u64, dur, NANOS_PER_SEC; simpl; lia. }
  unfold actual. rewrite <- Hact. split; [exact Hbad|].
  split; intros Hv; unfold r; rewrite (Hgood Hv act eq_refl);
    apply nanosleep_finish_spec; auto.
Qed.

End Nanosleep.

Import SimpleMem Ptr.Sample.

Lemma sys_nanosleep_branches_witness :
  let u := mkUState Sample.sample_aspace (store ∅ 4096 (mkTimespec 2 5)) in
  sys_nanosleep (mkDuration 10 0) (mkDuration 13 0) 4096 0 (u, [])
  = (Ok 0, (u, [mkDuration 2 5])).
Proof.
  apply (sys_nanosleep_branches (mkDuration 10 0) (mkDuration 13 0) 4096 0
    (mkUState Sample.sample_aspace (store ∅ 4096 (mkTimespec 2 5)))
    (mkUState Sample.sample_aspace (store ∅ 4096 (mkTimespec 2 5))) [] (mkTimespec 2 5));
    [vm_compute; reflexivity | simpl; lia
    | unfold duration_ok, is_u64, NANOS_PER_SEC; simpl; lia
    | unfold duration_ok, is_u64, NANOS_PER_SEC; simpl; lia
    | vm_compute; discriminate | unfold timespec_valid; simpl; lia | vm_compute; reflexivity].
Defined.
