(* ===== verification/FdTable.v ===== *)
(** * File descriptors: [api/src/file/mod.rs], [api/src/imp/fs/fd_ops.rs] and
    [api/src/imp/fs/pipe.rs]

    A descriptor table holds [Arc<dyn FileLike>]s: two descriptors may share one
    object, and an object lives as long as some reference to it does.  The model
    keeps the heap of those objects with their strong counts, and the ring
    buffers that the two ends of a pipe share, so that closing a descriptor has
    the effect that dropping the last reference has. *)

From stdpp Require Import base list gmap option relations.
From Stdlib Require Import ZArith Lia.
From S2P Require Import Prelude Bytes AddrSpace Ptr.
From S2P Require Import Pipe.
Import ListNotations.

Definition AX_FILE_LIMIT : Z := 1024.

(** ** The container: [flatten_objects::FlattenObjects]

    The operations the kernel uses, observed through [fo_get]; the laws are the
    crate's documentation. *)

Class FlattenObjects (T A : Type) : Type := {
  fo_new : T;
  fo_get : T -> Z -> option A;
  fo_add : T -> A -> option (Z * T);
  fo_add_at : T -> Z -> A -> option T;
  fo_remove : T -> Z -> option A * T;
  fo_ids : T -> list Z
}.

Definition fd_valid (id : Z) : Prop := 0 <= id < AX_FILE_LIMIT.

#[export] Instance fd_valid_dec id : Decision (fd_valid id).
Proof. unfold fd_valid. apply _. Defined.

Class FlattenObjectsOk (T A : Type) `{FlattenObjects T A} : Prop := {
  fo_get_new j : fo_get fo_new j = None;
  fo_get_valid t j a : fo_get t j = Some a -> fd_valid j;
  fo_add_some t a id t' : fo_add t a = Some (id, t') ->
    fd_valid id /\ fo_get t id = None /\
    forall j, fo_get t' j = if decide (j = id) then Some a else fo_get t j;
  fo_add_none t a : fo_add t a = None -> forall id, fd_valid id -> fo_get t id <> None;
  fo_add_at_free t id a : fd_valid id -> fo_get t id = None ->
    exists t', fo_add_at t id a = Some t' /\
      forall j, fo_get t' j = if decide (j = id) then Some a else fo_get t j;
  fo_add_at_bad t id a : ~ fd_valid id \/ fo_get t id <> None -> fo_add_at t id a = None;
  fo_remove_eq t id : fst (fo_remove t id) = fo_get t id;
  fo_remove_get t id j :
    fo_get (snd (fo_remove t id)) j = if decide (j = id) then None else fo_get t j;
  fo_ids_spec t j : j ∈ fo_ids t <-> fo_get t j <> None;
  fo_ids_nodup t : NoDup (fo_ids t)
}.

(** ** Objects *)

(** The concrete type behind an [Arc<dyn FileLike>]; a file and a directory
    remember their path, a pipe end its ring. *)
Inductive FileKind : Type :=
| KFile (path : str)
| KDirectory (path : str)
| KPipe (ring_id : nat) (rd : bool)
| KStdin
| KStdout
| KSocket.

Record ArcCell : Type := mkCell { cell_kind : FileKind; cell_strong : nat }.

Record FdState (T : Type) : Type := mkFd {
  fd_table : T;
  heap : gmap nat ArcCell;
  rings : gmap nat SharedRing;
  nonblocking : gmap nat bool
}.
Arguments mkFd {T} _ _ _ _.
Arguments fd_table {T} _.
Arguments heap {T} _.
Arguments rings {T} _.
Arguments nonblocking {T} _.

Section FdOps.
Context {T : Type} `{FlattenObjects T nat}.
Abbreviation FM := (M (FdState T) LinuxError).

Definition set_table (s : FdState T) (t : T) : FdState T :=
  mkFd t (heap s) (rings s) (nonblocking s).
Definition set_heap (s : FdState T) (h : gmap nat ArcCell) : FdState T :=
  mkFd (fd_table s) h (rings s) (nonblocking s).

(** [Arc::clone]: one more reference. *)
Definition arc_clone (o : nat) (s : FdState T) : FdState T :=
  set_heap s (alter (fun c => mkCell (cell_kind c) (S (cell_strong c))) o (heap s)).

(** Dropping a ring's [Arc]. *)
Definition ring_drop (r : nat) (rs : gmap nat SharedRing) : gmap nat SharedRing :=
  match rs !! r with
  | Some sh => if (strong_count sh =? 1)%nat then delete r rs
               else <[r := mkShared (ring sh) (strong_count sh - 1)]> rs
  | None => rs
  end.

(** Dropping a reference: the last one drops the object, and a pipe end drops
    its share of the ring. *)
Definition arc_drop (o : nat) (s : FdState T) : FdState T :=
  match heap s !! o with
  | None => s
  | Some c =>
      if (cell_strong c =? 1)%nat then
        mkFd (fd_table s) (delete o (heap s))
          (match cell_kind c with KPipe r _ => ring_drop r (rings s) | _ => rings s end)
          (delete o (nonblocking s))
      else set_heap s (<[o := mkCell (cell_kind c) (cell_strong c - 1)]> (heap s))
  end.

(** [Arc::new(obj)]: a fresh object with one reference. *)
Definition arc_new (k : FileKind) (s : FdState T) : nat * FdState T :=
  let o := fresh (dom (heap s)) in (o, set_heap s (<[o := mkCell k 1]> (heap s))).

(** ** The table operations of [file/mod.rs] *)

(** [FD_TABLE.read().get(fd as usize).cloned().ok_or(EBADF)]: the caller owns
    the clone. *)
Definition get_file_like (fd : Z) : FM nat := fun s =>
  match fo_get (fd_table s) (as_usize fd) with
  | Some o => (Ok o, arc_clone o s)
  | None => (Err EBADF, s)
  end.

(** The argument is moved into the table, or dropped when the table is full. *)
Definition add_file_like (o : nat) : FM Z := fun s =>
  match fo_add (fd_table s) o with
  | Some (id, t') => (Ok (as_i32 id), set_table s t')
  | None => (Err EMFILE, arc_drop o s)
  end.

Definition close_file_like (fd : Z) : FM unit := fun s =>
  match fo_remove (fd_table s) (as_usize fd) with
  | (Some o, t') => (Ok tt, arc_drop o (set_table s t'))
  | (None, t') => (Err EBADF, set_table s t')
  end.

(** [FileLike::add_to_fd_table]. *)
Definition add_to_fd_table (k : FileKind) : FM Z := fun s =>
  let '(o, s) := arc_new k s in add_file_like o s.

(** [FileLike::from_fd]: the object of a descriptor, downcast to a concrete type
    ([e] otherwise); the caller owns the reference. *)
Definition from_fd {A} (downcast : FileKind -> option A) (e : LinuxError) (fd : Z) : FM (nat * A) :=
  o ← get_file_like fd;
  s ← get;
  match heap s !! o with
  | Some c =>
      match downcast (cell_kind c) with
      | Some a => mret (o, a)
      | None => modify (arc_drop o);; fail e
      end
  | None => panic
  end.

Definition as_file (k : FileKind) : option str := match k with KFile p => Some p | _ => None end.
Definition as_directory (k : FileKind) : option str :=
  match k with KDirectory p => Some p | _ => None end.

(** [File::from_fd] is the trait's, [Directory::from_fd] overrides it to answer
    ENOTDIR. *)
Definition File_from_fd : Z -> FM (nat * str) := from_fd as_file EINVAL.
Definition Directory_from_fd : Z -> FM (nat * str) := from_fd as_directory ENOTDIR.

(** [X::from_fd(fd)?.path()]: the reference is dropped with the statement. *)
Definition path_of_fd (m : FM (nat * str)) : FM str :=
  p ← m; modify (arc_drop (fst p));; mret (snd p).

(** [FD_TABLE::copy_inner]: the table of a forked process, and the state with
    the references it holds. *)
Fixpoint copy_ids (ids : list Z) (src new_table : T) : FM T := fun s =>
  match ids with
  | [] => (Ok new_table, s)
  | id :: ids' =>
      match fo_get src id with
      | None => (Panic, s)
      | Some o =>
          let s := arc_clone o s in
          match fo_add_at new_table id o with
          | Some t' => copy_ids ids' src t' s
          | None => copy_ids ids' src new_table (arc_drop o s)
          end
      end
  end.

Definition copy_inner : FM T := fun s =>
  copy_ids (fo_ids (fd_table s)) (fd_table s) fo_new s.

(** [FD_TABLE::clear]. *)
Definition clear_step (s : FdState T) (id : Z) : FdState T :=
  match fo_remove (fd_table s) id with
  | (Some o, t') => arc_drop o (set_table s t')
  | (None, t') => set_table s t'
  end.
Definition clear (s : FdState T) : FdState T := foldl clear_step s (fo_ids (fd_table s)).

(** [init_stdio]: descriptors 0, 1 and 2. *)
Definition init_add (id : Z) (k : FileKind) : FM unit := fun s =>
  let '(o, s) := arc_new k s in
  match fo_add_at (fd_table s) id o with
  | Some t' => (Ok tt, set_table s t')
  | None => (Panic, s)
  end.
Definition init_stdio : FM unit :=
  put (mkFd fo_new ∅ ∅ ∅);;
  init_add 0 KStdin;; init_add 1 KStdout;; init_add 2 KStdout.

(** ** System calls *)

Definition sys_close (fd : Z) : FM Z := close_file_like fd;; mret 0.

Definition dup_fd (old_fd : Z) : FM Z :=
  f ← get_file_like old_fd;
  new_fd ← add_file_like f;
  mret (as_isize new_fd).

Definition sys_dup (old_fd : Z) : FM Z := dup_fd old_fd.

(** The table is locked for the whole call. *)
Definition sys_dup2 (old_fd new_fd : Z) : FM Z := fun s =>
  match fo_get (fd_table s) (as_usize old_fd) with
  | None => (Err EBADF, s)
  | Some f =>
      let s := arc_clone f s in
      if old_fd =? new_fd then (Ok (as_isize new_fd), arc_drop f s)
      else
        let '(old, t1) := fo_remove (fd_table s) (as_usize new_fd) in
        let s := match old with
                 | Some o => arc_drop o (set_table s t1)
                 | None => set_table s t1
                 end in
        match fo_add_at (fd_table s) (as_usize new_fd) f with
        | Some t2 => (Ok (as_isize new_fd), set_table s t2)
        | None => (Panic, s)
        end
  end.

(** [FileLike::set_nonblocking]: only a socket keeps the flag. *)
Definition set_nonblocking (o : nat) (b : bool) : FM unit := fun s =>
  match heap s !! o with
  | Some (mkCell KSocket _) =>
      (Ok tt, mkFd (fd_table s) (heap s) (rings s) (<[o := b]> (nonblocking s)))
  | _ => (Ok tt, s)
  end.

Section Fcntl.
(** [linux_raw_sys]'s [fcntl] commands and flag. *)
Context (F_DUPFD F_DUPFD_CLOEXEC F_SETFL O_NONBLOCK : Z).

Definition sys_fcntl (fd cmd arg : Z) : FM Z :=
  if as_u32 cmd =? F_DUPFD then dup_fd fd
  else if as_u32 cmd =? F_DUPFD_CLOEXEC then dup_fd fd
  else if as_u32 cmd =? F_SETFL then
    if (fd =? 0) || (fd =? 1) || (fd =? 2) then mret 0
    else
      o ← get_file_like fd;
      set_nonblocking o (0 <? Z.land arg O_NONBLOCK);;
      modify (arc_drop o);; mret 0
  else mret 0.
End Fcntl.

(** [Pipe::new()]: two ends of a fresh ring. *)
Definition pipe_alloc (s : FdState T) : (nat * nat) * FdState T :=
  let r := fresh (dom (rings s)) in
  let s := mkFd (fd_table s) (heap s) (<[r := snd pipe_new]> (rings s)) (nonblocking s) in
  let '(rd, s) := arc_new (KPipe r true) s in
  let '(wr, s) := arc_new (KPipe r false) s in
  ((rd, wr), s).

(** The descriptor part of [sys_pipe2]: when the second descriptor cannot be
    had, the first is closed again. *)
Definition pipe_fds : FM (Z * Z) := fun s =>
  let '((rd, wr), s) := pipe_alloc s in
  match add_file_like rd s with
  | (Ok read_fd, s1) =>
      match add_file_like wr s1 with
      | (Ok write_fd, s2) => (Ok (read_fd, write_fd), s2)
      | (Err e, s2) =>
          match close_file_like read_fd s2 with
          | (Ok _, s3) => (Err e, s3)
          | (_, s3) => (Panic, s3)
          end
      | (Panic, s2) => (Panic, s2)
      end
  | (Err e, s1) => (Err e, arc_drop wr s1)
  | (Panic, s1) => (Panic, s1)
  end.

End FdOps.

(** [[c_int; 2]] in user memory. *)
#[export] Instance fd_pair_pod : Pod (Z * Z) := {|
  pod_layout := mkLayout 8 4;
  pod_enc p := le_enc 4 (as_u32 (fst p)) ++ le_enc 4 (as_u32 (snd p));
  pod_dec bs := (as_i32 (le_dec (take 4 bs)), as_i32 (le_dec (drop 4 bs)))
|}.

Section Pipe2.
Context {T : Type} `{FlattenObjects T nat}.
Context `{ErrorConv, MemoryAddr, MappingFlags} {AS : Type} `{AddrSpace AS}.

Definition sys_pipe2 (fds : Z) : M (FdState T * UState AS) LinuxError Z :=
  fds ← on_snd (on_aspace (get_as_mut (Z * Z) fds));
  p ← on_fst pipe_fds;
  on_snd (assign fds (p : Z * Z));;
  mret 0.
End Pipe2.

(** ** Reference counts

    [refs f o] counts the descriptors of the table observed as [f] that hold the
    object [o]. *)

Fixpoint count_refs (f : Z -> option nat) (o : nat) (l : list Z) : nat :=
  match l with
  | [] => 0
  | j :: l' => (if decide (f j = Some o) then 1 else 0) + count_refs f o l'
  end.

Definition refs (f : Z -> option nat) (o : nat) : nat := count_refs f o (seqZ 0 AX_FILE_LIMIT).

(** One more reference to [o] held outside the table. *)
Definition bump (o : nat) (ext : nat -> nat) : nat -> nat :=
  fun x => if decide (x = o) then S (ext x) else ext x.

Lemma count_refs_ext f g o l : (forall j, j ∈ l -> f j = g j) -> count_refs f o l = count_refs g o l.
Proof.
  induction l as [|x l IH]; intros E; simpl; [done|].
  rewrite IH, E by set_solver. done.
Qed.

Lemma count_refs_update f g id a o l :
  NoDup l -> id ∈ l -> f id = None ->
  (forall j, g j = if decide (j = id) then Some a else f j) ->
  count_refs g o l = ((if decide (o = a) then 1 else 0) + count_refs f o l)%nat.
Proof.
  intros Hnd Hid Hf Hg. induction Hnd as [|x l Hx Hnd IH]; [set_solver|]. simpl.
  apply elem_of_cons in Hid as [->|Hid].
  - rewrite (count_refs_ext g f o l).
    + rewrite Hg, Hf, (decide_True (P := x = x)) by done. repeat case_decide; naive_solver lia.
    + intros j Hj. rewrite Hg, decide_False; set_solver.
  - rewrite IH, Hg, (decide_False (P := x = id)) by set_solver. lia.
Qed.

Lemma refs_update f g id a o :
  fd_valid id -> f id = None -> (forall j, g j = if decide (j = id) then Some a else f j) ->
  refs g o = bump a (refs f) o.
Proof.
  intros Hid Hf Hg. unfold refs, bump. rewrite (count_refs_update f g id a); auto.
  - repeat case_decide; done.
  - apply NoDup_seqZ.
  - apply elem_of_seqZ. unfold fd_valid in Hid. lia.
Qed.

Lemma refs_none f o : (forall j, fd_valid j -> f j = None) -> refs f o = 0%nat.
Proof.
  intros E. unfold refs. rewrite (count_refs_ext f (fun _ => None)).
  - induction (seqZ 0 AX_FILE_LIMIT); done.
  - intros j Hj%elem_of_seqZ. apply E. unfold fd_valid. lia.
Qed.

(** ** The invariant of the descriptor state

    [ext] counts the references held outside this table: by the tables of other
    processes, and by the running system call.  An object is alive exactly while
    someone refers to it, and its strong count is the number of references; a
    ring is alive exactly while an end of it is, and its strong count is the
    number of live ends. *)

Section Invariant.
Context {T : Type} `{FlattenObjectsOk T nat}.

Definition end_alive (h : gmap nat ArcCell) (r : nat) (b : bool) : Prop :=
  exists o c, h !! o = Some c /\ cell_kind c = KPipe r b.

Definition ring_inv (h : gmap nat ArcCell) (r : nat) (osh : option SharedRing) : Prop :=
  match osh with
  | None => ~ end_alive h r true /\ ~ end_alive h r false
  | Some sh =>
      ring_wf (ring sh) /\
      ((strong_count sh = 2%nat /\ end_alive h r true /\ end_alive h r false) \/
       (strong_count sh = 1%nat /\ exists b, end_alive h r b /\ ~ end_alive h r (negb b)))
  end.

Record fd_inv (s : FdState T) (ext : nat -> nat) : Prop := {
  inv_strong o :
    from_option cell_strong 0%nat (heap s !! o) = (refs (fo_get (fd_table s)) o + ext o)%nat;
  inv_live o c : heap s !! o = Some c -> (0 < cell_strong c)%nat;
  inv_ring r : ring_inv (heap s) r (rings s !! r);
  inv_unique o1 o2 c1 c2 r b :
    heap s !! o1 = Some c1 -> heap s !! o2 = Some c2 ->
    cell_kind c1 = KPipe r b -> cell_kind c2 = KPipe r b -> o1 = o2
}.

(** A pipe end has its ring. *)
Lemma inv_pipe s ext o c r b : fd_inv s ext -> heap s !! o = Some c -> cell_kind c = KPipe r b ->
  exists sh, rings s !! r = Some sh /\ ring_wf (ring sh).
Proof.
  intros Hi Hc Hk. pose proof (inv_ring _ _ Hi r) as Hr. assert (end_alive (heap s) r b) as Ha by by exists o, c.
  destruct (rings s !! r) as [sh|]; [exists sh; by destruct Hr|]. by destruct b, Hr.
Qed.

(** Same kinds at the same objects: the same ends are alive. *)
Definition same_kinds (h h' : gmap nat ArcCell) : Prop :=
  forall o, cell_kind <$> h !! o = cell_kind <$> h' !! o.

Lemma same_kinds_alive h h' r b : same_kinds h h' -> end_alive h r b -> end_alive h' r b.
Proof.
  intros Hk (o & c & Hc & Hp). specialize (Hk o). rewrite Hc in Hk. simpl in Hk.
  destruct (h' !! o) as [c'|] eqn:E; simplify_eq/=. exists o, c'. split; congruence.
Qed.

#[export] Instance same_kinds_sym : Symmetric same_kinds.
Proof. intros h h' E o. by rewrite (E o). Qed.

Lemma ring_inv_iff h h' r osh :
  (forall b, end_alive h r b <-> end_alive h' r b) -> ring_inv h r osh -> ring_inv h' r osh.
Proof.
  intros E. unfold ring_inv. destruct osh; rewrite !E; [|done].
  intros [Hw [?|(? & b & Hb)]]; (split; [exact Hw|]); [by left|right]. split; [done|]. exists b. by rewrite <- !E.
Qed.

Lemma same_kinds_ring h h' r osh : same_kinds h h' -> ring_inv h r osh -> ring_inv h' r osh.
Proof.
  intros Hk. apply ring_inv_iff. intros b.
  split; apply same_kinds_alive; [done|by symmetry].
Qed.

(** Changing only strong counts keeps the ring and uniqueness clauses. *)
Lemma fd_inv_counts s s' ext ext' :
  fd_inv s ext -> rings s' = rings s -> same_kinds (heap s) (heap s') ->
  (forall o, from_option cell_strong 0%nat (heap s' !! o)
     = (refs (fo_get (fd_table s')) o + ext' o)%nat) ->
  (forall o c, heap s' !! o = Some c -> (0 < cell_strong c)%nat) ->
  fd_inv s' ext'.
Proof.
  intros [_ _ Hr Hu] Er Hk Hs Hl. split; auto.
  - intros r. rewrite Er. by apply (same_kinds_ring (heap s)).
  - intros o1 o2 c1 c2 r b E1 E2 K1 K2.
    pose proof (Hk o1) as Q1. pose proof (Hk o2) as Q2. rewrite E1 in Q1. rewrite E2 in Q2.
    destruct (heap s !! o1) as [d1|] eqn:D1; [|done].
    destruct (heap s !! o2) as [d2|] eqn:D2; [|done]. simpl in *.
    apply (Hu o1 o2 d1 d2 r b D1 D2); congruence.
Qed.

Lemma same_kinds_insert h o c c' :
  h !! o = Some c -> cell_kind c' = cell_kind c -> same_kinds h (<[o := c']> h).
Proof.
  intros Hc Hk x. destruct (decide (x = o)) as [->|].
  - rewrite lookup_insert_eq, Hc. simpl. by rewrite Hk.
  - by rewrite lookup_insert_ne by done.
Qed.

Lemma arc_clone_inv s ext o :
  is_Some (heap s !! o) -> fd_inv s ext -> fd_inv (arc_clone o s) (bump o ext).
Proof.
  intros [c Hc] Hi. unfold arc_clone. 
  assert (alter (fun c => mkCell (cell_kind c) (S (cell_strong c))) o (heap s)
          = <[o := mkCell (cell_kind c) (S (cell_strong c))]> (heap s)) as ->.
  { apply map_eq. intros x. destruct (decide (x = o)) as [->|].
    - by rewrite lookup_alter_eq, lookup_insert_eq, Hc.
    - by rewrite lookup_alter_ne, lookup_insert_ne. }
  apply (fd_inv_counts s _ ext); auto; simpl.
  - by eapply same_kinds_insert.
  - intros x. pose proof (inv_strong s ext Hi x) as E. unfold bump.
    destruct (decide (x = o)) as [->|].
    + rewrite Hc in E. rewrite lookup_insert_eq. simpl in *. lia.
    + by rewrite lookup_insert_ne.
  - intros x d. rewrite lookup_insert_Some. intros [[<- <-]|[? ?]]; simpl; [lia|].
    by apply (inv_live s ext Hi x).
Qed.

Lemma table_add_inv s ext o t' id :
  fd_inv s (bump o ext) -> fd_valid id -> fo_get (fd_table s) id = None ->
  (forall j, fo_get t' j = if decide (j = id) then Some o else fo_get (fd_table s) j) ->
  fd_inv (set_table s t') ext.
Proof.
  intros Hi Hv Hn Hg. apply (fd_inv_counts s _ (bump o ext)); auto; simpl.
  - done.
  - intros x. rewrite (inv_strong _ _ Hi x), (refs_update (fo_get (fd_table s)) _ id o x Hv Hn Hg).
    unfold bump. case_decide; lia.
  - apply (inv_live _ _ Hi).
Qed.

Lemma table_remove_inv s ext o t' id :
  fd_inv s ext -> fo_get (fd_table s) id = Some o ->
  (forall j, fo_get t' j = if decide (j = id) then None else fo_get (fd_table s) j) ->
  fd_inv (set_table s t') (bump o ext).
Proof.
  intros Hi Hs Hg. apply (fd_inv_counts s _ ext); auto; simpl.
  - done.
  - intros x. rewrite (inv_strong _ _ Hi x).
    rewrite (refs_update (fo_get t') (fo_get (fd_table s)) id o x).
    + unfold bump. case_decide; lia.
    + eapply fo_get_valid, Hs.
    + rewrite Hg, decide_True by done. done.
    + intros j. rewrite Hg. case_decide; subst; done.
  - apply (inv_live _ _ Hi).
Qed.

Lemma table_same_inv s ext t' :
  fd_inv s ext -> (forall j, fo_get t' j = fo_get (fd_table s) j) -> fd_inv (set_table s t') ext.
Proof.
  intros Hi Hg. apply (fd_inv_counts s _ ext); auto; simpl.
  - done.
  - intros x. rewrite (inv_strong _ _ Hi x). unfold refs.
    rewrite (count_refs_ext (fo_get t') (fo_get (fd_table s))) by (intros; apply Hg). done.
  - apply (inv_live _ _ Hi).
Qed.

(** An object in the table is alive. *)
Lemma table_alive s ext id o :
  fd_inv s ext -> fo_get (fd_table s) id = Some o -> is_Some (heap s !! o).
Proof.
  intros Hi Hg. pose proof (inv_strong _ _ Hi o) as E.
  destruct (heap s !! o) as [c|]; [eauto|]. simpl in E. exfalso.
  rewrite (refs_update (fun j => if decide (j = id) then None else fo_get (fd_table s) j)
             (fo_get (fd_table s)) id o o) in E.
  - unfold bump in E. rewrite decide_True in E by done. lia.
  - eapply fo_get_valid, Hg.
  - by rewrite decide_True.
  - intros j. simpl. case_decide; subst; done.
Qed.

(** *** Dropping a reference *)

Lemma end_alive_delete_other h o c r b :
  h !! o = Some c -> cell_kind c <> KPipe r b -> end_alive (delete o h) r b <-> end_alive h r b.
Proof.
  intros Hc Hk. split; intros (x & d & Hd & Hp); exists x, d; split; auto.
  - by apply lookup_delete_Some in Hd as [_ ?].
  - apply lookup_delete_Some. split; [|done]. intros <-. congruence.
Qed.

Lemma end_alive_delete_self h o c r b :
  (forall x d, h !! x = Some d -> cell_kind d = KPipe r b -> x = o) ->
  h !! o = Some c -> ~ end_alive (delete o h) r b.
Proof.
  intros Hu Hc (x & d & [Hne Hd]%lookup_delete_Some & Hp). apply Hne. symmetry. eauto.
Qed.

(** The ring after one of its ends is gone. *)
Lemma ring_drop_inv h o c r b rs :
  (forall x d, h !! x = Some d -> cell_kind d = KPipe r b -> x = o) ->
  h !! o = Some c -> cell_kind c = KPipe r b -> ring_inv h r (rs !! r) ->
  ring_inv (delete o h) r (ring_drop r rs !! r).
Proof.
  intros Hu Hc Hk Hr.
  assert (end_alive h r b) as Hb by (exists o, c; done).
  pose proof (end_alive_delete_self h o c r b Hu Hc) as Hb'.
  assert (end_alive (delete o h) r (negb b) <-> end_alive h r (negb b)) as Hn.
  { apply (end_alive_delete_other h o c); [done|]. rewrite Hk. by destruct b. }
  unfold ring_drop. unfold ring_inv in Hr. destruct (rs !! r) as [sh|] eqn:E.
  - destruct Hr as [Hw [(-> & Ht & Hf)|(-> & b' & Ha & Hna)]]; simpl.
    + rewrite lookup_insert_eq. split; [exact Hw|]. right. simpl. split; [done|]. exists (negb b).
      rewrite negb_involutive, Hn. by destruct b.
    + rewrite lookup_delete_eq. assert (b' = b) as -> by (destruct b, b'; done).
      rewrite <- Hn in Hna. by destruct b.
  - by destruct b, Hr.
Qed.

Lemma ring_drop_other r r' rs : r' <> r -> ring_drop r rs !! r' = rs !! r'.
Proof.
  intros Hne. unfold ring_drop. destruct (rs !! r) as [sh|]; [|done].
  case_match; by rewrite ?lookup_delete_ne, ?lookup_insert_ne.
Qed.

Lemma delete_ring_inv s ext o c r :
  fd_inv s ext -> heap s !! o = Some c ->
  ring_inv (delete o (heap s)) r
    (match cell_kind c with KPipe r' _ => ring_drop r' (rings s) | _ => rings s end !! r).
Proof.
  intros Hi Hc. pose proof (inv_ring _ _ Hi r) as Hr.
  assert ((forall b, cell_kind c <> KPipe r b) ->
          ring_inv (delete o (heap s)) r (rings s !! r)) as Hother.
  { intros Hk. apply (ring_inv_iff (heap s)); [|done]. intros b. symmetry.
    by apply (end_alive_delete_other _ _ c). }
  destruct (cell_kind c) as [| |r' b| | |] eqn:Ek; try (apply Hother; done).
  destruct (decide (r = r')) as [->|Hne].
  - apply (ring_drop_inv _ _ c r' b); auto. intros x d Hd Hp.
    by apply (inv_unique _ _ Hi x o d c r' b).
  - rewrite ring_drop_other by done. apply Hother. congruence.
Qed.

Lemma arc_drop_inv s ext o : fd_inv s (bump o ext) -> fd_inv (arc_drop o s) ext.
Proof.
  intros Hi. pose proof (inv_strong _ _ Hi o) as Ho. unfold arc_drop.
  unfold bump in Ho. rewrite decide_True in Ho by done.
  destruct (heap s !! o) as [c|] eqn:Hc; simpl in Ho; [|lia].
  assert (forall x, x <> o -> from_option cell_strong 0%nat (heap s !! x)
                     = (refs (fo_get (fd_table s)) x + ext x)%nat) as Hx.
  { intros x Hne. rewrite (inv_strong _ _ Hi x). unfold bump. by rewrite decide_False. }
  case_match; rewrite ?Nat.eqb_eq, ?Nat.eqb_neq in *.
  - split; simpl.
    + intros x. destruct (decide (x = o)) as [->|Hne].
      * rewrite lookup_delete_eq. simpl. lia.
      * rewrite lookup_delete_ne by done. auto.
    + intros x d [_ Hd]%lookup_delete_Some. by apply (inv_live _ _ Hi x).
    + intros r. by apply (delete_ring_inv s (bump o ext)).
    + intros o1 o2 c1 c2 r b [_ E1]%lookup_delete_Some [_ E2]%lookup_delete_Some.
      by apply (inv_unique _ _ Hi).
  - apply (fd_inv_counts s _ (bump o ext)); auto; simpl.
    + by eapply same_kinds_insert.
    + intros x. destruct (decide (x = o)) as [->|Hne].
      * rewrite lookup_insert_eq. simpl. lia.
      * rewrite lookup_insert_ne by done. auto.
    + intros x d. rewrite lookup_insert_Some. intros [[<- <-]|[? ?]]; simpl; [lia|].
      by apply (inv_live _ _ Hi x).
Qed.

(** *** New objects *)

Lemma arc_new_inv s ext k :
  (forall r b, k <> KPipe r b) -> fd_inv s ext ->
  fd_inv (snd (arc_new k s)) (bump (fst (arc_new k s)) ext).
Proof.
  intros Hk Hi. unfold arc_new. simpl. set (o := fresh (dom (heap s))).
  assert (heap s !! o = None) as Hn by (apply not_elem_of_dom, is_fresh).
  pose proof (inv_strong _ _ Hi o) as Ho. rewrite Hn in Ho. simpl in Ho.
  assert (forall r b, end_alive (heap s) r b <->
                      end_alive (<[o := mkCell k 1]> (heap s)) r b) as Ha.
  { intros r b. split; intros (x & c & Hc & Hp); exists x, c; split; auto.
    - rewrite lookup_insert_ne; [done|]. congruence.
    - apply lookup_insert_Some in Hc as [[<- <-]|[? ?]]; [|done]. by destruct (Hk r b). }
  split; simpl.
  - intros x. unfold bump. destruct (decide (x = o)) as [->|].
    + rewrite lookup_insert_eq. simpl. lia.
    + rewrite lookup_insert_ne by done. apply (inv_strong _ _ Hi).
  - intros x c [[<- <-]|[? ?]]%lookup_insert_Some; simpl; [lia|].
    by apply (inv_live _ _ Hi x).
  - intros r. apply (ring_inv_iff (heap s)); [auto|apply (inv_ring _ _ Hi)].
  - intros o1 o2 c1 c2 r b [[<- <-]|[? E1]]%lookup_insert_Some
      [[<- <-]|[? E2]]%lookup_insert_Some K1 K2; simpl in *; try done;
      try (by destruct (Hk r b)). by apply (inv_unique _ _ Hi o1 o2 c1 c2 r b).
Qed.

(** Two objects [o1], [o2] that are the ends of a new ring [r]. *)
Lemma new_pipe_inv s ext r o1 o2 ring0 :
  ring_wf ring0 -> fd_inv s ext -> rings s !! r = None -> heap s !! o1 = None -> heap s !! o2 = None ->
  o1 <> o2 ->
  fd_inv (mkFd (fd_table s)
            (<[o2 := mkCell (KPipe r false) 1]> (<[o1 := mkCell (KPipe r true) 1]> (heap s)))
            (<[r := mkShared ring0 2]> (rings s)) (nonblocking s))
         (bump o2 (bump o1 ext)).
Proof.
  intros Hwf Hi Hr H1 H2 Hne.
  pose proof (inv_strong _ _ Hi o1) as S1. pose proof (inv_strong _ _ Hi o2) as S2.
  rewrite H1 in S1. rewrite H2 in S2. simpl in S1, S2.
  pose proof (inv_ring _ _ Hi r) as Hr'. rewrite Hr in Hr'.
  assert (forall x c, heap s !! x = Some c -> forall b, cell_kind c <> KPipe r b) as Hno.
  { intros x c Hc b Hk. destruct Hr' as [Ht Hf].
    destruct b; [apply Ht|apply Hf]; exists x, c; done. }
  split; simpl.
  - intros x. unfold bump. pose proof (inv_strong _ _ Hi x) as Sx.
    repeat case_decide; subst; simplify_map_eq; simpl; done || lia.
  - intros x c [[<- <-]|[? [[<- <-]|[? ?]]%lookup_insert_Some]]%lookup_insert_Some;
      simpl; try lia. by apply (inv_live _ _ Hi x).
  - intros r'. destruct (decide (r' = r)) as [->|Hnr].
    + rewrite lookup_insert_eq. split; [exact Hwf|]. left. split; [done|].
      split; [exists o1, (mkCell (KPipe r true) 1)|exists o2, (mkCell (KPipe r false) 1)];
        (split; [|done]); by simplify_map_eq.
    + rewrite lookup_insert_ne by done.
      apply (ring_inv_iff (heap s)); [|apply (inv_ring _ _ Hi)]. intros b.
      split; intros (x & c & Hc & Hp); exists x, c; split; auto.
      * rewrite !lookup_insert_ne; congruence.
      * apply lookup_insert_Some in Hc as [[<- <-]|[? Hc]]; [simpl in Hp; congruence|].
        apply lookup_insert_Some in Hc as [[<- <-]|[? Hc]]; [simpl in Hp; congruence|done].
  - intros x1 x2 c1 c2 r' b
      [[<- <-]|[? [[<- <-]|[? ?]]%lookup_insert_Some]]%lookup_insert_Some
      [[<- <-]|[? [[<- <-]|[? ?]]%lookup_insert_Some]]%lookup_insert_Some K1 K2;
      simplify_eq/=; try done; try (by exfalso; eapply Hno; eauto).
    by apply (inv_unique _ _ Hi x1 x2 c1 c2 r' b).
Qed.

Lemma pipe_alloc_inv s ext rd wr s' :
  pipe_alloc s = ((rd, wr), s') -> fd_inv s ext ->
  fd_inv s' (bump wr (bump rd ext)) /\ fd_table s' = fd_table s.
Proof.
  unfold pipe_alloc, arc_new. intros E Hi. injection E as <- <- <-. split; [|done].
  set (r := fresh (dom (rings s))). set (o1 := fresh (dom (heap s))). simpl.
  set (h1 := <[o1 := mkCell (KPipe r true) 1]> (heap s)).
  assert (fresh (dom h1) ∉ dom h1) as Hf by apply is_fresh. set (o2 := fresh (dom h1)) in *.
  apply (new_pipe_inv s ext r o1 o2 ring_new); auto using ring_new_wf.
  - apply not_elem_of_dom, is_fresh.
  - apply not_elem_of_dom, is_fresh.
  - apply not_elem_of_dom. set_solver.
  - set_solver.
Qed.

(** Taking a reference and dropping it again changes nothing. *)
Lemma arc_clone_drop (s : FdState T) o c :
  heap s !! o = Some c -> (0 < cell_strong c)%nat -> arc_drop o (arc_clone o s) = s.
Proof.
  intros Hc Hl. unfold arc_clone, arc_drop. simpl. rewrite lookup_alter_eq, Hc. simpl.
  destruct c as [k n], s as [t h rs nb]. simpl in *.
  destruct n as [|n]; [lia|]. unfold set_heap. simpl. f_equal.
  apply map_eq. intros x. destruct (decide (x = o)) as [->|].
  - by rewrite lookup_insert_eq, Hc.
  - by rewrite lookup_insert_ne, lookup_alter_ne by done.
Qed.

Lemma from_fd_spec {A} (downcast : FileKind -> option A) (s : FdState T) ext e fd :
  fd_inv s ext ->
  match fo_get (fd_table s) (as_usize fd) with
  | None => from_fd downcast e fd s = (Err EBADF, s)
  | Some o => exists c, heap s !! o = Some c /\
      match downcast (cell_kind c) with
      | Some a => from_fd downcast e fd s = (Ok (o, a), arc_clone o s) /\
                  arc_drop o (arc_clone o s) = s
      | None => from_fd downcast e fd s = (Err e, s)
      end
  end.
Proof.
  intros Hi. unfold from_fd, get_file_like. unfold_M.
  destruct (fo_get _ _) as [o|] eqn:Eo; [|done].
  destruct (table_alive _ _ _ _ Hi Eo) as [c Hc]. exists c. split; [done|].
  pose proof (arc_clone_drop s o c Hc (inv_live _ _ Hi o c Hc)) as Hd.
  assert (heap (arc_clone o s) !! o = Some (mkCell (cell_kind c) (S (cell_strong c)))) as ->
    by (unfold arc_clone; simpl; by rewrite lookup_alter_eq, Hc). simpl.
  destruct (downcast _); [done|]. by rewrite Hd.
Qed.

(** *** The operations *)

Lemma fd_inv_ext s ext ext' : (forall o, ext o = ext' o) -> fd_inv s ext -> fd_inv s ext'.
Proof. intros E [H1 H2 H3 H4]. split; auto. intros o. by rewrite <- E. Qed.

Lemma bump_comm a b ext o : bump a (bump b ext) o = bump b (bump a ext) o.
Proof. unfold bump. repeat case_decide; done. Qed.

Lemma fd_small id : fd_valid id -> as_i32 id = id /\ as_usize id = id.
Proof.
  unfold fd_valid, AX_FILE_LIMIT, as_i32, as_usize. intros Hv.
  split; [apply swrap_small; lia|apply wrap_small; lia].
Qed.

Lemma get_file_like_inv s ext fd :
  fd_inv s ext ->
  match get_file_like fd s with
  | (Ok o, s') => fd_inv s' (bump o ext)
  | (r, s') => r = Err EBADF /\ s' = s
  end.
Proof.
  intros Hi. unfold get_file_like. destruct (fo_get _ _) as [o|] eqn:E; [|done].
  apply arc_clone_inv; [|done]. by eapply table_alive.
Qed.

Lemma add_file_like_inv s ext o :
  fd_inv s (bump o ext) ->
  match add_file_like o s with
  | (Ok id, s') =>
      fd_inv s' ext /\ fd_valid id /\ fo_get (fd_table s) id = None /\
      (forall j, fo_get (fd_table s') j =
         if decide (j = id) then Some o else fo_get (fd_table s) j) /\
      heap s' = heap s /\ rings s' = rings s
  | (r, s') => r = Err EMFILE /\ s' = arc_drop o s /\ fd_inv s' ext
  end.
Proof.
  intros Hi. unfold add_file_like. destruct (fo_add _ _) as [[id t']|] eqn:E.
  - destruct (fo_add_some _ _ _ _ E) as (Hv & Hn & Hg).
    destruct (fd_small id Hv) as [-> _].
    split; [by eapply (table_add_inv s ext o t' id)|]. split; [done|]. by split_and!.
  - split; [done|]. split; [done|]. by apply arc_drop_inv.
Qed.

Lemma remove_fd_inv s ext id :
  fd_inv s ext ->
  match fo_remove (fd_table s) id with
  | (Some o, t') => fo_get (fd_table s) id = Some o /\ fd_inv (set_table s t') (bump o ext)
  | (None, t') => fo_get (fd_table s) id = None /\ fd_inv (set_table s t') ext
  end.
Proof.
  intros Hi. pose proof (fo_remove_eq (fd_table s) id) as Hr.
  pose proof (fo_remove_get (fd_table s) id) as Hg.
  destruct (fo_remove (fd_table s) id) as [[o|] t']; simpl in *; split; auto.
  - by apply (table_remove_inv s ext o t' id).
  - apply table_same_inv; [done|]. intros j. rewrite Hg. case_decide; subst; done.
Qed.

Lemma close_file_like_inv s ext fd : fd_inv s ext -> fd_inv (snd (close_file_like fd s)) ext.
Proof.
  intros Hi. unfold close_file_like.
  pose proof (remove_fd_inv s ext (as_usize fd) Hi) as Hr.
  destruct (fo_remove _ _) as [[o|] t']; [|by destruct Hr].
  destruct Hr as [_ Hr]. by apply arc_drop_inv.
Qed.

Lemma dup_fd_inv s ext fd :
  fd_inv s ext -> fd_inv (snd (dup_fd fd s)) ext /\ fst (dup_fd fd s) <> Panic.
Proof.
  intros Hi. unfold dup_fd. unfold_M.
  pose proof (get_file_like_inv s ext fd Hi) as Hg.
  destruct (get_file_like fd s) as [[o|e|] s1]; [|destruct Hg as [? ->]; done..].
  pose proof (add_file_like_inv s1 ext o Hg) as Ha.
  destruct (add_file_like o s1) as [[id|e|] s2]; [by destruct Ha|by destruct Ha as (? & ? & ?)..].
Qed.

Lemma add_to_fd_table_inv s ext k :
  (forall r b, k <> KPipe r b) -> fd_inv s ext ->
  fd_inv (snd (add_to_fd_table k s)) ext /\ fst (add_to_fd_table k s) <> Panic.
Proof.
  intros Hk Hi. unfold add_to_fd_table. pose proof (arc_new_inv s ext k Hk Hi) as Hn.
  destruct (arc_new k s) as [o s1]. pose proof (add_file_like_inv s1 ext o Hn) as Ha.
  destruct (add_file_like o s1) as [[id|e|] s2]; [by destruct Ha|by destruct Ha as (? & ? & ?)..].
Qed.

Lemma sys_dup2_inv s ext old_fd new_fd :
  fd_inv s ext ->
  match sys_dup2 old_fd new_fd s with
  | (Panic, _) => old_fd <> new_fd /\ ~ fd_valid (as_usize new_fd) /\
                  is_Some (fo_get (fd_table s) (as_usize old_fd))
  | (_, s') => fd_inv s' ext
  end.
Proof.
  intros Hi. unfold sys_dup2. destruct (fo_get _ _) as [f|] eqn:E; [|done].
  assert (fd_inv (arc_clone f s) (bump f ext)) as Hc
    by (apply arc_clone_inv; [by eapply table_alive|done]).
  destruct (Z.eqb_spec old_fd new_fd) as [_|Hne]; [by apply arc_drop_inv|].
  pose proof (remove_fd_inv _ _ (as_usize new_fd) Hc) as Hr.
  pose proof (fo_remove_get (fd_table (arc_clone f s)) (as_usize new_fd)) as Hg.
  destruct (fo_remove _ _) as [old t1]. simpl in Hg.
  set (s1 := match old with Some o => _ | None => _ end).
  assert (fd_inv s1 (bump f ext) /\ fd_table s1 = t1) as [H1 Ht].
  { subst s1. destruct old as [o|]; [|by destruct Hr]. destruct Hr as [_ Hr].
    split; [by apply arc_drop_inv|]. unfold arc_drop. repeat case_match; done. }
  assert (fo_get (fd_table s1) (as_usize new_fd) = None) as Hn
    by (rewrite Ht, Hg, decide_True; done).
  destruct (decide (fd_valid (as_usize new_fd))) as [Hv|Hv].
  - destruct (fo_add_at_free (fd_table s1) (as_usize new_fd) f Hv Hn) as (t2 & -> & Hg2).
    by apply (table_add_inv s1 ext f t2 (as_usize new_fd)).
  - rewrite fo_add_at_bad by auto. eauto.
Qed.

(** The system calls that change the table, as one type. *)
Inductive fd_call : Type :=
| CallClose (fd : Z)
| CallDup (fd : Z)
| CallDup2 (old_fd new_fd : Z)
| CallFcntl (F_DUPFD F_DUPFD_CLOEXEC F_SETFL O_NONBLOCK fd cmd arg : Z)
| CallPipe
| CallOpen (path : str) (directory : bool)
| CallSocket.

Definition run_fd_call (c : fd_call) : M (FdState T) LinuxError Z :=
  match c with
  | CallClose fd => sys_close fd
  | CallDup fd => sys_dup fd
  | CallDup2 o n => sys_dup2 o n
  | CallFcntl a b c d fd cmd arg => sys_fcntl a b c d fd cmd arg
  | CallPipe => pipe_fds;; mret 0
  | CallOpen p d => add_to_fd_table (if d then KDirectory p else KFile p)
  | CallSocket => add_to_fd_table KSocket
  end.

Lemma set_nonblocking_inv s ext o b :
  fd_inv s ext -> fd_inv (snd (set_nonblocking o b s)) ext /\
                  fst (set_nonblocking o b s) = Ok tt.
Proof.
  intros Hi. unfold set_nonblocking. repeat case_match; split; auto; simpl.
  destruct Hi. by split.
Qed.

Lemma sys_fcntl_inv s ext a b c d fd cmd arg :
  fd_inv s ext ->
  fd_inv (snd (sys_fcntl a b c d fd cmd arg s)) ext /\
  fst (sys_fcntl a b c d fd cmd arg s) <> Panic.
Proof.
  intros Hi. unfold sys_fcntl.
  destruct (_ =? a); [by apply dup_fd_inv|]. destruct (_ =? b); [by apply dup_fd_inv|].
  destruct (_ =? c); [|done]. destruct (_ || _ || _); [done|]. unfold_M.
  pose proof (get_file_like_inv s ext fd Hi) as Hg.
  destruct (get_file_like fd s) as [[o|e|] s1]; [|destruct Hg as [? ->]; done..].
  destruct (set_nonblocking_inv s1 (bump o ext) o (0 <? Z.land arg d) Hg) as [H2 E1].
  destruct (set_nonblocking _ _ s1) as [r s2]. simpl in *. subst r. split; [|done].
  by apply arc_drop_inv.
Qed.

Lemma close_just_added s ext id :
  fd_inv s ext -> fd_valid id -> fo_get (fd_table s) id <> None ->
  exists s', close_file_like id s = (Ok tt, s') /\ fd_inv s' ext.
Proof.
  intros Hi Hv Hn. pose proof (close_file_like_inv s ext id Hi) as Hc.
  unfold close_file_like in *. destruct (fd_small id Hv) as [_ E]. rewrite E in *.
  pose proof (fo_remove_eq (fd_table s) id) as Hr.
  destruct (fo_remove _ _) as [[o|] t']; simpl in *; [eauto|congruence].
Qed.

Lemma arc_drop_table o (s : FdState T) : fd_table (arc_drop o s) = fd_table s.
Proof. unfold arc_drop. repeat case_match; done. Qed.

Lemma pipe_fds_inv s ext :
  fd_inv s ext -> fd_inv (snd (pipe_fds s)) ext /\ fst (pipe_fds s) <> Panic.
Proof.
  intros Hi. unfold pipe_fds. destruct (pipe_alloc s) as [[rd wr] s0] eqn:E.
  destruct (pipe_alloc_inv s ext rd wr s0 E Hi) as [I0 _].
  apply (fd_inv_ext _ _ (bump rd (bump wr ext))) in I0; [|intros; apply bump_comm].
  pose proof (add_file_like_inv s0 _ rd I0) as Ha.
  destruct (add_file_like rd s0) as [[id|e|] s1].
  - destruct Ha as (I1 & Hv & _ & Hg & _ & _).
    pose proof (add_file_like_inv s1 _ wr I1) as Hw.
    destruct (add_file_like wr s1) as [[id2|e|] s2]; [by destruct Hw|..].
    + destruct Hw as (_ & -> & I2). destruct (close_just_added _ ext id I2 Hv) as (s3 & -> & I3).
      { rewrite arc_drop_table, Hg, decide_True; done. }
      done.
    + by destruct Hw.
  - destruct Ha as (_ & _ & I1). split; [by apply arc_drop_inv|done].
  - by destruct Ha.
Qed.

Lemma run_fd_call_inv c s ext :
  fd_inv s ext -> fst (run_fd_call c s) <> Panic -> fd_inv (snd (run_fd_call c s)) ext.
Proof.
  intros Hi Hp. destruct c as [fd|fd|o n|a b c d fd cmd arg| |p d|]; simpl in *.
  - pose proof (close_file_like_inv s ext fd Hi). unfold sys_close. unfold_M.
    by destruct (close_file_like fd s) as [[]].
  - by apply dup_fd_inv.
  - pose proof (sys_dup2_inv s ext o n Hi). by destruct (sys_dup2 o n s) as [[]].
  - by apply sys_fcntl_inv.
  - pose proof (pipe_fds_inv s ext Hi) as [? ?]. unfold_M.
    by destruct (pipe_fds s) as [[]].
  - apply add_to_fd_table_inv; [|done]. by destruct d.
  - by apply add_to_fd_table_inv.
Qed.
(** *** Start-up *)

Lemma empty_inv : fd_inv (mkFd fo_new ∅ ∅ ∅) (fun _ => 0%nat).
Proof.
  split; simpl.
  - intros o. rewrite lookup_empty, refs_none; [done|]. intros j _. apply fo_get_new.
  - done.
  - intros r. rewrite lookup_empty. split; by intros (? & ? & ? & ?).
  - done.
Qed.

Lemma init_add_inv s ext id k s' :
  (forall r b, k <> KPipe r b) -> fd_inv s ext -> init_add id k s = (Ok tt, s') -> fd_inv s' ext.
Proof.
  intros Hk Hi. unfold init_add. pose proof (arc_new_inv s ext k Hk Hi) as Hn.
  destruct (arc_new k s) as [o s1] eqn:Ea.
  destruct (decide (fd_valid id)) as [Hv|Hv]; [|rewrite fo_add_at_bad by auto; done].
  destruct (fo_get (fd_table s1) id) as [x|] eqn:Hx; [rewrite fo_add_at_bad by (right; congruence); done|].
  destruct (fo_add_at_free _ id o Hv Hx) as (t' & -> & Hg). intros [= <-].
  by apply (table_add_inv s1 ext o t' id).
Qed.

Definition no_ext : nat -> nat := fun _ => 0%nat.

Lemma init_stdio_inv s s' : init_stdio s = (Ok tt, s') -> fd_inv s' no_ext.
Proof.
  unfold init_stdio. unfold_M. pose proof empty_inv as Hi.
  destruct (init_add 0 _ _) as [[[]|e|] s1] eqn:E1; try done.
  apply (init_add_inv _ no_ext) in E1; auto.
  destruct (init_add 1 _ _) as [[[]|e|] s2] eqn:E2; try done.
  apply (init_add_inv _ no_ext) in E2; auto.
  intros E3. by apply (init_add_inv _ no_ext) in E3.
Qed.

(** *** Executions: the calls of one process, in any order, from start-up on *)

Inductive fd_step (s : FdState T) : FdState T -> Prop :=
| fd_step_call c r s' : run_fd_call c s = (r, s') -> r <> Panic -> fd_step s s'.

Definition fd_reachable (s : FdState T) : Prop :=
  exists b s0, init_stdio b = (Ok tt, s0) /\ rtc fd_step s0 s.

Lemma fd_reachable_invariant s : fd_reachable s -> fd_inv s no_ext.
Proof.
  intros (b & s0 & Hs0%init_stdio_inv & Hr). induction Hr as [|s1 s2 s3 [c r s' E Hp] _ IH]; auto.
  apply IH. replace s' with (snd (run_fd_call c s1)) by by rewrite E.
  apply run_fd_call_inv; [done|]. by rewrite E.
Qed.

Lemma refs_pos f o : (0 < refs f o)%nat -> exists id, fd_valid id /\ f id = Some o.
Proof.
  unfold refs. intros Hp. assert (exists id, id ∈ seqZ 0 AX_FILE_LIMIT /\ f id = Some o) as (id & Hid & E).
  { induction (seqZ 0 AX_FILE_LIMIT) as [|x l IH]; simpl in Hp; [lia|].
    case_decide; [exists x; set_solver|]. destruct IH as (id & ? & ?); [lia|]. set_solver. }
  exists id. split; [|done]. apply elem_of_seqZ in Hid. unfold fd_valid. lia.
Qed.

(** C10: in every state reachable by closing, duplicating, opening, creating
    pipes and sockets in any order, an object is in the heap exactly while some
    descriptor refers to it, and its reference count is the number of those
    descriptors: nothing is freed while in use and nothing leaks. *)
Theorem descriptor_refcounts_exact (s : FdState T) o :
  fd_reachable s ->
  (is_Some (heap s !! o) <-> exists fd, fo_get (fd_table s) fd = Some o) /\
  (forall c, heap s !! o = Some c -> cell_strong c = refs (fo_get (fd_table s)) o).
Proof.
  intros Hi%fd_reachable_invariant. pose proof (inv_strong _ _ Hi o) as E. split; [split|].
  - intros [c Hc]. pose proof (inv_live _ _ Hi o c Hc). rewrite Hc in E. simpl in E.
    destruct (refs_pos (fo_get (fd_table s)) o) as (id & _ & ?); [|eauto]. unfold no_ext in E. lia.
  - intros [fd Hfd]. by eapply table_alive.
  - intros c Hc. rewrite Hc in E. simpl in E. unfold no_ext in E. lia.
Qed.

(** C15: in every reachable state an open pipe end finds its ring, and
    [Pipe::closed] on it answers true exactly when no descriptor refers to the
    other end: that is what makes a read return end-of-file and never earlier. *)
Theorem pipe_closed_iff_peer_gone (s : FdState T) fd o c r b :
  fd_reachable s ->
  fo_get (fd_table s) fd = Some o -> heap s !! o = Some c -> cell_kind c = KPipe r b ->
  exists sh, rings s !! r = Some sh /\
    (closed sh = true <->
     ~ exists fd' o' c', fo_get (fd_table s) fd' = Some o' /\ heap s !! o' = Some c' /\
                         cell_kind c' = KPipe r (negb b)).
Proof.
  intros Hr Hfd Hc Hk. pose proof (fd_reachable_invariant s Hr) as Hi.
  assert (end_alive (heap s) r (negb b) <->
          exists fd' o' c', fo_get (fd_table s) fd' = Some o' /\ heap s !! o' = Some c' /\
                            cell_kind c' = KPipe r (negb b)) as Hpeer.
  { split; [|intros (fd' & o' & c' & _ & Hc' & Hk'); by exists o', c'].
    intros (o' & c' & Hc' & Hk').
    pose proof (inv_strong _ _ Hi o') as E. pose proof (inv_live _ _ Hi o' c' Hc') as Hl.
    rewrite Hc' in E. simpl in E. unfold no_ext in E.
    destruct (refs_pos (fo_get (fd_table s)) o') as (id & _ & ?); [lia|]. eauto 6. }
  assert (end_alive (heap s) r b) as Hb by (exists o, c; done).
  pose proof (inv_ring _ _ Hi r) as Hri. unfold ring_inv in Hri.
  destruct (rings s !! r) as [sh|]; [|by destruct b, Hri]. exists sh. split; [done|].
  rewrite <- Hpeer. unfold closed. rewrite Nat.eqb_eq. destruct Hri as [_ [(-> & ? & ?)|(-> & b' & Ha & Hna)]].
  - split; [done|]. intros []. by destruct b.
  - split; [|done]. intros _. by assert (b' = b) as -> by (destruct b, b'; done).
Qed.

(** C31: of the descriptor calls only [dup2] can bring the kernel down: whatever
    the arguments, a call panics only when it is [dup2] of an open descriptor
    onto a different number outside the table, and it always panics then. *)
Theorem only_dup2_out_of_range_panics (s : FdState T) c :
  fd_reachable s ->
  fst (run_fd_call c s) = Panic <->
  exists old_fd new_fd, c = CallDup2 old_fd new_fd /\ old_fd <> new_fd /\
    ~ fd_valid (as_usize new_fd) /\ is_Some (fo_get (fd_table s) (as_usize old_fd)).
Proof.
  intros Hi%fd_reachable_invariant. split.
  - intros Hp. destruct c as [fd|fd|o n|a b c d fd cmd arg| |p d|]; simpl in *.
    + exfalso. revert Hp. unfold sys_close, close_file_like. unfold_M.
      by destruct (fo_remove _ _) as [[]].
    + by destruct (dup_fd_inv s _ fd Hi).
    + exists o, n. pose proof (sys_dup2_inv s _ o n Hi) as Hd.
      destruct (sys_dup2 o n s) as [[]]; [done..|]. by destruct Hd as (? & ? & ?).
    + by destruct (sys_fcntl_inv s _ a b c d fd cmd arg Hi).
    + destruct (pipe_fds_inv s _ Hi) as [_ Hn]. revert Hp. unfold_M.
      by destruct (pipe_fds s) as [[]].
    + destruct (add_to_fd_table_inv s no_ext (if d then KDirectory p else KFile p)) as [_ Hn];
        [by destruct d|done..].
    + by destruct (add_to_fd_table_inv s no_ext KSocket).
  - intros (o & n & -> & Hne & Hv & [f Hf]). simpl. unfold sys_dup2. rewrite Hf.
    apply Z.eqb_neq in Hne. rewrite Hne.
    destruct (fo_remove _ _) as [[x|] t1]; rewrite fo_add_at_bad; auto.
Qed.

(** *** Table views *)

Lemma sys_dup2_view s ext old_fd new_fd f :
  fd_inv s ext -> fd_valid new_fd -> fo_get (fd_table s) old_fd = Some f ->
  exists s', sys_dup2 old_fd new_fd s = (Ok new_fd, s') /\
    forall j, fo_get (fd_table s') j =
      if decide (j = new_fd) then Some f else fo_get (fd_table s) j.
Proof.
  intros Hi Hv Hf. pose proof (fo_get_valid _ _ _ Hf) as Hvo.
  destruct (fd_small _ Hv) as [_ En]. destruct (fd_small _ Hvo) as [_ Eo].
  assert (as_isize new_fd = new_fd) as Ei
    by (apply swrap_small; unfold fd_valid, AX_FILE_LIMIT in Hv; lia).
  unfold sys_dup2. rewrite En, Eo, Hf, Ei.
  destruct (Z.eqb_spec old_fd new_fd) as [->|Hne].
  - eexists. split; [done|]. intros j. rewrite arc_drop_table. simpl.
    case_decide; [by subst|done].
  - pose proof (fo_remove_get (fd_table (arc_clone f s)) new_fd) as Hg.
    destruct (fo_remove _ _) as [old t1]. simpl in Hg.
    set (s1 := match old with Some o => _ | None => _ end).
    assert (fd_table s1 = t1) as Ht by (subst s1; destruct old; by rewrite ?arc_drop_table).
    rewrite Ht. destruct (fo_add_at_free t1 new_fd f Hv) as (t2 & -> & Hg2).
    { by rewrite Hg, decide_True. }
    eexists. split; [done|]. intros j. simpl. rewrite Hg2, Hg. by repeat case_decide.
Qed.

(** [dup2] onto a number of the table makes that number name the object of
    the old one, whatever it named before, returns the number, and leaves every
    other descriptor alone; the reference counts stay exact. *)
Theorem sys_dup2_redirects (s : FdState T) old_fd new_fd f :
  fd_reachable s -> fd_valid new_fd -> fo_get (fd_table s) old_fd = Some f ->
  exists s', sys_dup2 old_fd new_fd s = (Ok new_fd, s') /\ fd_reachable s' /\
    forall j, fo_get (fd_table s') j =
      if decide (j = new_fd) then Some f else fo_get (fd_table s) j.
Proof.
  intros Hr Hv Hf. pose proof (fd_reachable_invariant s Hr) as Hi.
  destruct (sys_dup2_view s no_ext old_fd new_fd f Hi Hv Hf) as (s' & E & Hg).
  exists s'. split; [done|]. split; [|done]. destruct Hr as (b & s0 & Hb & Hs).
  exists b, s0. split; [done|]. eapply rtc_r; [exact Hs|].
  by apply (fd_step_call s (CallDup2 old_fd new_fd) (Ok new_fd)).
Qed.

(** *** Forking and clearing a table *)

Lemma arc_clone_table o (s : FdState T) : fd_table (arc_clone o s) = fd_table s.
Proof. done. Qed.

Lemma not_in_ids (t : T) j : j ∉ fo_ids t -> fo_get t j = None.
Proof. rewrite fo_ids_spec. destruct (fo_get t j); [|done]. intros []. done. Qed.

Lemma copy_ids_spec src ids : forall (t : T) s ext,
  NoDup ids -> (forall j, j ∈ ids -> fo_get src j <> None /\ fo_get t j = None) ->
  (forall j o, fo_get src j = Some o -> is_Some (heap s !! o)) ->
  fd_inv s (fun o => refs (fo_get t) o + ext o)%nat ->
  exists t' s', copy_ids ids src t s = (Ok t', s') /\ fd_table s' = fd_table s /\
    (forall j, fo_get t' j = if decide (j ∈ ids) then fo_get src j else fo_get t j) /\
    fd_inv s' (fun o => refs (fo_get t') o + ext o)%nat.
Proof.
  induction ids as [|id ids IH]; intros t s ext Hnd Hids Halive Hi; simpl.
  { exists t, s. split_and!; auto. }
  apply NoDup_cons in Hnd as [Hid Hnd]. destruct (Hids id) as [Hs Hn]; [set_solver|].
  destruct (fo_get src id) as [o|] eqn:Eo; [|done].
  assert (fd_valid id) as Hv by by eapply fo_get_valid.
  destruct (fo_add_at_free t id o Hv Hn) as (t1 & -> & Hg).
  destruct (IH t1 (arc_clone o s) ext Hnd) as (t' & s' & -> & Ht & Hg' & Hi').
  - intros j Hj. split; [apply Hids; set_solver|]. rewrite Hg, decide_False; [|set_solver].
    apply Hids. set_solver.
  - intros j x Hx. unfold arc_clone. simpl. destruct (decide (x = o)) as [->|].
    + rewrite lookup_alter_eq. by destruct (Halive j o Hx) as [c ->].
    + rewrite lookup_alter_ne by done. by apply (Halive j).
  - eapply fd_inv_ext, arc_clone_inv; [|eauto|exact Hi]. intros x. simpl.
    rewrite (refs_update (fo_get t) _ id o x Hv Hn Hg). unfold bump. case_decide; lia.
  - exists t', s'. split_and!; auto. intros j. rewrite Hg', Hg.
    repeat case_decide; subst; try done; set_solver.
Qed.

Lemma copy_inner_spec (s : FdState T) ext :
  fd_inv s ext ->
  exists t s', copy_inner s = (Ok t, s') /\ fd_table s' = fd_table s /\
    (forall j, fo_get t j = fo_get (fd_table s) j) /\
    fd_inv s' (fun o => refs (fo_get t) o + ext o)%nat.
Proof.
  intros Hi. unfold copy_inner.
  destruct (copy_ids_spec (fd_table s) (fo_ids (fd_table s)) fo_new s ext)
    as (t & s' & -> & Ht & Hg & Hi').
  - apply fo_ids_nodup.
  - intros j Hj%fo_ids_spec. by rewrite fo_get_new.
  - intros j o Hj. by eapply table_alive.
  - eapply fd_inv_ext; [|exact Hi]. intros o. simpl.
    rewrite refs_none; [done|]. intros. apply fo_get_new.
  - exists t, s'. split_and!; auto. intros j. rewrite Hg. case_decide as Hj; [done|].
    by rewrite fo_get_new, not_in_ids.
Qed.

(** The table a forked process gets names the same objects under the same
    numbers, never panics in the making, leaves the parent's table alone, and
    the references it holds are counted. *)
Theorem copy_inner_same_table (s : FdState T) ext :
  fd_inv s ext ->
  exists t s', copy_inner s = (Ok t, s') /\ fd_table s' = fd_table s /\
    (forall j, fo_get t j = fo_get (fd_table s) j) /\
    fd_inv s' (fun o => refs (fo_get t) o + ext o)%nat.
Proof. apply copy_inner_spec. Qed.

Lemma clear_steps ids : forall s ext,
  fd_inv s ext ->
  fd_inv (foldl clear_step s ids) ext /\
  forall j, fo_get (fd_table (foldl clear_step s ids)) j =
    if decide (j ∈ ids) then None else fo_get (fd_table s) j.
Proof.
  induction ids as [|id ids IH]; intros s ext Hi; simpl; [done|].
  assert (fd_inv (clear_step s id) ext /\
    forall j, fo_get (fd_table (clear_step s id)) j =
      if decide (j = id) then None else fo_get (fd_table s) j) as [Hc Hg].
  { unfold clear_step. pose proof (remove_fd_inv s ext id Hi) as Hr.
    pose proof (fo_remove_get (fd_table s) id) as Hg.
    destruct (fo_remove _ _) as [[o|] t']; destruct Hr as [_ Hr]; [|done].
    split; [by apply arc_drop_inv|]. by rewrite arc_drop_table. }
  destruct (IH _ ext Hc) as [Hi' Hg']. split; [done|]. intros j. rewrite Hg', Hg.
  repeat case_decide; subst; try done; set_solver.
Qed.

Lemma clear_empties (s : FdState T) ext :
  fd_inv s ext -> forall fd, fo_get (fd_table (clear s)) fd = None.
Proof.
  intros Hi fd. unfold clear. rewrite (proj2 (clear_steps _ s ext Hi)).
  case_decide as Hj; [done|]. by apply not_in_ids.
Qed.

(** Clearing the table at exit leaves no descriptor open, and of the objects
    only those that someone else still refers to survive. *)
Theorem clear_releases_everything (s : FdState T) ext :
  fd_inv s ext ->
  (forall fd, fo_get (fd_table (clear s)) fd = None) /\
  (forall o, is_Some (heap (clear s) !! o) <-> (0 < ext o)%nat).
Proof.
  intros Hi. destruct (clear_steps (fo_ids (fd_table s)) s ext Hi) as [Hc Hg].
  fold (clear s) in *. pose proof (clear_empties s ext Hi) as Hn. split; [done|]. intros o. pose proof (inv_strong _ _ Hc o) as E.
  rewrite refs_none in E by auto. split.
  - intros [c Hs]. pose proof (inv_live _ _ Hc o c Hs). rewrite Hs in E. simpl in E. lia.
  - intros Hp. destruct (heap (clear s) !! o); [eauto|]. simpl in E. lia.
Qed.

(** *** A failed [pipe2] *)

Lemma arc_drop_set_table o (s : FdState T) t :
  arc_drop o (set_table s t) = set_table (arc_drop o s) t.
Proof. unfold arc_drop. simpl. by repeat case_match. Qed.

Lemma drop_fresh_pair t h rs nb (x y r : nat) bx by_ rb :
  h !! x = None -> h !! y = None -> x <> y -> rs !! r = None ->
  let s := arc_drop y (arc_drop x (mkFd t
             (<[y := mkCell (KPipe r by_) 1]> (<[x := mkCell (KPipe r bx) 1]> h))
             (<[r := mkShared rb 2]> rs) nb) : FdState T) in
  heap s = h /\ rings s = rs /\ fd_table s = t.
Proof.
  intros Hx Hy Hne Hr. unfold arc_drop, ring_drop. simpl.
  rewrite lookup_insert_ne, lookup_insert_eq by done. simpl. rewrite lookup_insert_eq. simpl.
  rewrite lookup_delete_ne, lookup_insert_eq by done. simpl. rewrite lookup_insert_eq. simpl.
  split_and!; [|by rewrite insert_insert_eq, delete_insert_id|done].
  apply map_eq. intros z.
  destruct (decide (z = x)) as [->|]; [|destruct (decide (z = y)) as [->|]]; by simplify_map_eq.
Qed.

Lemma pipe_alloc_shape (s : FdState T) rd wr s0 :
  pipe_alloc s = ((rd, wr), s0) ->
  exists r, rings s !! r = None /\ heap s !! rd = None /\ heap s !! wr = None /\ rd <> wr /\
    s0 = mkFd (fd_table s)
           (<[wr := mkCell (KPipe r false) 1]> (<[rd := mkCell (KPipe r true) 1]> (heap s)))
           (<[r := mkShared ring_new 2]> (rings s)) (nonblocking s).
Proof.
  unfold pipe_alloc, arc_new. intros E. injection E as <- <- <-.
  set (r := fresh (dom (rings s))). set (o1 := fresh (dom (heap s))). simpl.
  set (h1 := <[o1 := mkCell (KPipe r true) 1]> (heap s)).
  assert (fresh (dom h1) ∉ dom h1) as Hf by apply is_fresh. set (o2 := fresh (dom h1)) in *.
  exists r. split_and!; try (apply not_elem_of_dom, is_fresh); try done.
  - apply not_elem_of_dom. set_solver.
  - set_solver.
Qed.

(** C32: a [pipe2] that fails (the table has no room for two descriptors) fails
    with EMFILE and leaves nothing behind: the same descriptors are open, and no
    object and no ring remains of the attempt. *)
Theorem pipe_fds_failure_is_clean (s s' : FdState T) e :
  fd_reachable s -> pipe_fds s = (Err e, s') ->
  e = EMFILE /\ heap s' = heap s /\ rings s' = rings s /\
  forall fd, fo_get (fd_table s') fd = fo_get (fd_table s) fd.
Proof.
  intros Hi%fd_reachable_invariant. unfold pipe_fds.
  destruct (pipe_alloc s) as [[rd wr] s0] eqn:E.
  destruct (pipe_alloc_shape s rd wr s0 E) as (r & Hr & Hrd & Hwr & Hne & E0).
  unfold add_file_like. destruct (fo_add (fd_table s0) rd) as [[id t1]|] eqn:E1.
  - destruct (fo_add_some _ _ _ _ E1) as (Hv & Hfree & Hg1).
    simpl. destruct (fo_add t1 wr) as [[id2 t2]|] eqn:E2; [done|].
    unfold close_file_like. destruct (fd_small id Hv) as [-> ->].
    rewrite arc_drop_table. simpl.
    pose proof (fo_remove_eq t1 id) as Hrm. pose proof (fo_remove_get t1 id) as Hg2.
    rewrite Hg1, decide_True in Hrm by done.
    destruct (fo_remove t1 id) as [o t3]. simpl in *. subst o. intros [= <- <-].
    rewrite arc_drop_set_table. simpl. rewrite arc_drop_set_table, arc_drop_set_table. simpl.
    subst s0. rewrite insert_insert_ne by done.
    destruct (drop_fresh_pair (fd_table s) (heap s) (rings s) (nonblocking s) wr rd r
                false true ring_new) as (-> & -> & _); auto.
    split_and!; auto. intros j. rewrite Hg2, Hg1. repeat case_decide; subst; done.
  - intros [= <- <-]. subst s0.
    destruct (drop_fresh_pair (fd_table s) (heap s) (rings s) (nonblocking s) rd wr r
                true false ring_new) as (-> & -> & ->); auto.
Qed.
End Invariant.

(** ** A concrete container *)

Module Sample.
#[local] Arguments seqZ : simpl never.
Abbreviation table := (gmap Z nat).

Definition first_free (t : table) : option Z :=
  snd <$> list_find (fun id => t !! id = None) (seqZ 0 AX_FILE_LIMIT).

Lemma in_range id : id ∈ seqZ 0 AX_FILE_LIMIT <-> fd_valid id.
Proof. rewrite elem_of_seqZ. unfold fd_valid. lia. Qed.

Lemma first_free_some t id : first_free t = Some id -> fd_valid id /\ t !! id = None.
Proof.
  unfold first_free. intros ([n x] & (Hl & Hn & _)%list_find_Some & ->)%fmap_Some.
  split; [|done]. by apply in_range, (list_elem_of_lookup_2 _ n).
Qed.

Lemma first_free_none t id : first_free t = None -> fd_valid id -> t !! id <> None.
Proof.
  unfold first_free. intros Hf%fmap_None Hv%in_range Hn. apply list_find_None in Hf.
  rewrite Forall_forall in Hf. by apply (Hf id).
Qed.

Lemma view_insert (t : table) id a j :
  fd_valid id ->
  (if decide (fd_valid j) then <[id := a]> t !! j else None) =
  (if decide (j = id) then Some a else if decide (fd_valid j) then t !! j else None).
Proof.
  intros Hv. destruct (decide (j = id)) as [->|Hne].
  - by rewrite decide_True, lookup_insert_eq.
  - by rewrite lookup_insert_ne.
Qed.

#[local] Arguments first_free : simpl never.

#[export] Instance gmap_objects : FlattenObjects table nat := {|
  fo_new := ∅;
  fo_get t id := if decide (fd_valid id) then t !! id else None;
  fo_add t a := match first_free t with Some id => Some (id, <[id := a]> t) | None => None end;
  fo_add_at t id a :=
    if decide (fd_valid id) then
      match t !! id with None => Some (<[id := a]> t) | Some _ => None end
    else None;
  fo_remove t id := (if decide (fd_valid id) then t !! id else None, delete id t);
  fo_ids t := filter (fun id => t !! id <> None) (seqZ 0 AX_FILE_LIMIT)
|}.

#[export] Instance gmap_objects_ok : FlattenObjectsOk table nat.
Proof.
  split; simpl.
  - intros j. by case_decide.
  - intros t j a. by case_decide.
  - intros t a id t'. destruct (first_free t) as [x|] eqn:Hf; [|done]. intros [= <- <-].
    apply first_free_some in Hf as [Hv Hn]. rewrite decide_True by done.
    split; [done|]. split; [done|]. intros j. by apply view_insert.
  - intros t a Hf id Hv. rewrite decide_True by done. apply first_free_none; [|done].
    by destruct (first_free t).
  - intros t id a Hv Hn. rewrite decide_True in Hn by done. rewrite decide_True, Hn by done.
    eexists. split; [done|]. intros j. by apply view_insert.
  - intros t id a Hb. case_decide; [|done]. destruct (t !! id); naive_solver.
  - done.
  - intros t id j. repeat case_decide; subst; by simplify_map_eq.
  - intros t j. rewrite list_elem_of_filter, in_range. case_decide; naive_solver.
  - intros t. apply NoDup_filter, NoDup_seqZ.
Qed.

(** The state after start-up, a pipe, and a duplicate of its write end. *)
Definition booted : FdState table := snd (init_stdio (mkFd ∅ ∅ ∅ ∅)).
Definition with_pipe : FdState table := snd (run_fd_call CallPipe booted).
Definition with_dup : FdState table := snd (run_fd_call (CallDup 4) with_pipe).

Lemma booted_reachable : fd_reachable booted.
Proof. exists (mkFd ∅ ∅ ∅ ∅), booted. split; [by vm_compute|apply rtc_refl]. Qed.

Lemma call_reachable (s : FdState table) c s' r :
  fd_reachable s -> run_fd_call c s = (r, s') -> r <> Panic -> fd_reachable s'.
Proof.
  intros (b & s0 & Hb & Hr) E Hp. exists b, s0. split; [done|]. eapply rtc_r; [exact Hr|].
  by apply (fd_step_call s c r).
Qed.

Lemma with_pipe_reachable : fd_reachable with_pipe.
Proof.
  eapply (call_reachable booted CallPipe _ (Ok 0)); [apply booted_reachable| |done].
  by vm_compute.
Qed.

Lemma with_dup_reachable : fd_reachable with_dup.
Proof.
  eapply (call_reachable with_pipe (CallDup 4) _ (Ok 5)); [apply with_pipe_reachable| |done].
  by vm_compute.
Qed.

(** Two descriptors share the write end of the pipe. *)
Lemma descriptor_refcounts_exact_witness :
  (is_Some (heap with_dup !! 4%nat) <-> exists fd, fo_get (fd_table with_dup) fd = Some 4%nat) /\
  (forall c, heap with_dup !! 4%nat = Some c ->
     cell_strong c = refs (fo_get (fd_table with_dup)) 4%nat).
Proof. exact (descriptor_refcounts_exact with_dup 4%nat with_dup_reachable). Defined.

Definition read_only_pipe : FdState table := snd (run_fd_call (CallClose 4) with_pipe).

Lemma read_only_pipe_reachable : fd_reachable read_only_pipe.
Proof.
  eapply (call_reachable with_pipe (CallClose 4) _ (Ok 0)); [apply with_pipe_reachable| |done].
  by vm_compute.
Qed.

(** Once descriptor 4, the write end, is closed, descriptor 3 sees the pipe
    closed. *)
Lemma pipe_closed_iff_peer_gone_witness :
  exists sh, rings read_only_pipe !! 0%nat = Some sh /\
    (closed sh = true <->
     ~ exists fd' o' c', fo_get (fd_table read_only_pipe) fd' = Some o' /\
         heap read_only_pipe !! o' = Some c' /\ cell_kind c' = KPipe 0 (negb true)).
Proof.
  apply (pipe_closed_iff_peer_gone read_only_pipe 3 3 (mkCell (KPipe 0 true) 1) 0 true);
    [apply read_only_pipe_reachable|by vm_compute..].
Defined.

Lemma only_dup2_out_of_range_panics_witness :
  fst (run_fd_call (CallDup2 1 1024) booted) = Panic <->
  exists old_fd new_fd, CallDup2 1 1024 = CallDup2 old_fd new_fd /\ old_fd <> new_fd /\
    ~ fd_valid (as_usize new_fd) /\ is_Some (fo_get (fd_table booted) (as_usize old_fd)).
Proof. exact (only_dup2_out_of_range_panics booted (CallDup2 1 1024) booted_reachable). Defined.

Lemma sys_dup2_redirects_witness :
  exists s', sys_dup2 1 4 with_pipe = (Ok 4, s') /\ fd_reachable s' /\
    forall j, fo_get (fd_table s') j =
      if decide (j = 4) then Some 1%nat else fo_get (fd_table with_pipe) j.
Proof.
  apply (sys_dup2_redirects with_pipe 1 4 1%nat);
    [apply with_pipe_reachable|unfold fd_valid, AX_FILE_LIMIT; lia|by vm_compute].
Defined.

Lemma copy_inner_same_table_witness :
  exists t s', copy_inner with_dup = (Ok t, s') /\ fd_table s' = fd_table with_dup /\
    (forall j, fo_get t j = fo_get (fd_table with_dup) j) /\
    fd_inv s' (fun o => refs (fo_get t) o + no_ext o)%nat.
Proof.
  exact (copy_inner_same_table with_dup no_ext (fd_reachable_invariant _ with_dup_reachable)).
Defined.

Lemma clear_releases_everything_witness :
  (forall fd, fo_get (fd_table (clear with_dup)) fd = None) /\
  (forall o, is_Some (heap (clear with_dup) !! o) <-> (0 < no_ext o)%nat).
Proof.
  exact (clear_releases_everything with_dup no_ext (fd_reachable_invariant _ with_dup_reachable)).
Defined.

(** A table with one free descriptor: 0 duplicated 1020 times. *)
Fixpoint dups (n : nat) (s : FdState table) : FdState table :=
  match n with O => s | S n' => snd (run_fd_call (CallDup 0) (dups n' s)) end.

Lemma dups_reachable n s : fd_reachable s -> fd_reachable (dups n s).
Proof.
  intros Hs. induction n as [|n IH]; [done|]. pose proof (fd_reachable_invariant _ IH) as Hi.
  eapply (call_reachable _ (CallDup 0)); [done|apply surjective_pairing|].
  by apply (dup_fd_inv _ no_ext 0).
Qed.

(** The descriptors in use are exactly those below [k]. *)
Definition used_below (t : table) (k : Z) : Prop := forall id, t !! id <> None <-> 0 <= id < k.

Lemma first_free_used t k : used_below t k -> fd_valid k -> first_free t = Some k.
Proof.
  intros Hu Hk. assert (t !! k = None) as Hkn.
  { destruct (t !! k) eqn:El; [|done]. assert (0 <= k < k) by (apply Hu; congruence). lia. }
  destruct (first_free t) as [x|] eqn:E; [|by destruct (first_free_none t k E Hk)].
  unfold first_free in E. apply fmap_Some in E as ([n y] & (Hl & Hn & Hmin)%list_find_Some & ->).
  apply lookup_seqZ in Hl. simpl in *. f_equal. unfold fd_valid in Hk.
  assert (~ 0 <= y < k) by (intros Hy%Hu; done).
  destruct (decide (y = k)) as [|Hne]; [done|]. exfalso.
  apply (Hmin (Z.to_nat k) k); [|lia|done]. apply lookup_seqZ. lia.
Qed.

Lemma used_insert t k a : 0 <= k -> used_below t k -> used_below (<[k := a]> t) (k + 1).
Proof.
  intros Hk Hu id. destruct (decide (id = k)) as [->|Hne].
  - rewrite lookup_insert_eq. split; [lia|done].
  - rewrite lookup_insert_ne by done. etrans; [apply Hu|lia].
Qed.

Lemma dups_used n :
  3 + Z.of_nat n <= AX_FILE_LIMIT -> used_below (fd_table (dups n booted)) (3 + Z.of_nat n).
Proof.
  induction n as [|n IH]; intros Hn.
  - intros id. assert (fd_table (dups 0 booted) = <[0 := 0%nat]> (<[1 := 1%nat]> {[2 := 2%nat]}))
      as -> by (by vm_compute).
    destruct (decide (0 <= id < 3)) as [Hid|Hid].
    + assert (id = 0 \/ id = 1 \/ id = 2) as [->|[->| ->]] by lia; done.
    + rewrite !lookup_insert_ne, lookup_singleton_ne by lia. split; [done|lia].
  - specialize (IH ltac:(lia)). set (s := dups n booted) in *.
    change (dups (S n) booted) with (snd (dup_fd 0 s)). unfold dup_fd, get_file_like. unfold_M.
    change (fo_get (fd_table s) (as_usize 0)) with (fd_table s !! 0).
    destruct (fd_table s !! 0) as [o|] eqn:Eo; [|by destruct (proj2 (IH 0)); [lia|]].
    unfold add_file_like. simpl. rewrite (first_free_used _ (3 + Z.of_nat n) IH) by (unfold fd_valid; lia).
    replace (3 + Z.of_nat (S n)) with (3 + Z.of_nat n + 1) by lia.
    apply used_insert; [lia|done].
Qed.

Definition nearly_full : FdState table := dups (Z.to_nat 1020) booted.

Lemma nearly_full_used : used_below (fd_table nearly_full) 1023.
Proof.
  unfold nearly_full. replace 1023 with (3 + Z.of_nat (Z.to_nat 1020)) by (rewrite Z2Nat.id; lia).
  apply dups_used. rewrite Z2Nat.id; [done|lia].
Qed.

Lemma nearly_full_reachable : fd_reachable nearly_full.
Proof. apply dups_reachable, booted_reachable. Qed.
#[local] Opaque nearly_full.

Lemma pipe_fds_one_free (s : FdState table) :
  fd_reachable s -> used_below (fd_table s) 1023 -> fst (pipe_fds s) = Err EMFILE.
Proof.
  intros Hi%fd_reachable_invariant Hu. destruct (pipe_fds_inv s no_ext Hi) as [_ Hnp].
  revert Hnp. unfold pipe_fds. destruct (pipe_alloc s) as [[rd wr] s0] eqn:E.
  destruct (pipe_alloc_shape _ _ _ _ E) as (r & _ & _ & _ & _ & ->).
  unfold add_file_like. simpl.
  rewrite (first_free_used _ 1023 Hu) by (unfold fd_valid, AX_FILE_LIMIT; lia). simpl.
  destruct (first_free (<[1023 := rd]> _)) as [x|] eqn:Ex.
  - apply first_free_some in Ex as [Hx Hn]. exfalso. unfold fd_valid, AX_FILE_LIMIT in Hx.
    apply (proj2 (used_insert _ 1023 rd ltac:(lia) Hu x)) in Hn; [done|lia].
  - destruct (close_file_like _ _) as [[]]; done.
Qed.

Lemma pipe_fds_failure_is_clean_witness :
  EMFILE = EMFILE /\ heap (snd (pipe_fds nearly_full)) = heap nearly_full /\
  rings (snd (pipe_fds nearly_full)) = rings nearly_full /\
  forall fd, fo_get (fd_table (snd (pipe_fds nearly_full))) fd = fo_get (fd_table nearly_full) fd.
Proof.
  apply (pipe_fds_failure_is_clean nearly_full (snd (pipe_fds nearly_full)) EMFILE).
  - apply nearly_full_reachable.
  - rewrite <- (pipe_fds_one_free nearly_full nearly_full_reachable nearly_full_used).
    apply surjective_pairing.
Defined.
End Sample.
