(* ===== verification/Path.v ===== *)
(** * Paths and hard links: [api/src/path.rs]

    [FilePath], the hard-link table [HARDLINK_MANAGER] and [handle_file_path],
    which turns a descriptor and a path argument of a system call into a
    [FilePath].  The file system itself ([axfs]) is an interface. *)

From stdpp Require Import base list gmap option strings relations.
From Stdlib Require Import ZArith Lia.
From S2P Require Import Prelude Text.
From S2P Require Import FdTable.
Import ListNotations.

(** ** The file system

    The functions of [axfs::api] the kernel calls, on a file-system state [FS].
    They return [Result]s: [inl] is their error. *)

Class AxFs (FS : Type) : Type := {
  canonicalize : FS -> str -> AxError + str;
  absolute_path_exists : FS -> str -> bool;
  remove_file : FS -> str -> (AxError + unit) * FS;
  create_dir : FS -> str -> (AxError + unit) * FS;
  remove_dir : FS -> str -> (AxError + unit) * FS;
  set_current_dir : FS -> str -> (AxError + unit) * FS;
  current_dir : FS -> AxError + str;
  metadata_is_dir : FS -> str -> AxError + bool
}.

Abbreviation FilePath := (list Z).

Record LinkManagerInner : Type := mkLinks {
  links : gmap str str;
  ref_counts : gmap str Z
}.

(** The kernel's link table together with the file system below it. *)
Record PathState (FS : Type) : Type := mkPS { inner : LinkManagerInner; fs : FS }.
Arguments mkPS {FS} _ _.
Arguments inner {FS} _.
Arguments fs {FS} _.

Definition hardlink_new : LinkManagerInner := mkLinks ∅ ∅.

Inductive LinkError : Type := LinkExists | InvalidPath | NotFound | NotFile.

Definition ax_error_from (err : LinkError) : AxError :=
  match err with
  | LinkExists => AxAlreadyExists
  | InvalidPath => AxInvalidInput
  | NotFound => AxNotFound
  | NotFile => AxInvalidInput
  end.

Definition linux_error_from `{ErrorConv} (err : LinkError) : LinuxError :=
  ax_into (ax_error_from err).

(** ** [FilePath] *)

Definition real_path (lm : LinkManagerInner) (path : str) : str :=
  default path (links lm !! path).

(** The trailing slash of the argument is kept. *)
Definition keep_slash (path new_path : str) : str :=
  if ends_with_char path SLASH && negb (ends_with_char new_path SLASH)
  then new_path ++ [SLASH] else new_path.

Section FilePath.
Context {FS : Type} `{AxFs FS}.

Definition FilePath_new (s : PathState FS) (path : str) : AxResult FilePath :=
  match canonicalize (fs s) path with
  | inl _ => Err AxNotFound
  | inr canonical =>
      let new_path := keep_slash path (trim canonical) in
      if starts_with_char new_path SLASH then Ok (real_path (inner s) new_path) else Panic
  end.

Definition exists_ (s : PathState FS) (p : FilePath) : bool := absolute_path_exists (fs s) p.

Definition join (s : PathState FS) (self : FilePath) (path : str) : AxResult FilePath :=
  FilePath_new s ((if ends_with_char self SLASH then self else self ++ [SLASH]) ++ path).
End FilePath.

Definition is_root (p : FilePath) : bool := bool_decide (p = [SLASH]).
Definition is_dir (p : FilePath) : bool := ends_with_char p SLASH.
Definition is_file (p : FilePath) : bool := negb (is_dir p).

(** [path.strip_suffix('/').unwrap()] when it ends with a slash. *)
Definition strip_slash (p : str) : str :=
  if ends_with_char p SLASH then removelast p else p.

Definition parent (p : FilePath) : AxResult str :=
  if is_root p then Ok [SLASH]
  else
    let path := strip_slash p in
    pos ← ok_or (rfind path SLASH) AxNotFound;
    unwrap_opt (slice path 0 (S pos)).

Definition name (p : FilePath) : AxResult str :=
  if is_root p then Ok [SLASH]
  else
    let path := strip_slash p in
    start_pos ← ok_or (rfind path SLASH) AxNotFound;
    let end_pos := if ends_with_char path SLASH then (length path - 1)%nat else length path in
    unwrap_opt (slice path (start_pos + 1) end_pos).

(** [starts_with] and [ends_with] compare text, not components. *)
Definition FilePath_starts_with (self prefix : FilePath) : bool := starts_with self prefix.
Definition FilePath_ends_with (self suffix : FilePath) : bool := ends_with self suffix.
Definition components (p : FilePath) : list str := split (trim_matches p SLASH) SLASH.

(** ** [HardlinkManager] *)

Section Links.
Context {FS : Type} `{AxFs FS}.

(** [None] when there was no count, or when the file could not be removed; the
    callers ignore the answer. *)
Definition decrease_ref_count (s : PathState FS) (path : str) : option unit * PathState FS :=
  match ref_counts (inner s) !! path with
  | Some count =>
      let count' := as_usize (count - 1) in
      if count' =? 0 then
        let lm := mkLinks (links (inner s)) (delete path (ref_counts (inner s))) in
        match remove_file (fs s) path with
        | (inr _, f) => (Some tt, mkPS lm f)
        | (inl _, f) => (None, mkPS lm f)
        end
      else
        (Some tt, mkPS (mkLinks (links (inner s)) (<[path := count']> (ref_counts (inner s)))) (fs s))
  | None => (None, s)
  end.

Definition add_link (s : PathState FS) (src dst : FilePath) : PathState FS :=
  mkPS (mkLinks (<[src := dst]> (links (inner s)))
          (<[dst := as_usize (default 0 (ref_counts (inner s) !! dst) + 1)]> (ref_counts (inner s))))
       (fs s).

Definition atomic_link_update (s : PathState FS) (src dst : FilePath) : PathState FS :=
  match links (inner s) !! src with
  | Some old_dst =>
      if bool_decide (old_dst = dst) then s
      else add_link (snd (decrease_ref_count s old_dst)) src dst
  | None => add_link s src dst
  end.

Definition atomic_link_remove (s : PathState FS) (src : FilePath) : option str * PathState FS :=
  match links (inner s) !! src with
  | Some dst =>
      let s := mkPS (mkLinks (delete src (links (inner s))) (ref_counts (inner s))) (fs s) in
      (Some dst, snd (decrease_ref_count s dst))
  | None => (None, s)
  end.

Definition create_link (src dst : FilePath) : M (PathState FS) LinkError unit := fun s =>
  if negb (exists_ s dst) then (Err NotFound, s)
  else if negb (is_dir dst) then (Err NotFile, s)
  else (Ok tt, atomic_link_update s src dst).

Definition remove_link (s : PathState FS) (src : FilePath) : option str * PathState FS :=
  match atomic_link_remove s src with
  | (Some dst, s') => (Some dst, s')
  | (None, s') =>
      match remove_file (fs s') src with
      | (inr _, f) => (Some src, mkPS (inner s') f)
      | (inl _, f) => (None, mkPS (inner s') f)
      end
  end.

Definition link_count (s : PathState FS) (path : FilePath) : Z :=
  match ref_counts (inner s) !! path with
  | Some n => n
  | None => if exists_ s path then 1 else 0
  end.
End Links.

(** ** [handle_file_path] *)

Section HandlePath.
Context {T FS : Type} `{FlattenObjects T nat} `{AxFs FS} `{ErrorConv}.
(** [linux_raw_sys]'s [AT_FDCWD]. *)
Context (AT_FDCWD : Z).
Abbreviation PM := (M (FdState T * PathState FS) LinuxError).

(** [FilePath::new(path)?] and [base.join(path)?]. *)
Definition new_path (path : str) : PM FilePath := fun s =>
  (map_err ax_into (FilePath_new (snd s) path), s).
Definition join_path (base : FilePath) (path : str) : PM FilePath := fun s =>
  (map_err ax_into (join (snd s) base path), s).

Definition handle_file_path (dirfd : Z) (path : str) : PM FilePath :=
  if starts_with_char path SLASH then new_path path
  else if bool_decide (path = []) then
    p ← on_fst (path_of_fd (File_from_fd dirfd)); new_path p
  else
    base ← (if dirfd =? AT_FDCWD then new_path []
            else p ← on_fst (path_of_fd (Directory_from_fd dirfd)); new_path p);
    join_path base path.

(** ** The path system calls of [imp/fs/ctl.rs]

    [user_str] is [UserConstPtr::get_as_str] on the caller's memory. *)
Context (user_str : Z -> LinuxResult str).

(** An [axfs] function applied with [?]. *)
Definition fs_call {A} (f : FS -> (AxError + A) * FS) : PM A := fun s =>
  let '(r, f') := f (fs (snd s)) in
  (match r with inr a => Ok a | inl e => Err (ax_into e) end,
   (fst s, mkPS (inner (snd s)) f')).
Definition fs_query {A} (f : FS -> AxError + A) : PM A := fs_call (fun x => (f x, x)).

Definition sys_chdir (path : Z) : PM Z :=
  path ← lift (user_str path);
  fs_call (fun f => set_current_dir f path);; mret 0.

Definition sys_mkdirat (dirfd path : Z) : PM Z :=
  path ← lift (user_str path);
  path ← handle_file_path dirfd path;
  fs_call (fun f => create_dir f path);; mret 0.

Definition sys_linkat (old_dirfd old_path new_dirfd new_path : Z) : PM Z :=
  old_path ← lift (user_str old_path);
  new_path ← lift (user_str new_path);
  old_path ← handle_file_path old_dirfd old_path;
  new_path ← handle_file_path new_dirfd new_path;
  on_snd (fun s => let '(r, s') := create_link new_path old_path s in
                   (map_err linux_error_from r, s'));;
  mret 0.

Definition sys_link (old_path new_path : Z) : PM Z :=
  sys_linkat AT_FDCWD old_path AT_FDCWD new_path.

(** [linux_raw_sys]'s [AT_REMOVEDIR]. *)
Context (AT_REMOVEDIR : Z).

Definition sys_unlinkat (dirfd path flags : Z) : PM Z :=
  path ← lift (user_str path);
  path ← handle_file_path dirfd path;
  if flags =? AT_REMOVEDIR then fs_call (fun f => remove_dir f path);; mret 0
  else
    dir ← fs_query (fun f => metadata_is_dir f path);
    if (dir : bool) then fail EISDIR
    else
      on_snd (fun s => let '(r, s') := remove_link s path in (ok_or r ENOENT, s'));;
      mret 0.

Definition sys_unlink (path : Z) : PM Z := sys_unlinkat AT_FDCWD path 0.
End HandlePath.

(** ** Taking a path apart *)

Lemma strip_slash_app p : strip_slash (p ++ [SLASH]) = p.
Proof. unfold strip_slash. by rewrite ends_with_char_app, removelast_last. Qed.

Lemma slice_prefix {A} (l : list A) n : (n <= length l)%nat -> slice l 0 n = Some (take n l).
Proof. intros. unfold slice. rewrite bool_decide_eq_true_2 by lia. by rewrite Nat.sub_0_r. Qed.

Lemma slice_suffix {A} (l : list A) n :
  (n <= length l)%nat -> slice l n (length l) = Some (drop n l).
Proof.
  intros. unfold slice. rewrite bool_decide_eq_true_2 by lia.
  by rewrite firstn_all2 by (rewrite length_drop; lia).
Qed.

Lemma strip_slash_cases p :
  (is_dir p = true /\ p = strip_slash p ++ [SLASH]) \/ (is_dir p = false /\ p = strip_slash p).
Proof.
  unfold is_dir, strip_slash. destruct (ends_with_char p SLASH) eqn:E; [left|by right].
  apply ends_with_char_spec in E as [r ->]. by rewrite removelast_last.
Qed.

(** [parent] and [name] take an absolute path apart without loss: the parent
    ends with a slash, the name holds none, and parent, name and the trailing
    slash of a directory put together are the path.  Only a path that ends with
    two slashes makes [name] panic. *)
Theorem parent_name_recompose (p : FilePath) :
  starts_with_char p SLASH = true -> is_root p = false ->
  exists d, parent p = Ok d /\ ends_with_char d SLASH = true /\
    (if is_dir (strip_slash p) then name p = Panic
     else exists n, name p = Ok n /\ n <> [] /\ (SLASH ∉ n) /\
            d ++ n ++ (if is_dir p then [SLASH] else []) = p).
Proof.
  intros Hs Hr. unfold parent, name. rewrite Hr. set (q := strip_slash p).
  assert (exists i, rfind q SLASH = Some i) as [i Hi].
  { destruct (rfind q SLASH) as [i|] eqn:E; [eauto|]. apply rfind_None in E. exfalso. apply E.
    apply starts_with_char_spec in Hs as [r ->]. subst q.
    destruct (strip_slash_cases (SLASH :: r)) as [[_ Ep]|[_ Ep]].
    - destruct (strip_slash (SLASH :: r)) as [|x l]; simpl in Ep.
      + injection Ep as ->. unfold is_root in Hr. by rewrite bool_decide_eq_true_2 in Hr.
      + injection Ep as <- _. set_solver.
    - rewrite <- Ep. set_solver. }
  rewrite Hi. simpl. destruct (rfind_Some _ _ _ Hi) as [Hl Hno].
  pose proof (lookup_lt_Some _ _ _ Hl) as Hlt. rewrite slice_prefix by lia.
  exists (take (S i) q). split; [done|].
  assert (take (S i) q = take i q ++ [SLASH]) as Ht by by apply take_S_drop_lookup.
  split; [(rewrite Ht; apply ends_with_char_app)|].
  unfold is_dir at 1. fold q. destruct (ends_with_char q SLASH) eqn:Ee.
  - assert (i = length q - 1)%nat as ->.
    { apply ends_with_char_spec in Ee as [r Er]. rewrite Er in Hi.
      rewrite (rfind_app_r r SLASH []) in Hi by set_solver. injection Hi as <-.
      rewrite Er, length_app. simpl. lia. }
    unfold slice. rewrite bool_decide_eq_false_2 by lia. done.
  - rewrite slice_suffix by lia. exists (drop (i + 1) q). rewrite Nat.add_1_r.
    split_and!; [done| |done|].
    + intros En. assert (q = take i q ++ [SLASH]) as Eq.
      { rewrite <- (take_drop (S i) q) at 1. by rewrite En, app_nil_r. }
      rewrite Eq, ends_with_char_app in Ee. done.
    + rewrite app_assoc, take_drop. destruct (strip_slash_cases p) as [[-> Ep]|[-> Ep]];
        fold q in Ep; [by rewrite <- Ep|by rewrite app_nil_r].
Qed.

Lemma parent_name_recompose_witness :
  exists d, parent (lit "/usr/bin/"%string) = Ok d /\ ends_with_char d SLASH = true /\
    (if is_dir (strip_slash (lit "/usr/bin/"%string)) then name (lit "/usr/bin/"%string) = Panic
     else exists n, name (lit "/usr/bin/"%string) = Ok n /\ n <> [] /\ (SLASH ∉ n) /\
            d ++ n ++ (if is_dir (lit "/usr/bin/"%string) then [SLASH] else [])
            = lit "/usr/bin/"%string).
Proof. apply (parent_name_recompose (lit "/usr/bin/"%string)); reflexivity. Defined.

(** ** The link table *)

(** How many links point to [d]. *)
Definition count_links (l : gmap str str) (d : str) : nat := size (filter (fun kv => kv.2 = d) l).

Lemma count_links_insert l src dst d :
  l !! src = None ->
  count_links (<[src := dst]> l) d = ((if decide (d = dst) then 1 else 0) + count_links l d)%nat.
Proof.
  intros Hn. unfold count_links. rewrite map_filter_insert. simpl.
  destruct (decide (dst = d)) as [->|Hne].
  - rewrite decide_True by done. rewrite map_size_insert_None; [done|].
    by apply map_lookup_filter_None_2; left.
  - rewrite (decide_False (P := d = dst)) by done. by rewrite delete_id.
Qed.

Lemma count_links_delete l src dst d :
  l !! src = Some dst ->
  count_links l d = ((if decide (d = dst) then 1 else 0) + count_links (delete src l) d)%nat.
Proof.
  intros Hs. rewrite <- (insert_delete_id l src dst Hs) at 1.
  apply count_links_insert, lookup_delete_eq.
Qed.

Lemma count_links_size l d : (count_links l d <= size l)%nat.
Proof. unfold count_links. apply map_size_filter. Qed.

(** [refs] records the counts [f]: no entry for a count of zero. *)
Definition counts (f : str -> nat) (rc : gmap str Z) : Prop :=
  forall d, rc !! d = if decide (f d = 0%nat) then None else Some (Z.of_nat (f d)).

Definition links_inv (lm : LinkManagerInner) : Prop :=
  counts (count_links (links lm)) (ref_counts lm).

Section LinkInv.
Context {FS : Type} `{AxFs FS}.

Lemma decrease_counts (s : PathState FS) f path :
  counts f (ref_counts (inner s)) -> (0 < f path)%nat -> Z.of_nat (f path) < 2 ^ 64 ->
  let s' := snd (decrease_ref_count s path) in
  links (inner s') = links (inner s) /\
  counts (fun d => if decide (d = path) then f d - 1 else f d)%nat (ref_counts (inner s')) /\
  fs s' = (if decide (f path = 1%nat) then snd (remove_file (fs s) path) else fs s).
Proof.
  intros Hc Hp Hb. unfold decrease_ref_count. rewrite Hc, decide_False by lia.
  unfold as_usize. rewrite wrap_small by lia.
  destruct (Z.eqb_spec (Z.of_nat (f path) - 1) 0) as [E|E].
  - rewrite (decide_True (P := f path = 1%nat)) by lia.
    destruct (remove_file _ _) as [[e|u] f']; simpl; (split_and!; [done| |done]);
      intros d; (destruct (decide (d = path)) as [->|]; [rewrite lookup_delete_eq, decide_True by lia; done|]);
      rewrite lookup_delete_ne by done; apply Hc.
  - rewrite (decide_False (P := f path = 1%nat)) by lia. simpl. split_and!; [done| |done].
    intros d. destruct (decide (d = path)) as [->|].
    + rewrite lookup_insert_eq, decide_False by lia. f_equal. lia.
    + rewrite lookup_insert_ne by done. apply Hc.
Qed.

Lemma add_link_counts (s : PathState FS) f src dst :
  counts f (ref_counts (inner s)) -> Z.of_nat (f dst) + 1 < 2 ^ 64 ->
  counts (fun d => (if decide (d = dst) then 1 else 0) + f d)%nat
    (ref_counts (inner (add_link s src dst))).
Proof.
  intros Hc Hb d. simpl. destruct (decide (d = dst)) as [->|].
  - rewrite lookup_insert_eq, Hc, (decide_False (P := (1 + f dst = 0)%nat)) by lia. f_equal.
    unfold as_usize. case_decide as E; simpl default; rewrite wrap_small; lia.
  - rewrite lookup_insert_ne by done. apply Hc.
Qed.

Lemma counts_ext f g rc : (forall d, f d = g d) -> counts f rc -> counts g rc.
Proof. intros E Hc d. by rewrite <- E. Qed.

Lemma update_inv (s : PathState FS) src dst :
  links_inv (inner s) -> Z.of_nat (size (links (inner s))) + 1 < 2 ^ 64 ->
  links_inv (inner (atomic_link_update s src dst)) /\
  links (inner (atomic_link_update s src dst)) = <[src := dst]> (links (inner s)).
Proof.
  intros Hi Hb. unfold atomic_link_update. destruct (links (inner s) !! src) as [old|] eqn:E.
  - case_bool_decide as Eo; [subst; by rewrite insert_id|].
    pose proof (count_links_size (links (inner s)) old) as Hso.
    pose proof (count_links_size (links (inner s)) dst) as Hsd.
    pose proof (count_links_delete _ _ _ old E) as Hold. rewrite decide_True in Hold by done.
    destruct (decrease_counts s _ old Hi) as (El & Hc & _); [lia..|].
    split; [|simpl; by rewrite El].
    apply (add_link_counts _ _ src dst) in Hc; [|rewrite decide_False; [lia|congruence]].
    unfold links_inv. eapply counts_ext, Hc. intros d. simpl. rewrite El.
    rewrite <- (insert_delete_eq (links (inner s))), count_links_insert by apply lookup_delete_eq.
    rewrite (count_links_delete _ _ _ d E). repeat case_decide; subst; done || lia.
  - split; [|done]. pose proof (count_links_size (links (inner s)) dst) as Hsd.
    pose proof (add_link_counts s _ src dst Hi ltac:(lia)) as Hc.
    unfold links_inv. eapply counts_ext, Hc. intros d. simpl. by rewrite count_links_insert.
Qed.

Lemma remove_inv (s : PathState FS) src :
  links_inv (inner s) -> Z.of_nat (size (links (inner s))) < 2 ^ 64 ->
  let '(r, s') := atomic_link_remove s src in
  r = links (inner s) !! src /\ links_inv (inner s') /\
  links (inner s') = delete src (links (inner s)) /\
  fs s' = match r with
          | Some dst => if decide (count_links (links (inner s)) dst = 1%nat)
                        then snd (remove_file (fs s) dst) else fs s
          | None => fs s
          end.
Proof.
  intros Hi Hb. unfold atomic_link_remove. destruct (links (inner s) !! src) as [dst|] eqn:E.
  - pose proof (count_links_size (links (inner s)) dst) as Hsd.
    pose proof (count_links_delete _ _ _ dst E) as Hd. rewrite decide_True in Hd by done.
    set (s1 := mkPS _ (fs s)).
    destruct (decrease_counts s1 (count_links (links (inner s))) dst Hi) as (El & Hc & Hf); [lia..|].
    split_and!; [done| |by rewrite El|by rewrite Hf].
    unfold links_inv. eapply counts_ext, Hc. intros d. rewrite El. simpl.
    rewrite (count_links_delete _ _ _ d E). repeat case_decide; lia.
  - split_and!; auto. by rewrite delete_id.
Qed.

(** Executions of the link table: creations and removals, and whatever else
    happens to the file system in between.  A table with 2^64 - 1 links would
    not fit in memory. *)
Inductive link_step (s : PathState FS) : PathState FS -> Prop :=
| step_create src dst :
    Z.of_nat (size (links (inner s))) + 1 < 2 ^ 64 -> link_step s (snd (create_link src dst s))
| step_remove src :
    Z.of_nat (size (links (inner s))) + 1 < 2 ^ 64 -> link_step s (snd (remove_link s src))
| step_fs f : link_step s (mkPS (inner s) f).

Definition link_reachable (s : PathState FS) : Prop :=
  exists f0, rtc link_step (mkPS hardlink_new f0) s.

Lemma remove_link_inner (s : PathState FS) src :
  inner (snd (remove_link s src)) = inner (snd (atomic_link_remove s src)).
Proof.
  unfold remove_link. destruct (atomic_link_remove s src) as [[d|] s']; [done|].
  by destruct (remove_file (fs s') src) as [[]].
Qed.

Lemma link_step_inv s s' : link_step s s' -> links_inv (inner s) -> links_inv (inner s').
Proof.
  intros [src dst Hb|src Hb|f] Hi; [| |done].
  - unfold create_link. destruct (negb _); [done|]. destruct (negb _); [done|].
    by apply update_inv.
  - rewrite remove_link_inner. pose proof (remove_inv s src Hi ltac:(lia)) as Hr.
    by destruct (atomic_link_remove s src) as [r s1], Hr as (_ & ? & _).
Qed.

Lemma link_reachable_inv s : link_reachable s -> links_inv (inner s).
Proof.
  intros [f0 Hr]. assert (links_inv (inner (mkPS hardlink_new f0))) as Hi.
  { intros d. simpl. unfold count_links. by rewrite map_filter_empty, map_size_empty. }
  induction Hr as [|x y z Hs _ IH]; eauto using link_step_inv.
Qed.

(** C38: in every reachable state of the link table the count kept for a target
    is the number of links that point to it, and a target nothing points to has
    no count. *)
Theorem link_counts_exact (s : PathState FS) d :
  link_reachable s ->
  ref_counts (inner s) !! d =
    if decide (count_links (links (inner s)) d = 0%nat) then None
    else Some (Z.of_nat (count_links (links (inner s)) d)).
Proof. intros Hr%link_reachable_inv. apply Hr. Qed.

(** Removing a link forgets exactly that link and answers its target; the
    target itself is removed from the file system when, and only when, this was
    the last link to it. *)
Theorem remove_link_last_one_deletes (s : PathState FS) src dst :
  link_reachable s -> Z.of_nat (size (links (inner s))) < 2 ^ 64 ->
  links (inner s) !! src = Some dst ->
  exists s', remove_link s src = (Some dst, s') /\
    links (inner s') = delete src (links (inner s)) /\
    fs s' = (if decide (count_links (links (inner s)) dst = 1%nat)
             then snd (remove_file (fs s) dst) else fs s).
Proof.
  intros Hr%link_reachable_inv Hb Hs. pose proof (remove_inv s src Hr Hb) as Hrm.
  unfold remove_link. destruct (atomic_link_remove s src) as [r s'].
  destruct Hrm as (-> & _ & El & Ef). rewrite Hs in *. eauto.
Qed.
End LinkInv.

(** ** The system calls on links *)

Section LinkCalls.
Context {T FS : Type} `{FlattenObjectsOk T nat} `{AxFs FS} `{ErrorConv}.
Context (AT_FDCWD AT_REMOVEDIR : Z) (user_str : Z -> LinuxResult str).

Lemma path_of_fd_pure downcast e fd (d : FdState T) ext :
  fd_inv d ext ->
  path_of_fd (from_fd downcast e fd) d =
    (match fo_get (fd_table d) (as_usize fd) with
     | None => Err EBADF
     | Some o => match (c ← heap d !! o; downcast (cell_kind c)) with
                 | Some p => Ok p
                 | None => Err e
                 end
     end, d).
Proof.
  intros Hi. pose proof (from_fd_spec downcast d ext e fd Hi) as Hs.
  unfold path_of_fd. unfold_M. destruct (fo_get _ _) as [o|]; [|by rewrite Hs].
  destruct Hs as (c & Hc & Hs). rewrite Hc. simpl in *. destruct (downcast (cell_kind c)).
  - destruct Hs as [-> Hd]. simpl. by rewrite Hd.
  - by rewrite Hs.
Qed.

(** Resolving the path of a system call reads the kernel's state and changes
    none of it: whichever way it ends, every reference it took to the object of a
    directory descriptor has been dropped again. *)
Theorem handle_file_path_pure dirfd path (d : FdState T) (s : PathState FS) ext :
  fd_inv d ext -> exists r, handle_file_path AT_FDCWD dirfd path (d, s) = (r, (d, s)).
Proof.
  intros Hi. unfold handle_file_path, new_path, join_path, File_from_fd, Directory_from_fd.
  destruct (starts_with_char path SLASH); [eauto|].
  case_bool_decide; unfold_M; [|destruct (dirfd =? AT_FDCWD)];
    rewrite ?(path_of_fd_pure _ _ _ _ ext Hi).
  - destruct (fo_get _ _); simpl; [|eauto]. repeat case_match; simplify_eq; eauto.
  - repeat case_match; simplify_eq; eauto.
  - destruct (fo_get _ _); simpl; [|eauto]. repeat case_match; simplify_eq; eauto.
Qed.

(** [unlink] of an absolute path that is a link does not remove the link: the
    path is resolved through the link table first, so it is the target that is
    removed from the file system, and the link stays behind in the table. *)
Theorem unlink_follows_link ptr path c dst flags (d : FdState T) (s : PathState FS) f' :
  user_str ptr = Ok path -> starts_with_char path SLASH = true ->
  canonicalize (fs s) path = inr c -> starts_with_char (keep_slash path (trim c)) SLASH = true ->
  links (inner s) !! keep_slash path (trim c) = Some dst -> links (inner s) !! dst = None ->
  flags <> AT_REMOVEDIR -> metadata_is_dir (fs s) dst = inr false ->
  remove_file (fs s) dst = (inr tt, f') ->
  sys_unlinkat AT_FDCWD user_str AT_REMOVEDIR AT_FDCWD ptr flags (d, s)
    = (Ok 0, (d, mkPS (inner s) f')).
Proof.
  intros Hu Hp Hc Hk Hl Hd Hf Hm Hrm. unfold sys_unlinkat, handle_file_path. unfold_M.
  rewrite Hu, Hp. unfold new_path, FilePath_new, real_path. simpl. rewrite Hc, Hk, Hl. simpl.
  apply Z.eqb_neq in Hf. rewrite Hf. unfold fs_query, fs_call. simpl. rewrite Hm. simpl.
  unfold remove_link, atomic_link_remove. simpl. rewrite Hd. simpl. by rewrite Hrm.
Qed.

(** [linkat] never makes a hard link to a regular file: whenever it succeeds,
    the resolved old path ends with a slash, which is what the kernel takes for a
    directory. *)
Theorem linkat_links_directories_only old_fd old new_fd new (w w' : FdState T * PathState FS) r :
  sys_linkat AT_FDCWD user_str old_fd old new_fd new w = (Ok r, w') ->
  exists path p w1, user_str old = Ok path /\
    handle_file_path AT_FDCWD old_fd path w = (Ok p, w1) /\ is_file p = false.
Proof.
  unfold sys_linkat. unfold_M. intros E. destruct (user_str old) as [path| |]; try done.
  destruct (user_str new) as [path2| |]; try done.
  destruct (handle_file_path _ old_fd path w) as [[p| |] w1] eqn:E1; try done.
  exists path, p, w1. split_and!; auto.
  destruct (handle_file_path _ new_fd path2 w1) as [[p2| |] [d2 s2]]; try done.
  unfold create_link, is_file in *. destruct (negb (exists_ s2 p)); [done|].
  by destruct (is_dir p).
Qed.
End LinkCalls.

(** ** A concrete file system: a set of files below the root *)

Module PathSample.
Definition files : Type := gset str.

#[export] Instance files_fs : AxFs files := {|
  canonicalize f p := inr (if starts_with_char p SLASH then p else SLASH :: p);
  absolute_path_exists f p := bool_decide (p = [SLASH] \/ p ∈ f);
  remove_file f p := if decide (p ∈ f) then (inr tt, f ∖ {[p]}) else (inl AxNotFound, f);
  create_dir f p := (inr tt, {[p]} ∪ f);
  remove_dir f p := (inr tt, f ∖ {[p]});
  set_current_dir f p := (inr tt, f);
  current_dir f := inr [SLASH];
  metadata_is_dir f p := if decide (p ∈ f) then inr false else inl AxNotFound
|}.

Definition target : str := lit "/f/"%string.
Definition link1 : str := lit "/l1"%string.
Definition link2 : str := lit "/l2"%string.
Definition s0 : PathState files := mkPS hardlink_new {[target]}.
Definition s1 : PathState files := snd (create_link link1 target s0).
Definition s2 : PathState files := snd (create_link link2 target s1).

Lemma s1_reachable : link_reachable s1.
Proof. exists {[target]}. apply rtc_once. by apply (step_create s0 link1 target). Qed.
Lemma s2_reachable : link_reachable s2.
Proof.
  destruct s1_reachable as [f0 Hr]. exists f0. eapply rtc_r; [exact Hr|].
  by apply (step_create s1 link2 target).
Qed.

Lemma link_counts_exact_witness :
  ref_counts (inner s2) !! target =
    if decide (count_links (links (inner s2)) target = 0%nat) then None
    else Some (Z.of_nat (count_links (links (inner s2)) target)).
Proof. exact (link_counts_exact s2 target s2_reachable). Defined.

Lemma remove_link_last_one_deletes_witness :
  exists s', remove_link s1 link1 = (Some target, s') /\
    links (inner s') = delete link1 (links (inner s1)) /\
    fs s' = (if decide (count_links (links (inner s1)) target = 1%nat)
             then snd (remove_file (fs s1) target) else fs s1).
Proof.
  apply (remove_link_last_one_deletes s1 link1 target); [apply s1_reachable|done|done].
Defined.

#[local] Instance path_conv : ErrorConv := fun e =>
  match e with AxNotFound => ENOENT | AxAlreadyExists => EEXIST | _ => EINVAL end.
#[local] Existing Instances Sample.gmap_objects Sample.gmap_objects_ok.

Definition fds : FdState (gmap Z nat) := mkFd ∅ ∅ ∅ ∅.

(** The link [/l1] to [/f/], made by [linkat], is unlinked. *)
Lemma unlink_follows_link_witness :
  sys_unlinkat (-100) (fun _ => Ok link1) 512 (-100) 0 0 (fds, s1)
  = (Ok 0, (fds, mkPS (inner s1) ∅)).
Proof.
  apply (unlink_follows_link (-100) 512 (fun _ => Ok link1) 0 link1 link1 target); by vm_compute.
Defined.

Lemma linkat_links_directories_only_witness :
  exists path p w1, Ok target = Ok (E := LinuxError) path /\
    handle_file_path (-100) (-100) path (fds, s0) = (Ok p, w1) /\ is_file p = false.
Proof.
  apply (linkat_links_directories_only (-100) (fun p => Ok (if p =? 0 then target else link1))
           (-100) 0 (-100) 1 (fds, s0) (fds, s1) 0).
  by vm_compute.
Defined.
Lemma handle_file_path_pure_witness :
  exists r, handle_file_path (-100) 3 (lit "x"%string) (Sample.with_pipe, s1)
            = (r, (Sample.with_pipe, s1)).
Proof.
  apply (handle_file_path_pure (-100) 3 (lit "x"%string) Sample.with_pipe s1 no_ext).
  apply fd_reachable_invariant, Sample.with_pipe_reachable.
Defined.
End PathSample.
