(* ===== verification/Mount.v ===== *)
(** * Mounts: [api/src/imp/fs/mount.rs]

    The list [MOUNTED] and the two system calls on it. *)

From stdpp Require Import base list gmap option strings relations.
From Stdlib Require Import ZArith Lia.
From S2P Require Import Prelude Text.
From S2P Require Import FdTable Path.
Import ListNotations.

Record MountedFs : Type := mkMounted { device : FilePath; mnt_dir : FilePath }.

Section Mount.
Context {T FS : Type} `{FlattenObjects T nat} `{AxFs FS} `{ErrorConv}.
Context (AT_FDCWD : Z) (user_str : Z -> LinuxResult str).

(** The list of mounts beside the state the paths are resolved in. *)
Abbreviation MState := ((FdState T * PathState FS) * list MountedFs)%type.
Abbreviation MM := (M MState LinuxError).

Definition check_mounted (mounted : list MountedFs) (path : FilePath) : bool :=
  existsb (fun m => FilePath_starts_with path (mnt_dir m)) mounted.

Definition mount_fat_fs (device_path mount_path : FilePath) : MM bool := fun s =>
  if exists_ (snd (fst s)) mount_path
  then (Ok true, (fst s, snd s ++ [mkMounted device_path mount_path]))
  else (Ok false, s).

Definition umount_fat_fs (mount_path : FilePath) (mounted : list MountedFs)
  : bool * list MountedFs :=
  let mounted' := filter (fun m => mnt_dir m <> mount_path) mounted in
  (bool_decide (length mounted' < length mounted)%nat, mounted').

(** [if !cond { return Err(EPERM) }] for conditions on the state. *)
Definition require (cond : MState -> bool) : MM unit := fun s =>
  if cond s then (Ok tt, s) else (Err EPERM, s).

Definition sys_mount (source target fs_type : Z) : MM Z :=
  source ← lift (user_str source);
  target ← lift (user_str target);
  fs_type ← lift (user_str fs_type);
  device_path ← on_fst (handle_file_path AT_FDCWD AT_FDCWD source);
  mount_path ← on_fst (handle_file_path AT_FDCWD AT_FDCWD target);
  guard_or (bool_decide (fs_type = lit "vfat"%string)) EPERM;;
  require (fun s => exists_ (snd (fst s)) mount_path);;
  require (fun s => negb (check_mounted (snd s) mount_path));;
  mounted ← mount_fat_fs device_path mount_path;
  guard_or mounted EPERM;;
  mret 0.

Definition sys_umount2 (target flags : Z) : MM Z :=
  target ← lift (user_str target);
  mount_path ← on_fst (handle_file_path AT_FDCWD AT_FDCWD target);
  guard_or (flags =? 0) EPERM;;
  require (fun s => exists_ (snd (fst s)) mount_path);;
  unmounted ← on_snd (fun l => let '(b, l') := umount_fat_fs mount_path l in (Ok b, l'));
  guard_or unmounted EPERM;;
  mret 0.

(** ** What the list of mounts looks like

    A mount is accepted only when its directory does not extend that of an
    earlier one. *)
Definition mounts_ok (l : list MountedFs) : Prop :=
  forall i j m n, l !! i = Some m -> l !! j = Some n -> (i < j)%nat ->
    ~ (mnt_dir m `prefix_of` mnt_dir n).

Lemma mounts_ok_snoc l m :
  mounts_ok l -> check_mounted l (mnt_dir m) = false -> mounts_ok (l ++ [m]).
Proof.
  intros Hl Hc i j a b Ha Hb Hij. apply lookup_app_Some in Hb as [Hb|[Hj Hb]].
  - rewrite lookup_app_l in Ha by (apply lookup_lt_Some in Hb; lia). by apply (Hl i j a b).
  - apply list_lookup_singleton_Some in Hb as [Hj0 <-].
    rewrite lookup_app_l in Ha by lia. intros Hp.
    assert (check_mounted l (mnt_dir m) = true) as E; [|congruence].
    apply existsb_exists. exists a. split; [by eapply list_elem_of_In, list_elem_of_lookup_2|].
    by apply bool_decide_eq_true_2.
Qed.

Lemma mounts_ok_cons a l :
  mounts_ok (a :: l) <-> mounts_ok l /\ (forall m, m ∈ l -> ~ (mnt_dir a `prefix_of` mnt_dir m)).
Proof.
  split.
  - intros Hl. split.
    + intros i j m n Hm Hn Hij. apply (Hl (S i) (S j) m n); [done|done|lia].
    + intros m [j Hj]%list_elem_of_lookup_1. apply (Hl 0%nat (S j) a m); [done|done|lia].
  - intros [Hl Ha] i j m n Hm Hn Hij. destruct i as [|i], j as [|j]; simpl in *; simplify_eq; try lia.
    + apply Ha. by eapply list_elem_of_lookup_2.
    + apply (Hl i j m n); [done|done|lia].
Qed.

Lemma mounts_ok_filter P `{!forall x, Decision (P x)} l : mounts_ok l -> mounts_ok (filter P l).
Proof.
  induction l as [|a l IH]; [done|]. rewrite mounts_ok_cons. intros [Hl Ha].
  rewrite filter_cons. case_decide; [|auto]. apply mounts_ok_cons. split; [auto|].
  intros m [_ Hm]%list_elem_of_filter. auto.
Qed.

Lemma filter_all {A} (P : A -> Prop) `{!forall x, Decision (P x)} l : Forall P l -> filter P l = l.
Proof. induction 1; [done|]. rewrite filter_cons_True by done. by f_equal. Qed.

(** What a call of [sys_mount] does to the list. *)
Lemma sys_mount_list source target fs_type s :
  match sys_mount source target fs_type s with
  | (Ok r, s') => r = 0 /\ exists dev p, snd s' = snd s ++ [mkMounted dev p] /\
                  check_mounted (snd s) p = false
  | (_, s') => snd s' = snd s
  end.
Proof.
  unfold sys_mount, require, mount_fat_fs. unfold_M. destruct s as [w l].
  destruct (user_str source); [|done..]. destruct (user_str target); [|done..].
  destruct (user_str fs_type); [|done..].
  destruct (handle_file_path _ _ _ w) as [[dev| |] w1]; [|done..].
  destruct (handle_file_path _ _ _ w1) as [[p| |] w2]; [|done..].
  case_bool_decide; [|done]. simpl. destruct (exists_ _ _) eqn:Ex; [|done]. simpl.
  destruct (check_mounted l p) eqn:Ec; [done|]. simpl. rewrite Ex. simpl. eauto.
Qed.

Lemma sys_umount2_list target flags s :
  snd (snd (sys_umount2 target flags s)) = snd s \/
  exists p, snd (snd (sys_umount2 target flags s)) = snd (umount_fat_fs p (snd s)).
Proof.
  unfold sys_umount2, require. unfold_M. destruct s as [w l].
  destruct (user_str target); [|by left..].
  destruct (handle_file_path _ _ _ w) as [[p| |] w1]; [|by left..].
  destruct (flags =? 0); [|by left]. simpl. destruct (exists_ _ _); [|by left]. simpl.
  case_bool_decide; simpl; eauto.
Qed.

Inductive mount_step (s : MState) : MState -> Prop :=
| step_mount source target fs_type : mount_step s (snd (sys_mount source target fs_type s))
| step_umount target flags : mount_step s (snd (sys_umount2 target flags s))
| step_other w : mount_step s (w, snd s).

Lemma mount_reachable_ok w s : rtc mount_step (w, []) s -> mounts_ok (snd s).
Proof.
  intros Hr. assert (mounts_ok (snd (w, []) : list MountedFs)) as Hi by done.
  induction Hr as [|x y z Hs _ IH]; [done|]. apply IH. clear IH z.
  destruct Hs as [src tgt ty|tgt fl|w']; [| |done].
  - pose proof (sys_mount_list src tgt ty x) as Hm.
    destruct (sys_mount src tgt ty x) as [[r|e|] x']; simpl; [|by rewrite Hm..].
    destruct Hm as (_ & dev & p & -> & Hc). by apply mounts_ok_snoc.
  - destruct (sys_umount2_list tgt fl x) as [-> | [p ->]]; [done|]. by apply mounts_ok_filter.
Qed.

(** Whatever is mounted and unmounted, two mounts never share a directory, and
    a later mount is never below an earlier one. *)
Theorem mounts_never_overlap w s i j m n :
  rtc mount_step (w, []) s ->
  snd s !! i = Some m -> snd s !! j = Some n -> (i < j)%nat ->
  mnt_dir m <> mnt_dir n /\ ~ (mnt_dir m `prefix_of` mnt_dir n).
Proof.
  intros Hr Hm Hn Hij. pose proof (mount_reachable_ok w s Hr i j m n Hm Hn Hij) as Hp.
  split; [|done]. intros E. apply Hp. by rewrite E.
Qed.

(** Unmounting the directory that was mounted last succeeds and gives back
    the list of mounts as it was before. *)
Theorem umount_undoes_mount dev p l :
  check_mounted l p = false ->
  umount_fat_fs p (l ++ [mkMounted dev p]) = (true, l).
Proof.
  intros Hc. unfold umount_fat_fs. rewrite filter_app, filter_cons_False, filter_nil, app_nil_r by auto.
  rewrite filter_all.
  - rewrite bool_decide_eq_true_2; [done|]. rewrite length_app. simpl. lia.
  - apply Forall_forall. intros m Hm E. assert (check_mounted l p = true); [|congruence].
    apply existsb_exists. exists m. split; [by apply list_elem_of_In|].
    apply bool_decide_eq_true_2. by rewrite E.
Qed.

(** A directory whose name merely continues that of a mounted one, such as
    [/mnt2] beside [/mnt], counts as mounted and cannot be mounted. *)
Theorem sibling_of_mount_refused m l suffix :
  m ∈ l -> check_mounted l (mnt_dir m ++ suffix) = true.
Proof.
  intros Hm. apply existsb_exists. exists m. split; [by apply list_elem_of_In|].
  apply bool_decide_eq_true_2. by apply prefix_app_r.
Qed.
End Mount.

Module MountSample.
Import PathSample.
#[local] Existing Instances Sample.gmap_objects files_fs path_conv.

Definition dirs : PathState files := mkPS hardlink_new {[lit "/a"%string; lit "/b"%string]}.

(** Pointer 0 holds the device, 1 and 2 the directories, 3 the type. *)
Definition strings (p : Z) : LinuxResult str :=
  Ok (if p =? 0 then lit "/dev/vda"%string else if p =? 1 then lit "/a"%string
      else if p =? 2 then lit "/b"%string else lit "vfat"%string).

Definition start : (FdState (gmap Z nat) * PathState files) * list MountedFs := ((fds, dirs), []).
Definition one := snd (sys_mount (-100) strings 0 1 3 start).
Definition two := snd (sys_mount (-100) strings 0 2 3 one).

Lemma mounts_never_overlap_witness :
  lit "/a"%string <> lit "/b"%string /\ ~ (lit "/a"%string `prefix_of` lit "/b"%string).
Proof.
  apply (mounts_never_overlap (-100) strings (fds, dirs) two 0 1
    (mkMounted (lit "/dev/vda"%string) (lit "/a"%string))
    (mkMounted (lit "/dev/vda"%string) (lit "/b"%string))).
  - apply (rtc_l _ _ one); [apply step_mount|]. apply rtc_once, step_mount.
  - by vm_compute.
  - by vm_compute.
  - lia.
Defined.

Lemma umount_undoes_mount_witness :
  umount_fat_fs (lit "/b"%string) (snd one ++ [mkMounted (lit "/dev/vda"%string) (lit "/b"%string)])
  = (true, snd one).
Proof. apply (umount_undoes_mount (lit "/dev/vda"%string)). by vm_compute. Defined.

Lemma sibling_of_mount_refused_witness :
  check_mounted (snd one) (lit "/a"%string ++ lit "2"%string) = true.
Proof.
  apply (sibling_of_mount_refused (mkMounted (lit "/dev/vda"%string) (lit "/a"%string)) (snd one)
           (lit "2"%string)).
  apply list_elem_of_singleton. by vm_compute.
Defined.
End MountSample.
