(* ===== verification/SockAddr.v ===== *)
(** * Socket addresses: [api/src/socket.rs]

    The conversions between [core::net::SocketAddr] and the [sockaddr] structures
    of user memory.  An IPv4 address is its four octets, an IPv6 address its
    sixteen, in network order. *)

From stdpp Require Import base list gmap option.
From Stdlib Require Import ZArith Lia.
From S2P Require Import Prelude Bytes AddrSpace Ptr.
Import ListNotations.

(** ** The C structures

    [sockaddr_in] is 16 bytes, [sockaddr_in6] 28, and [sockaddr] is the 128-byte
    storage, aligned to a pointer. *)

Record sockaddr_in : Type := mkIn { sin_family : Z; sin_port : Z; s_addr : Z; sin_pad : list Z }.
Record sockaddr_in6 : Type := mkIn6 {
  sin6_family : Z; sin6_port : Z; sin6_flowinfo : Z; u6_addr8 : list Z; sin6_scope_id : Z }.

Definition SOCKADDR_IN : Z := 16.
Definition SOCKADDR_IN6 : Z := 28.
Definition SOCKADDR : Z := 128.

Definition enc_in (a : sockaddr_in) : list Z :=
  le_enc 2 (sin_family a) ++ le_enc 2 (sin_port a) ++ le_enc 4 (s_addr a) ++ sin_pad a.
Definition dec_in (bs : list Z) : sockaddr_in :=
  mkIn (le_dec (take 2 bs)) (le_dec (take 2 (drop 2 bs))) (le_dec (take 4 (drop 4 bs)))
       (take 8 (drop 8 bs)).

Definition enc_in6 (a : sockaddr_in6) : list Z :=
  le_enc 2 (sin6_family a) ++ le_enc 2 (sin6_port a) ++ le_enc 4 (sin6_flowinfo a)
  ++ u6_addr8 a ++ le_enc 4 (sin6_scope_id a).
Definition dec_in6 (bs : list Z) : sockaddr_in6 :=
  mkIn6 (le_dec (take 2 bs)) (le_dec (take 2 (drop 2 bs))) (le_dec (take 4 (drop 4 bs)))
        (take 16 (drop 8 bs)) (le_dec (take 4 (drop 24 bs))).

Record sockaddr : Type := mkSockaddr { sa_storage : list Z }.
#[export] Instance sockaddr_pod : Pod sockaddr :=
  {| pod_layout := mkLayout SOCKADDR 8; pod_enc := sa_storage; pod_dec := mkSockaddr |}.

(** ** The Rust addresses *)

Record SocketAddrV4 : Type := mkV4 { v4_ip : list Z; v4_port : Z }.
Record SocketAddrV6 : Type := mkV6 { v6_ip : list Z; v6_port : Z; v6_flowinfo : Z; v6_scope_id : Z }.
Inductive SocketAddr : Type := V4 (a : SocketAddrV4) | V6 (a : SocketAddrV6).

(** [Ipv4Addr::from_bits]: the octets, most significant first. *)
Definition ipv4_from_bits (x : Z) : list Z := rev (le_enc 4 x).

(** [linux_raw_sys]'s family numbers. *)
Class Families : Type := { AF_INET : Z; AF_INET6 : Z }.
Class FamiliesOk `{Families} : Prop := {
  af_inet_u16 : is_u16 AF_INET;
  af_inet6_u16 : is_u16 AF_INET6;
  af_distinct : AF_INET <> AF_INET6
}.

Section SocketAddrExt.
Context `{ErrorConv, MemoryAddr, MappingFlags} {AS : Type} `{AddrSpace AS} `{Families}.
Abbreviation UM := (M (UState AS) LinuxError).

(** [n] bytes of user memory. *)
Definition mem_bytes (a : Z) (n : nat) : UM (list Z) := fun u =>
  (Ok (mem_read (us_mem u) a n), u).

(** The [addrlen] bytes at the validated address.  The kernel storage holds 128:
    copying more would overrun it, and [Panic] stands for that. *)
Definition copy_sockaddr_from_user (addr addrlen : Z) : UM (list Z) :=
  sock_addr ← on_aspace (get_as_ref sockaddr addr);
  if SOCKADDR <? addrlen then panic else mem_bytes sock_addr (Z.to_nat addrlen).

Definition v4_read_from_user (addr addrlen : Z) : UM SocketAddrV4 :=
  if addrlen <? SOCKADDR_IN then fail EINVAL
  else
    storage ← copy_sockaddr_from_user addr addrlen;
    let addr_in := dec_in storage in
    if negb (sin_family addr_in =? AF_INET) then fail EAFNOSUPPORT
    else mret (mkV4 (ipv4_from_bits (from_be32 (s_addr addr_in))) (from_be16 (sin_port addr_in))).

Definition v6_read_from_user (addr addrlen : Z) : UM SocketAddrV6 :=
  if addrlen <? SOCKADDR_IN6 then fail EINVAL
  else
    storage ← copy_sockaddr_from_user addr addrlen;
    let addr_in6 := dec_in6 storage in
    if negb (sin6_family addr_in6 =? AF_INET6) then fail EAFNOSUPPORT
    else mret (mkV6 (u6_addr8 addr_in6) (from_be16 (sin6_port addr_in6))
                    (from_be32 (sin6_flowinfo addr_in6)) (sin6_scope_id addr_in6)).

Definition read_from_user (addr addrlen : Z) : UM SocketAddr :=
  if (addrlen <? 2) || (SOCKADDR <? addrlen) then fail EINVAL
  else
    src_addr ← on_aspace (get_as_ref sockaddr addr);
    ss_family ← mem_bytes src_addr 2;
    let family := le_dec ss_family in
    if family =? AF_INET then a ← v4_read_from_user addr addrlen; mret (V4 a)
    else if family =? AF_INET6 then a ← v6_read_from_user addr addrlen; mret (V6 a)
    else fail EAFNOSUPPORT.

(** [copy_nonoverlapping] of [bs] to the validated address. *)
Definition copy_to_user (dst : Z) (bs : list Z) : UM unit := fun u =>
  (Ok tt, mkUState (us_aspace u) (mem_write (us_mem u) dst bs)).

Definition v4_write_to_user (a : SocketAddrV4) (addr : Z) : UM Z :=
  if is_null addr then fail EINVAL
  else
    dst_addr ← on_aspace (get_as_mut sockaddr addr);
    copy_to_user dst_addr
      (enc_in (mkIn (as_u16 AF_INET) (to_be16 (v4_port a)) (le_dec (v4_ip a)) (replicate 8 0)));;
    mret SOCKADDR_IN.

Definition v6_write_to_user (a : SocketAddrV6) (addr : Z) : UM Z :=
  if is_null addr then fail EINVAL
  else
    dst_addr ← on_aspace (get_as_mut sockaddr addr);
    copy_to_user dst_addr
      (enc_in6 (mkIn6 (as_u16 AF_INET6) (to_be16 (v6_port a)) (to_be32 (v6_flowinfo a))
                      (v6_ip a) (v6_scope_id a)));;
    mret SOCKADDR_IN6.

Definition write_to_user (a : SocketAddr) (addr : Z) : UM Z :=
  if is_null addr then fail EINVAL
  else match a with V4 v4 => v4_write_to_user v4 addr | V6 v6 => v6_write_to_user v6 addr end.

Definition v4_family (a : SocketAddrV4) : Z := as_u16 AF_INET.
Definition v6_family (a : SocketAddrV6) : Z := as_u16 AF_INET6.
Definition family (a : SocketAddr) : Z :=
  match a with V4 v4 => v4_family v4 | V6 v6 => v6_family v6 end.
Definition v4_addr_len (a : SocketAddrV4) : Z := SOCKADDR_IN.
Definition v6_addr_len (a : SocketAddrV6) : Z := SOCKADDR_IN6.
Definition addr_len (a : SocketAddr) : Z :=
  match a with V4 v4 => v4_addr_len v4 | V6 v6 => v6_addr_len v6 end.
End SocketAddrExt.

(** ** Round trip *)

Definition sockaddr_ok (a : SocketAddr) : Prop :=
  match a with
  | V4 a => length (v4_ip a) = 4%nat /\ bytes (v4_ip a) /\ is_u16 (v4_port a)
  | V6 a => length (v6_ip a) = 16%nat /\ bytes (v6_ip a) /\ is_u16 (v6_port a) /\
            is_u32 (v6_flowinfo a) /\ is_u32 (v6_scope_id a)
  end.

Lemma u16_le x : is_u16 x -> 0 <= x < 256 ^ Z.of_nat 2.
Proof. unfold is_u16. by change (256 ^ Z.of_nat 2) with (2 ^ 16). Qed.
Lemma u32_le x : is_u32 x -> 0 <= x < 256 ^ Z.of_nat 4.
Proof. unfold is_u32. by change (256 ^ Z.of_nat 4) with (2 ^ 32). Qed.
#[export] Hint Resolve u16_le u32_le : vegar.

(** The pieces of a byte string cut at known lengths. *)
Lemma take_app_exact {A} (n : nat) (l k : list A) : length l = n -> take n (l ++ k) = l.
Proof. intros <-. apply take_app_length. Qed.
Lemma drop_app_exact {A} (n m : nat) (l k : list A) :
  length l = n -> drop (n + m) (l ++ k) = drop m k.
Proof. intros <-. apply drop_app_add'. done. Qed.

Lemma dec_enc_in a :
  0 <= sin_family a < 256 ^ Z.of_nat 2 -> 0 <= sin_port a < 256 ^ Z.of_nat 2 ->
  0 <= s_addr a < 256 ^ Z.of_nat 4 -> length (sin_pad a) = 8%nat ->
  dec_in (enc_in a) = a.
Proof.
  intros Hf Hp Ha Hl. destruct a as [f p s pad]. unfold dec_in, enc_in.
  cbn [sin_family sin_port s_addr sin_pad] in *.
  rewrite take_app_exact by apply le_enc_length.
  rewrite (drop_app_exact 2 0), (drop_app_exact 2 2), (drop_app_exact 2 6) by apply le_enc_length.
  rewrite (drop_app_exact 2 0), (drop_app_exact 2 4) by apply le_enc_length.
  rewrite (drop_app_exact 4 0) by apply le_enc_length. rewrite !drop_0.
  rewrite !take_app_exact by apply le_enc_length. rewrite firstn_all2 by lia.
  by rewrite !le_dec_enc_small.
Qed.

Lemma dec_enc_in6 a :
  0 <= sin6_family a < 256 ^ Z.of_nat 2 -> 0 <= sin6_port a < 256 ^ Z.of_nat 2 ->
  0 <= sin6_flowinfo a < 256 ^ Z.of_nat 4 -> length (u6_addr8 a) = 16%nat ->
  0 <= sin6_scope_id a < 256 ^ Z.of_nat 4 ->
  dec_in6 (enc_in6 a) = a.
Proof.
  intros Hf Hp Hfl Hl Hs. destruct a as [f p fl ad sc]. unfold dec_in6, enc_in6.
  cbn [sin6_family sin6_port sin6_flowinfo u6_addr8 sin6_scope_id] in *.
  rewrite take_app_exact by apply le_enc_length.
  rewrite (drop_app_exact 2 0), (drop_app_exact 2 2), (drop_app_exact 2 6),
    (drop_app_exact 2 22) by apply le_enc_length.
  rewrite (drop_app_exact 2 0), (drop_app_exact 2 4), (drop_app_exact 2 20) by apply le_enc_length.
  rewrite (drop_app_exact 4 0), (drop_app_exact 4 16) by apply le_enc_length.
  rewrite (drop_app_exact 16 0) by done. rewrite !drop_0.
  rewrite !take_app_exact by (done || apply le_enc_length).
  rewrite firstn_all2 by (rewrite le_enc_length; lia). by rewrite !le_dec_enc_small.
Qed.

Lemma ipv4_roundtrip ip :
  length ip = 4%nat -> bytes ip -> ipv4_from_bits (from_be32 (le_dec ip)) = ip.
Proof.
  intros Hl Hb. unfold ipv4_from_bits, from_be32. rewrite le_enc_swap, rev_involutive.
  rewrite <- Hl. by apply le_enc_dec.
Qed.

Lemma mem_read_take m a k n : (k <= n)%nat -> take k (mem_read m a n) = mem_read m a k.
Proof.
  revert a n. induction k as [|k IH]; intros a [|n] H; simpl; try done; try lia.
  f_equal. apply IH. lia.
Qed.

Lemma enc_in_length a : length (sin_pad a) = 8%nat -> length (enc_in a) = Z.to_nat SOCKADDR_IN.
Proof. intros Hl. unfold enc_in. rewrite !length_app, !le_enc_length, Hl. done. Qed.
Lemma enc_in6_length a : length (u6_addr8 a) = 16%nat -> length (enc_in6 a) = Z.to_nat SOCKADDR_IN6.
Proof. intros Hl. unfold enc_in6. rewrite !length_app, !le_enc_length, Hl. done. Qed.

Section RoundTrip.
Context `{ErrorConv, MemoryAddr, MappingFlags} {AS : Type} `{AddrSpace AS} `{FamiliesOk}.

(** What [write_to_user] leaves in memory. *)
Definition encoded (a : SocketAddr) : list Z :=
  match a with
  | V4 a => enc_in (mkIn (as_u16 AF_INET) (to_be16 (v4_port a)) (le_dec (v4_ip a)) (replicate 8 0))
  | V6 a => enc_in6 (mkIn6 (as_u16 AF_INET6) (to_be16 (v6_port a)) (to_be32 (v6_flowinfo a))
                      (v6_ip a) (v6_scope_id a))
  end.

Lemma encoded_length a : sockaddr_ok a -> length (encoded a) = Z.to_nat (addr_len a).
Proof.
  destruct a as [a|a]; intros Ha; [by apply enc_in_length|].
  apply enc_in6_length. by destruct Ha.
Qed.

Lemma encoded_family a : sockaddr_ok a ->
  le_dec (take 2 (encoded a)) = match a with V4 _ => AF_INET | V6 _ => AF_INET6 end.
Proof.
  pose proof af_inet_u16. pose proof af_inet6_u16.
  intros _. destruct a as [a|a]; unfold encoded, enc_in, enc_in6; rewrite take_app_exact by apply le_enc_length;
    unfold as_u16; cbn [sin_family sin6_family]; rewrite wrap_small by done;
    apply le_dec_enc_small; eauto with vegar.
Qed.

Lemma decode_v4 a : sockaddr_ok (V4 a) ->
  dec_in (encoded (V4 a)) = mkIn AF_INET (to_be16 (v4_port a)) (le_dec (v4_ip a)) (replicate 8 0).
Proof.
  pose proof af_inet_u16 as Hu. intros (Hl & Hb & Hp). unfold encoded, as_u16.
  rewrite wrap_small by done. apply dec_enc_in; cbn [sin_family sin_port s_addr sin_pad]; eauto with vegar.
  pose proof (le_dec_bound _ Hb) as Hd. by rewrite Hl in Hd.
Qed.

Lemma decode_v6 a : sockaddr_ok (V6 a) ->
  dec_in6 (encoded (V6 a)) = mkIn6 AF_INET6 (to_be16 (v6_port a)) (to_be32 (v6_flowinfo a))
                                   (v6_ip a) (v6_scope_id a).
Proof.
  pose proof af_inet6_u16 as Hu. intros (Hl & Hb & Hp & Hf & Hs). unfold encoded, as_u16.
  rewrite wrap_small by done. apply dec_enc_in6;
    cbn [sin6_family sin6_port sin6_flowinfo u6_addr8 sin6_scope_id]; eauto with vegar;
    apply swap_bytes_bound.
Qed.

(** C37: an address written to a process and read back by it, with the length the
    write reported, is the same address, for every IPv4 and IPv6 address. *)
Theorem sockaddr_roundtrip (a : SocketAddr) p (u : UState AS) a1 a2 a3 :
  sockaddr_ok a -> p <> 0 ->
  get_as_mut sockaddr p (us_aspace u) = (Ok p, a1) ->
  get_as_ref sockaddr p a1 = (Ok p, a2) -> get_as_ref sockaddr p a2 = (Ok p, a3) ->
  exists u', write_to_user a p u = (Ok (addr_len a), u') /\
    fst (read_from_user p (addr_len a) u') = Ok a.
Proof.
  intros Ha Hp Hw Hr1 Hr2. apply Z.eqb_neq in Hp.
  exists (mkUState a1 (mem_write (us_mem u) p (encoded a))).
  assert (forall n, n = Z.to_nat (addr_len a) ->
            mem_read (mem_write (us_mem u) p (encoded a)) p n = encoded a) as Hm.
  { intros n ->. rewrite <- encoded_length by done. apply mem_read_write. }
  assert (mem_read (mem_write (us_mem u) p (encoded a)) p 2 = take 2 (encoded a)) as Hm2.
  { rewrite <- (mem_read_take _ _ 2 (Z.to_nat (addr_len a))) by (destruct a; apply Nat.leb_le; reflexivity).
    by rewrite Hm. }
  pose proof (encoded_family a Ha) as Hfam.
  pose proof af_distinct as Hne. split.
  - unfold write_to_user, v4_write_to_user, v6_write_to_user, is_null, on_aspace, copy_to_user.
    rewrite Hp. destruct a; unfold_M; by rewrite Hw.
  - unfold read_from_user, on_aspace, mem_bytes. unfold_M.
    replace ((addr_len a <? 2) || (SOCKADDR <? addr_len a)) with false by by destruct a.
    cbn [us_aspace us_mem]. rewrite Hr1. cbn [us_aspace us_mem]. rewrite Hm2, Hfam.
    destruct a as [a|a]; cbn [addr_len v4_addr_len v6_addr_len]; unfold v4_addr_len, v6_addr_len.
    + rewrite Z.eqb_refl. unfold v4_read_from_user, copy_sockaddr_from_user, on_aspace, mem_bytes.
      unfold_M. change (SOCKADDR_IN <? SOCKADDR_IN) with false.
      change (SOCKADDR <? SOCKADDR_IN) with false. cbn [us_aspace us_mem]. rewrite Hr2.
      cbn [us_aspace us_mem].
      rewrite Hm, decode_v4 by done. cbn [sin_family s_addr sin_port]. rewrite Z.eqb_refl. simpl.
      destruct Ha as (Hl & Hb & Hpo). rewrite ipv4_roundtrip by done. unfold from_be16, to_be16.
      rewrite swap_bytes_involutive by eauto with vegar. by destruct a.
    + rewrite (proj2 (Z.eqb_neq AF_INET6 AF_INET)) by congruence. rewrite Z.eqb_refl.
      unfold v6_read_from_user, copy_sockaddr_from_user, on_aspace, mem_bytes.
      unfold_M. change (SOCKADDR_IN6 <? SOCKADDR_IN6) with false.
      change (SOCKADDR <? SOCKADDR_IN6) with false. cbn [us_aspace us_mem]. rewrite Hr2.
      cbn [us_aspace us_mem].
      rewrite Hm, decode_v6 by done.
      cbn [sin6_family sin6_port sin6_flowinfo u6_addr8 sin6_scope_id]. rewrite Z.eqb_refl. simpl.
      destruct Ha as (Hl & Hb & Hpo & Hfl & Hsc). unfold from_be16, to_be16, from_be32, to_be32.
      rewrite !swap_bytes_involutive by eauto with vegar. by destruct a.
Qed.

Lemma dec_in_ok bs :
  bytes bs -> (Z.to_nat SOCKADDR_IN <= length bs)%nat ->
  sockaddr_ok (V4 (mkV4 (ipv4_from_bits (from_be32 (s_addr (dec_in bs)))) (from_be16 (sin_port (dec_in bs))))).
Proof.
  intros Hb Hl. unfold sockaddr_ok, ipv4_from_bits. cbn [v4_ip v4_port].
  split; [by rewrite length_rev, le_enc_length|]. split; [eauto with vegar|]. exact (swap_bytes_bound 2 _).
Qed.

Lemma bytes_take_drop bs n k : bytes bs -> bytes (take n (drop k bs)).
Proof. intros. by apply Forall_take, Forall_drop. Qed.

Lemma dec_in6_ok bs :
  bytes bs -> (Z.to_nat SOCKADDR_IN6 <= length bs)%nat ->
  sockaddr_ok (V6 (mkV6 (u6_addr8 (dec_in6 bs)) (from_be16 (sin6_port (dec_in6 bs)))
                     (from_be32 (sin6_flowinfo (dec_in6 bs))) (sin6_scope_id (dec_in6 bs)))).
Proof.
  intros Hb Hl. change (Z.to_nat SOCKADDR_IN6) with 28%nat in Hl. unfold sockaddr_ok, dec_in6.
  cbn [v6_ip v6_port v6_flowinfo v6_scope_id u6_addr8 sin6_port sin6_flowinfo sin6_scope_id].
  split; [rewrite length_take, length_drop; lia|].
  split; [by apply bytes_take_drop|]. split; [exact (swap_bytes_bound 2 _)|].
  split; [exact (swap_bytes_bound 4 _)|].
  pose proof (le_dec_bound (take 4 (drop 24 bs)) (bytes_take_drop _ _ _ Hb)) as Hd.
  by rewrite length_take, length_drop, Nat.min_l in Hd by lia.
Qed.

Lemma mem_read_bytes m a n : (forall b, is_u8 (m !!! b)) -> bytes (mem_read m a n).
Proof. intros Hm. revert a. induction n as [|n IH]; intros a; simpl; constructor; [apply Hm|apply IH]. Qed.

(** A copy that got as far as decoding. *)
Lemma copy_sockaddr_cases addr addrlen (u : UState AS) :
  (forall a, fst (get_as_ref sockaddr addr a) <> Panic) -> addrlen <= SOCKADDR ->
  match copy_sockaddr_from_user addr addrlen u with
  | (Ok bs, u') => bs = mem_read (us_mem u) addr (Z.to_nat addrlen)
  | (r, _) => r <> Panic
  end.
Proof.
  intros Hp Hl. unfold copy_sockaddr_from_user, on_aspace, mem_bytes. unfold_M.
  specialize (Hp (us_aspace u)). unfold get_as_ref in *. unfold_M.
  destruct (check_region _ _ _ _) as [[[]|e|] a']; [|done..].
  destruct (Z.ltb_spec SOCKADDR addrlen); [lia|done].
Qed.

(** Reading an address from a process never copies more than the 128 bytes of
    the kernel's storage, whatever length the process claims, and what it
    returns is a well-formed address whose structure fits in that length. *)
Theorem read_from_user_safe addr addrlen (u : UState AS) :
  (forall a, fst (get_as_ref sockaddr addr a) <> Panic) -> (forall b, is_u8 (us_mem u !!! b)) ->
  match fst (read_from_user addr addrlen u) with
  | Ok a => sockaddr_ok a /\ addr_len a <= addrlen <= SOCKADDR
  | Err _ => True
  | Panic => False
  end.
Proof.
  intros Hp Hm. unfold read_from_user, on_aspace, mem_bytes. unfold_M.
  destruct (Z.ltb_spec addrlen 2) as [|Hlo]; [done|].
  destruct (Z.ltb_spec SOCKADDR addrlen) as [|Hhi]; [done|]. cbn [orb].
  pose proof (Hp (us_aspace u)) as Hp0.
  destruct (get_as_ref sockaddr addr (us_aspace u)) as [[p|e|] a1]; [|done..].
  cbn [us_aspace us_mem]. set (u1 := mkUState a1 (us_mem u)).
  pose proof (copy_sockaddr_cases addr addrlen u1 Hp Hhi) as Hc.
  destruct (_ =? AF_INET); [|destruct (_ =? AF_INET6); [|done]].
  - unfold v4_read_from_user. unfold_M. destruct (Z.ltb_spec addrlen SOCKADDR_IN); [done|].
    destruct (copy_sockaddr_from_user addr addrlen u1) as [[bs|e|] u2]; [|done..].
    destruct (negb _); [done|]. split; [|done]. subst bs.
    apply dec_in_ok; [by apply mem_read_bytes|rewrite mem_read_length; lia].
  - unfold v6_read_from_user. unfold_M. destruct (Z.ltb_spec addrlen SOCKADDR_IN6); [done|].
    destruct (copy_sockaddr_from_user addr addrlen u1) as [[bs|e|] u2]; [|done..].
    destruct (negb _); [done|]. split; [|done]. subst bs.
    apply dec_in6_ok; [by apply mem_read_bytes|rewrite mem_read_length; lia].
Qed.
End RoundTrip.

Module SockSample.
Import SimpleMem.
#[local] Existing Instance Sample.sample_conv.
#[local] Instance linux_families : Families := {| AF_INET := 2; AF_INET6 := 10 |}.
#[local] Instance linux_families_ok : FamiliesOk.
Proof. split; unfold is_u16; simpl; lia. Qed.

Definition user : UState simple_aspace := mkUState (mkSimple 4096 8192 3) ∅.
Definition localhost : SocketAddr := V4 (mkV4 [127; 0; 0; 1] 8080).

Lemma sockaddr_roundtrip_witness :
  exists u', write_to_user localhost 4096 user = (Ok 16, u') /\
    fst (read_from_user 4096 16 u') = Ok localhost.
Proof.
  apply (sockaddr_roundtrip localhost 4096 user (us_aspace user) (us_aspace user) (us_aspace user));
    [|done|by vm_compute..].
  split; [done|]. split; [|unfold is_u16; simpl; lia].
  repeat constructor; unfold is_u8; lia.
Defined.

Lemma read_from_user_safe_witness :
  match fst (read_from_user 4096 200 user) with
  | Ok a => sockaddr_ok a /\ addr_len a <= 200 <= SOCKADDR
  | Err _ => True
  | Panic => False
  end.
Proof.
  apply (read_from_user_safe 4096 200 user).
  - intros a. unfold get_as_ref, check_region, ax. unfold_M. simpl.
    by repeat (case_match; simplify_eq/=).
  - intros b. unfold is_u8. change (us_mem user) with (∅ : umem).
    rewrite lookup_total_alt, lookup_empty. done.
Defined.
End SockSample.
