(* ===== verification/Dirent.v ===== *)
(** * Directory entries: [DirBuffer] and [sys_getdents64] of [api/src/imp/fs/ctl.rs]

    The buffer a process hands to [getdents64] is filled with [linux_dirent64]
    records; an entry that no longer fits is kept in the directory object for the
    next call. *)

From stdpp Require Import base list gmap option.
From Stdlib Require Import ZArith Lia.
From S2P Require Import Prelude Bytes AddrSpace Ptr.
From S2P Require Import FdTable.
Import ListNotations.
#[local] Open Scope nat_scope.

(** [linux_raw_sys]'s [DT_*] numbers used for the three file types the kernel
    reports. *)
Class DirTypes : Type := { DT_UNKNOWN : Z; DT_DIR : Z; DT_REG : Z }.

(** What [axfs] answers about an entry's type, and the entry itself. *)
Record AxFileType : Type := mkFt { ft_is_dir : bool; ft_is_file : bool }.
Record DirEntry : Type := mkEnt { entry_type : AxFileType; name_as_bytes : list Z }.

Definition FileType_from `{DirTypes} (ft : AxFileType) : Z :=
  if ft_is_dir ft then DT_DIR else if ft_is_file ft then DT_REG else DT_UNKNOWN.

(** ** [DirBuffer] *)

Record DirBuffer : Type := mkBuf { buf : list Z; offset : nat }.

Definition dirbuffer_new (b : list Z) : DirBuffer := mkBuf b 0.
Definition remaining_space (d : DirBuffer) : nat := length (buf d) - offset d.

(** [offset_of!(linux_dirent64, d_name)]: after two 8-byte, one 2-byte and one
    1-byte field; the structure is aligned to 8 and 24 bytes long. *)
Definition NAME_OFFSET : nat := 19.
Definition DIRENT_ALIGN : nat := 8.

Definition next_multiple_of (n m : nat) : nat := (n + m - 1) / m * m.

Definition entry_len (name : list Z) : nat :=
  next_multiple_of (NAME_OFFSET + length name + 1) DIRENT_ALIGN.

(** Storing bytes at a position of the buffer. *)
Definition overwrite (b : list Z) (i : nat) (bs : list Z) : list Z :=
  take i b ++ bs ++ drop (i + length bs) b.

Section Dirents.
Context `{DirTypes}.
(** The five bytes of padding at the end of a [linux_dirent64], which the store of
    the structure leaves unspecified. *)
Context (padding : list Z).

Definition dirent_header (len : nat) (d_type : Z) : list Z :=
  le_enc 8 1 ++ le_enc 8 0 ++ le_enc 2 (wrap 16 (Z.of_nat len)) ++ [as_u8 d_type].

Definition write_entry (d : DirBuffer) (d_type : Z) (name : list Z) : option DirBuffer :=
  let len := entry_len name in
  if remaining_space d <? len then None
  else
    let b := overwrite (buf d) (offset d) (dirent_header len d_type ++ padding) in
    let b := overwrite b (offset d + NAME_OFFSET) name in
    let b := overwrite b (offset d + NAME_OFFSET + length name) [0%Z] in
    Some (mkBuf b (offset d + len)).

(** ** [sys_getdents64]

    [read_dir] is [axfs::fops::Directory::read_dir] on a buffer of one entry:
    the entry, or [None] for a count of zero. *)
Context {D : Type} (read_dir : D -> (AxError + option DirEntry) * D).

Record DirObj : Type := mkDir { dir_inner : D; last_dirent : option DirEntry }.

(** The loop ends because every entry written takes room: [length buf / 24] of
    them fit. *)
Fixpoint fill (fuel : nat) (buffer : DirBuffer) (inner : D)
  : option ((AxError + option DirEntry) * DirBuffer * D) :=
  match fuel with
  | 0 => None
  | S fuel' =>
      match read_dir inner with
      | (inl e, inner') => Some (inl e, buffer, inner')
      | (inr None, inner') => Some (inr None, buffer, inner')
      | (inr (Some ent), inner') =>
          match write_entry buffer (FileType_from (entry_type ent)) (name_as_bytes ent) with
          | None => Some (inr (Some ent), buffer, inner')
          | Some buffer' => fill fuel' buffer' inner'
          end
      end
  end.

Definition fill_fuel (b : list Z) : nat := S (length b / 24).

(** The part between the address check and the end: result, buffer, directory. *)
Definition getdents `{ErrorConv} (b : list Z) (dir : DirObj) : LinuxResult nat * list Z * DirObj :=
  let buffer := dirbuffer_new b in
  let after_last :=
    match last_dirent dir with
    | None => Some buffer
    | Some ent => write_entry buffer (FileType_from (entry_type ent)) (name_as_bytes ent)
    end in
  match after_last with
  | None => (Err EINVAL, b, dir)
  | Some buffer =>
      match fill (fill_fuel b) buffer (dir_inner dir) with
      | None => (Panic, buf buffer, dir)
      | Some (inl e, buffer', inner') => (Err (ax_into e), buf buffer', mkDir inner' None)
      | Some (inr last, buffer', inner') =>
          let dir' := mkDir inner' last in
          match last with
          | Some _ => if offset buffer' =? 0 then (Err EINVAL, buf buffer', dir')
                      else (Ok (offset buffer'), buf buffer', dir')
          | None => (Ok (offset buffer'), buf buffer', dir')
          end
      end
  end.

Context {T AS : Type} `{FlattenObjects T nat} `{ErrorConv, MemoryAddr, MappingFlags} `{AddrSpace AS}.

(** The directory objects by heap identity. *)
Abbreviation GState := ((FdState T * gmap nat DirObj) * UState AS)%type.

Definition with_dir (o : nat) (p len : Z) : M GState LinuxError Z := fun s =>
  let '((f, dirs), u) := s in
  match dirs !! o with
  | None => (Panic, s)
  | Some dir =>
      let b := mem_read (us_mem u) p (Z.to_nat len) in
      let '(r, b', dir') := getdents b dir in
      (match r with Ok n => Ok (as_isize (Z.of_nat n)) | Err e => Err e | Panic => Panic end,
       ((arc_drop o f, <[o := dir']> dirs), mkUState (us_aspace u) (mem_write (us_mem u) p b')))
  end.

#[local] Instance byte_pod : Pod Z := int_pod 1.

Definition sys_getdents64 (fd buf len : Z) : M GState LinuxError Z :=
  b ← on_snd (on_aspace (get_as_mut_slice Z buf len));
  d ← on_fst (on_fst (Directory_from_fd fd));
  with_dir (fst d) (fst b) (snd b).
End Dirents.

(** ** What a reader of the buffer sees

    [parse] reads records as the C library does: the length of the record is its
    17th and 18th byte, its type the 19th, its name what follows up to the zero. *)

Fixpoint until_zero (bs : list Z) : list Z :=
  match bs with [] => [] | b :: bs' => if (b =? 0)%Z then [] else b :: until_zero bs' end.

Definition parse_one (bs : list Z) : Z * list Z :=
  (nth 18 bs 0%Z, until_zero (drop NAME_OFFSET bs)).

Fixpoint parse (fuel : nat) (bs : list Z) : list (Z * list Z) :=
  match fuel, bs with
  | S fuel', _ :: _ =>
      parse_one bs :: parse fuel' (drop (Z.to_nat (le_dec (take 2 (drop 16 bs)))) bs)
  | _, _ => []
  end.

(** A record as a string of bytes: the name, its zero, and whatever is left up
    to the length. *)
Definition is_record (len : nat) (d_type : Z) (name r : list Z) : Prop :=
  exists rest, r = dirent_header len d_type ++ name ++ 0%Z :: rest /\ length r = len.

Lemma next_multiple_of_spec n :
  n <= next_multiple_of n 8 < n + 8 /\ (exists k, next_multiple_of n 8 = k * 8).
Proof.
  unfold next_multiple_of. split; [|eauto].
  pose proof (Nat.div_mod (n + 8 - 1) 8 ltac:(lia)).
  pose proof (Nat.mod_upper_bound (n + 8 - 1) 8 ltac:(lia)). lia.
Qed.

Lemma entry_len_bounds name :
  NAME_OFFSET + length name + 1 <= entry_len name < NAME_OFFSET + length name + 9 /\
  24 <= entry_len name.
Proof.
  unfold entry_len, NAME_OFFSET, DIRENT_ALIGN.
  destruct (next_multiple_of_spec (19 + length name + 1)) as [? [k Hk]]. lia.
Qed.

Lemma overwrite_0 l bs : overwrite l 0 bs = bs ++ drop (length bs) l.
Proof. done. Qed.

Lemma overwrite_app_r p l k bs : overwrite (p ++ l) (length p + k) bs = p ++ overwrite l k bs.
Proof.
  unfold overwrite. rewrite take_app_add', <- app_assoc by done. do 3 f_equal.
  rewrite <- Nat.add_assoc. by apply drop_app_add'.
Qed.

Lemma overwrite_app_l l s k bs :
  k + length bs <= length l -> overwrite (l ++ s) k bs = overwrite l k bs ++ s.
Proof.
  intros Hk. unfold overwrite. rewrite take_app_le, drop_app_le by lia. by rewrite !app_assoc.
Qed.

Lemma length_overwrite l k bs : k + length bs <= length l -> length (overwrite l k bs) = length l.
Proof. intros. unfold overwrite. rewrite !length_app, length_take, length_drop. lia. Qed.

#[local] Arguments dirent_header : simpl never.
#[local] Arguments overwrite : simpl never.

Section RecordWritten.
Context `{DirTypes} (padding : list Z) (Hpad : length padding = 5).

Lemma length_dirent_header len d_type : length (dirent_header len d_type) = 19.
Proof. unfold dirent_header. rewrite !length_app, !le_enc_length. done. Qed.

(** The three stores of [write_entry], on the bytes of the record alone. *)
Lemma entry_bytes len d_type name :
  19 + length name + 1 <= len < 19 + length name + 9 -> 24 <= len ->
  forall mid, length mid = len -> exists m',
    overwrite (overwrite (overwrite mid 0 (dirent_header len d_type ++ padding)) 19 name)
      (19 + length name) [0%Z] = m' /\ is_record len d_type name m'.
Proof.
  intros Hlen H24 mid Hm. pose proof (length_dirent_header len d_type) as Hh.
  set (h := dirent_header len d_type) in *. eexists. split; [done|].
  rewrite overwrite_0, length_app, Hh, Hpad, <- app_assoc. simpl (19 + 5).
  assert (length (padding ++ drop 24 mid) = len - 19) as Hr
    by (rewrite length_app, length_drop; lia).
  set (r := padding ++ drop 24 mid) in *.
  assert (overwrite (h ++ r) 19 name = h ++ name ++ drop (length name) r) as ->.
  { rewrite <- Hh, <- (Nat.add_0_r (length h)), overwrite_app_r. done. }
  assert (overwrite (h ++ name ++ drop (length name) r) (19 + length name) [0%Z]
          = h ++ name ++ 0%Z :: drop 1 (drop (length name) r)) as ->.
  { replace (19 + length name) with (length h + (length name + 0)) by lia.
    by rewrite overwrite_app_r, overwrite_app_r. }
  eexists. split; [done|]. rewrite !length_app. simpl. rewrite !length_drop. lia.
Qed.

(** The buffer after an entry was accepted: what was before it is untouched, and
    the bytes up to the new offset are its record. *)
Lemma write_entry_record d d_type name d' :
  offset d <= length (buf d) -> write_entry padding d d_type name = Some d' ->
  offset d' = offset d + entry_len name /\ offset d' <= length (buf d') /\
  length (buf d') = length (buf d) /\
  take (offset d) (buf d') = take (offset d) (buf d) /\
  is_record (entry_len name) d_type name (take (entry_len name) (drop (offset d) (buf d'))).
Proof.
  intros Ho. unfold write_entry, remaining_space. destruct d as [b o]. cbn [buf offset] in *.
  pose proof (entry_len_bounds name) as [Hlen H24]. unfold NAME_OFFSET in *.
  set (len := entry_len name) in *. destruct (Nat.ltb_spec (length b - o) len) as [|Hroom]; [done|].
  intros <-%(inj Some). cbn [buf offset].
  destruct (entry_bytes len d_type name Hlen H24 (take len (drop o b))) as (m' & E & Hrec).
  { rewrite length_take, length_drop. lia. }
  set (p := take o b). set (s := drop (o + len) b). set (mid := take len (drop o b)) in *.
  assert (length p = o) as Hp by (unfold p; rewrite length_take; lia).
  assert (length mid = len) as Hm by (unfold mid; rewrite length_take, length_drop; lia).
  assert (b = p ++ mid ++ s) as Eb by (unfold p, mid, s; by rewrite <- drop_drop, !take_drop).
  assert (length m' = len) as Hm' by by destruct Hrec as (? & ? & ?).
  replace (overwrite _ _ _) with (p ++ m' ++ s).
  - rewrite !length_app, Hp, Hm'. split_and!; auto; try lia.
    + rewrite Eb, !length_app. lia.
    + by apply take_app_length'.
    + rewrite drop_app_length', take_app_length' by done. done.
  - assert (forall m k bs, length m = len -> k + length bs <= len ->
              overwrite (p ++ m ++ s) (o + k) bs = p ++ overwrite m k bs ++ s) as Hin.
    { intros m k bs Em Hk. by rewrite <- Hp, overwrite_app_r, overwrite_app_l by lia. }
    rewrite <- E, Eb, <- (Nat.add_assoc o 19). clearbody p mid s. clear Eb. symmetry.
    pose proof (length_dirent_header len d_type) as Hh.
    pose proof (Hin mid 0 (dirent_header len d_type ++ padding)) as H0.
    rewrite Nat.add_0_r in H0. rewrite H0; [|done|rewrite length_app; lia].
    set (m1 := overwrite mid 0 _). assert (length m1 = len) as Hm1.
    { unfold m1. rewrite length_overwrite; [done|]. rewrite length_app. lia. }
    rewrite Hin by lia. apply Hin; [rewrite length_overwrite; lia|simpl; lia].
Qed.
End RecordWritten.

(** ** Sequences of records *)

Section Records.
Context `{DirTypes}.

Inductive records : list DirEntry -> list Z -> Prop :=
| records_nil : records [] []
| records_cons e es r bs :
    is_record (entry_len (name_as_bytes e)) (FileType_from (entry_type e)) (name_as_bytes e) r ->
    records es bs -> records (e :: es) (r ++ bs).

Lemma records_app es1 bs1 es2 bs2 :
  records es1 bs1 -> records es2 bs2 -> records (es1 ++ es2) (bs1 ++ bs2).
Proof. intros Hr1 Hr2. induction Hr1; simpl; [done|]. rewrite <- app_assoc. by constructor. Qed.

Lemma records_one e r :
  is_record (entry_len (name_as_bytes e)) (FileType_from (entry_type e)) (name_as_bytes e) r ->
  records [e] r.
Proof. intros Hr. rewrite <- (app_nil_r r). by repeat constructor. Qed.

Lemma records_empty es : records es [] -> es = [].
Proof.
  inversion 1 as [|e es' r bs Hr Hes E1 E2]; [done|]. exfalso.
  apply app_nil in E2 as [-> ->]. destruct Hr as (rest & E & _).
  destruct (entry_len_bounds (name_as_bytes e)). by destruct (dirent_header _ _) eqn:Ed.
Qed.

Lemma records_length es bs : records es bs -> length es <= length bs.
Proof.
  induction 1 as [|e es r bs Hr Hes IH]; simpl; [lia|]. rewrite length_app.
  destruct Hr as (_ & _ & Hl). destruct (entry_len_bounds (name_as_bytes e)). lia.
Qed.

(** An entry a reader of the buffer can recover: no zero in the name, a length
    that fits the 16-bit field, and a one-byte type. *)
Definition readable_entry (e : DirEntry) : Prop :=
  (0%Z ∉ name_as_bytes e) /\ (Z.of_nat (entry_len (name_as_bytes e)) < 2 ^ 16)%Z /\
  is_u8 (FileType_from (entry_type e)).

Lemma until_zero_name name rest : 0%Z ∉ name -> until_zero (name ++ 0%Z :: rest) = name.
Proof.
  induction name as [|b name IH]; intros Hn; simpl; [done|].
  destruct (Z.eqb_spec b 0); [set_solver|]. rewrite IH by set_solver. done.
Qed.

Lemma parse_record e r bs :
  readable_entry e ->
  is_record (entry_len (name_as_bytes e)) (FileType_from (entry_type e)) (name_as_bytes e) r ->
  parse_one (r ++ bs) = (FileType_from (entry_type e), name_as_bytes e) /\
  Z.to_nat (le_dec (take 2 (drop 16 (r ++ bs)))) = length r.
Proof.
  intros (Hz & Hlen & Hty) (rest & E & Hl). unfold parse_one, NAME_OFFSET.
  pose proof (length_dirent_header (entry_len (name_as_bytes e)) (FileType_from (entry_type e))) as Hh.
  set (len := entry_len (name_as_bytes e)) in *. set (ty := FileType_from (entry_type e)) in *.
  assert (drop 19 (r ++ bs) = name_as_bytes e ++ 0%Z :: (rest ++ bs)) as ->.
  { rewrite E, <- !app_assoc, drop_app_length' by done. done. }
  assert (nth 18 (r ++ bs) 0%Z = ty) as ->.
  { rewrite E, <- app_assoc, app_nth1 by lia. unfold dirent_header.
    rewrite !app_assoc, app_nth2 by (rewrite !length_app, !le_enc_length; simpl; lia).
    rewrite !length_app, !le_enc_length. simpl. unfold as_u8. by apply wrap_small. }
  rewrite until_zero_name by done. split; [done|].
  assert (take 2 (drop 16 (r ++ bs)) = le_enc 2 (wrap 16 (Z.of_nat len))) as ->.
  { rewrite E. unfold dirent_header. rewrite <- !app_assoc.
    rewrite (app_assoc (le_enc 8 1)), drop_app_length' by (rewrite length_app, !le_enc_length; done).
    by apply take_app_length'. }
  rewrite (wrap_small 16) by lia. rewrite le_dec_enc_small by (simpl; lia). lia.
Qed.

Lemma parse_records es bs :
  records es bs -> Forall readable_entry es -> forall fuel, length es <= fuel ->
  parse fuel bs = map (fun e => (FileType_from (entry_type e), name_as_bytes e)) es.
Proof.
  induction 1 as [|e es r bs Hr Hes IH]; intros HF fuel Hf.
  { by destruct fuel. }
  inversion HF as [|? ? He HF']; subst. clear HF. rename HF' into HF. destruct fuel as [|fuel]; simpl in Hf; [lia|].
  destruct (parse_record e r bs He Hr) as [Ho Hn].
  assert (exists x l, r ++ bs = x :: l) as (x & l & E).
  { destruct Hr as (rest & -> & _). unfold dirent_header. simpl. eauto. }
  cbn [parse]. rewrite E. rewrite <- E, Ho, Hn, drop_app_length. simpl. f_equal.
  apply IH; [done|lia].
Qed.
End Records.

(** ** The directory as a queue of entries *)

Section Getdents.
Context `{DirTypes, ErrorConv} (padding : list Z) (Hpad : length padding = 5).
Context {D : Type} (read_dir : D -> (AxError + option DirEntry) * D).

(** What [axfs]'s [read_dir] still has to deliver: an entry that it hands over is the
    next of these, and a count of zero says that there is none left.  It may fail at
    any time. *)
Context (remaining : D -> list DirEntry).
Context (read_dir_end : forall d d', read_dir d = (inr None, d') -> remaining d = [] /\ remaining d' = []).
Context (read_dir_next : forall d e d', read_dir d = (inr (Some e), d') -> remaining d = e :: remaining d').

(** What the directory still owes the process. *)
Definition pending (dir : DirObj) : list DirEntry :=
  option_list (last_dirent dir) ++ remaining (dir_inner dir).

Abbreviation write d e := (write_entry padding d (FileType_from (entry_type e)) (name_as_bytes e)).

Lemma write_extends d e d' es :
  offset d <= length (buf d) -> records es (take (offset d) (buf d)) -> write d e = Some d' ->
  offset d' <= length (buf d') /\ length (buf d') = length (buf d) /\
  offset d + 24 <= offset d' /\ records (es ++ [e]) (take (offset d') (buf d')).
Proof.
  intros Ho Hr Hw. apply write_entry_record in Hw as (Eo & Ho' & El & Et & Hrec); [|done..].
  destruct (entry_len_bounds (name_as_bytes e)) as [_ H24]. split_and!; auto; [lia|].
  rewrite Eo, <- take_take_drop, Et. apply records_app; [done|]. by apply records_one.
Qed.

(** The loop stops at one call of [read_dir]: the entries before it are in the
    buffer, and that call failed, found the end, or brought an entry without room. *)
Lemma fill_spec : forall fuel d inner es,
  offset d <= length (buf d) -> records es (take (offset d) (buf d)) ->
  length (buf d) < offset d + 24 * fuel ->
  exists d' inner1 es', remaining inner = es' ++ remaining inner1 /\
    offset d <= offset d' <= length (buf d') /\ length (buf d') = length (buf d) /\
    records (es ++ es') (take (offset d') (buf d')) /\ (es' = [] -> d' = d) /\
    let '(r, inner') := read_dir inner1 in
    fill padding read_dir fuel d inner = Some (r, d', inner') /\ (forall e, r = inr (Some e) -> write d' e = None).
Proof.
  induction fuel as [|fuel IH]; intros d inner es Ho Hr Hf; [lia|]. simpl.
  assert (forall r i', read_dir inner = (r, i') -> (forall e, r = inr (Some e) -> write d e = None) ->
    exists d' inner1 es', remaining inner = es' ++ remaining inner1 /\
    offset d <= offset d' <= length (buf d') /\ length (buf d') = length (buf d) /\
    records (es ++ es') (take (offset d') (buf d')) /\ (es' = [] -> d' = d) /\
    let '(r1, inner') := read_dir inner1 in
    Some (r, d, i') = Some (r1, d', inner') /\ (forall e, r1 = inr (Some e) -> write d' e = None)) as Hstop.
  { intros r i' E Hw. exists d, inner, []. rewrite E, app_nil_r. split_and!; auto. }
  destruct (read_dir inner) as [[x|[e|]] i'] eqn:E; [by apply Hstop| |by apply Hstop].
  destruct (write d e) as [d1|] eqn:Ew; [|apply Hstop; [done|by intros ? [= <-]]]. clear Hstop.
  destruct (write_extends d e d1 es Ho Hr Ew) as (Ho1 & El1 & H24 & Hr1).
  destruct (IH d1 i' (es ++ [e]) Ho1 Hr1) as (d' & i1 & es' & Erem & Ho' & El' & Hrec & Hnil & Hl); [lia|].
  exists d', i1, (e :: es'). rewrite <- app_assoc in Hrec. simpl. rewrite (read_dir_next _ _ _ E), Erem.
  split_and!; auto; [lia..|done].
Qed.

Lemma fill_fuel_enough b : length b < 24 * fill_fuel b.
Proof.
  unfold fill_fuel. pose proof (Nat.div_mod (length b) 24 ltac:(lia)).
  pose proof (Nat.mod_upper_bound (length b) 24 ltac:(lia)). lia.
Qed.

(** What the call makes of the end of its loop, when [es] are in the buffer. *)
Lemma getdents_end (b : list Z) (dir : DirObj) d es :
  offset d <= length (buf d) -> length (buf d) = length b -> records es (take (offset d) (buf d)) ->
  es = option_list (last_dirent dir) -> (es = [] -> d = dirbuffer_new b) ->
  (forall e, write (dirbuffer_new b) e = None -> length b < entry_len (name_as_bytes e)) ->
  (match last_dirent dir with None => Some (dirbuffer_new b) | Some e => write (dirbuffer_new b) e end) = Some d ->
  let '(r, b', dir') := getdents padding read_dir b dir in
  (exists n es, r = Ok n /\ pending dir = es ++ pending dir' /\ records es (take n b') /\
     n <= length b' /\ length b' = length b /\ (n = 0 -> pending dir = [])) \/
  (exists e es, r = Err EINVAL /\ pending dir' = pending dir /\ pending dir = e :: es /\
     length b < entry_len (name_as_bytes e)) \/
  (exists x inner n es, r = Err (ax_into x) /\ read_dir inner = (inl x, dir_inner dir') /\ last_dirent dir' = None /\
     pending dir = es ++ remaining inner /\ records es (take n b') /\ n <= length b').
Proof.
  intros Ho El Hr Hes Hd Hsmall Ed. unfold getdents. rewrite Ed.
  destruct (fill_spec (fill_fuel b) d (dir_inner dir) es Ho Hr) as (d' & i1 & es' & Erem & Ho' & El' & Hrec & Hnil & Hl).
  { pose proof (fill_fuel_enough b). lia. }
  assert (pending dir = (es ++ es') ++ remaining i1) as Hp by (unfold pending; by rewrite Erem, <- Hes, app_assoc).
  destruct (read_dir i1) as [[x|[e|]] i'] eqn:Ei; destruct Hl as [-> Hw]; cbn [dir_inner last_dirent].
  - right; right. exists x, i1, (offset d'), (es ++ es'). split_and!; auto. lia.
  - apply read_dir_next in Ei. rewrite Ei in Hp. destruct (Nat.eqb_spec (offset d') 0) as [E0|E0].
    + right; left. rewrite E0 in Hrec. apply records_empty in Hrec. rewrite Hrec in Hp.
      apply app_eq_nil in Hrec as [-> ->]. exists e, (remaining i'). rewrite Hp. split_and!; auto.
      apply Hsmall. rewrite <- Hd, <- (Hnil eq_refl) by done. by apply Hw.
    + left. exists (offset d'), (es ++ es'). split_and!; auto; lia.
  - apply read_dir_end in Ei as [E1 E2]. rewrite E1 in Hp. left. exists (offset d'), (es ++ es').
    unfold pending at 2. cbn [dir_inner last_dirent]. rewrite E2. split_and!; auto; [lia..|].
    intros E0. rewrite E0 in Hrec. apply records_empty in Hrec. by rewrite Hp, Hrec.
Qed.

Lemma getdents_progress (b : list Z) (dir : DirObj) :
  let '(r, b', dir') := getdents padding read_dir b dir in
  (exists n es, r = Ok n /\ pending dir = es ++ pending dir' /\ records es (take n b') /\
     n <= length b' /\ length b' = length b /\ (n = 0 -> pending dir = [])) \/
  (exists e es, r = Err EINVAL /\ pending dir' = pending dir /\ pending dir = e :: es /\
     length b < entry_len (name_as_bytes e)) \/
  (exists x inner n es, r = Err (ax_into x) /\ read_dir inner = (inl x, dir_inner dir') /\ last_dirent dir' = None /\
     pending dir = es ++ remaining inner /\ records es (take n b') /\ n <= length b').
Proof.
  set (d0 := dirbuffer_new b).
  assert (forall e, write d0 e = None -> length b < entry_len (name_as_bytes e)) as Hsmall.
  { intros e. unfold write_entry, remaining_space. simpl.
    destruct (Nat.ltb_spec (length b - 0) (entry_len (name_as_bytes e))); [lia|done]. }
  destruct (last_dirent dir) as [e|] eqn:El.
  - destruct (write d0 e) as [d1|] eqn:Ew.
    + destruct (write_extends d0 e d1 [] (Nat.le_0_l _) records_nil Ew) as (Ho1 & El1 & H24 & Hr1).
      apply (getdents_end b dir d1 [e]); rewrite ?El; auto. done.
    + unfold getdents. rewrite El. fold d0. rewrite Ew. right; left. exists e, (remaining (dir_inner dir)).
      unfold pending. rewrite El. auto.
  - apply (getdents_end b dir d0 []); rewrite ?El; auto; [simpl; lia|constructor].
Qed.

(** C34: what [getdents64] does with the directory entries, in its three outcomes.  A
    call that succeeds hands over, in order and as a sequence of records, a prefix of
    the entries that the directory still owed, and keeps the rest for the next call; it
    answers 0 only when nothing was left.  A call whose buffer is too small for the
    next entry answers EINVAL and keeps everything.  In these two cases no entry is lost
    and none repeated.  When [read_dir] fails, the call answers its error: the
    entries [es] that it had already put in the buffer, the one kept back by an earlier
    call among them, are not reported and not kept, so they are lost.  The loop always
    ends, and there is no other outcome. *)
Theorem getdents_outcomes (b : list Z) (dir : DirObj) :
  let '(r, b', dir') := getdents padding read_dir b dir in
  (exists n es, r = Ok n /\ pending dir = es ++ pending dir' /\ records es (take n b') /\
     n <= length b' /\ length b' = length b /\ (n = 0 -> pending dir = [])) \/
  (exists e es, r = Err EINVAL /\ pending dir' = pending dir /\ pending dir = e :: es /\
     length b < entry_len (name_as_bytes e)) \/
  (exists x inner n es, r = Err (ax_into x) /\ read_dir inner = (inl x, dir_inner dir') /\ last_dirent dir' = None /\
     pending dir = es ++ remaining inner /\ records es (take n b') /\ n <= length b').
Proof. apply getdents_progress. Qed.

(** C35: what a successful [getdents64] leaves in the buffer is read back by the
    record format as exactly the entries handed over, types and names, as long
    as names hold no zero byte and records fit their 16-bit length. *)
Theorem getdents_roundtrip (b b' : list Z) (dir dir' : DirObj) n :
  Forall readable_entry (pending dir) ->
  getdents padding read_dir b dir = (Ok n, b', dir') ->
  exists es, pending dir = es ++ pending dir' /\
    parse n (take n b') = map (fun e => (FileType_from (entry_type e), name_as_bytes e)) es.
Proof.
  intros HF E. pose proof (getdents_progress b dir) as Hg. rewrite E in Hg.
  destruct Hg as [(m & es & [= <-] & Hp & Hr & _)|[(e & es & [=] & _)|(x & i & m & es & [=] & _)]].
  exists es. split; [done|]. rewrite Hp in HF. apply Forall_app in HF as [HF _].
  apply parse_records; [done|done|].
  apply records_length in Hr. rewrite length_take in Hr. lia.
Qed.
End Getdents.

Module DirSample.
#[local] Instance linux_types : DirTypes := {| DT_UNKNOWN := 0; DT_DIR := 4; DT_REG := 8 |}.
#[local] Existing Instance Ptr.Sample.sample_conv.

Definition list_dir (l : list DirEntry) : (AxError + option DirEntry) * list DirEntry :=
  match l with [] => (inr None, []) | e :: es => (inr (Some e), es) end.

Definition ent (b : bool) (name : list Z) : DirEntry := mkEnt (mkFt b (negb b)) name.
Definition dir : DirObj := mkDir [ent true [46]%Z; ent false [97; 98]%Z; ent false [99]%Z] None.
Definition pad5 : list Z := [0; 0; 0; 0; 0]%Z.

(** A directory that fails once, after [n] more entries. *)
Definition flaky (d : list DirEntry * option nat) : (AxError + option DirEntry) * (list DirEntry * option nat) :=
  match d.2 with
  | Some 0 => (inl (AxOther 5), (d.1, None))
  | n => let '(r, l) := list_dir d.1 in (r, (l, option_map pred n))
  end.
Definition flaky_dir : DirObj := mkDir (dir_inner dir, Some 1) (Some (ent true [46; 46]%Z)).

Lemma list_dir_end (d d' : list DirEntry) : list_dir d = (inr None, d') -> d = [] /\ d' = [].
Proof. destruct d; [by intros [= <-]|done]. Qed.
Lemma list_dir_next (d : list DirEntry) e d' : list_dir d = (inr (Some e), d') -> d = e :: d'.
Proof. destruct d; [done|by intros [= -> ->]]. Qed.
Lemma flaky_end d d' : flaky d = (inr None, d') -> d.1 = [] /\ d'.1 = [].
Proof.
  destruct d as [l n]. unfold flaky. simpl. destruct (list_dir l) as [r l'] eqn:E.
  destruct n as [[|n]|]; [done|..]; intros [= -> <-]; by apply list_dir_end.
Qed.
Lemma flaky_next d e d' : flaky d = (inr (Some e), d') -> d.1 = e :: d'.1.
Proof.
  destruct d as [l n]. unfold flaky. simpl. destruct (list_dir l) as [r l'] eqn:E.
  destruct n as [[|n]|]; [done|..]; intros [= -> <-]; by apply list_dir_next.
Qed.

(** A 60-byte buffer takes two of the three entries; and with a failure at the second
    call, the entry kept back and the first one are lost. *)
Lemma getdents_outcomes_witness :
  (exists es b' dir', getdents pad5 list_dir (replicate 60 0%Z) dir = (Ok 48, b', dir') /\
     pending (fun d => d) dir = es ++ pending (fun d => d) dir' /\ records es (take 48 b')) /\
  (exists inner es dir', (getdents pad5 flaky (replicate 60 0%Z) flaky_dir).2 = dir' /\
     flaky inner = (inl (AxOther 5), dir_inner dir') /\ pending fst flaky_dir = es ++ inner.1 /\ length es = 2 /\
     pending fst dir' = [ent false [97; 98]%Z; ent false [99]%Z]).
Proof.
  split.
  - pose proof (getdents_outcomes pad5 eq_refl list_dir (fun d => d) list_dir_end list_dir_next (replicate 60 0%Z) dir) as Hg.
    destruct (getdents _ _ _ dir) as [[r b'] dir'] eqn:E. assert (r = Ok 48) as -> by (vm_compute in E; congruence).
    destruct Hg as [(n & es & [= <-] & Hp & Hr & _)|[(e & es & [=] & _)|(x & i & m & es & [=] & _)]]. eauto 8.
  - pose proof (getdents_outcomes pad5 eq_refl flaky fst flaky_end flaky_next (replicate 60 0%Z) flaky_dir) as Hg.
    destruct (getdents _ _ _ flaky_dir) as [[r b'] dir'] eqn:E.
    assert (r = Err (EOther 5) /\ pending fst dir' = [ent false [97; 98]%Z; ent false [99]%Z] /\
            dir_inner dir' = (pending fst dir', None)) as (-> & Hd & Hd')
      by (vm_compute in E; injection E as <- _ <-; by vm_compute).
    destruct Hg as [(n & es & [=] & _)|[(e & es & [=] & _)|(x & i & m & es & Ex & Hi & _ & Hp & Hr & _)]].
    destruct i as [l n]. assert (x = AxOther 5 /\ l = pending fst dir') as [-> ->].
    { unfold flaky in Hi. simpl in Hi. rewrite Hd' in Hi. destruct (list_dir l) as [y l'] eqn:El.
      destruct n as [[|n]|]; simplify_eq; [done|..]; by destruct l. }
    exists (pending fst dir', n), es, dir'. split_and!; auto. apply (f_equal length) in Hp. rewrite length_app in Hp.
    simpl in Hp. rewrite Hd in Hp. simpl in Hp. lia.
Defined.

Definition after := getdents pad5 list_dir (replicate 60 0%Z) dir.

Lemma getdents_roundtrip_witness :
  exists es, pending (fun d => d) dir = es ++ pending (fun d => d) (snd after) /\
    parse 48 (take 48 (snd (fst after)))
    = map (fun e => (FileType_from (entry_type e), name_as_bytes e)) es.
Proof.
  apply (getdents_roundtrip pad5 eq_refl list_dir (fun d => d) list_dir_end list_dir_next
           (replicate 60 0%Z) (snd (fst after)) dir (snd after) 48); [|by vm_compute].
  do 3 (constructor; [split; [set_solver|split; [done|by vm_compute]]|]). constructor.
Defined.
End DirSample.
