(* ===== verification/Futex.v ===== *)
(** * Futexes: [core/src/futex.rs] and [api/src/imp/futex.rs]

    The futex table of a process maps addresses to reference-counted wait queues;
    [WaitQueueGuard] holds a reference while a call uses a queue.  The wait queue
    itself ([axtask::WaitQueue]) is an interface. *)

From stdpp Require Import base list gmap option relations.
From Stdlib Require Import ZArith Lia.
From S2P Require Import Prelude Bytes AddrSpace Ptr.
From S2P Require Import TimeConv.
Import ListNotations.

(** ** The wait queue

    Tasks are numbered.  [wq_wait t] is the current task [t] joining the queue
    before it is descheduled; [wq_requeue_self] is [requeue] onto the queue
    itself. *)
Class WaitQueue (WQ : Type) : Type := {
  wq_new : WQ;
  wq_is_empty : WQ -> bool;
  wq_wait : Z -> WQ -> WQ;
  wq_notify_one : WQ -> bool * WQ;
  wq_notify_all : WQ -> WQ;
  wq_requeue : WQ -> Z -> WQ -> Z * WQ * WQ;
  wq_requeue_self : WQ -> Z -> Z * WQ;
  wq_waiters : WQ -> list Z
}.

(** The queue is first-in first-out: a notification takes the first waiter, and
    a requeue moves the first [n] to the end of the other queue. *)
Class WaitQueueOk (WQ : Type) `{WaitQueue WQ} : Prop := {
  waiters_new : wq_waiters wq_new = [];
  waiters_empty q : wq_is_empty q = true <-> wq_waiters q = [];
  waiters_wait t q : wq_waiters (wq_wait t q) = wq_waiters q ++ [t];
  waiters_notify q :
    fst (wq_notify_one q) = negb (bool_decide (wq_waiters q = [])) /\
    wq_waiters (snd (wq_notify_one q)) = tail (wq_waiters q);
  waiters_notify_all q : wq_waiters (wq_notify_all q) = [];
  waiters_requeue q n q2 : 0 <= n ->
    let '(c, q', q2') := wq_requeue q n q2 in
    c = Z.of_nat (length (take (Z.to_nat n) (wq_waiters q))) /\
    wq_waiters q' = drop (Z.to_nat n) (wq_waiters q) /\
    wq_waiters q2' = wq_waiters q2 ++ take (Z.to_nat n) (wq_waiters q)
}.

(** ** [FutexTable] *)

Record QCell (WQ : Type) : Type := mkQ { q_wq : WQ; q_strong : nat }.
Arguments mkQ {WQ} _ _.
Arguments q_wq {WQ} _.
Arguments q_strong {WQ} _.

(** The table, and the heap of the [Arc<WaitQueue>]s it and the guards share. *)
Record FutexState (WQ : Type) : Type := mkFutex { ftable : gmap Z nat; queues : gmap nat (QCell WQ) }.
Arguments mkFutex {WQ} _ _.
Arguments ftable {WQ} _.
Arguments queues {WQ} _.

Record WaitQueueGuard : Type := mkGuard { key : Z; inner : nat }.

Section Table.
Context {WQ : Type} `{WaitQueue WQ}.

Definition futex_new : FutexState WQ := mkFutex ∅ ∅.

Definition q_clone (id : nat) (s : FutexState WQ) : FutexState WQ :=
  mkFutex (ftable s) (alter (fun c => mkQ (q_wq c) (S (q_strong c))) id (queues s)).

Definition q_drop (id : nat) (s : FutexState WQ) : FutexState WQ :=
  match queues s !! id with
  | None => s
  | Some c =>
      if (q_strong c =? 1)%nat then mkFutex (ftable s) (delete id (queues s))
      else mkFutex (ftable s) (<[id := mkQ (q_wq c) (q_strong c - 1)]> (queues s))
  end.

Definition futex_get (addr : Z) (s : FutexState WQ) : option WaitQueueGuard * FutexState WQ :=
  match ftable s !! addr with
  | None => (None, s)
  | Some id => (Some (mkGuard addr id), q_clone id s)
  end.

Definition futex_get_or_insert (addr : Z) (s : FutexState WQ) : WaitQueueGuard * FutexState WQ :=
  match ftable s !! addr with
  | Some id => (mkGuard addr id, q_clone id s)
  | None =>
      let id := fresh (dom (queues s)) in
      (mkGuard addr id,
       q_clone id (mkFutex (<[addr := id]> (ftable s)) (<[id := mkQ wq_new 1]> (queues s))))
  end.

(** [Drop for WaitQueueGuard], and then the drop of its [inner]. *)
Definition guard_drop (g : WaitQueueGuard) (s : FutexState WQ) : FutexState WQ :=
  let s :=
    match queues s !! inner g with
    | Some c =>
        if ((q_strong c =? 1)%nat && wq_is_empty (q_wq c)) then
          match ftable s !! key g with
          | Some id => q_drop id (mkFutex (delete (key g) (ftable s)) (queues s))
          | None => s
          end
        else s
    | None => s
    end in
  q_drop (inner g) s.

(** Apply a queue operation to the queue of a guard. *)
Definition on_queue (id : nat) (f : WQ -> WQ) (s : FutexState WQ) : FutexState WQ :=
  mkFutex (ftable s) (alter (fun c => mkQ (f (q_wq c)) (q_strong c)) id (queues s)).

(** ** [sys_futex] *)

(** [for _ in 0..value { if !wq.notify_one(false) { break; } count += 1; }]. *)
Fixpoint notify_loop (n : nat) (q : WQ) : Z * WQ :=
  match n with
  | O => (0, q)
  | S n' =>
      let '(woken, q) := wq_notify_one q in
      if (woken : bool) then let '(c, q) := notify_loop n' q in (c + 1, q) else (0, q)
  end.

Definition notify_queue (id : nat) (value : Z) (s : FutexState WQ) : Z * FutexState WQ :=
  match queues s !! id with
  | None => (0, s)
  | Some c =>
      let '(count, q) := notify_loop (Z.to_nat value) (q_wq c) in
      (count, mkFutex (ftable s) (<[id := mkQ q (q_strong c)]> (queues s)))
  end.

Definition futex_wake (addr value : Z) (s : FutexState WQ) : Z * FutexState WQ :=
  let '(wq, s) := futex_get addr s in
  match wq with
  | None => (0, s)
  | Some g => let '(count, s) := notify_queue (inner g) value s in (count, guard_drop g s)
  end.

Definition requeue_queues (id id2 : nat) (n : Z) (s : FutexState WQ) : Z * FutexState WQ :=
  match queues s !! id, queues s !! id2 with
  | Some c, Some c2 =>
      if (id =? id2)%nat then
        let '(k, q) := wq_requeue_self (q_wq c) n in
        (k, mkFutex (ftable s) (<[id := mkQ q (q_strong c)]> (queues s)))
      else
        let '(k, q, q2) := wq_requeue (q_wq c) n (q_wq c2) in
        (k, mkFutex (ftable s)
              (<[id2 := mkQ q2 (q_strong c2)]> (<[id := mkQ q (q_strong c)]> (queues s))))
  | _, _ => (0, s)
  end.

(** [value2] arrives in the place of the timeout. *)
Definition futex_requeue (addr value timeout addr2 : Z) (s : FutexState WQ) : Z * FutexState WQ :=
  let value2 := as_u32 timeout in
  let '(wq, s) := futex_get addr s in
  let '(wq2, s) := futex_get_or_insert addr2 s in
  let '(count, s) :=
    match wq with
    | None => (0, s)
    | Some g =>
        let '(count, s) := notify_queue (inner g) value s in
        let '(count, s) :=
          if count =? value then
            let '(k, s) := requeue_queues (inner g) (inner wq2) value2 s in (count + k, s)
          else (count, s) in
        (count, guard_drop g s)
    end in
  (count, guard_drop wq2 s).

(** A call returns a value, or sleeps in a queue under a guard, with a timeout. *)
Inductive futex_outcome : Type :=
| Returns (n : Z)
| Sleeps (g : WaitQueueGuard) (timeout : option TimeValue).

Context `{ErrorConv, MemoryAddr, MappingFlags} {AS : Type} `{AddrSpace AS}.
(** [linux_raw_sys]'s operation numbers. *)
Context (FUTEX_CMD_MASK FUTEX_WAIT FUTEX_WAKE FUTEX_REQUEUE FUTEX_CMP_REQUEUE : Z).
Abbreviation XM := (M (FutexState WQ * UState AS) LinuxError).
#[local] Instance u32_pod : Pod Z := int_pod 4.

(** The comparison of FUTEX_WAIT and FUTEX_CMP_REQUEUE. *)
Definition futex_compare (uaddr value : Z) : XM unit :=
  v ← on_snd (read_user Z uaddr);
  guard_or (v =? value) EAGAIN.

(** The current task [t] joins the queue of [addr]; the timeout is read and
    converted once the guard is held, and an error in reading it drops the
    guard. *)
Definition futex_block (t addr timeout : Z) : XM futex_outcome := fun su =>
  let '(s, u) := su in
  let '(g, s) := futex_get_or_insert addr s in
  match on_aspace (nullable timeout (get_as_ref timespec timeout)) u with
  | (Ok None, u) => (Ok (Sleeps g None), (on_queue (inner g) (wq_wait t) s, u))
  | (Ok (Some r), u) =>
      match to_time_value (load (us_mem u) r : timespec) with
      | Some d => (Ok (Sleeps g (Some d)), (on_queue (inner g) (wq_wait t) s, u))
      | None => (Panic, (s, u))
      end
  | (Err e, u) => (Err e, (guard_drop g s, u))
  | (Panic, u) => (Panic, (s, u))
  end.

Definition futex_wait (t uaddr value timeout : Z) : XM futex_outcome :=
  futex_compare uaddr value;; futex_block t uaddr timeout.

(** The end of a wait: the guard is dropped and the call returns 0. *)
Definition futex_resume (g : WaitQueueGuard) (s : FutexState WQ) : Z * FutexState WQ :=
  (0, guard_drop g s).

Definition sys_futex (t uaddr futex_op value timeout uaddr2 value3 : Z) : XM futex_outcome :=
  let command := Z.land futex_op (as_u32 FUTEX_CMD_MASK) in
  if command =? FUTEX_WAIT then futex_wait t uaddr value timeout
  else if command =? FUTEX_WAKE then
    n ← on_fst (fun s => let '(n, s') := futex_wake uaddr value s in (Ok n, s')); mret (Returns n)
  else if (command =? FUTEX_REQUEUE) || (command =? FUTEX_CMP_REQUEUE) then
    (if command =? FUTEX_CMP_REQUEUE then futex_compare uaddr value3 else mret tt);;
    n ← on_fst (fun s => let '(n, s') := futex_requeue uaddr value timeout uaddr2 s in (Ok n, s'));
    mret (Returns n)
  else fail ENOSYS.
End Table.

(** ** Waking and requeueing *)

Section Spec.
Context {WQ : Type} `{WaitQueueOk WQ}.

Lemma notify_loop_spec n : forall q,
  fst (notify_loop n q) = Z.of_nat (length (take n (wq_waiters q))) /\
  wq_waiters (snd (notify_loop n q)) = drop n (wq_waiters q).
Proof.
  induction n as [|n IH]; intros q; simpl; [done|].
  destruct (waiters_notify q) as [Hf Hw]. destruct (wq_notify_one q) as [woken q1]. simpl in *.
  destruct (wq_waiters q) as [|w ws] eqn:Eq; simpl in *; subst woken.
  - done.
  - specialize (IH q1). rewrite Hw in IH. destruct (notify_loop n q1) as [c q2].
    simpl in *. destruct IH as [-> ->]. split; [lia|done].
Qed.

(** How many of the guards refer to the queue [id]. *)
Definition guards_on (gs : list WaitQueueGuard) (id : nat) : nat :=
  length (filter (fun g => inner g = id) gs).

(** Every queue is in the table once, and its count is one for the table and one
    for each guard. *)
Record futex_inv (s : FutexState WQ) (gs : list WaitQueueGuard) : Prop := {
  finv_inj k1 k2 id : ftable s !! k1 = Some id -> ftable s !! k2 = Some id -> k1 = k2;
  finv_cell k id : ftable s !! k = Some id ->
    exists c, queues s !! id = Some c /\ q_strong c = S (guards_on gs id);
  finv_table id c : queues s !! id = Some c -> exists k, ftable s !! k = Some id;
  finv_guard g : g ∈ gs -> ftable s !! key g = Some (inner g)
}.

Lemma guards_on_cons g gs id :
  guards_on (g :: gs) id = ((if decide (inner g = id) then 1 else 0) + guards_on gs id)%nat.
Proof. unfold guards_on. rewrite filter_cons. by case_decide. Qed.

Lemma futex_inv_perm s gs gs' : gs ≡ₚ gs' -> futex_inv s gs -> futex_inv s gs'.
Proof.
  intros Hp [H1 H2 H3 H4]. split; auto.
  - intros k id Hk. destruct (H2 k id Hk) as (c & Hc & Hs). exists c. split; [done|].
    rewrite Hs. unfold guards_on. by rewrite Hp.
  - intros g Hg. apply H4. by rewrite Hp.
Qed.

(** Changing what is in the queues, but not their counts. *)
Lemma futex_inv_contents s gs qs :
  futex_inv s gs -> (forall id, q_strong <$> qs !! id = q_strong <$> queues s !! id) ->
  futex_inv (mkFutex (ftable s) qs) gs.
Proof.
  intros [I1 I2 I3 I4] Hq. split; auto; simpl.
  - intros k id Hk. destruct (I2 k id Hk) as (c & Hc & Hs). specialize (Hq id). rewrite Hc in Hq.
    destruct (qs !! id) as [c'|]; simplify_eq/=. exists c'. split; [done|congruence].
  - intros id c Hc. specialize (Hq id). rewrite Hc in Hq.
    destruct (queues s !! id) as [c'|] eqn:E; simplify_eq/=. eauto.
Qed.

Lemma clone_inv s gs g :
  futex_inv s gs -> ftable s !! key g = Some (inner g) -> futex_inv (q_clone (inner g) s) (g :: gs).
Proof.
  intros [I1 I2 I3 I4] Hg. split; simpl; auto.
  - intros k id Hk. destruct (I2 k id Hk) as (c & Hc & Hs). rewrite guards_on_cons.
    destruct (decide (inner g = id)) as [<-|Hne].
    + rewrite lookup_alter_eq, Hc. eexists. split; [done|]. simpl. lia.
    + rewrite lookup_alter_ne by done. eauto.
  - intros id c Hc. destruct (decide (inner g = id)) as [<-|Hne]; [eauto|].
    rewrite lookup_alter_ne in Hc by done. eauto.
  - intros g' [->|Hg']%elem_of_cons; auto.
Qed.

(** A guard is never the last reference, so dropping it never removes the entry. *)
Lemma guard_drop_inv s gs g :
  futex_inv s (g :: gs) ->
  futex_inv (guard_drop g s) gs /\ ftable (guard_drop g s) = ftable s /\
  (forall id, q_wq <$> queues (guard_drop g s) !! id = q_wq <$> queues s !! id).
Proof.
  intros [I1 I2 I3 I4]. assert (ftable s !! key g = Some (inner g)) as Hg by (apply I4; set_solver).
  destruct (I2 _ _ Hg) as (c & Hc & Hs). rewrite guards_on_cons, decide_True in Hs by done.
  unfold guard_drop. rewrite Hc.
  destruct (Nat.eqb_spec (q_strong c) 1) as [|Hn]; [lia|]. simpl.
  unfold q_drop. rewrite Hc. destruct (Nat.eqb_spec (q_strong c) 1); [lia|]. split_and!; simpl; auto.
  - split; simpl; auto.
    + intros k id Hk. destruct (I2 k id Hk) as (c' & Hc' & Hs'). rewrite guards_on_cons in Hs'.
      destruct (decide (inner g = id)) as [<-|Hne].
      * rewrite lookup_insert_eq. eexists. split; [done|]. simpl. lia.
      * rewrite lookup_insert_ne by done. eauto.
    + intros id c'. rewrite lookup_insert_Some. intros [[<- _]|[_ Hc']]; eauto.
    + intros g' Hg'. apply I4. set_solver.
  - intros id. destruct (decide (inner g = id)) as [<-|Hne].
    + rewrite lookup_insert_eq, Hc. done.
    + by rewrite lookup_insert_ne.
Qed.

Lemma get_or_insert_inv s gs addr g s' :
  futex_inv s gs -> futex_get_or_insert addr s = (g, s') ->
  futex_inv s' (g :: gs) /\ key g = addr /\ ftable s ⊆ ftable s'.
Proof.
  intros Hi. unfold futex_get_or_insert. destruct (ftable s !! addr) as [id|] eqn:E; intros [= <- <-].
  - split; [by apply (clone_inv s gs (mkGuard addr id))|done].
  - set (id := fresh (dom (queues s))). split_and!; [|done|by apply insert_subseteq].
    assert (queues s !! id = None) as Hn by (apply not_elem_of_dom, is_fresh).
    assert (forall k, ftable s !! k <> Some id) as Hid.
    { intros k Hk. destruct (finv_cell _ _ Hi k id Hk) as (c & Hc & _). congruence. }
    apply (clone_inv _ gs (mkGuard addr id)); [|by simplify_map_eq].
    destruct Hi as [I1 I2 I3 I4]. split; simpl.
    + intros k1 k2 x. rewrite !lookup_insert_Some. intros [[<- <-]|[? J1]] [[<- E2]|[? J2]]; eauto;
        subst; by destruct (Hid _ ltac:(eassumption)).
    + intros k x. rewrite lookup_insert_Some. intros [[<- <-]|[Hne Hk]].
      * rewrite lookup_insert_eq. eexists. split; [done|]. simpl. f_equal. symmetry.
        unfold guards_on. apply length_zero_iff_nil.
        destruct (filter _ gs) as [|g l] eqn:Ef; [done|]. exfalso.
        assert (g ∈ filter (fun g => inner g = id) gs) as [Hg1 Hg2]%list_elem_of_filter
          by (rewrite Ef; set_solver).
        apply (Hid (key g)). rewrite <- Hg1. auto.
      * rewrite lookup_insert_ne; [eauto|]. intros <-. by apply (Hid k).
    + intros x c. rewrite lookup_insert_Some. intros [[<- _]|[Hne Hc]].
      * exists addr. by rewrite lookup_insert_eq.
      * destruct (I3 x c Hc) as [k Hk]. exists k. rewrite lookup_insert_ne; [done|]. congruence.
    + intros g Hg. rewrite lookup_insert_ne; [auto|]. intros ->. by rewrite (I4 g Hg) in E.
Qed.

Lemma get_inv s gs addr :
  futex_inv s gs ->
  match futex_get addr s with
  | (Some g, s') => futex_inv s' (g :: gs) /\ key g = addr /\ ftable s' = ftable s
  | (None, s') => s' = s
  end.
Proof.
  intros Hi. unfold futex_get. destruct (ftable s !! addr) as [id|] eqn:E; [|done].
  split; [|done]. by apply (clone_inv s gs (mkGuard addr id)).
Qed.

Lemma notify_queue_inv s gs id value :
  futex_inv s gs -> futex_inv (snd (notify_queue id value s)) gs /\
  ftable (snd (notify_queue id value s)) = ftable s.
Proof.
  intros Hi. unfold notify_queue. destruct (queues s !! id) as [c|] eqn:E; [|done].
  destruct (notify_loop _ _) as [n q]. split; [|done]. apply futex_inv_contents; [done|].
  intros x. destruct (decide (x = id)) as [->|]; by simplify_map_eq.
Qed.

Lemma requeue_queues_inv s gs id id2 n :
  futex_inv s gs -> futex_inv (snd (requeue_queues id id2 n s)) gs /\
  ftable (snd (requeue_queues id id2 n s)) = ftable s.
Proof.
  intros Hi. unfold requeue_queues. destruct (queues s !! id) as [c|] eqn:E; [|done].
  destruct (queues s !! id2) as [c2|] eqn:E2; [|done].
  destruct (Nat.eqb_spec id id2) as [->|Hne].
  - destruct (wq_requeue_self _ _) as [k q]. split; [|done]. apply futex_inv_contents; [done|].
    intros x. destruct (decide (x = id2)) as [->|]; by simplify_map_eq.
  - destruct (wq_requeue _ _ _) as [[k q] q2]. split; [|done]. apply futex_inv_contents; [done|].
    intros x. destruct (decide (x = id2)) as [->|]; [by simplify_map_eq|].
    destruct (decide (x = id)) as [->|]; by simplify_map_eq.
Qed.

Lemma futex_wake_inv s gs addr value :
  futex_inv s gs -> futex_inv (snd (futex_wake addr value s)) gs /\
  ftable (snd (futex_wake addr value s)) = ftable s.
Proof.
  intros Hi. unfold futex_wake. pose proof (get_inv s gs addr Hi) as Hg.
  destruct (futex_get addr s) as [[g|] s1]; [|by subst].
  destruct Hg as (Hi1 & _ & Et). destruct (notify_queue_inv s1 _ (inner g) value Hi1) as [Hi2 Et2].
  destruct (notify_queue _ _ _) as [n s2]. simpl in *.
  destruct (guard_drop_inv s2 gs g Hi2) as (Hi3 & -> & _). split; [done|congruence].
Qed.

Lemma futex_requeue_inv s gs addr value timeout addr2 :
  futex_inv s gs -> futex_inv (snd (futex_requeue addr value timeout addr2 s)) gs /\
  ftable s ⊆ ftable (snd (futex_requeue addr value timeout addr2 s)).
Proof.
  intros Hi. unfold futex_requeue. pose proof (get_inv s gs addr Hi) as Hg.
  destruct (futex_get addr s) as [[g|] s1].
  - destruct Hg as (Hi1 & _ & Et).
    destruct (futex_get_or_insert addr2 s1) as [g2 s2] eqn:E2.
    destruct (get_or_insert_inv _ _ _ _ _ Hi1 E2) as (Hi2 & _ & Hsub).
    destruct (notify_queue_inv s2 _ (inner g) value Hi2) as [Hi3 Et3].
    destruct (notify_queue _ _ _) as [n s3]. simpl in *.
    assert (exists c s4, (if n =? value
               then let '(k, s4) := requeue_queues (inner g) (inner g2) (as_u32 timeout) s3 in (n + k, s4)
               else (n, s3)) = (c, s4) /\ futex_inv s4 (g2 :: g :: gs) /\ ftable s4 = ftable s2)
      as (c & s4 & -> & Hi4 & Et4).
    { destruct (n =? value); [|eauto].
      destruct (requeue_queues_inv s3 _ (inner g) (inner g2) (as_u32 timeout) Hi3) as [Hi4 Et4].
      destruct (requeue_queues _ _ _ _) as [k s4]. simpl in *. eexists _, _. split_and!; eauto. congruence. }
    apply (futex_inv_perm _ _ (g :: g2 :: gs)) in Hi4; [|constructor].
    destruct (guard_drop_inv s4 _ g Hi4) as (Hi5 & Et5 & _).
    destruct (guard_drop_inv _ _ g2 Hi5) as (Hi6 & Et6 & _). simpl. split; [done|].
    rewrite Et6, Et5, Et4, <- Et. done.
  - subst s1. destruct (futex_get_or_insert addr2 s) as [g2 s2] eqn:E2.
    destruct (get_or_insert_inv _ _ _ _ _ Hi E2) as (Hi2 & _ & Hsub).
    destruct (guard_drop_inv _ _ g2 Hi2) as (Hi6 & Et6 & _). simpl. split; [done|]. by rewrite Et6.
Qed.

(** ** Executions

    The tasks of a process use the table in any order: a wait takes a guard and
    keeps it until it resumes; what the scheduler does to the queues in between
    (a timeout takes its task out) is an arbitrary change of a queue. *)
Inductive futex_step : FutexState WQ * list WaitQueueGuard -> FutexState WQ * list WaitQueueGuard -> Prop :=
| step_wait s gs t addr g s' :
    futex_get_or_insert addr s = (g, s') ->
    futex_step (s, gs) (on_queue (inner g) (wq_wait t) s', g :: gs)
| step_resume s gs g gs' :
    gs ≡ₚ g :: gs' -> futex_step (s, gs) (snd (futex_resume g s), gs')
| step_wake s gs addr value : futex_step (s, gs) (snd (futex_wake addr value s), gs)
| step_requeue s gs addr value timeout addr2 :
    futex_step (s, gs) (snd (futex_requeue addr value timeout addr2 s), gs)
| step_scheduler s gs id f : futex_step (s, gs) (on_queue id f s, gs).

Lemma on_queue_inv s gs id f : futex_inv s gs -> futex_inv (on_queue id f s) gs.
Proof.
  intros Hi. apply futex_inv_contents; [done|]. intros x. destruct (decide (x = id)) as [->|].
  - rewrite lookup_alter_eq. by destruct (queues s !! id).
  - by rewrite lookup_alter_ne.
Qed.

Lemma futex_step_inv x y :
  futex_step x y -> futex_inv (fst x) (snd x) ->
  futex_inv (fst y) (snd y) /\ ftable (fst x) ⊆ ftable (fst y).
Proof.
  intros Hs Hi. destruct Hs as [s gs t addr g s' E|s gs g gs' Hp|s gs a v|s gs a v t a2|s gs id f];
    simpl in *.
  - destruct (get_or_insert_inv _ _ _ _ _ Hi E) as (Hi' & _ & Hsub).
    split; [by apply on_queue_inv|done].
  - apply (futex_inv_perm _ _ _ Hp) in Hi. destruct (guard_drop_inv _ _ _ Hi) as (Hi' & -> & _). done.
  - destruct (futex_wake_inv s gs a v Hi) as [Hi' ->]. done.
  - by apply futex_requeue_inv.
  - split; [by apply on_queue_inv|done].
Qed.

Definition futex_reachable (x : FutexState WQ * list WaitQueueGuard) : Prop :=
  rtc futex_step (futex_new, []) x.

Lemma futex_steps_inv x y :
  rtc futex_step x y -> futex_inv (fst x) (snd x) ->
  futex_inv (fst y) (snd y) /\ ftable (fst x) ⊆ ftable (fst y).
Proof.
  induction 1 as [|x y z Hs _ IH]; intros Hi; [done|].
  destruct (futex_step_inv x y Hs Hi) as [Hy Hxy]. destruct (IH Hy) as [Hz Hyz].
  split; [done|by etrans].
Qed.

Lemma futex_reachable_inv x : futex_reachable x -> futex_inv (fst x) (snd x).
Proof.
  intros Hr. apply (futex_steps_inv _ _ Hr). split; simpl; try done; set_solver.
Qed.

(** An entry of the futex table is never removed again, although dropping a
    guard is meant to remove the queues nobody uses: the table itself holds a
    reference, so a guard never finds itself to be the only one. *)
Theorem futex_table_never_shrinks x y addr id :
  futex_reachable x -> rtc futex_step x y ->
  ftable (fst x) !! addr = Some id -> ftable (fst y) !! addr = Some id.
Proof.
  intros Hi%futex_reachable_inv Hr Hk. destruct (futex_steps_inv x y Hr Hi) as [_ Hsub].
  by eapply lookup_weaken.
Qed.

(** The queue of an address, as a list of tasks. *)
Definition waiting_at (s : FutexState WQ) (addr : Z) : list Z :=
  match (id ← ftable s !! addr; queues s !! id) with Some c => wq_waiters (q_wq c) | None => [] end.

Lemma waiting_at_wq (s s' : FutexState WQ) addr :
  ftable s' = ftable s -> (forall id, q_wq <$> queues s' !! id = q_wq <$> queues s !! id) ->
  waiting_at s' addr = waiting_at s addr.
Proof.
  intros Et Hq. unfold waiting_at. rewrite Et. destruct (ftable s !! addr) as [id|]; [|done].
  simpl. specialize (Hq id). destruct (queues s' !! id), (queues s !! id); simplify_eq/=; congruence.
Qed.

Lemma clone_wq id (s : FutexState WQ) x : q_wq <$> queues (q_clone id s) !! x = q_wq <$> queues s !! x.
Proof.
  unfold q_clone. simpl. destruct (decide (x = id)) as [->|].
  - rewrite lookup_alter_eq. by destruct (queues s !! id).
  - by rewrite lookup_alter_ne.
Qed.

Lemma waiting_at_clone id (s : FutexState WQ) a : waiting_at (q_clone id s) a = waiting_at s a.
Proof. apply waiting_at_wq; [done|apply clone_wq]. Qed.

Lemma waiting_at_drop g s gs a :
  futex_inv s (g :: gs) -> waiting_at (guard_drop g s) a = waiting_at s a.
Proof. intros Hi. destruct (guard_drop_inv _ _ _ Hi) as (_ & ? & ?). by apply waiting_at_wq. Qed.

Lemma notify_queue_waiting s gs addr id value :
  futex_inv s gs -> ftable s !! addr = Some id ->
  let '(n, s') := notify_queue id value s in
  n = Z.of_nat (length (take (Z.to_nat value) (waiting_at s addr))) /\
  waiting_at s' addr = drop (Z.to_nat value) (waiting_at s addr) /\
  (forall a, a <> addr -> waiting_at s' a = waiting_at s a).
Proof.
  intros Hi Hk. destruct (finv_cell _ _ Hi addr id Hk) as (c & Hc & _).
  unfold notify_queue. rewrite Hc. destruct (notify_loop_spec (Z.to_nat value) (q_wq c)) as [E1 E2].
  destruct (notify_loop _ _) as [n q]. simpl in *. unfold waiting_at. simpl.
  rewrite Hk. simpl. rewrite lookup_insert_eq, Hc. split_and!; auto.
  intros a Ha. destruct (ftable s !! a) as [id'|] eqn:Ea; [|done]. simpl.
  rewrite lookup_insert_ne; [done|]. intros <-. apply Ha. by apply (finv_inj _ _ Hi a addr id).
Qed.

Lemma futex_wake_waiting x addr value :
  futex_reachable x ->
  let '(n, s') := futex_wake addr value (fst x) in
  n = Z.of_nat (length (take (Z.to_nat value) (waiting_at (fst x) addr))) /\
  waiting_at s' addr = drop (Z.to_nat value) (waiting_at (fst x) addr) /\
  (forall a, a <> addr -> waiting_at s' a = waiting_at (fst x) a).
Proof.
  intros Hi%futex_reachable_inv. destruct x as [s gs]. simpl in *. unfold futex_wake.
  pose proof (get_inv s gs addr Hi) as Hg. unfold futex_get in *.
  destruct (ftable s !! addr) as [id|] eqn:Ea.
  - destruct Hg as (Hi1 & _ & _). set (s1 := q_clone id s) in *.
    assert (forall a, waiting_at s1 a = waiting_at s a) as Hw by apply waiting_at_clone.
    pose proof (notify_queue_waiting s1 _ addr id value Hi1 Ea) as Hn.
    destruct (notify_queue_inv s1 _ id value Hi1) as [Hi2 _]. cbn [inner].
    destruct (notify_queue id value s1) as [n s2]. destruct Hn as (-> & E2 & E3). simpl in Hi2.
    rewrite (waiting_at_drop _ _ _ _ Hi2), E2, Hw. split_and!; auto.
    intros a Ha. by rewrite (waiting_at_drop _ _ _ _ Hi2), E3, Hw.
  - assert (waiting_at s addr = []) as -> by (unfold waiting_at; by rewrite Ea).
    rewrite drop_nil, firstn_nil. done.
Qed.

(** FUTEX_WAKE wakes the tasks that have waited longest, as many as asked for
    or as there are, answers how many, and leaves the waiters of every other
    address alone. *)
Theorem futex_wake_fifo x addr value :
  futex_reachable x ->
  let '(n, s') := futex_wake addr value (fst x) in
  n = Z.of_nat (length (take (Z.to_nat value) (waiting_at (fst x) addr))) /\
  waiting_at s' addr = drop (Z.to_nat value) (waiting_at (fst x) addr) /\
  (forall a, a <> addr -> waiting_at s' a = waiting_at (fst x) a).
Proof. apply futex_wake_waiting. Qed.

Lemma drop_min {A} (l : list A) v n :
  drop (v + n) l = drop (v `min` length l + n `min` (length l - v)) l.
Proof.
  destruct (decide (v + n <= length l)%nat); [f_equal; lia|]. rewrite !drop_ge by lia. done.
Qed.

Lemma get_or_insert_waiting s gs addr g s' a :
  futex_inv s gs -> futex_get_or_insert addr s = (g, s') -> waiting_at s' a = waiting_at s a.
Proof.
  intros Hi. unfold futex_get_or_insert. destruct (ftable s !! addr) as [id|] eqn:E; intros [= <- <-].
  - apply waiting_at_clone.
  - set (id := fresh (dom (queues s))).
    assert (queues s !! id = None) as Hn by (apply not_elem_of_dom, is_fresh).
    rewrite waiting_at_clone. unfold waiting_at. simpl.
    destruct (decide (a = addr)) as [->|Hne].
    + rewrite lookup_insert_eq. simpl. rewrite lookup_insert_eq, E. simpl. apply waiters_new.
    + rewrite lookup_insert_ne by done. destruct (ftable s !! a) as [id'|] eqn:Ea; [|done]. simpl.
      rewrite lookup_insert_ne; [done|]. intros <-.
      destruct (finv_cell _ _ Hi a _ Ea) as (c & Hc & _). congruence.
Qed.

Lemma requeue_queues_waiting s gs addr addr2 id id2 n :
  futex_inv s gs -> ftable s !! addr = Some id -> ftable s !! addr2 = Some id2 -> addr <> addr2 ->
  0 <= n ->
  let '(k, s') := requeue_queues id id2 n s in
  let moved := take (Z.to_nat n) (waiting_at s addr) in
  k = Z.of_nat (length moved) /\ waiting_at s' addr = drop (Z.to_nat n) (waiting_at s addr) /\
  waiting_at s' addr2 = waiting_at s addr2 ++ moved /\
  (forall a, a <> addr -> a <> addr2 -> waiting_at s' a = waiting_at s a).
Proof.
  intros Hi Hk Hk2 Hne Hn. destruct (finv_cell _ _ Hi addr id Hk) as (c & Hc & _).
  destruct (finv_cell _ _ Hi addr2 id2 Hk2) as (c2 & Hc2 & _).
  assert (id <> id2) as Hid by (intros ->; by apply Hne, (finv_inj _ _ Hi addr addr2 id2)).
  unfold requeue_queues. rewrite Hc, Hc2. destruct (Nat.eqb_spec id id2) as [|_]; [done|].
  pose proof (waiters_requeue (q_wq c) n (q_wq c2) Hn) as Hq.
  destruct (wq_requeue _ _ _) as [[k q] q2]. destruct Hq as (-> & E1 & E2).
  unfold waiting_at. simpl. rewrite Hk, Hk2. simpl.
  rewrite lookup_insert_ne, !lookup_insert_eq, Hc, Hc2 by done. split_and!; auto.
  intros a Ha Ha2. destruct (ftable s !! a) as [x|] eqn:Ea; [|done]. simpl.
  rewrite !lookup_insert_ne; [done| |]; intros <-.
  - apply Ha. by apply (finv_inj _ _ Hi a addr id).
  - apply Ha2. by apply (finv_inj _ _ Hi a addr2 id2).
Qed.

(** C36: FUTEX_REQUEUE neither loses nor duplicates a waiter: the first [value] are
    woken; if there were that many, the next [value2] move, in order, to the end
    of the other address's queue; the rest stay.  It answers the number woken
    plus the number moved. *)
Theorem futex_requeue_conserves x addr value timeout addr2 :
  futex_reachable x -> addr <> addr2 -> 0 <= value ->
  let ws := waiting_at (fst x) addr in
  let moved := if value <=? Z.of_nat (length ws)
               then take (Z.to_nat (as_u32 timeout)) (drop (Z.to_nat value) ws) else [] in
  let gone := (length (take (Z.to_nat value) ws) + length moved)%nat in
  let '(n, s') := futex_requeue addr value timeout addr2 (fst x) in
  n = Z.of_nat gone /\ waiting_at s' addr = drop gone ws /\
  waiting_at s' addr2 = waiting_at (fst x) addr2 ++ moved.
Proof.
  intros Hi%futex_reachable_inv Hne Hv. destruct x as [s gs]. simpl in Hi. cbn [fst].
  unfold futex_requeue. pose proof (get_inv s gs addr Hi) as Hg. unfold futex_get in *.
  destruct (ftable s !! addr) as [id|] eqn:Ea.
  - destruct Hg as (Hi1 & _ & _). set (s1 := q_clone id s) in *.
    destruct (futex_get_or_insert addr2 s1) as [g2 s2] eqn:E2.
    destruct (get_or_insert_inv _ _ _ _ _ Hi1 E2) as (Hi2 & Hk2 & Hsub).
    assert (forall a, waiting_at s2 a = waiting_at s a) as Hw.
    { intros a. rewrite (get_or_insert_waiting _ _ _ _ _ a Hi1 E2). apply waiting_at_clone. }
    assert (ftable s2 !! addr = Some id) as Ea2 by (by eapply lookup_weaken).
    assert (ftable s2 !! addr2 = Some (inner g2)) as Eb2
      by (rewrite <- Hk2; apply (finv_guard _ _ Hi2); set_solver).
    pose proof (notify_queue_waiting s2 _ addr id value Hi2 Ea2) as Hn.
    destruct (notify_queue_inv s2 _ id value Hi2) as [Hi3 Et3]. cbn [inner].
    destruct (notify_queue id value s2) as [n s3]. destruct Hn as (En & W1 & W3). simpl in Hi3, Et3.
    rewrite Hw in En, W1. subst n. set (ws := waiting_at s addr) in *.
    assert ((Z.of_nat (length (take (Z.to_nat value) ws)) =? value)
            = (value <=? Z.of_nat (length ws))) as ->.
    { rewrite length_take. split_tests; lia. }
    destruct (Z.leb_spec value (Z.of_nat (length ws))) as [Hle|Hlt].
    + pose proof (requeue_queues_waiting s3 _ addr addr2 id (inner g2) (as_u32 timeout) Hi3
        ltac:(congruence) ltac:(congruence) Hne ltac:(apply wrap_bound; lia)) as Hq.
      destruct (requeue_queues_inv s3 _ id (inner g2) (as_u32 timeout) Hi3) as [Hi4 _].
      destruct (requeue_queues _ _ _ _) as [k s4]. destruct Hq as (-> & Q1 & Q2 & _).
      simpl in Hi4. apply (futex_inv_perm _ _ (mkGuard addr id :: g2 :: gs)) in Hi4; [|constructor].
      destruct (guard_drop_inv _ _ _ Hi4) as (Hi5 & _ & _).
      rewrite !(waiting_at_drop _ _ _ _ Hi5), !(waiting_at_drop _ _ _ _ Hi4), Q1, Q2, W1.
      rewrite (W3 addr2), Hw by done. split_and!; [lia| |done].
      rewrite drop_drop, !length_take, length_drop. apply drop_min.
    + apply (futex_inv_perm _ _ (mkGuard addr id :: g2 :: gs)) in Hi3; [|constructor].
      destruct (guard_drop_inv _ _ _ Hi3) as (Hi5 & _ & _).
      rewrite !(waiting_at_drop _ _ _ _ Hi5), !(waiting_at_drop _ _ _ _ Hi3), W1.
      rewrite (W3 addr2), Hw, app_nil_r by done. split_and!; [simpl; lia| |done].
      rewrite length_take. simpl. rewrite !drop_ge; [done|lia..].
  - subst.
    assert (waiting_at s addr = []) as Hws by (unfold waiting_at; by rewrite Ea).
    destruct (futex_get_or_insert addr2 s) as [g2 s2] eqn:E2.
    destruct (get_or_insert_inv _ _ _ _ _ Hi E2) as (Hi2 & _ & _).
    rewrite !(waiting_at_drop _ _ _ _ Hi2), !(get_or_insert_waiting _ _ _ _ _ _ Hi E2), Hws.
    simpl length. destruct (value <=? Z.of_nat 0);
      rewrite ?drop_nil, ?firstn_nil, ?app_nil_r; simpl; rewrite ?drop_nil; done.
Qed.
End Spec.

(** ** A wake that comes between the comparison and the sleep *)

Section Missed.
Context {WQ : Type} `{WaitQueueOk WQ}.
Context `{ErrorConv, MemoryAddr, MappingFlags} {AS : Type} `{AddrSpace AS}.

Lemma waiting_at_enqueue s gs addr id t :
  futex_inv s gs -> ftable s !! addr = Some id ->
  waiting_at (on_queue id (wq_wait t) s) addr = waiting_at s addr ++ [t].
Proof.
  intros Hi Hk. destruct (finv_cell _ _ Hi addr id Hk) as (c & Hc & _).
  unfold waiting_at. simpl. rewrite Hk. simpl. rewrite lookup_alter_eq, Hc. simpl. apply waiters_wait.
Qed.

(** FUTEX_WAIT is not atomic with the comparison it makes: when another task
    changes the word and wakes the address after the comparison and before the
    sleep, nobody is woken, and the waiter goes to sleep all the same, although
    the word no longer holds the value it was to wait for. *)
Theorem futex_wait_misses_wake (x : FutexState WQ * list WaitQueueGuard) addr v t (u u1 u2 : UState AS) :
  futex_reachable x -> waiting_at (fst x) addr = [] ->
  futex_compare addr v (fst x, u) = (Ok tt, (fst x, u1)) ->
  (forall value, fst (futex_wake addr value (fst x)) = 0) /\
  forall value, let s2 := snd (futex_wake addr value (fst x)) in
    exists g s3, futex_block t addr 0 (s2, u2) = (Ok (Sleeps g None), (s3, u2)) /\
      waiting_at s3 addr = [t].
Proof.
  intros Hr Hw _. pose proof (futex_reachable_inv x Hr) as Hi.
  assert (forall value, let '(n, s') := futex_wake addr value (fst x) in
            n = 0 /\ waiting_at s' addr = []) as Hwake.
  { intros value. pose proof (futex_wake_waiting x addr value Hr) as Hf.
    destruct (futex_wake addr value (fst x)) as [n s']. rewrite Hw in Hf.
    destruct Hf as (-> & -> & _). by rewrite firstn_nil, drop_nil. }
  split.
  { intros value. specialize (Hwake value). by destruct (futex_wake addr value (fst x)), Hwake. }
  intros value. specialize (Hwake value). destruct (futex_wake_inv _ _ addr value Hi) as [Hi2 _].
  destruct (futex_wake addr value (fst x)) as [n s2]. destruct Hwake as [_ Hw2]. simpl in *.
  unfold futex_block. destruct (futex_get_or_insert addr s2) as [g s3] eqn:Eg.
  destruct (get_or_insert_inv _ _ _ _ _ Hi2 Eg) as (Hi3 & Hkey & _).
  exists g, (on_queue (inner g) (wq_wait t) s3). split.
  { unfold nullable, on_aspace, is_null. simpl. by destruct u2. }
  rewrite (waiting_at_enqueue _ _ _ _ t Hi3).
  - by rewrite (get_or_insert_waiting _ _ _ _ _ _ Hi2 Eg), Hw2.
  - rewrite <- Hkey. apply (finv_guard _ _ Hi3). set_solver.
Qed.
End Missed.

(** ** A concrete wait queue: the list of its tasks *)

Module FutexSample.
#[export] Instance list_queue : WaitQueue (list Z) := {|
  wq_new := [];
  wq_is_empty q := bool_decide (q = []);
  wq_wait t q := q ++ [t];
  wq_notify_one q := (negb (bool_decide (q = [])), tail q);
  wq_notify_all _ := [];
  wq_requeue q n q2 :=
    (Z.of_nat (length (take (Z.to_nat n) q)), drop (Z.to_nat n) q, q2 ++ take (Z.to_nat n) q);
  wq_requeue_self q n := (0, q);
  wq_waiters q := q
|}.
#[export] Instance list_queue_ok : WaitQueueOk (list Z).
Proof. split; simpl; auto. intros q. apply bool_decide_eq_true. Qed.

(** Tasks 7 and 8 wait at 4096. *)
Definition w1 := let '(g, s) := futex_get_or_insert (WQ := list Z) 4096 futex_new in
                 (on_queue (inner g) (wq_wait 7) s, [g]).
Definition w2 := let '(g, s) := futex_get_or_insert 4096 (fst w1) in
                 (on_queue (inner g) (wq_wait 8) s, g :: snd w1).

Lemma w2_reachable : futex_reachable w2.
Proof.
  apply (rtc_l _ _ w1); [|apply rtc_once].
  - by apply (step_wait futex_new [] 7 4096).
  - unfold w2. destruct (futex_get_or_insert 4096 (fst w1)) as [g s] eqn:E.
    rewrite (surjective_pairing w1). by apply (step_wait (fst w1) (snd w1) 8 4096).
Qed.

Lemma futex_table_never_shrinks_witness :
  ftable (snd (futex_wake 4096 5 (fst w2))) !! 4096 = Some 0%nat.
Proof.
  apply (futex_table_never_shrinks w2 (snd (futex_wake 4096 5 (fst w2)), snd w2) 4096 0%nat);
    [apply w2_reachable| |by vm_compute].
  apply rtc_once. rewrite (surjective_pairing w2) at 1. apply step_wake.
Defined.

Lemma futex_wake_fifo_witness :
  let '(n, s') := futex_wake 4096 1 (fst w2) in
  n = Z.of_nat (length (take (Z.to_nat 1) (waiting_at (fst w2) 4096))) /\
  waiting_at s' 4096 = drop (Z.to_nat 1) (waiting_at (fst w2) 4096) /\
  (forall a, a <> 4096 -> waiting_at s' a = waiting_at (fst w2) a).
Proof. exact (futex_wake_fifo w2 4096 1 w2_reachable). Defined.

Lemma futex_requeue_conserves_witness :
  let ws := waiting_at (fst w2) 4096 in
  let moved := if 1 <=? Z.of_nat (length ws)
               then take (Z.to_nat (as_u32 5)) (drop (Z.to_nat 1) ws) else [] in
  let gone := (length (take (Z.to_nat 1) ws) + length moved)%nat in
  let '(n, s') := futex_requeue 4096 1 5 8192 (fst w2) in
  n = Z.of_nat gone /\ waiting_at s' 4096 = drop gone ws /\
  waiting_at s' 8192 = waiting_at (fst w2) 8192 ++ moved.
Proof.
  exact (futex_requeue_conserves w2 4096 1 5 8192 w2_reachable ltac:(discriminate) ltac:(lia)).
Defined.

Import SimpleMem.
#[local] Existing Instance Ptr.Sample.sample_conv.
Definition word (v : Z) : UState simple_aspace :=
  mkUState (mkSimple 4096 8192 3) (mem_write ∅ 4096 (le_enc 4 v)).

Lemma futex_wait_misses_wake_witness :
  (forall value, fst (futex_wake (WQ := list Z) 4096 value futex_new) = 0) /\
  forall value, let s2 := snd (futex_wake (WQ := list Z) 4096 value futex_new) in
    exists g s3, futex_block 7 4096 0 (s2, word 1) = (Ok (Sleeps g None), (s3, word 1)) /\
      waiting_at s3 4096 = [7].
Proof.
  apply (futex_wait_misses_wake (futex_new, []) 4096 0 7 (word 0) (word 0) (word 1));
    [apply rtc_refl|by vm_compute..].
Defined.
End FutexSample.
