(* ===== verification/Io.v ===== *)
(** * Reading and writing: [api/src/imp/fs/io.rs]

    [read], [readv], [write], [writev] and [lseek] over the [FileLike] trait,
    whose methods are an interface here: the object behind a descriptor may be a
    file, a directory, a pipe end, a socket or the console. *)

From stdpp Require Import base list gmap option.
From Stdlib Require Import ZArith Lia.
From S2P Require Import Prelude Bytes AddrSpace Ptr.
From S2P Require Import FdTable.
Import ListNotations.

(** [FileLike::read] returns the count and the buffer as it leaves it;
    [SeekFrom] and [File::seek] are [axfs]'s. *)
Inductive SeekFrom : Type := Start (o : Z) | Current (o : Z) | End_ (o : Z).

Class FileLike (W : Type) : Type := {
  fl_read : nat -> list Z -> W -> LinuxResult Z * list Z * W;
  fl_write : nat -> list Z -> W -> LinuxResult Z * W;
  fl_seek : nat -> SeekFrom -> W -> (AxError + Z) * W
}.

Record iovec : Type := mkIov { iov_base : Z; iov_len : Z }.
#[export] Instance iovec_pod : Pod iovec := {|
  pod_layout := mkLayout 16 8;
  pod_enc v := le_enc 8 (iov_base v) ++ le_enc 8 (iov_len v);
  pod_dec bs := mkIov (le_dec (take 8 bs)) (le_dec (drop 8 bs))
|}.

Section Io.
Context {T W AS : Type} `{FlattenObjects T nat} `{FileLike W}
  `{ErrorConv, MemoryAddr, MappingFlags} `{AddrSpace AS}.
#[local] Instance u8_pod : Pod Z := int_pod 1.

Abbreviation IoState := ((FdState T * W) * UState AS)%type.
Abbreviation IM := (M IoState LinuxError).

(** The trait methods on the object [o], for a validated slice of user memory; the
    reference to the object is dropped at the end of the statement. *)
Definition object_read (o : nat) (buf : Z * Z) : IM Z := fun s =>
  let '((f, w), u) := s in
  let '(r, b, w') := fl_read o (mem_read (us_mem u) (fst buf) (Z.to_nat (snd buf))) w in
  (r, ((arc_drop o f, w'), mkUState (us_aspace u) (mem_write (us_mem u) (fst buf) b))).

Definition object_write (o : nat) (buf : Z * Z) : IM Z := fun s =>
  let '((f, w), u) := s in
  let '(r, w') := fl_write o (mem_read (us_mem u) (fst buf) (Z.to_nat (snd buf))) w in
  (r, ((arc_drop o f, w'), u)).

Definition object_seek (o : nat) (pos : SeekFrom) : IM Z := fun s =>
  let '((f, w), u) := s in
  let '(r, w') := fl_seek o pos w in
  (match r with inr off => Ok off | inl e => Err (ax_into e) end, ((arc_drop o f, w'), u)).

(** [get_file_like(fd)?.read(buf)?] and [get_file_like(fd)?.write(buf)?]. *)
Definition file_read (fd : Z) (buf : Z * Z) : IM Z :=
  o ← on_fst (on_fst (get_file_like fd)); object_read o buf.
Definition file_write (fd : Z) (buf : Z * Z) : IM Z :=
  o ← on_fst (on_fst (get_file_like fd)); object_write o buf.

Definition sys_read (fd buf len : Z) : IM Z :=
  b ← on_snd (on_aspace (get_as_mut_slice Z buf len));
  n ← file_read fd b;
  mret (as_isize n).

Definition sys_write (fd buf len : Z) : IM Z :=
  b ← on_snd (on_aspace (get_as_slice Z buf len));
  n ← file_write fd b;
  mret (as_isize n).

(** The loop over the vector, which stays in user memory and is read one element
    at a time: [n] elements from [iov] on, [ret] bytes so far. *)
Fixpoint readv_loop (fd : Z) (n : nat) (iov ret : Z) : IM Z :=
  match n with
  | O => mret ret
  | S n' =>
      v ← on_snd (deref iovec iov);
      if iov_len v =? 0 then readv_loop fd n' (iov + 16) ret
      else
        buf ← on_snd (on_aspace (get_as_mut_slice Z (iov_base v) (iov_len v)));
        read ← file_read fd buf;
        let ret := as_isize (ret + as_isize read) in
        if read <? snd buf then mret ret else readv_loop fd n' (iov + 16) ret
  end.

Fixpoint writev_loop (fd : Z) (n : nat) (iov ret : Z) : IM Z :=
  match n with
  | O => mret ret
  | S n' =>
      v ← on_snd (deref iovec iov);
      if iov_len v =? 0 then writev_loop fd n' (iov + 16) ret
      else
        buf ← on_snd (on_aspace (get_as_slice Z (iov_base v) (iov_len v)));
        written ← file_write fd buf;
        let ret := as_isize (ret + as_isize written) in
        if written <? snd buf then mret ret else writev_loop fd n' (iov + 16) ret
  end.

Definition sys_readv (fd iov iocnt : Z) : IM Z :=
  if negb ((0 <=? iocnt) && (iocnt <=? 1024)) then fail EINVAL
  else
    iovs ← on_snd (on_aspace (get_as_mut_slice iovec iov iocnt));
    readv_loop fd (Z.to_nat (snd iovs)) (fst iovs) 0.

Definition sys_writev (fd iov iocnt : Z) : IM Z :=
  if negb ((0 <=? iocnt) && (iocnt <=? 1024)) then fail EINVAL
  else
    iovs ← on_snd (on_aspace (get_as_slice iovec iov iocnt));
    writev_loop fd (Z.to_nat (snd iovs)) (fst iovs) 0.

Definition seek_from (offset whence : Z) : option SeekFrom :=
  if whence =? 0 then Some (Start (as_u64 offset))
  else if whence =? 1 then Some (Current offset)
  else if whence =? 2 then Some (End_ offset)
  else None.

Definition sys_lseek (fd offset whence : Z) : IM Z :=
  pos ← lift (ok_or (seek_from offset whence) EINVAL);
  p ← on_fst (on_fst (File_from_fd fd));
  off ← object_seek (fst p) pos;
  mret (as_isize off).
End Io.

(** ** What a vectored write delivers *)

(** The bytes the [n] elements from [iov] on describe, one after the other. *)
Fixpoint iov_bytes (m : umem) (iov : Z) (n : nat) : list Z :=
  match n with
  | O => []
  | S n' => let v := load m iov : iovec in
            mem_read m (iov_base v) (Z.to_nat (iov_len v)) ++ iov_bytes m (iov + 16) n'
  end.

Section Delivered.
Context {T W AS : Type} `{FlattenObjectsOk T nat} `{FileLike W}
  `{ErrorConv, MemoryAddr, MappingFlags} `{AddrSpace AS}.
#[local] Existing Instance u8_pod.

(** What an object has been sent so far; a write sends the first [n] bytes of its
    buffer, and [n] is what it returns. *)
Context (sent : W -> nat -> list Z).
Context (write_sends : forall o buf w,
  match fl_write o buf w with
  | (Ok n, w') => 0 <= n <= Z.of_nat (length buf) /\ sent w' o = sent w o ++ take (Z.to_nat n) buf
  | (_, w') => sent w' o = sent w o
  end).

(** The descriptor table is as it was after each write. *)
Lemma file_write_eq fd buf f w (u : UState AS) ext o :
  fd_inv f ext -> fo_get (fd_table f) (as_usize fd) = Some o ->
  file_write (T := T) fd buf ((f, w), u) =
    (let '(r, w') := fl_write o (mem_read (us_mem u) (fst buf) (Z.to_nat (snd buf))) w in
     (r, ((f, w'), u))).
Proof.
  intros Hi Ho. unfold file_write, object_write, get_file_like. unfold_M. rewrite Ho. simpl.
  destruct (table_alive _ _ _ _ Hi Ho) as [c Hc].
  rewrite (arc_clone_drop f o c Hc (inv_live _ _ Hi o c Hc)). done.
Qed.

Lemma get_as_slice_eq p len (a : AS) :
  match get_as_slice Z p len a with (Ok b, _) => b = (p, len) | _ => True end.
Proof.
  unfold get_as_slice. unfold_M. destruct (layout_array _ _); [|done]. simpl.
  by destruct (check_region _ _ _ a) as [[]].
Qed.

Lemma writev_loop_delivers fd f ext o n : forall iov ret w (u : UState AS),
  fd_inv f ext -> fo_get (fd_table f) (as_usize fd) = Some o ->
  0 <= ret -> ret + Z.of_nat (length (iov_bytes (us_mem u) iov n)) < 2 ^ 63 ->
  let '(r, ((f', w'), u')) := writev_loop fd n iov ret ((f, w), u) in
  f' = f /\ us_mem u' = us_mem u /\
  exists k, sent w' o = sent w o ++ take k (iov_bytes (us_mem u) iov n) /\
    (k <= length (iov_bytes (us_mem u) iov n))%nat /\
    (forall v, r = Ok v -> v = ret + Z.of_nat k).
Proof.
  induction n as [|n IH]; intros iov ret w u Hi Ho Hret Hb.
  { simpl. split_and!; auto. exists 0%nat. rewrite app_nil_r. split_and!; auto.
    intros v [= <-]. lia. }
  cbn [writev_loop]. unfold deref. unfold_M. cbn [us_mem us_aspace].
  cbn [iov_bytes] in *. set (v := load (us_mem u) iov) in *.
  rewrite length_app, mem_read_length in *.
  destruct (Z.eqb_spec (iov_len v) 0) as [E0|E0].
  - rewrite E0 in *. simpl. simpl in Hb. apply (IH (iov + 16) ret w u); auto.
  - unfold on_aspace. pose proof (get_as_slice_eq (iov_base v) (iov_len v) (us_aspace u)) as Hs.
    destruct (get_as_slice Z _ _ _) as [[b|e|] a1];
      [|split_and!; auto; exists 0%nat; rewrite app_nil_r; (split_and!; [done|lia|done])..].
    subst b. rewrite (file_write_eq _ _ _ _ _ ext o) by done. cbn [us_mem fst snd].
    pose proof (write_sends o (mem_read (us_mem u) (iov_base v) (Z.to_nat (iov_len v))) w) as Hw.
    set (bs := mem_read (us_mem u) (iov_base v) (Z.to_nat (iov_len v))) in *.
    assert (length bs = Z.to_nat (iov_len v)) as Hlen by apply mem_read_length.
    destruct (fl_write o bs w) as [[k|e|] w'];
      [|split_and!; auto; exists 0%nat; rewrite app_nil_r; (split_and!; [done|lia|done])..].
    destruct Hw as [Hk Hsent]. rewrite Hlen in Hk.
    assert (as_isize (ret + as_isize k) = ret + k) as Eret.
    { unfold as_isize. rewrite (swrap_small 64 k), swrap_small by lia. done. }
    rewrite Eret. destruct (Z.ltb_spec k (iov_len v)) as [Hshort|Hfull].
    + split_and!; auto. exists (Z.to_nat k). rewrite take_app_le by lia.
      split_and!; [done|lia|]. intros x [= <-]. lia.
    + specialize (IH (iov + 16) (ret + k) w' (mkUState a1 (us_mem u)) Hi Ho ltac:(lia) ltac:(simpl; lia)).
      destruct (writev_loop fd n (iov + 16) (ret + k) _) as [r [[f' w''] u']].
      destruct IH as (-> & Hm & j & Hs & Hj & Hr). simpl in *. split_and!; auto.
      exists (length bs + j)%nat. rewrite take_app_add'  by done.
      rewrite Hs, Hsent, firstn_all2, <- app_assoc by lia. split_and!; [done|lia|].
      intros x Hx. rewrite (Hr x Hx). lia.
Qed.

(** [writev] sends a prefix of the bytes its vector describes, in order and
    each once, whatever happens on the way, and when it succeeds the number it
    returns is the length of that prefix; the descriptor table and the caller's
    memory are untouched.  When a later element fails the call fails, although
    the bytes of the earlier ones have been sent. *)
Theorem writev_sends_prefix fd f ext o iov iocnt w (u : UState AS) :
  fd_inv f ext -> fo_get (fd_table f) (as_usize fd) = Some o ->
  Z.of_nat (length (iov_bytes (us_mem u) iov (Z.to_nat iocnt))) < 2 ^ 63 ->
  let '(r, ((f', w'), u')) := sys_writev (T := T) fd iov iocnt ((f, w), u) in
  f' = f /\ us_mem u' = us_mem u /\
  exists k, sent w' o = sent w o ++ take k (iov_bytes (us_mem u) iov (Z.to_nat iocnt)) /\
    (forall v, r = Ok v -> v = Z.of_nat k).
Proof.
  intros Hi Ho Hb. unfold sys_writev. unfold_M. destruct (negb _).
  { split_and!; auto. exists 0%nat. by rewrite app_nil_r. }
  unfold on_aspace, get_as_slice. unfold_M. destruct (layout_array _ _); simpl;
    [|split_and!; auto; exists 0%nat; by rewrite app_nil_r].
  destruct (check_region _ _ _ _) as [[[]|e|] a1];
    [|split_and!; auto; exists 0%nat; by rewrite app_nil_r..]. simpl.
  pose proof (writev_loop_delivers fd f ext o (Z.to_nat iocnt) iov 0 w (mkUState a1 (us_mem u))
                Hi Ho ltac:(lia) ltac:(simpl; lia)) as Hl. simpl in Hl.
  destruct (writev_loop _ _ _ _ _) as [r [[f' w'] u']].
  destruct Hl as (-> & Hm & k & Hs & _ & Hr). split_and!; auto. exists k. split; [done|].
  intros v Hv. rewrite (Hr v Hv). lia.
Qed.

(** A length above [isize::MAX] panics the kernel in [read] and [write] before
    anything else is looked at, the descriptor included. *)
Theorem huge_length_panics fd buf len (s : (FdState T * W) * UState AS) :
  2 ^ 63 <= len -> sys_read fd buf len s = (Panic, s) /\ sys_write fd buf len s = (Panic, s).
Proof.
  intros Hl. unfold sys_read, sys_write, get_as_mut_slice, get_as_slice, on_aspace. unfold_M.
  assert (layout_array (pod_layout Z) len = None) as ->.
  { unfold layout_array. change (layout_size (pod_layout Z)) with 1.
    change (layout_align (pod_layout Z)) with 1. rewrite Z.mul_1_l.
    destruct (Z.leb_spec len (2 ^ 63 - 1)); [lia|done]. }
  by destruct s as [x [a m]].
Qed.
End Delivered.

Module IoSample.
Import SimpleMem.
#[local] Existing Instances Ptr.Sample.sample_conv FdTable.Sample.gmap_objects
  FdTable.Sample.gmap_objects_ok.

(** A world where an object keeps what it is sent, at most four bytes a call. *)
#[local] Instance log_files : FileLike (gmap nat (list Z)) := {|
  fl_read o buf w := (Ok 0, buf, w);
  fl_write o buf w := (Ok (Z.of_nat (length (take 4 buf))), <[o := default [] (w !! o) ++ take 4 buf]> w);
  fl_seek o pos w := (inr 0, w)
|}.

Definition sent_log (w : gmap nat (list Z)) (o : nat) : list Z := default [] (w !! o).

Lemma log_files_sends o buf (w : gmap nat (list Z)) :
  match fl_write o buf w with
  | (Ok n, w') => 0 <= n <= Z.of_nat (length buf) /\
                  sent_log w' o = sent_log w o ++ take (Z.to_nat n) buf
  | (_, w') => sent_log w' o = sent_log w o
  end.
Proof.
  unfold sent_log. simpl. rewrite lookup_insert_eq, Nat2Z.id. simpl. split; [rewrite length_take; lia|].
  f_equal. rewrite length_take. destruct (decide (4 <= length buf)%nat).
  - by rewrite Nat.min_l.
  - rewrite Nat.min_r, !firstn_all2 by lia. done.
Qed.

(** Two elements of three and five bytes at 4096. *)
Definition vec : UState simple_aspace :=
  mkUState (mkSimple 4096 8192 3)
    (mem_write ∅ 4096 (le_enc 8 4200 ++ le_enc 8 3 ++ le_enc 8 4300 ++ le_enc 8 5)).

Lemma writev_sends_prefix_witness :
  let '(r, ((f', w'), u')) :=
    sys_writev 1 4096 2 ((FdTable.Sample.booted, (∅ : gmap nat (list Z))), vec) in
  f' = FdTable.Sample.booted /\ us_mem u' = us_mem vec /\
  exists k, sent_log w' 1 = sent_log ∅ 1 ++ take k (iov_bytes (us_mem vec) 4096 (Z.to_nat 2)) /\
    (forall v, r = Ok v -> v = Z.of_nat k).
Proof.
  apply (writev_sends_prefix (H1 := log_files) sent_log log_files_sends 1 FdTable.Sample.booted no_ext 1%nat
           4096 2 ∅ vec).
  - apply fd_reachable_invariant, FdTable.Sample.booted_reachable.
  - by vm_compute.
  - by vm_compute.
Defined.

Lemma huge_length_panics_witness :
  sys_read 99 0 (2 ^ 63) ((FdTable.Sample.booted, (∅ : gmap nat (list Z))), vec)
    = (Panic, ((FdTable.Sample.booted, ∅), vec)) /\
  sys_write 99 0 (2 ^ 63) ((FdTable.Sample.booted, (∅ : gmap nat (list Z))), vec)
    = (Panic, ((FdTable.Sample.booted, ∅), vec)).
Proof. apply (huge_length_panics 99 0 (2 ^ 63)). lia. Defined.
End IoSample.
