(* ===== verification/Mmap.v ===== *)
(** * Memory mappings: [api/src/imp/mm/mmap.rs] and [api/src/imp/mm/brk.rs] *)

From stdpp Require Import base list gmap option.
From Stdlib Require Import ZArith Lia.
From S2P Require Import Prelude AddrSpace Ptr.
From S2P Require Import FdTable.
Import ListNotations.

(** ** The flag sets

    [linux_raw_sys]'s bits, and the two [bitflags] types made of them. *)

Class MmapConsts : Type := {
  PROT_READ : Z; PROT_WRITE : Z; PROT_EXEC : Z; PROT_GROWSDOWN : Z; PROT_GROWSUP : Z;
  MAP_SHARED : Z; MAP_PRIVATE : Z; MAP_FIXED : Z; MAP_ANONYMOUS : Z; MAP_NORESERVE : Z;
  MAP_STACK : Z; MAP_HUGETLB : Z; MAP_HUGE_1GB : Z
}.

Definition lor_all (l : list Z) : Z := fold_right Z.lor 0 l.

Section Flags.
Context `{MmapConsts, MappingFlags}.

Definition MmapProt_all : Z := lor_all [PROT_READ; PROT_WRITE; PROT_EXEC; PROT_GROWSDOWN; PROT_GROWSUP].
Definition HUGE_1GB : Z := Z.lor MAP_HUGETLB MAP_HUGE_1GB.
Definition MmapFlags_all : Z :=
  lor_all [MAP_SHARED; MAP_PRIVATE; MAP_FIXED; MAP_ANONYMOUS; MAP_NORESERVE; MAP_STACK;
           MAP_HUGETLB; HUGE_1GB].

(** [bitflags]' [from_bits_truncate] and [from_bits] for a set [all]. *)
Definition from_bits_truncate (all bits : Z) : Z := Z.land bits all.
Definition from_bits (all bits : Z) : option Z :=
  if Z.land bits all =? bits then Some bits else None.

Definition mapping_flags_from (value : Z) : Z :=
  let flags := MF_USER in
  let flags := if contains value PROT_READ then Z.lor flags MF_READ else flags in
  let flags := if contains value PROT_WRITE then Z.lor flags MF_WRITE else flags in
  if contains value PROT_EXEC then Z.lor flags MF_EXECUTE else flags.
End Flags.

(** ** The system calls *)

Section Mmap.
Context {T W AS : Type} `{FlattenObjects T nat} `{ErrorConv, MemoryAddr, MappingFlags}
  `{AddrSpace AS} `{MmapConsts}.
(** [axfs::fops::File]'s [get_attr().size()] and [read_at], which answers the
    count and the buffer it filled. *)
Context (file_size : nat -> W -> AxError + Z)
        (read_at : nat -> Z -> list Z -> W -> (AxError + Z) * list Z * W).
Abbreviation MapState := ((FdState T * W) * AS)%type.
Abbreviation MpM := (M MapState LinuxError).

Definition page_size_of (map_flags : Z) : PageSize :=
  if contains map_flags HUGE_1GB then Size1G
  else if contains map_flags MAP_HUGETLB then Size2M else Size4K.

Definition on_as {A} (m : M AS AxError A) : MpM A := on_snd (ax m).

(** Where the mapping goes: the requested place, made free, or a free area, tried
    from the hint and then from the bottom of the address space. *)
Definition choose_start (map_flags start aligned_length : Z) (ps : PageSize) : MpM Z :=
  if contains map_flags MAP_FIXED then
    if start =? 0 then fail EINVAL
    else on_as (as_unmap start aligned_length);; mret start
  else
    s ← get;
    let aspace := snd s in
    let limit := (as_base aspace, as_end aspace) in
    lift (ok_or (match find_free_area aspace start aligned_length limit ps with
                 | Some a => Some a
                 | None => find_free_area aspace (as_base aspace) aligned_length limit ps
                 end) ENOMEM).

(** The contents of the file, once the area is mapped. *)
Definition fill_from_file (o : nat) (start_addr length offset : Z) (ps : PageSize) : MpM unit :=
  s ← get;
  size ← lift (match file_size o (snd (fst s)) with inr n => Ok (as_usize n) | inl e => Err (ax_into e) end);
  if (offset <? 0) || (size <=? as_usize offset) then fail EINVAL
  else
    let length := Z.min length (size - offset) in
    buf ← on_fst (on_snd (fun w =>
      let '(r, buf, w') := read_at o offset (replicate (Z.to_nat length) 0) w in
      (match r with inr _ => Ok buf | inl e => Err (ax_into e) end, w')));
    on_as (as_write start_addr ps buf).

(** Run [m] and drop the reference to the file however it ends. *)
Definition with_file {A} (o : nat) (m : MpM A) : MpM A := fun s =>
  let '(r, ((f, w), a)) := m s in (r, ((arc_drop o f, w), a)).

Definition sys_mmap (addr length prot flags fd offset : Z) : MpM Z :=
  let permission_flags := from_bits_truncate MmapProt_all prot in
  let map_flags := from_bits_truncate MmapFlags_all flags in
  if contains map_flags (Z.lor MAP_PRIVATE MAP_SHARED) then fail EINVAL
  else
    let ps := page_size_of map_flags in
    let start := align_down addr (page_bytes ps) in
    let end_ := align_up (as_usize (addr + length)) (page_bytes ps) in
    let aligned_length := as_usize (end_ - start) in
    start_addr ← choose_start map_flags start aligned_length ps;
    let populate := if fd =? -1 then false else negb (contains map_flags MAP_ANONYMOUS) in
    on_as (as_map_alloc start_addr aligned_length (mapping_flags_from permission_flags) populate ps);;
    (if populate then
       file ← on_fst (on_fst (File_from_fd fd));
       with_file (fst file) (fill_from_file (fst file) start_addr length offset ps)
     else mret tt);;
    mret (as_isize start_addr).

Definition sys_munmap (addr length : Z) : MpM Z :=
  let length := align_up_4k length in
  on_as (as_unmap addr length);; mret 0.

Definition sys_mprotect (addr length prot : Z) : MpM Z :=
  match from_bits MmapProt_all prot with
  | None => fail EINVAL
  | Some permission_flags =>
      if contains permission_flags (Z.lor PROT_GROWSDOWN PROT_GROWSUP) then fail EINVAL
      else
        let length := align_up_4k length in
        on_as (as_protect addr length (mapping_flags_from permission_flags));; mret 0
  end.
End Mmap.

(** ** [sys_brk]

    The two heap fields of [ProcessData]; [USER_HEAP_SIZE] is [axconfig]'s. *)

Record Heap : Type := mkHeap { heap_bottom : Z; heap_top : Z }.

Definition set_heap_top (h : Heap) (top : Z) : Heap := mkHeap (heap_bottom h) top.

Definition sys_brk (USER_HEAP_SIZE addr : Z) (h : Heap) : Z * Heap :=
  if negb (addr =? 0) && (heap_bottom h <=? addr)
     && (addr <=? as_usize (heap_bottom h + USER_HEAP_SIZE))
  then (as_isize addr, set_heap_top h addr)
  else (as_isize (heap_top h), h).

(** ** Theorems *)

Section Correct.
Context {T W AS : Type} `{FlattenObjects T nat} `{ErrorConv} `{MemoryAddrOk} `{MappingFlags}
  `{AddrSpace AS} `{MmapConsts}.
Context (file_size : nat -> W -> AxError + Z)
        (read_at : nat -> Z -> list Z -> W -> (AxError + Z) * list Z * W).

(** The pages a request is rounded to. *)
Definition mmap_start (addr : Z) (ps : PageSize) : Z := align_down addr (page_bytes ps).
Definition mmap_length (addr length : Z) (ps : PageSize) : Z :=
  as_usize (align_up (as_usize (addr + length)) (page_bytes ps) - mmap_start addr ps).

Lemma mmap_rounding addr length ps :
  0 <= addr -> 0 < length -> addr + length + page_bytes ps <= 2 ^ 64 ->
  let start := mmap_start addr ps in
  let len := mmap_length addr length ps in
  start mod page_bytes ps = 0 /\ len mod page_bytes ps = 0 /\
  start <= addr < start + page_bytes ps /\
  addr + length <= start + len < addr + length + page_bytes ps.
Proof.
  intros Ha Hl Hb. unfold mmap_length, mmap_start, as_usize. simpl.
  assert (0 < page_bytes ps) as Hp by (destruct ps; simpl; lia).
  rewrite (wrap_small 64 (addr + length)) by lia.
  rewrite align_down_spec, align_up_spec by lia. set (p := page_bytes ps) in *.
  clearbody p.
  pose proof (Z.div_mod addr p ltac:(lia)) as E1. pose proof (Z.mod_pos_bound addr p Hp) as B1.
  pose proof (Z.div_mod (addr + length + p - 1) p ltac:(lia)) as E2.
  pose proof (Z.mod_pos_bound (addr + length + p - 1) p Hp) as B2.
  pose proof (Z.div_pos addr p Ha Hp) as Hx.
  set (x := addr / p) in *. set (y := (addr + length + p - 1) / p) in *.
  set (mx := addr mod p) in *. set (my := (addr + length + p - 1) mod p) in *.
  clearbody x y mx my. rewrite wrap_small by nia. rewrite <- Z.mul_sub_distr_l, !(Z.mul_comm p), !Z.mod_mul by lia.
  lia.
Qed.

(** What a successful [choose_start] did. *)
Lemma choose_start_ok map_flags start len ps (s s' : (FdState T * W) * AS) a :
  choose_start map_flags start len ps s = (Ok a, s') ->
  fst s' = fst s /\
  if contains map_flags MAP_FIXED
  then a = start /\ start <> 0 /\ as_unmap start len (snd s) = (Ok tt, snd s')
  else s' = s /\ exists hint, find_free_area (snd s) hint len (as_base (snd s), as_end (snd s)) ps = Some a.
Proof.
  destruct s as [w aspace]. unfold choose_start, on_as, ax. unfold_M.
  destruct (contains _ MAP_FIXED).
  - destruct (Z.eqb_spec start 0); [done|].
    destruct (as_unmap start len aspace) as [[[]|e|] a'] eqn:Eu; simpl; intros [= <- <-]. done.
  - simpl. destruct (find_free_area aspace start len _ ps) as [x|] eqn:E1; simpl.
    + intros [= <- <-]. eauto.
    + destruct (find_free_area aspace (as_base aspace) len _ ps) as [x|] eqn:E2; simpl; [|done].
      intros [= <- <-]. eauto.
Qed.

(** What a successful [mmap] has mapped: whole pages of the size the flags ask
    for, that cover the requested range and less than a page more on either side,
    with the requested permissions; at the requested place, made free first, with
    MAP_FIXED, and otherwise at an address the address space offered as free. *)
Theorem sys_mmap_maps addr length prot flags fd offset (s s' : (FdState T * W) * AS) r :
  let map_flags := from_bits_truncate MmapFlags_all flags in
  let ps := page_size_of map_flags in
  let start := mmap_start addr ps in
  let len := mmap_length addr length ps in
  0 <= addr -> 0 < length -> addr + length + page_bytes ps <= 2 ^ 64 ->
  sys_mmap file_size read_at addr length prot flags fd offset s = (Ok r, s') ->
  (start <= addr /\ addr + length <= start + len /\ len < length + 2 * page_bytes ps) /\
  exists place populate a1 a2, r = as_isize place /\
    as_map_alloc place len (mapping_flags_from (from_bits_truncate MmapProt_all prot)) populate ps a1
      = (Ok tt, a2) /\
    if contains map_flags MAP_FIXED
    then place = start /\ start <> 0 /\ as_unmap start len (snd s) = (Ok tt, a1)
    else a1 = snd s /\
         exists hint, find_free_area a1 hint len (as_base a1, as_end a1) ps = Some place.
Proof.
  intros map_flags ps start len Ha Hl Hb E.
  destruct (mmap_rounding addr length ps Ha Hl Hb) as (_ & _ & Hr1 & Hr2).
  split; [fold start len in Hr1, Hr2; lia|].
  unfold sys_mmap in E. fold map_flags ps in E. fold (mmap_start addr ps) in E.
  fold (mmap_length addr length ps) in E. fold start len in E.
  destruct (contains map_flags (Z.lor MAP_PRIVATE MAP_SHARED)); [done|]. unfold_M.
  destruct (choose_start map_flags start len ps s) as [[place|e|] s1] eqn:Ec; [|done..].
  destruct (choose_start_ok _ _ _ _ _ _ _ Ec) as [Hf Hc]. destruct s1 as [w1 a1].
  set (populate := if fd =? -1 then false else _) in E. unfold on_as, ax in E. unfold_M.
  destruct (as_map_alloc place len _ populate ps a1) as [[[]|e|] a2] eqn:Em; simpl in E; [|done..].
  exists place, populate, a1, a2. split_and!; [|done|].
  - destruct populate.
    + destruct (_ : outcome LinuxError unit * _) as [[u|e|] s2] in E; [|done..]. congruence.
    + by injection E.
  - destruct (contains map_flags MAP_FIXED); [done|]. destruct Hc as [<- Hc]. done.
Qed.

(** A file mapping of a descriptor that is not open fails with EBADF, but the
    pages it asked for have been mapped and stay mapped. *)
Theorem mmap_bad_fd_leaves_mapping addr length prot flags fd offset (f : FdState T) (w : W) (a a1 a2 : AS) place :
  let map_flags := from_bits_truncate MmapFlags_all flags in
  let ps := page_size_of map_flags in
  let len := mmap_length addr length ps in
  contains map_flags (Z.lor MAP_PRIVATE MAP_SHARED) = false ->
  contains map_flags MAP_ANONYMOUS = false -> fd <> -1 ->
  fo_get (fd_table f) (as_usize fd) = None ->
  choose_start map_flags (mmap_start addr ps) len ps ((f, w), a) = (Ok place, ((f, w), a1)) ->
  as_map_alloc place len (mapping_flags_from (from_bits_truncate MmapProt_all prot)) true ps a1
    = (Ok tt, a2) ->
  sys_mmap file_size read_at addr length prot flags fd offset ((f, w), a)
    = (Err EBADF, ((f, w), a2)).
Proof.
  intros map_flags ps len Hps Han Hfd Hno Hc Hm. unfold sys_mmap.
  fold map_flags ps. fold (mmap_start addr ps). fold (mmap_length addr length ps). fold len.
  rewrite Hps. unfold_M. rewrite Hc, Han. apply Z.eqb_neq in Hfd. rewrite Hfd. simpl.
  unfold on_as, ax. unfold_M. rewrite Hm. simpl.
  unfold File_from_fd, from_fd, get_file_like. unfold_M. by rewrite Hno.
Qed.
End Correct.

(** [brk] keeps the heap top between the bottom and the limit: an address in
    that range becomes the top and is returned, and any other, 0 included,
    returns the top as it is. *)
Theorem sys_brk_spec SIZE addr h :
  0 <= addr -> 0 <= heap_bottom h -> 0 <= SIZE -> heap_bottom h + SIZE < 2 ^ 63 ->
  heap_bottom h <= heap_top h <= heap_bottom h + SIZE ->
  let '(r, h') := sys_brk SIZE addr h in
  r = heap_top h' /\ heap_bottom h' = heap_bottom h /\
  heap_bottom h <= heap_top h' <= heap_bottom h + SIZE /\
  heap_top h' = (if bool_decide (addr <> 0 /\ heap_bottom h <= addr <= heap_bottom h + SIZE)
                 then addr else heap_top h).
Proof.
  intros Ha Hb Hs Hlim Ht. unfold sys_brk, as_usize. rewrite wrap_small by lia.
  unfold as_isize. destruct (Z.eqb_spec addr 0), (Z.leb_spec (heap_bottom h) addr),
    (Z.leb_spec addr (heap_bottom h + SIZE)); simpl;
    rewrite swrap_small by (simpl; lia); case_bool_decide; split_and!; auto; lia.
Qed.

Module MmapSample.
Import SimpleMem.
#[local] Existing Instances Ptr.Sample.sample_conv FdTable.Sample.gmap_objects.
#[local] Instance linux_mmap : MmapConsts := {|
  PROT_READ := 1; PROT_WRITE := 2; PROT_EXEC := 4; PROT_GROWSDOWN := 16777216;
  PROT_GROWSUP := 33554432; MAP_SHARED := 1; MAP_PRIVATE := 2; MAP_FIXED := 16;
  MAP_ANONYMOUS := 32; MAP_NORESERVE := 16384; MAP_STACK := 131072; MAP_HUGETLB := 262144;
  MAP_HUGE_1GB := 2013265920 |}.

Definition no_size (o : nat) (w : unit) : AxError + Z := inl AxNotFound.
Definition no_read (o : nat) (off : Z) (b : list Z) (w : unit) : (AxError + Z) * list Z * unit :=
  (inl AxNotFound, b, w).
Definition start : (FdState (gmap Z nat) * unit) * simple_aspace :=
  ((FdTable.Sample.booted, tt), mkSimple 0 0 0).
Definition mapped := snd (sys_mmap no_size no_read 8200 5000 3 50 (-1) 0 start).

(** A fixed anonymous private mapping of 5000 bytes from 8200 on. *)
Lemma sys_mmap_maps_witness :
  let map_flags := from_bits_truncate MmapFlags_all 50 in
  let ps := page_size_of map_flags in
  let start_ := mmap_start 8200 ps in
  let len := mmap_length 8200 5000 ps in
  (start_ <= 8200 /\ 8200 + 5000 <= start_ + len /\ len < 5000 + 2 * page_bytes ps) /\
  exists place populate a1 a2, 8192 = as_isize place /\
    as_map_alloc place len (mapping_flags_from (from_bits_truncate MmapProt_all 3)) populate ps a1
      = (Ok tt, a2) /\
    if contains map_flags MAP_FIXED
    then place = start_ /\ start_ <> 0 /\ as_unmap start_ len (snd start) = (Ok tt, a1)
    else a1 = snd start /\
         exists hint, find_free_area a1 hint len (as_base a1, as_end a1) ps = Some place.
Proof.
  apply (sys_mmap_maps no_size no_read 8200 5000 3 50 (-1) 0 start mapped 8192);
    [lia|lia|by vm_compute|by vm_compute].
Defined.

Lemma mmap_bad_fd_leaves_mapping_witness :
  sys_mmap no_size no_read 8200 5000 3 18 99 0 start
    = (Err EBADF, (fst start, mkSimple 8192 16384 11)).
Proof.
  apply (mmap_bad_fd_leaves_mapping no_size no_read 8200 5000 3 18 99 0 FdTable.Sample.booted tt
    (mkSimple 0 0 0) (mkSimple 0 0 0) (mkSimple 8192 16384 11) 8192); by vm_compute.
Defined.

Lemma sys_brk_spec_witness :
  let '(r, h') := sys_brk 65536 1050000 (mkHeap 1048576 1048576) in
  r = heap_top h' /\ heap_bottom h' = 1048576 /\
  1048576 <= heap_top h' <= 1048576 + 65536 /\
  heap_top h' = (if bool_decide (1050000 <> 0 /\ 1048576 <= 1050000 <= 1048576 + 65536)
                 then 1050000 else 1048576).
Proof. apply (sys_brk_spec 65536 1050000 (mkHeap 1048576 1048576)); simpl; lia. Defined.
End MmapSample.
