(* ===== verification/Process.v ===== *)
(** * Processes: the process data of [core/src/task.rs], and
    [api/src/imp/task/wait.rs] and [exit.rs]

    The process tree ([axprocess]) and the signal managers ([axsignal]) are
    interfaces; what the kernel keeps beside them for each process and thread is
    [ProcessData] and [ThreadData].  A resource that processes may share is an
    identity, and the kernel's state maps the identities to their contents. *)

From stdpp Require Import base list gmap option.
From Stdlib Require Import ZArith Lia.
From S2P Require Import Prelude Bytes AddrSpace Ptr.
From S2P Require Import FdTable Futex Mmap.
Import ListNotations.

(** ** [axprocess]

    Processes and threads by number; [p_thread_exit p t code] is [Thread::exit]
    of the thread [t] of [p], which tells whether it was the last. *)
Class AxProcess (PS : Type) : Type := {
  p_children : PS -> Z -> list Z;
  p_parent : PS -> Z -> option Z;
  p_pgid : PS -> Z -> Z;
  p_threads : PS -> Z -> list Z;
  p_is_zombie : PS -> Z -> bool;
  p_exit_code : PS -> Z -> Z;
  p_is_group_exited : PS -> Z -> bool;
  p_is_init : Z -> bool;
  p_free : Z -> PS -> PS;
  p_thread_exit : Z -> Z -> Z -> PS -> bool * PS;
  p_exit : Z -> PS -> PS;
  p_group_exit : Z -> PS -> PS;
  p_fork : Z -> Z -> PS -> PS;
  p_new_thread : Z -> Z -> PS -> PS
}.

(** What is documented of them: a thread's exit sets the exit code unless the
    group is already exiting, and removes the thread; a process's exit makes it
    a zombie (the init process never is one) that keeps its place in the tree,
    its children passing to init; freeing removes it from its parent's children. *)
Class AxProcessOk (PS : Type) `{AxProcess PS} : Prop := {
  thread_exit_threads s p t c : p_threads (snd (p_thread_exit p t c s)) p = filter (fun x => x <> t) (p_threads s p);
  thread_exit_last s p t c : fst (p_thread_exit p t c s) = true <-> filter (fun x => x <> t) (p_threads s p) = [];
  thread_exit_code s p t c :
    p_exit_code (snd (p_thread_exit p t c s)) p = if p_is_group_exited s p then p_exit_code s p else c;
  thread_exit_children s p t c q x :
    x ∈ p_children (snd (p_thread_exit p t c s)) q <-> x ∈ p_children s q;
  thread_exit_tree s p t c q : let s' := snd (p_thread_exit p t c s) in
    p_parent s' q = p_parent s q /\ p_pgid s' q = p_pgid s q /\
    p_is_zombie s' q = p_is_zombie s q /\ p_is_group_exited s' q = p_is_group_exited s q;
  exit_zombie s p q : p_is_zombie (p_exit p s) q = (bool_decide (p = q) && negb (p_is_init p)) || p_is_zombie s q;
  exit_keeps s p q : p_exit_code (p_exit p s) q = p_exit_code s q /\ p_pgid (p_exit p s) q = p_pgid s q /\
    p_is_group_exited (p_exit p s) q = p_is_group_exited s q /\ p_threads (p_exit p s) q = p_threads s q;
  exit_parent s p q : p_parent s q <> Some p -> p_parent (p_exit p s) q = p_parent s q;
  exit_children s p q c : q <> p -> c ∈ p_children s q -> c ∈ p_children (p_exit p s) q;
  group_exit_children s p q x : x ∈ p_children (p_group_exit p s) q <-> x ∈ p_children s q;
  group_exit_tree s p q : let s' := p_group_exit p s in
    p_parent s' q = p_parent s q /\ p_pgid s' q = p_pgid s q /\
    p_is_zombie s' q = p_is_zombie s q /\ p_exit_code s' q = p_exit_code s q /\ p_threads s' q = p_threads s q;
  group_exit_flag s p : p_is_group_exited (p_group_exit p s) p = true;
  free_children s p q : p_parent s p = Some q -> p ∉ p_children (p_free p s) q;
  free_keeps s p q : p_exit_code (p_free p s) q = p_exit_code s q
}.

(** ** [axsignal]

    [SG] is the state of all the signal managers, which are named by their
    process or thread; [SA] a table of signal actions, [SI] a [SignalInfo]. *)
Class AxSignal (SG SA SI : Type) : Type := {
  Signo_from_repr : Z -> option Z;
  SIGCHLD : Z;
  SIGKILL : Z;
  SA_default : SA;
  SignalInfo_new : Z -> Z -> SI;
  sg_send_process : Z -> SI -> SG -> SG;
  sg_send_thread : Z -> SI -> SG -> SG
}.

(** ** The data of a process and of a thread *)

Record ProcessData (WQ : Type) : Type := mkPD {
  exe_path : str;
  aspace : nat;
  ns_fd_table : nat;
  ns_cwd : nat;
  pd_heap : Heap;
  child_exit_wq : WQ;
  exit_signal : option Z;
  sig_actions : nat;
  futex_table : FutexState WQ
}.
Arguments mkPD {WQ} _ _ _ _ _ _ _ _ _.
Arguments exe_path {WQ} _.
Arguments aspace {WQ} _.
Arguments ns_fd_table {WQ} _.
Arguments ns_cwd {WQ} _.
Arguments pd_heap {WQ} _.
Arguments child_exit_wq {WQ} _.
Arguments exit_signal {WQ} _.
Arguments sig_actions {WQ} _.
Arguments futex_table {WQ} _.

Record ThreadData : Type := mkTD { clear_child_tid : Z }.

(** [ThreadData::new]. *)
Definition ThreadData_new : ThreadData := mkTD 0.
Definition set_clear_child_tid (a : Z) (d : ThreadData) : ThreadData := mkTD a.

Section Data.
Context {WQ : Type} `{WaitQueue WQ}.

(** [ProcessData::new]; the caller initialises the entries of the namespace. *)
Definition ProcessData_new (USER_HEAP_BASE : Z) (exe : str) (asp actions : nat)
  (exit_signal : option Z) (fds cwd : nat) : ProcessData WQ :=
  mkPD exe asp fds cwd (mkHeap USER_HEAP_BASE USER_HEAP_BASE) wq_new exit_signal actions futex_new.

Definition is_clone_child (SIGCHLD : Z) (d : ProcessData WQ) : bool :=
  negb (bool_decide (exit_signal d = Some SIGCHLD)).

Definition set_wq (q : WQ) (d : ProcessData WQ) : ProcessData WQ :=
  mkPD (exe_path d) (aspace d) (ns_fd_table d) (ns_cwd d) (pd_heap d) q (exit_signal d)
    (sig_actions d) (futex_table d).
Definition set_futex (f : FutexState WQ) (d : ProcessData WQ) : ProcessData WQ :=
  mkPD (exe_path d) (aspace d) (ns_fd_table d) (ns_cwd d) (pd_heap d) (child_exit_wq d)
    (exit_signal d) (sig_actions d) f.
End Data.

(** ** The state of the kernel *)

(** [k_files] holds every descriptor table by its identity, with the heap of
    files they share. *)
Record KState (PS T AS WQ SG SA CW : Type) : Type := mkK {
  k_ps : PS;
  k_pdata : gmap Z (ProcessData WQ);
  k_tdata : gmap Z ThreadData;
  k_spaces : gmap nat (UState AS);
  k_files : FdState (gmap nat T);
  k_cwds : gmap nat CW;
  k_actions : gmap nat SA;
  k_sig : SG
}.
Arguments mkK {PS T AS WQ SG SA CW} _ _ _ _ _ _ _ _.
Arguments k_ps {PS T AS WQ SG SA CW} _.
Arguments k_pdata {PS T AS WQ SG SA CW} _.
Arguments k_tdata {PS T AS WQ SG SA CW} _.
Arguments k_spaces {PS T AS WQ SG SA CW} _.
Arguments k_files {PS T AS WQ SG SA CW} _.
Arguments k_cwds {PS T AS WQ SG SA CW} _.
Arguments k_actions {PS T AS WQ SG SA CW} _.
Arguments k_sig {PS T AS WQ SG SA CW} _.

Section State.
Context {PS T AS WQ SG SA CW : Type}.
Abbreviation K := (KState PS T AS WQ SG SA CW).

Definition set_ps (x : PS) (k : K) : K :=
  mkK x (k_pdata k) (k_tdata k) (k_spaces k) (k_files k) (k_cwds k) (k_actions k) (k_sig k).
Definition set_pdata (x : gmap Z (ProcessData WQ)) (k : K) : K :=
  mkK (k_ps k) x (k_tdata k) (k_spaces k) (k_files k) (k_cwds k) (k_actions k) (k_sig k).
Definition set_tdata (x : gmap Z ThreadData) (k : K) : K :=
  mkK (k_ps k) (k_pdata k) x (k_spaces k) (k_files k) (k_cwds k) (k_actions k) (k_sig k).
Definition set_spaces (x : gmap nat (UState AS)) (k : K) : K :=
  mkK (k_ps k) (k_pdata k) (k_tdata k) x (k_files k) (k_cwds k) (k_actions k) (k_sig k).
Definition set_files (x : FdState (gmap nat T)) (k : K) : K :=
  mkK (k_ps k) (k_pdata k) (k_tdata k) (k_spaces k) x (k_cwds k) (k_actions k) (k_sig k).
Definition set_cwds (x : gmap nat CW) (k : K) : K :=
  mkK (k_ps k) (k_pdata k) (k_tdata k) (k_spaces k) (k_files k) x (k_actions k) (k_sig k).
Definition set_actions (x : gmap nat SA) (k : K) : K :=
  mkK (k_ps k) (k_pdata k) (k_tdata k) (k_spaces k) (k_files k) (k_cwds k) x (k_sig k).
Definition set_sig (x : SG) (k : K) : K :=
  mkK (k_ps k) (k_pdata k) (k_tdata k) (k_spaces k) (k_files k) (k_cwds k) (k_actions k) x.

(** [data().unwrap()]. *)
Definition process_data (p : Z) : M K LinuxError (ProcessData WQ) :=
  k ← get; lift (unwrap_opt (k_pdata k !! p)).
Definition thread_data (t : Z) : M K LinuxError ThreadData :=
  k ← get; lift (unwrap_opt (k_tdata k !! t)).

(** Run an operation on the user memory of [p]. *)
Definition on_space {A} (p : Z) (m : M (UState AS) LinuxError A) : M K LinuxError A :=
  d ← process_data p;
  k ← get;
  u ← lift (unwrap_opt (k_spaces k !! aspace d));
  let '(r, u') := m u in
  put (set_spaces (<[aspace d := u']> (k_spaces k)) k);; lift r.

(** Run an operation on the descriptor table of [p]'s namespace. *)
Definition view (t : T) (f : FdState (gmap nat T)) : FdState T :=
  mkFd t (heap f) (rings f) (nonblocking f).
Definition unview (i : nat) (f : FdState (gmap nat T)) (s : FdState T) : FdState (gmap nat T) :=
  mkFd (<[i := fd_table s]> (fd_table f)) (heap s) (rings s) (nonblocking s).
Definition on_fds {A} (p : Z) (m : M (FdState T) LinuxError A) : M K LinuxError A :=
  d ← process_data p;
  k ← get;
  t ← lift (unwrap_opt (fd_table (k_files k) !! ns_fd_table d));
  let '(r, s') := m (view t (k_files k)) in
  put (set_files (unview (ns_fd_table d) (k_files k) s') k);; lift r.

End State.

(** ** [sys_waitpid] *)

Class WaitConsts : Type := {
  WNOHANG : Z; WUNTRACED : Z; WEXITED : Z; WCONTINUED : Z; WNOWAIT : Z;
  WNOTHREAD_ : Z; WALL_ : Z; WCLONE_ : Z
}.

Definition WaitOptions_all `{WaitConsts} : Z :=
  lor_all [WNOHANG; WUNTRACED; WEXITED; WCONTINUED; WNOWAIT; WNOTHREAD_; WALL_; WCLONE_].

Inductive WaitPid : Type := Any | Pid (pid : Z) | Pgid (pgid : Z).

(** An [i32] in user memory. *)
#[local] Instance i32_pod : Pod Z :=
  {| pod_layout := mkLayout 4 4; pod_enc x := le_enc 4 (as_u32 x);
     pod_dec bs := as_i32 (le_dec bs) |}.

Section Wait.
Context {PS T AS WQ SG SA SI CW : Type} `{AxProcess PS} `{FlattenObjects T nat} `{WaitQueue WQ}
  `{AxSignal SG SA SI} `{ErrorConv, MemoryAddr, MappingFlags} `{AddrSpace AS} `{WaitConsts}.
Abbreviation K := (KState PS T AS WQ SG SA CW).

Definition wait_apply (w : WaitPid) (s : PS) (child : Z) : bool :=
  match w with
  | Any => true
  | Pid pid => child =? pid
  | Pgid pgid => p_pgid s child =? pgid
  end.

Definition wait_target (s : PS) (process pid : Z) : WaitPid :=
  if pid =? -1 then Any
  else if pid =? 0 then Pgid (p_pgid s process)
  else if 0 <? pid then Pid (as_u32 pid)
  else Pgid (as_u32 (as_i32 (- pid))).

(** The second filter; [None] is the panic of [child.data().unwrap()]. *)
Definition kind_ok (k : K) (options child : Z) : option bool :=
  if contains options WALL_ then Some true
  else
    d ← k_pdata k !! child;
    Some (Bool.eqb (contains options WCLONE_) (is_clone_child SIGCHLD d)).

Fixpoint filter_children (k : K) (w : WaitPid) (options : Z) (l : list Z) : option (list Z) :=
  match l with
  | [] => Some []
  | c :: l' =>
      if wait_apply w (k_ps k) c then
        b ← kind_ok k options c;
        r ← filter_children k w options l';
        Some (if (b : bool) then c :: r else r)
      else filter_children k w options l'
  end.

(** The first child that is a zombie is freed, its exit code stored, and its
    number returned. *)
Definition report_child (process options : Z) (exit_code : option Z) (child : Z) : M K LinuxError Z :=
  (if contains options WNOWAIT then mret tt else modify (fun k => set_ps (p_free child (k_ps k)) k));;
  k ← get;
  (match exit_code with
   | Some a => on_space process (assign a (p_exit_code (k_ps k) child))
   | None => mret tt
   end);;
  mret (as_isize child).

(** The current task joins the queue of its process's [child_exit_wq]. *)
Definition join_exit_wq (t process : Z) (k : K) : K :=
  set_pdata (alter (fun d => set_wq (wq_wait t (child_exit_wq d)) d) process (k_pdata k)) k.

(** The loop.  While the caller sleeps, others run: [env i] is what they have
    done when it wakes from its [i]-th sleep.  [None] when it still sleeps after
    [fuel] rounds. *)
Abbreviation wait_env := (nat -> K -> K).
Definition first_zombie (k : K) (children : list Z) : option Z :=
  snd <$> list_find (fun c => p_is_zombie (k_ps k) c = true) children.

Fixpoint wait_loop (fuel i : nat) (env : wait_env) (t process options : Z) (children : list Z)
  (exit_code : option Z) (k : K) : option (LinuxResult Z * K) :=
  match fuel with
  | O => None
  | S fuel' =>
      match first_zombie k children with
      | Some child => Some (report_child process options exit_code child k)
      | None =>
          if contains options WNOHANG then Some (Ok 0, k)
          else wait_loop fuel' (S i) env t process options children exit_code
                 (env i (join_exit_wq t process k))
      end
  end.

(** What comes before the loop: the children waited for and the checked pointer. *)
Definition wait_setup (process pid exit_code_ptr options : Z) : M K LinuxError (list Z * option Z) :=
  process_data process;;
  k ← get;
  children ← lift (unwrap_opt (filter_children k (wait_target (k_ps k) process pid) options
                                 (p_children (k_ps k) process)));
  match children with
  | [] => fail ECHILD
  | _ :: _ =>
      exit_code ← on_space process (on_aspace (nullable exit_code_ptr (get_as_mut Z exit_code_ptr)));
      mret (children, exit_code)
  end.

Definition sys_waitpid (fuel : nat) (env : wait_env) (t process pid exit_code_ptr options : Z) (k : K)
  : option (LinuxResult Z * K) :=
  let options := from_bits_truncate WaitOptions_all options in
  match wait_setup process pid exit_code_ptr options k with
  | (Ok (children, exit_code), k) => wait_loop fuel 0 env t process options children exit_code k
  | (Err e, k) => Some (Err e, k)
  | (Panic, k) => Some (Panic, k)
  end.
End Wait.

(** ** [api/src/signal.rs]: sending a signal *)

Section Send.
Context {PS T AS WQ SG SA SI CW : Type} `{AxProcess PS} `{AxSignal SG SA SI}.
Abbreviation K := (KState PS T AS WQ SG SA CW).

Definition send_signal_thread (t : Z) (sig : SI) : M K LinuxError unit := fun k =>
  match k_tdata k !! t with
  | None => (Err EPERM, k)
  | Some _ => (Ok tt, set_sig (sg_send_thread t sig (k_sig k)) k)
  end.

Definition send_signal_process (p : Z) (sig : SI) : M K LinuxError unit := fun k =>
  match k_pdata k !! p with
  | None => (Err EPERM, k)
  | Some _ => (Ok tt, set_sig (sg_send_process p sig (k_sig k)) k)
  end.

(** [let _ = ..]: the result is ignored. *)
Definition ignore {A} (m : M K LinuxError A) : M K LinuxError unit := fun k =>
  match m k with (Panic, k') => (Panic, k') | (_, k') => (Ok tt, k') end.

Fixpoint send_all (sig : SI) (threads : list Z) : M K LinuxError unit :=
  match threads with
  | [] => mret tt
  | t :: ts => ignore (send_signal_thread t sig);; send_all sig ts
  end.
End Send.

(** ** [do_exit] *)

Section Exit.
Context {PS T AS WQ SG SA SI CW : Type} `{AxProcess PS} `{FlattenObjects T nat} `{WaitQueue WQ}
  `{AxSignal SG SA SI} `{ErrorConv, MemoryAddr, MappingFlags} `{AddrSpace AS}.
Context (SI_KERNEL : Z).
(** A [Pid], a [u32], in user memory. *)
#[local] Instance pid_pod : Pod Z := int_pod 4.
Abbreviation K := (KState PS T AS WQ SG SA CW).
Abbreviation KM := (M K LinuxError).

(** The futex at the cleared address, in the table of [p]: at most one waiter is
    woken, and the guard is dropped. *)
Definition notify_futex (p addr : Z) : KM unit :=
  d ← process_data p;
  let '(guard, f) := futex_get addr (futex_table d) in
  let f := match guard with
           | Some g => guard_drop g (on_queue (inner g) (fun q => snd (wq_notify_one q)) f)
           | None => f
           end in
  modify (fun k => set_pdata (<[p := set_futex f d]> (k_pdata k)) k).

(** Clear the word at [a] if it can be written, and wake a waiter; [yield] is what
    the other tasks do while this one yields. *)
Definition clear_tid_at (yield : K -> K) (p a : Z) : KM unit := fun k =>
  match on_space p (on_aspace (get_as_mut Z a)) k with
  | (Ok _, k) => (on_space p (assign a 0);; notify_futex p a;; modify yield) k
  | (Err _, k) => (Ok tt, k)
  | (Panic, k) => (Panic, k)
  end.

Definition exit_clear_tid (yield : K -> K) (p t : Z) : KM unit :=
  td ← thread_data t; clear_tid_at yield p (clear_child_tid td).

(** The parent is sent the exit signal, and the tasks in its [child_exit_wq] are
    woken. *)
Definition tell_parent (p : Z) : KM unit :=
  k ← get;
  match p_parent (k_ps k) p with
  | None => mret tt
  | Some parent =>
      (match k_pdata k !! p ≫= exit_signal with
       | Some signo => ignore (send_signal_process parent (SignalInfo_new signo SI_KERNEL))
       | None => mret tt
       end);;
      modify (fun k => set_pdata (alter (fun d => set_wq (wq_notify_all (child_exit_wq d)) d) parent
                                    (k_pdata k)) k)
  end.

(** The last thread takes the process with it. *)
Definition exit_process (p : Z) : KM unit :=
  modify (fun k => set_ps (p_exit p (k_ps k)) k);;
  tell_parent p;;
  modify (fun k => set_ps (p_exit p (k_ps k)) k);;
  on_fds p (modify clear).

Definition exit_thread (p t exit_code : Z) (group_exit : bool) : KM unit :=
  k ← get;
  let '(last, s) := p_thread_exit p t exit_code (k_ps k) in
  put (set_ps s k);;
  (if (last : bool) then exit_process p else mret tt);;
  k ← get;
  if group_exit && negb (p_is_group_exited (k_ps k) p) then
    put (set_ps (p_group_exit p (k_ps k)) k);;
    send_all (SignalInfo_new SIGKILL SI_KERNEL) (p_threads (p_group_exit p (k_ps k)) p)
  else mret tt.

Definition do_exit (yield : K -> K) (p t exit_code : Z) (group_exit : bool) : KM unit :=
  exit_clear_tid yield p t;; exit_thread p t exit_code group_exit.

(** [exit_code << 8] on [i32]. *)
Definition sys_exit (yield : K -> K) (p t exit_code : Z) : KM unit :=
  do_exit yield p t (as_i32 (Z.shiftl exit_code 8)) false.
Definition sys_exit_group (yield : K -> K) (p t exit_code : Z) : KM unit :=
  do_exit yield p t (as_i32 (Z.shiftl exit_code 8)) true.
End Exit.

(** ** Theorems *)

Section ExitTheorems.
Context {PS T AS WQ SG SA SI CW : Type} `{AxProcessOk PS} `{FlattenObjectsOk T nat} `{WaitQueueOk WQ}
  `{AxSignal SG SA SI} `{ErrorConv, MemoryAddr, MappingFlags} `{AddrSpace AS} `{WaitConsts}.
Context (SI_KERNEL : Z).
Abbreviation K := (KState PS T AS WQ SG SA CW).

Definition notify_parent (s : PS) (p : Z) (pd : gmap Z (ProcessData WQ)) : gmap Z (ProcessData WQ) :=
  match p_parent s p with
  | None => pd
  | Some parent => alter (fun d => set_wq (wq_notify_all (child_exit_wq d)) d) parent pd
  end.

Definition signal_parent (s : PS) (p : Z) (pd : gmap Z (ProcessData WQ)) (sg : SG) : SG :=
  match p_parent s p, pd !! p ≫= exit_signal with
  | Some parent, Some signo =>
      if pd !! parent then sg_send_process parent (SignalInfo_new signo SI_KERNEL) sg else sg
  | _, _ => sg
  end.

Lemma notify_parent_lookup s p pd q :
  exists d', notify_parent s p pd !! q = d' /\ (aspace <$> d' = aspace <$> pd !! q) /\
    (ns_fd_table <$> d' = ns_fd_table <$> pd !! q) /\ (exit_signal <$> d' = exit_signal <$> pd !! q).
Proof.
  eexists. split; [done|]. unfold notify_parent. destruct (p_parent s p) as [r|]; [|done].
  destruct (decide (r = q)) as [->|]; [|by rewrite lookup_alter_ne].
  rewrite lookup_alter_eq. by destruct (pd !! q).
Qed.

Lemma tell_parent_effect p (k : K) :
  tell_parent SI_KERNEL p k =
    (Ok tt, set_sig (signal_parent (k_ps k) p (k_pdata k) (k_sig k))
              (set_pdata (notify_parent (k_ps k) p (k_pdata k)) k)).
Proof.
  unfold tell_parent, notify_parent, signal_parent. unfold_M.
  destruct (p_parent (k_ps k) p) as [q|]; [|by destruct k].
  destruct (option_bind _ _ _ _) as [sg|]; simpl; [|by destruct k].
  unfold ignore, send_signal_process. destruct (k_pdata k !! q); by destruct k.
Qed.

(** The state after the last thread of [p] has gone, component by component. *)
Definition after_last (p t code : Z) (ge : bool) (d : ProcessData WQ) (tbl : T) (k : K) : K :=
  let s1 := snd (p_thread_exit p t code (k_ps k)) in
  let s2 := p_exit p s1 in
  let s3 := p_exit p s2 in
  mkK (if ge && negb (p_is_group_exited s3 p) then p_group_exit p s3 else s3)
    (notify_parent s2 p (k_pdata k)) (k_tdata k) (k_spaces k)
    (unview (ns_fd_table d) (k_files k) (clear (view tbl (k_files k))))
    (k_cwds k) (k_actions k) (signal_parent s2 p (k_pdata k) (k_sig k)).

Lemma exit_thread_last p t code ge d tbl (k : K) :
  k_pdata k !! p = Some d -> fd_table (k_files k) !! ns_fd_table d = Some tbl ->
  p_threads (k_ps k) p = [t] ->
  exit_thread SI_KERNEL p t code ge k = (Ok tt, after_last p t code ge d tbl k).
Proof.
  intros Hd Ht Hth. unfold exit_thread, after_last. unfold_M.
  pose proof (thread_exit_threads (k_ps k) p t code) as Hs.
  pose proof (thread_exit_last (k_ps k) p t code) as Hl.
  destruct (p_thread_exit p t code (k_ps k)) as [last s1]; simpl in *.
  rewrite Hth, filter_cons_False, filter_nil in Hs, Hl by (intros []; done).
  destruct Hl as [_ Hl]. rewrite Hl by done.
  unfold exit_process. unfold_M. rewrite tell_parent_effect. simpl.
  unfold on_fds, process_data. unfold_M. simpl.
  destruct (notify_parent_lookup (p_exit p s1) p (k_pdata k) p) as (d' & -> & _ & Hf & _).
  rewrite Hd in Hf. destruct d' as [d'|]; simpl in Hf; [|discriminate].
  apply (inj Some) in Hf. simpl. rewrite Hf, Ht. simpl.
  destruct (ge && _) eqn:Eg; [|done].
  destruct (group_exit_tree (p_exit p (p_exit p s1)) p p) as (_ & _ & _ & _ & ->).
  destruct (exit_keeps (p_exit p s1) p p) as (_ & _ & _ & ->).
  destruct (exit_keeps s1 p p) as (_ & _ & _ & ->). by rewrite Hs.
Qed.

(** *** The tree after the exit *)

Lemma after_last_tree p t code ge d tbl (k : K) :
  p_is_init p = false -> let s := k_ps k in let s' := k_ps (after_last p t code ge d tbl k) in
  p_is_zombie s' p = true /\
  p_exit_code s' p = (if p_is_group_exited s p then p_exit_code s p else code) /\
  (forall q, p_parent s q <> Some p -> p_parent s' q = p_parent s q) /\
  (forall q c, q <> p -> c ∈ p_children s q -> c ∈ p_children s' q).
Proof.
  intros Hi s s'. subst s s'. unfold after_last. cbn [k_ps].
  set (s1 := snd (p_thread_exit p t code (k_ps k))).
  set (s3 := p_exit p (p_exit p s1)).
  assert (forall q, p_is_zombie (if ge && negb (p_is_group_exited s3 p) then p_group_exit p s3 else s3) q = p_is_zombie s3 q /\
    p_exit_code (if ge && negb (p_is_group_exited s3 p) then p_group_exit p s3 else s3) q = p_exit_code s3 q /\
    p_parent (if ge && negb (p_is_group_exited s3 p) then p_group_exit p s3 else s3) q = p_parent s3 q /\
    forall x, x ∈ p_children (if ge && negb (p_is_group_exited s3 p) then p_group_exit p s3 else s3) q <->
      x ∈ p_children s3 q) as Hg.
  { intros q. destruct (ge && _); [|done].
    destruct (group_exit_tree s3 p q) as (-> & _ & -> & -> & _). split_and!; try done.
    intros x. apply group_exit_children. }
  destruct (Hg p) as (-> & -> & _). subst s3.
  rewrite !exit_zombie, bool_decide_true, Hi by done.
  destruct (exit_keeps (p_exit p s1) p p) as (-> & _).
  destruct (exit_keeps s1 p p) as (-> & _). split_and!; [done|apply thread_exit_code|..]; intros q.
  - intros Hq. destruct (Hg q) as (_ & _ & -> & _).
    destruct (thread_exit_tree (k_ps k) p t code q) as (E & _).
    rewrite !exit_parent; rewrite ?exit_parent; subst s1; rewrite ?E; done.
  - intros c Hq Hc. destruct (Hg q) as (_ & _ & _ & Hx). apply Hx.
    do 2 (apply exit_children; [done|]). by apply thread_exit_children.
Qed.

(** *** The wait *)

(** A child that the call is about. *)
Definition waited_for (k : K) (w : WaitPid) (o c : Z) : Prop :=
  wait_apply w (k_ps k) c = true /\ kind_ok k o c = Some true.

Lemma filter_children_elem (k : K) w o l : forall r,
  filter_children k w o l = Some r -> forall c, c ∈ r <-> c ∈ l /\ waited_for k w o c.
Proof.
  unfold waited_for. induction l as [|x l IH]; intros r Hr c.
  { injection Hr as <-. set_solver. }
  cbn [filter_children] in Hr. rewrite elem_of_cons. destruct (wait_apply w (k_ps k) x) eqn:Ex.
  - destruct (kind_ok k o x) as [b|] eqn:Eb; [|discriminate].
    destruct (filter_children k w o l) as [r'|] eqn:Er; [|discriminate].
    apply (inj Some) in Hr as <-. specialize (IH _ eq_refl c).
    destruct b; rewrite ?elem_of_cons, IH.
    + split; [intros [->|(? & ? & ?)]; auto|]. intros ([->|?] & ? & ?); auto.
    + split; [intros (? & ? & ?); auto|]. intros ([->|?] & ? & ?); [congruence|done].
  - rewrite (IH _ Hr). split; [intros (? & ? & ?); auto|].
    intros ([->|?] & ? & ?); [congruence|done].
Qed.

Lemma filter_children_total (k : K) w o l :
  (forall c, c ∈ l -> wait_apply w (k_ps k) c = true -> is_Some (kind_ok k o c)) ->
  exists r, filter_children k w o l = Some r.
Proof.
  induction l as [|x l IH]; intros Hk; [by exists []|]. cbn [filter_children].
  destruct IH as [r Er]. { intros c Hc. apply Hk. by apply elem_of_cons; right. }
  destruct (wait_apply w (k_ps k) x) eqn:Ex; [|by exists r].
  destruct (Hk x) as [b Eb]; [by apply elem_of_cons; left|done|]. rewrite Eb, Er. by eexists.
Qed.

Lemma first_zombie_some (k : K) cs c :
  c ∈ cs -> p_is_zombie (k_ps k) c = true ->
  exists z, first_zombie k cs = Some z /\ z ∈ cs /\ p_is_zombie (k_ps k) z = true.
Proof.
  intros Hc Hz. unfold first_zombie.
  destruct (list_find_elem_of (fun c => p_is_zombie (k_ps k) c = true) cs c Hc Hz) as [[i z] E].
  rewrite E. simpl. apply list_find_Some in E as (Hl & ? & _). exists z.
  split_and!; auto. by eapply list_elem_of_lookup_2.
Qed.

Lemma first_zombie_none (k : K) cs :
  first_zombie k cs = None <-> forall c, c ∈ cs -> p_is_zombie (k_ps k) c = false.
Proof.
  unfold first_zombie. rewrite fmap_None, list_find_None, Forall_forall.
  setoid_rewrite <- list_elem_of_In.
  split; intros Hx c Hc; specialize (Hx c Hc); destruct (p_is_zombie _ c); naive_solver.
Qed.

(** The states in which the sleeping caller looks again. *)
Fixpoint after_sleeps (env : nat -> K -> K) (t p : Z) (i n : nat) (k : K) : K :=
  match n with O => k | S n' => after_sleeps env t p (S i) n' (env i (join_exit_wq t p k)) end.

Lemma wait_loop_step fuel i env t p o cs code (k : K) :
  wait_loop (S fuel) i env t p o cs code k =
    match first_zombie k cs with
    | Some child => Some (report_child p o code child k)
    | None => if contains o WNOHANG then Some (Ok 0, k)
              else wait_loop fuel (S i) env t p o cs code (env i (join_exit_wq t p k))
    end.
Proof. reflexivity. Qed.

Lemma wait_loop_wakes env t p o cs code n : forall i (k : K) z,
  contains o WNOHANG = false ->
  (forall j, (j < n)%nat -> first_zombie (after_sleeps env t p i j k) cs = None) ->
  first_zombie (after_sleeps env t p i n k) cs = Some z ->
  wait_loop (S n) i env t p o cs code k = Some (report_child p o code z (after_sleeps env t p i n k)).
Proof.
  induction n as [|n IH]; intros i k z Hh Hno Hz; rewrite wait_loop_step.
  - simpl in *. by rewrite Hz.
  - pose proof (Hno 0%nat ltac:(lia)) as H0'. simpl in H0'. rewrite H0', Hh.
    apply IH; auto. intros j Hj. apply (Hno (S j)). lia.
Qed.

(** What a successful report does to the kernel. *)
Lemma report_child_effect p o code z dp u (k : K) :
  k_pdata k !! p = Some dp -> k_spaces k !! aspace dp = Some u ->
  exists k', report_child p o code z k = (Ok (as_isize z), k') /\
    k_ps k' = (if contains o WNOWAIT then k_ps k else p_free z (k_ps k)) /\
    k_pdata k' = k_pdata k /\ k_files k' = k_files k /\
    k_spaces k' !! aspace dp = Some (match code with
      | Some a => mkUState (us_aspace u) (store (us_mem u) a (p_exit_code (k_ps k) z))
      | None => u end).
Proof.
  intros Hp Hu. unfold report_child. unfold_M.
  destruct (contains o WNOWAIT); simpl; (destruct code as [a|]; [|by eexists]);
    unfold on_space, process_data; unfold_M; simpl; rewrite Hp; simpl; rewrite Hu; simpl;
    eexists; (split_and!; [reflexivity..|]); simpl; rewrite lookup_insert_eq;
    rewrite ?free_keeps; reflexivity.
Qed.

Lemma on_space_aspace {A} p (m : M AS LinuxError A) dp u (k : K) :
  k_pdata k !! p = Some dp -> k_spaces k !! aspace dp = Some u ->
  on_space p (on_aspace m) k =
    (fst (m (us_aspace u)), set_spaces (<[aspace dp := mkUState (snd (m (us_aspace u))) (us_mem u)]> (k_spaces k)) k).
Proof.
  intros Hp Hu. unfold on_space, process_data. unfold_M. rewrite Hp. simpl. rewrite Hu.
  unfold on_aspace. simpl. by destruct (m (us_aspace u)).
Qed.

Lemma on_space_inv {A} p (m : M (UState AS) LinuxError A) (k k' : K) r :
  on_space p m k = (r, k') -> r <> Panic ->
  k_ps k' = k_ps k /\ k_pdata k' = k_pdata k /\ k_files k' = k_files k.
Proof.
  unfold on_space, process_data. unfold_M. intros Hm Hr.
  destruct (k_pdata k !! p) as [d|]; simpl in Hm; [|by injection Hm as <- <-].
  destruct (k_spaces k !! aspace d) as [u|]; simpl in Hm; [|by injection Hm as <- <-].
  destruct (m u) as [r' u']. by injection Hm as <- <-.
Qed.

Lemma on_space_sig {A} p (m : M (UState AS) LinuxError A) (k k' : K) r :
  on_space p m k = (r, k') -> k_sig k' = k_sig k.
Proof.
  unfold on_space, process_data. unfold_M. intros Hm.
  destruct (k_pdata k !! p) as [d|]; simpl in Hm; [|by injection Hm as <- <-].
  destruct (k_spaces k !! aspace d) as [u|]; simpl in Hm; [|by injection Hm as <- <-].
  destruct (m u) as [r' u']. by injection Hm as <- <-.
Qed.

Lemma wait_setup_ok p pid ptr o cs code (k k1 : K) :
  wait_setup p pid ptr o k = (Ok (cs, code), k1) ->
  cs <> [] /\ (code = None <-> ptr = 0) /\
  (forall c, c ∈ cs <-> c ∈ p_children (k_ps k) p /\ waited_for k (wait_target (k_ps k) p pid) o c) /\
  k_ps k1 = k_ps k /\ k_pdata k1 = k_pdata k /\ k_files k1 = k_files k.
Proof.
  unfold wait_setup, process_data. unfold_M. intros Hs.
  destruct (k_pdata k !! p) as [dp|] eqn:Ep; simpl in Hs; [|discriminate].
  destruct (filter_children _ _ _ _) as [[|c0 r]|] eqn:Ef; simpl in Hs; [discriminate| |discriminate].
  pose proof (filter_children_elem _ _ _ _ _ Ef) as Hf.
  destruct (on_space _ _ k) as [[code'| |] k'] eqn:Eo; simplify_eq.
  destruct (on_space_inv _ _ _ _ _ Eo) as (? & ? & ?); [done|]. split_and!; auto.
  revert Eo. unfold on_space, process_data. unfold_M. rewrite Ep. simpl.
  destruct (k_spaces k !! aspace dp) as [u|]; [simpl|discriminate].
  unfold on_aspace, nullable, is_null. unfold_M.
  destruct (Z.eqb_spec ptr 0) as [->|Hn]; simpl; [by intros [= <- _]|].
  destruct (get_as_mut Z ptr (us_aspace u)) as [[a| |] ?]; simpl; intros [= <- _].
  split; [discriminate|done].
Qed.


(** The status word of [sys_exit]: no signal, and the low byte of the code. *)
Definition WIFEXITED (status : Z) : Prop := Z.land status 127 = 0.
Definition WEXITSTATUS (status : Z) : Z := Z.land (Z.shiftr status 8) 255.

Lemma exit_status_word n :
  let status := as_i32 (Z.shiftl n 8) in WIFEXITED status /\ WEXITSTATUS status = n mod 256.
Proof.
  unfold WIFEXITED, WEXITSTATUS, as_i32, swrap. simpl.
  rewrite Z.shiftl_mul_pow2, Z.shiftr_div_pow2 by lia.
  rewrite (Z.land_ones _ 7), (Z.land_ones _ 8) by lia. simpl. split; zdiv.
Qed.

Lemma store_load_i32 m a x : is_i32 x -> load (store m a x) a = x.
Proof.
  intros Hx. unfold load, store. change (Z.to_nat _) with (length (pod_enc x)).
  rewrite mem_read_write. cbn [pod_enc pod_dec i32_pod].
  rewrite le_dec_enc by (unfold as_u32, wrap; lia).
  unfold is_i32, as_i32, as_u32, swrap, wrap in *. zdiv.
Qed.

(** The child [c] of [p] is about to lose its last thread [t]. *)
Record exiting_child (k : K) (p c t : Z) (d : ProcessData WQ) (tbl : T) : Prop := {
  ec_data : k_pdata k !! c = Some d;
  ec_table : fd_table (k_files k) !! ns_fd_table d = Some tbl;
  ec_threads : p_threads (k_ps k) c = [t];
  ec_running : p_is_group_exited (k_ps k) c = false;
  ec_not_init : p_is_init c = false;
  ec_parent : p_parent (k_ps k) c = Some p;
  ec_child : c ∈ p_children (k_ps k) p;
  ec_other : p <> c
}.

Lemma wait_for_zombie env t p c ptr options d dp u code a1 (k : K) :
  let o := from_bits_truncate WaitOptions_all options in
  0 < c < 2 ^ 31 ->
  k_pdata k !! c = Some d -> k_pdata k !! p = Some dp -> k_spaces k !! aspace dp = Some u ->
  c ∈ p_children (k_ps k) p -> p_is_zombie (k_ps k) c = true ->
  (contains o WALL_ = true \/ contains o WCLONE_ = is_clone_child SIGCHLD d) ->
  nullable ptr (get_as_mut Z ptr) (us_aspace u) = (Ok code, a1) ->
  exists k', sys_waitpid 1 env t p c ptr options k = Some (Ok c, k') /\
    k_ps k' = (if contains o WNOWAIT then k_ps k else p_free c (k_ps k)) /\
    k_spaces k' !! aspace dp = Some (mkUState a1 (match code with
      | Some a => store (us_mem u) a (p_exit_code (k_ps k) c) | None => us_mem u end)).
Proof.
  intros o Hc Hd Hp Hu Hch Hz Ho Hptr.
  assert (Hw : wait_target (k_ps k) p c = Pid c).
  { unfold wait_target, as_u32. rewrite wrap_small by lia. split_tests; try lia. done. }
  assert (Hk : kind_ok k o c = Some true).
  { unfold kind_ok. destruct (contains o WALL_); [done|]. destruct Ho as [?|Ho]; [done|].
    rewrite Hd, Ho. simpl. by destruct (is_clone_child _ _). }
  destruct (filter_children_total k (Pid c) o (p_children (k_ps k) p)) as [cs Ecs].
  { intros x _ Hx%Z.eqb_eq. subst x. rewrite Hk. eauto. }
  pose proof (filter_children_elem _ _ _ _ _ Ecs) as Hcs.
  assert (c ∈ cs) as Hin. { apply Hcs. repeat split; auto. apply Z.eqb_refl. }
  set (k1 := set_spaces (<[aspace dp := mkUState a1 (us_mem u)]> (k_spaces k)) k).
  assert (Hs : wait_setup p c ptr o k = (Ok (cs, code), k1)).
  { unfold wait_setup, process_data. unfold_M. rewrite Hp, Hw. simpl. rewrite Ecs. simpl.
    destruct cs; [set_solver|]. rewrite (on_space_aspace _ _ dp u) by done. by rewrite Hptr. }
  destruct (first_zombie_some k1 cs c Hin Hz) as (z & Ez & Hzc & _).
  apply Hcs in Hzc as (_ & Hzc%Z.eqb_eq & _). subst z.
  destruct (report_child_effect p o code c dp (mkUState a1 (us_mem u)) k1 Hp) as (k' & Er & Hps & _ & _ & Hsp).
  { apply lookup_insert_eq. }
  exists k'. unfold sys_waitpid. fold o. rewrite Hs, wait_loop_step, Ez, Er.
  split_and!; [|exact Hps|].
  - do 2 f_equal. apply f_equal, swrap_small; lia.
  - rewrite Hsp. by destruct code.
Qed.

Lemma exit_thread_reports t p c code ge d tbl dp u (k : K) :
  exiting_child k p c t d tbl ->
  k_pdata k !! p = Some dp -> k_spaces k !! aspace dp = Some u ->
  exists k1 d1 dp1, exit_thread SI_KERNEL c t code ge k = (Ok tt, k1) /\
    k_pdata k1 !! c = Some d1 /\ exit_signal d1 = exit_signal d /\
    k_pdata k1 !! p = Some dp1 /\ aspace dp1 = aspace dp /\ wq_waiters (child_exit_wq dp1) = [] /\
    k_spaces k1 = k_spaces k /\
    c ∈ p_children (k_ps k1) p /\ p_parent (k_ps k1) c = Some p /\
    p_is_zombie (k_ps k1) c = true /\ p_exit_code (k_ps k1) c = code.
Proof.
  intros [Hd Ht Hth Hg Hi Hpar Hc Hne] Hp Hu.
  exists (after_last c t code ge d tbl k).
  destruct (after_last_tree c t code ge d tbl k Hi) as (Hz & Hcode & Hpa & Hch).
  set (s2 := p_exit c (snd (p_thread_exit c t code (k_ps k)))).
  assert (p_parent s2 c = Some p) as Hs2.
  { unfold s2. destruct (thread_exit_tree (k_ps k) c t code c) as (E & _).
    rewrite exit_parent; rewrite E; [done|]. congruence. }
  assert (k_pdata (after_last c t code ge d tbl k) = notify_parent s2 c (k_pdata k)) as Hpd by done.
  destruct (notify_parent_lookup s2 c (k_pdata k) c) as (d1 & Ed1 & _ & _ & Hex).
  rewrite Hd in Hex. destruct d1 as [d1|]; [|discriminate]. apply (inj Some) in Hex.
  exists d1, (set_wq (wq_notify_all (child_exit_wq dp)) dp).
  split_and!; auto.
  - by apply exit_thread_last.
  - rewrite Hpd. unfold notify_parent. rewrite Hs2, lookup_alter_eq, Hp. done.
  - apply waiters_notify_all.
  - rewrite Hpa; [done|]. rewrite Hpar. congruence.
  - by rewrite Hcode, Hg.
Qed.

(** C12: a process that exits is seen by its parent.  When the last thread of [c]
    exits with the code [n], every task of the parent that sleeps in a wait is
    woken, and a [waitpid] for [c] returns at its next look, takes the zombie out
    of the parent's children, and leaves in the parent's memory a status whose
    macros give a normal exit with the low byte of [n]. *)
Theorem exit_then_wait env t t' p c n d tbl dp u ptr options a a1 (k : K) :
  let o := from_bits_truncate WaitOptions_all options in
  0 < c < 2 ^ 31 -> exiting_child k p c t d tbl ->
  k_pdata k !! p = Some dp -> k_spaces k !! aspace dp = Some u ->
  (contains o WALL_ = true \/ contains o WCLONE_ = is_clone_child SIGCHLD d) ->
  contains o WNOWAIT = false ->
  nullable ptr (get_as_mut Z ptr) (us_aspace u) = (Ok (Some a), a1) ->
  exists k1 k2 u2 dp1, exit_thread SI_KERNEL c t (as_i32 (Z.shiftl n 8)) false k = (Ok tt, k1) /\
    k_pdata k1 !! p = Some dp1 /\ wq_waiters (child_exit_wq dp1) = [] /\
    sys_waitpid 1 env t' p c ptr options k1 = Some (Ok c, k2) /\
    c ∉ p_children (k_ps k2) p /\ k_spaces k2 !! aspace dp = Some u2 /\
    WIFEXITED (load (us_mem u2) a) /\ WEXITSTATUS (load (us_mem u2) a) = n mod 256.
Proof.
  intros o Hc Hec Hp Hu Ho Hw Hptr.
  destruct (exit_thread_reports t p c (as_i32 (Z.shiftl n 8)) false d tbl dp u k Hec Hp Hu)
    as (k1 & d1 & dp1 & Ex & Hd1 & Hsig & Hdp1 & Has & Hq & Hsp & Hch & Hpar & Hz & Hcode).
  destruct (wait_for_zombie env t' p c ptr options d1 dp1 u (Some a) a1 k1) as (k2 & Ew & Hps & Hsp2);
    auto.
  { by rewrite Hsp, Has. }
  { unfold is_clone_child. by rewrite Hsig. }
  exists k1, k2. eexists _, dp1. rewrite Has in Hsp2. fold o in Hps. rewrite Hw in Hps.
  split_and!; [done..| |exact Hsp2| |].
  - rewrite Hps. by apply free_children.
  - cbn [us_mem]. rewrite Hcode, store_load_i32; [apply exit_status_word|].
    apply (swrap_bound 32); lia.
  - cbn [us_mem]. rewrite Hcode, store_load_i32; [apply exit_status_word|].
    apply (swrap_bound 32); lia.
Qed.

(** The code of [exit_group] is the one reported: once the group is exiting,
    a thread that ends afterwards (killed, with the code of the signal) does not
    change it. *)
Theorem group_exit_code_stays p t code ge d tbl (k : K) :
  k_pdata k !! p = Some d -> fd_table (k_files k) !! ns_fd_table d = Some tbl ->
  p_threads (k_ps k) p = [t] -> p_is_init p = false -> p_is_group_exited (k_ps k) p = true ->
  exists k1, exit_thread SI_KERNEL p t code ge k = (Ok tt, k1) /\
    p_is_zombie (k_ps k1) p = true /\ p_exit_code (k_ps k1) p = p_exit_code (k_ps k) p.
Proof.
  intros Hd Ht Hth Hi Hg. eexists. split; [by apply exit_thread_last|].
  destruct (after_last_tree p t code ge d tbl k Hi) as (Hz & Hcode & _). by rewrite Hcode, Hg.
Qed.

(** The last thread's exit closes every descriptor of the table its process
    uses, also for the processes that share the table: no process whose namespace
    names the same table has a descriptor left. *)
Theorem exit_clears_shared_table p q t code ge d dq tbl ext (k : K) :
  k_pdata k !! p = Some d -> fd_table (k_files k) !! ns_fd_table d = Some tbl ->
  p_threads (k_ps k) p = [t] -> fd_inv (view tbl (k_files k)) ext ->
  k_pdata k !! q = Some dq -> ns_fd_table dq = ns_fd_table d ->
  exists k1 dq1 tbl1, exit_thread SI_KERNEL p t code ge k = (Ok tt, k1) /\
    k_pdata k1 !! q = Some dq1 /\ fd_table (k_files k1) !! ns_fd_table dq1 = Some tbl1 /\
    forall fd, fo_get tbl1 fd = None.
Proof.
  intros Hd Ht Hth Hi Hq Hsh. exists (after_last p t code ge d tbl k).
  set (s2 := p_exit p (snd (p_thread_exit p t code (k_ps k)))).
  assert (k_pdata (after_last p t code ge d tbl k) = notify_parent s2 p (k_pdata k)) as Hpd by done.
  destruct (notify_parent_lookup s2 p (k_pdata k) q) as (dq1 & E & _ & Hf & _).
  rewrite Hq in Hf. destruct dq1 as [dq1|]; [|discriminate]. apply (inj Some) in Hf.
  exists dq1, (fd_table (clear (view tbl (k_files k)))). split_and!; [by apply exit_thread_last|done|..].
  - simpl. rewrite Hf, Hsh. apply lookup_insert_eq.
  - by apply (clear_empties _ ext).
Qed.

(** *** Joining a thread *)

Lemma notify_one_is_wake (f : FutexState WQ) gs addr :
  futex_reachable (f, gs) ->
  (let '(guard, f1) := futex_get addr f in
   match guard with
   | Some g => guard_drop g (on_queue (inner g) (fun q => snd (wq_notify_one q)) f1)
   | None => f1
   end) = snd (futex_wake addr 1 f).
Proof.
  intros Hi%futex_reachable_inv. unfold futex_wake, futex_get. simpl in Hi.
  destruct (ftable f !! addr) as [id|] eqn:Ea; [|done]. cbn [inner].
  destruct (finv_cell _ _ Hi addr id Ea) as (c & Hc & _).
  unfold notify_queue, on_queue, q_clone. cbn [queues ftable].
  rewrite lookup_alter_eq, Hc. simpl. destruct (wq_notify_one (q_wq c)) as [[] q] eqn:Eq; simpl;
    f_equal; f_equal; apply map_eq; intros j; (destruct (decide (j = id)) as [->|];
    [rewrite !lookup_alter_eq, lookup_insert_eq, Hc; simpl; by rewrite Eq
    |by rewrite !lookup_alter_ne, lookup_insert_ne, lookup_alter_ne]).
Qed.

#[local] Existing Instance pid_pod.

Lemma load_store_zero m a : load (store m a 0) a = 0.
Proof. unfold load, store. apply (f_equal le_dec (mem_read_write m a (le_enc 4 0))). Qed.

(** C29: a thread that ends releases whoever joins it: the word at its
    [clear_child_tid] reads zero and the task that has waited there longest is
    woken, before the other tasks run again; waiters elsewhere are not touched. *)
Theorem exit_releases_joiner yield p t td d u s1 gs (k : K) :
  let a := clear_child_tid td in
  k_tdata k !! t = Some td -> k_pdata k !! p = Some d -> k_spaces k !! aspace d = Some u ->
  get_as_mut Z a (us_aspace u) = (Ok a, s1) -> futex_reachable (futex_table d, gs) ->
  exists k1 u1 d1, exit_clear_tid yield p t k = (Ok tt, yield k1) /\
    k_spaces k1 !! aspace d = Some u1 /\ load (us_mem u1) a = 0 /\
    k_pdata k1 !! p = Some d1 /\
    waiting_at (futex_table d1) a = tail (waiting_at (futex_table d) a) /\
    (forall b, b <> a -> waiting_at (futex_table d1) b = waiting_at (futex_table d) b).
Proof.
  intros a Htd Hd Hu Hptr Hf.
  pose proof (notify_one_is_wake _ _ a Hf) as Hw.
  pose proof (futex_wake_waiting _ a 1 Hf) as Hwake. simpl in Hwake.
  unfold exit_clear_tid, thread_data. unfold_M. rewrite Htd. simpl. fold a. unfold clear_tid_at.
  rewrite (on_space_aspace _ _ d u) by done. rewrite Hptr. simpl.
  unfold on_space, process_data. unfold_M. simpl. rewrite Hd. simpl. rewrite lookup_insert_eq. simpl.
  unfold notify_futex, process_data. unfold_M. simpl. rewrite Hd. simpl.
  destruct (futex_get a (futex_table d)) as [g f1].
  destruct (futex_wake a 1 (futex_table d)) as [n f'] eqn:Ew. simpl in Hw. rewrite Hw.
  destruct Hwake as (_ & H1' & H2').
  eexists _, (mkUState s1 (store (us_mem u) a 0)), (set_futex f' d). split_and!.
  - reflexivity.
  - cbn. by rewrite lookup_insert_eq.
  - cbn [us_mem]. apply load_store_zero.
  - cbn. by rewrite lookup_insert_eq.
  - cbn [futex_table set_futex]. rewrite H1'. by destruct (waiting_at _ a).
  - apply H2'.
Qed.
End ExitTheorems.

(** ** A concrete process tree *)

Module ProcessSample.
Import SimpleMem FutexSample FdTable.Sample.
#[local] Existing Instance Ptr.Sample.sample_conv.

Record proc : Type := mkProc {
  pr_parent : option Z; pr_pgid : Z; pr_threads : list Z; pr_zombie : bool; pr_code : Z; pr_gexit : bool
}.
Definition no_proc : proc := mkProc None 0 [] false 0 false.
Abbreviation tree := (gmap Z proc).
Definition look (s : tree) (p : Z) : proc := default no_proc (s !! p).
Definition upd (p : Z) (f : proc -> proc) (s : tree) : tree := <[p := f (look s p)]> s.
Definition reparent (p : Z) (x : proc) : proc :=
  if bool_decide (pr_parent x = Some p)
  then mkProc (Some 1) (pr_pgid x) (pr_threads x) (pr_zombie x) (pr_code x) (pr_gexit x) else x.
Definition kids (s : tree) (q : Z) : list Z :=
  filter (fun c => pr_parent (look s c) = Some q) (fst <$> map_to_list s).

#[export] Instance tree_process : AxProcess tree := {
  p_children := kids;
  p_parent s p := pr_parent (look s p);
  p_pgid s p := pr_pgid (look s p);
  p_threads s p := pr_threads (look s p);
  p_is_zombie s p := pr_zombie (look s p);
  p_exit_code s p := pr_code (look s p);
  p_is_group_exited s p := pr_gexit (look s p);
  p_is_init p := p =? 1;
  p_free p := upd p (fun x => mkProc None (pr_pgid x) (pr_threads x) (pr_zombie x) (pr_code x) (pr_gexit x));
  p_thread_exit p t c s :=
    let ts := filter (fun x => x <> t) (pr_threads (look s p)) in
    (bool_decide (ts = []),
     upd p (fun x => mkProc (pr_parent x) (pr_pgid x) ts (pr_zombie x)
                       (if pr_gexit x then pr_code x else c) (pr_gexit x)) s);
  p_exit p s :=
    if p =? 1 then s
    else upd p (fun x => mkProc (pr_parent x) (pr_pgid x) (pr_threads x) true (pr_code x) (pr_gexit x))
           (reparent p <$> s);
  p_group_exit p := upd p (fun x => mkProc (pr_parent x) (pr_pgid x) (pr_threads x) (pr_zombie x) (pr_code x) true);
  p_fork q p s := <[p := mkProc (Some q) (pr_pgid (look s q)) [] false 0 false]> s;
  p_new_thread p t := upd p (fun x => mkProc (pr_parent x) (pr_pgid x) (pr_threads x ++ [t]) (pr_zombie x)
                                       (pr_code x) (pr_gexit x))
}.

Lemma look_upd p f s q : look (upd p f s) q = if decide (p = q) then f (look s q) else look s q.
Proof.
  unfold upd. unfold look at 1. case_decide as E; [subst; by rewrite lookup_insert_eq|].
  by rewrite lookup_insert_ne.
Qed.
Lemma look_reparent p s q : look (reparent p <$> s) q = reparent p (look s q).
Proof. unfold look. rewrite lookup_fmap. by destruct (s !! q). Qed.
Lemma elem_kids s q c : c ∈ kids s q <-> pr_parent (look s c) = Some q.
Proof.
  unfold kids. rewrite list_elem_of_filter. split; [by intros [? _]|]. intros E. split; [done|].
  unfold look in E. destruct (s !! c) as [x|] eqn:Ec; [|discriminate].
  apply list_elem_of_fmap. exists (c, x). split; [done|]. by apply elem_of_map_to_list.
Qed.

#[export] Instance tree_process_ok : AxProcessOk tree.
Proof.
  split; intros; cbn [p_children p_parent p_pgid p_threads p_is_zombie p_exit_code p_is_group_exited
    p_is_init p_free p_thread_exit p_exit p_group_exit tree_process fst snd] in *;
  try subst s';
  try (destruct (Z.eqb_spec p 1) as [->|]);
  rewrite ?elem_kids, ?look_upd in *; rewrite ?look_reparent in *; unfold reparent in *;
  try (by rewrite bool_decide_eq_true);
  repeat case_decide; repeat case_bool_decide; subst; simplify_eq/=; rewrite ?look_upd;
    try case_decide; auto; try done; try (split_and!; done); try congruence.
Qed.

#[export] Instance log_signal : AxSignal (list (Z * (Z * Z))) Z (Z * Z) := {
  Signo_from_repr n := if (1 <=? n) && (n <=? 64) then Some n else None;
  SIGCHLD := 17;
  SIGKILL := 9;
  SA_default := 0;
  SignalInfo_new signo code := (signo, code);
  sg_send_process p sig l := l ++ [(p, sig)];
  sg_send_thread t sig l := l ++ [(t, sig)]
}.
#[export] Instance linux_wait : WaitConsts := {|
  WNOHANG := 1; WUNTRACED := 2; WEXITED := 4; WCONTINUED := 8; WNOWAIT := 16777216;
  WNOTHREAD_ := 536870912; WALL_ := 1073741824; WCLONE_ := 2147483648
|}.

(** Process 2, and its child 3 with one thread, which shares its descriptors. *)
Abbreviation kernel := (KState tree (gmap Z nat) simple_aspace (list Z) (list (Z * (Z * Z))) Z str).
Definition data (sp : nat) (wq : list Z) : ProcessData (list Z) :=
  mkPD [] sp 0 0 (mkHeap 0 0) wq (Some 17) 0 (fst w2).
Definition parent_space : UState simple_aspace := mkUState (mkSimple 4096 8192 3) ∅.
Definition two_procs (gexit : bool) : kernel :=
  mkK (<[2 := mkProc (Some 1) 2 [2] false 0 false]> {[3 := mkProc (Some 2) 2 [3] false 5 gexit]})
    (<[2 := data 0 [2]]> {[3 := data 1 []]})
    (<[2 := mkTD 0]> {[3 := mkTD 4096]})
    (<[0%nat := parent_space]> {[1%nat := parent_space]})
    (mkFd {[0%nat := fd_table booted]} (heap booted)
       (rings booted) (nonblocking booted))
    {[0%nat := []]} {[0%nat := 0]} [].

(** The child exits while its parent sleeps in its first wait. *)
Definition sleep_env (i : nat) (k : kernel) : kernel := snd (exit_thread 128 3 3 1792 false k).


Lemma two_procs_child : exiting_child (two_procs false) 2 3 3 (data 1 []) (fd_table booted).
Proof. split; try (by vm_compute). by apply elem_kids. Qed.

Lemma exit_then_wait_witness :
  exists k1 k2 u2 dp1, exit_thread 128 3 3 (as_i32 (Z.shiftl 7 8)) false (two_procs false) = (Ok tt, k1) /\
    k_pdata k1 !! 2 = Some dp1 /\ wq_waiters (child_exit_wq dp1) = [] /\
    sys_waitpid 1 (fun _ k => k) 2 2 3 4096 0 k1 = Some (Ok 3, k2) /\
    3 ∉ p_children (k_ps k2) 2 /\ k_spaces k2 !! 0%nat = Some u2 /\
    WIFEXITED (load (us_mem u2) 4096) /\ WEXITSTATUS (load (us_mem u2) 4096) = 7.
Proof.
  apply (exit_then_wait 128 (fun _ k => k) 3 2 2 3 7 (data 1 []) (fd_table booted)
    (data 0 [2]) parent_space 4096 0 4096 (mkSimple 4096 8192 3) (two_procs false));
    [lia|apply two_procs_child|by vm_compute..| |by vm_compute|by vm_compute].
  right. by vm_compute.
Defined.

Lemma group_exit_code_stays_witness :
  exists k1, exit_thread 128 3 3 137 true (two_procs true) = (Ok tt, k1) /\
    p_is_zombie (k_ps k1) 3 = true /\ p_exit_code (k_ps k1) 3 = p_exit_code (k_ps (two_procs true)) 3.
Proof.
  apply (group_exit_code_stays 128 3 3 137 true (data 1 []) (fd_table booted) (two_procs true));
    by vm_compute.
Defined.

Lemma exit_clears_shared_table_witness :
  exists k1 dq1 tbl1, exit_thread 128 3 3 0 false (two_procs false) = (Ok tt, k1) /\
    k_pdata k1 !! 2 = Some dq1 /\ fd_table (k_files k1) !! ns_fd_table dq1 = Some tbl1 /\
    forall fd, fo_get tbl1 fd = None.
Proof.
  apply (exit_clears_shared_table 128 3 2 3 0 false (data 1 []) (data 0 [2]) (fd_table booted)
    no_ext (two_procs false));
    [reflexivity| | | |reflexivity|reflexivity]; [apply lookup_singleton_eq|reflexivity|].
  exact (fd_reachable_invariant booted booted_reachable).
Defined.

Lemma exit_releases_joiner_witness :
  exists k1 u1 d1, exit_clear_tid (fun k => k) 3 3 (two_procs false) = (Ok tt, k1) /\
    k_spaces k1 !! 1%nat = Some u1 /\ load (H := pid_pod) (us_mem u1) 4096 = 0 /\
    k_pdata k1 !! 3 = Some d1 /\
    waiting_at (futex_table d1) 4096 = tail (waiting_at (fst w2) 4096) /\
    (forall b, b <> 4096 -> waiting_at (futex_table d1) b = waiting_at (fst w2) b).
Proof.
  apply (exit_releases_joiner (fun k => k) 3 3 (mkTD 4096) (data 1 []) parent_space (mkSimple 4096 8192 3)
    (snd w2) (two_procs false)); [reflexivity..|by vm_compute|].
  cbn [futex_table data]. rewrite <- surjective_pairing. apply w2_reachable.
Defined.
End ProcessSample.
