(* ===== verification/Clone.v ===== *)
(** * Creating processes and threads: [api/src/imp/task/clone.rs], with
    [new_user_task] and the task tables of [core/src/task.rs], and
    [copy_from_kernel] of [core/src/mm.rs]

    [sys_clone] decides which of the caller's resources the new process shares
    and which it copies; a shared resource is the same identity in both data. *)

From stdpp Require Import base list gmap option.
From Stdlib Require Import ZArith Lia.
From S2P Require Import Prelude Bytes AddrSpace Ptr.
From S2P Require Import FdTable Futex Mmap Process.
Import ListNotations.

(** ** Interfaces *)

(** [axhal]'s user contexts. *)
Class UserContext (TF UC : Type) : Type := {
  uctx_from : TF -> UC;
  uctx_set_sp : Z -> UC -> UC;
  uctx_set_tls : Z -> UC -> UC;
  uctx_set_retval : Z -> UC -> UC
}.

(** [AddrSpace::try_clone], which copies the contents, and
    [copy_mappings_from(kernel_aspace())]; [separate_kernel_table] holds on the
    architectures that need no copy of the kernel's mappings. *)
Class AddrSpaceClone (AS : Type) : Type := {
  us_try_clone : M (UState AS) AxError (UState AS);
  copy_mappings_from_kernel : M AS AxError unit;
  separate_kernel_table : bool
}.
Class AddrSpaceCloneOk (AS : Type) `{AddrSpaceClone AS} : Prop := {
  try_clone_mem u u' v : us_try_clone u = (Ok v, u') -> us_mem v = us_mem u /\ us_mem u' = us_mem u
}.

(** [weak_map::WeakMap]: [alive] tells which referents still exist. *)
Class WeakMap (W : Type) : Type := {
  wm_insert : Z -> Z -> W -> W;
  wm_get : (Z -> bool) -> W -> Z -> option Z;
  wm_values : (Z -> bool) -> W -> list Z
}.
Definition wm_contains_key {W} `{WeakMap W} (alive : Z -> bool) (w : W) (k : Z) : bool :=
  bool_decide (is_Some (wm_get alive w k)).
(** An insertion is seen while its referent lives, and a lookup finds exactly
    the live referents. *)
Class WeakMapOk (W : Type) `{WeakMap W} : Prop := {
  wm_get_insert alive k v w : wm_get alive (wm_insert k v w) k = if alive v then Some v else None;
  wm_get_insert_ne alive k v w j : j <> k -> wm_get alive (wm_insert k v w) j = wm_get alive w j;
  wm_get_alive alive w k v : wm_get alive w k = Some v -> alive v = true;
  wm_get_less alive alive' w k v : (forall x, alive' x = true -> alive x = true) ->
    wm_get alive w k = Some v -> alive' v = true -> wm_get alive' w k = Some v;
  wm_get_more alive alive' w k v : (forall x, alive' x = true -> alive x = true) ->
    wm_get alive' w k = Some v -> wm_get alive w k = Some v
}.

(** [linux_raw_sys]'s flags. *)
Class CloneConsts : Type := {
  CLONE_VM : Z; CLONE_FS : Z; CLONE_FILES : Z; CLONE_SIGHAND : Z; CLONE_PTRACE : Z; CLONE_VFORK : Z;
  CLONE_PARENT : Z; CLONE_THREAD : Z; CLONE_NEWNS : Z; CLONE_SYSVSEM : Z; CLONE_SETTLS : Z;
  CLONE_PARENT_SETTID : Z; CLONE_CHILD_CLEARTID : Z; CLONE_UNTRACED : Z; CLONE_CHILD_SETTID : Z;
  CLONE_NEWCGROUP : Z; CLONE_NEWUTS : Z; CLONE_NEWIPC : Z; CLONE_NEWUSER : Z; CLONE_NEWPID : Z;
  CLONE_NEWNET : Z; CLONE_IO : Z
}.

Definition CloneFlags_all `{CloneConsts} : Z :=
  lor_all [CLONE_VM; CLONE_FS; CLONE_FILES; CLONE_SIGHAND; CLONE_PTRACE; CLONE_VFORK; CLONE_PARENT;
    CLONE_THREAD; CLONE_NEWNS; CLONE_SYSVSEM; CLONE_SETTLS; CLONE_PARENT_SETTID; CLONE_CHILD_CLEARTID;
    CLONE_UNTRACED; CLONE_CHILD_SETTID; CLONE_NEWCGROUP; CLONE_NEWUTS; CLONE_NEWIPC; CLONE_NEWUSER;
    CLONE_NEWPID; CLONE_NEWNET; CLONE_IO].

(** ** The task tables *)

Record Tables (W : Type) : Type := mkTables {
  thread_table : W; process_table : W; process_group_table : W; session_table : W
}.
Arguments mkTables {W} _ _ _ _.
Arguments thread_table {W} _.
Arguments process_table {W} _.
Arguments process_group_table {W} _.
Arguments session_table {W} _.

(** The referents that exist, of each kind. *)
Record Alive : Type := mkAlive {
  al_thread : Z -> bool; al_process : Z -> bool; al_group : Z -> bool; al_session : Z -> bool
}.

Section TaskTables.
Context {W : Type} `{WeakMap W}.

(** [add_thread_to_table] for the thread [t] of the process [p], whose group is
    [g] and whose session [s]. *)
Definition add_thread_to_table (al : Alive) (t p g s : Z) (tb : Tables W) : Tables W :=
  let threads := wm_insert t t (thread_table tb) in
  if wm_contains_key (al_process al) (process_table tb) p then
    mkTables threads (process_table tb) (process_group_table tb) (session_table tb)
  else
    let processes := wm_insert p p (process_table tb) in
    if wm_contains_key (al_group al) (process_group_table tb) g then
      mkTables threads processes (process_group_table tb) (session_table tb)
    else
      let groups := wm_insert g g (process_group_table tb) in
      if wm_contains_key (al_session al) (session_table tb) s then
        mkTables threads processes groups (session_table tb)
      else mkTables threads processes groups (wm_insert s s (session_table tb)).

Definition processes (al : Alive) (tb : Tables W) : list Z := wm_values (al_process al) (process_table tb).
Definition get_thread (al : Alive) (tb : Tables W) (tid : Z) : LinuxResult Z :=
  ok_or (wm_get (al_thread al) (thread_table tb) tid) ESRCH.
Definition get_process (al : Alive) (tb : Tables W) (pid : Z) : LinuxResult Z :=
  ok_or (wm_get (al_process al) (process_table tb) pid) ESRCH.
Definition get_process_group (al : Alive) (tb : Tables W) (pgid : Z) : LinuxResult Z :=
  ok_or (wm_get (al_group al) (process_group_table tb) pgid) ESRCH.
Definition get_session (al : Alive) (tb : Tables W) (sid : Z) : LinuxResult Z :=
  ok_or (wm_get (al_session al) (session_table tb) sid) ESRCH.
End TaskTables.

(** *** The tables are complete *)

Section TablesOk.
Context {W : Type} `{WeakMapOk W}.
(** The process of a thread, the group of a process and the session of a group;
    this kernel never moves a process to another group. *)
Context (process_of group_of session_of : Z -> Z).

(** A thread keeps its process alive, a process its group, a group its session. *)
Definition owned (al : Alive) : Prop :=
  (forall t, al_thread al t = true -> al_process al (process_of t) = true) /\
  (forall p, al_process al p = true -> al_group al (group_of p) = true) /\
  (forall g, al_group al g = true -> al_session al (session_of g) = true).

Definition fewer (al' al : Alive) : Prop :=
  (forall x, al_thread al' x = true -> al_thread al x = true) /\
  (forall x, al_process al' x = true -> al_process al x = true) /\
  (forall x, al_group al' x = true -> al_group al x = true) /\
  (forall x, al_session al' x = true -> al_session al x = true).

(** What is new is in no table yet, so the tables show the same. *)
Definition same_view (al al' : Alive) (tb : Tables W) : Prop := forall x,
  wm_get (al_thread al') (thread_table tb) x = wm_get (al_thread al) (thread_table tb) x /\
  wm_get (al_process al') (process_table tb) x = wm_get (al_process al) (process_table tb) x /\
  wm_get (al_group al') (process_group_table tb) x = wm_get (al_group al) (process_group_table tb) x /\
  wm_get (al_session al') (session_table tb) x = wm_get (al_session al) (session_table tb) x.

Inductive table_step : Alive * Tables W -> Alive * Tables W -> Prop :=
| step_dies al al' tb : owned al' -> fewer al' al -> table_step (al, tb) (al', tb)
| step_thread al al' tb t : owned al' -> fewer al al' -> same_view al al' tb -> al_thread al' t = true ->
    table_step (al, tb)
      (al', add_thread_to_table al' t (process_of t) (group_of (process_of t))
              (session_of (group_of (process_of t))) tb).

Definition shows (alive : Z -> bool) (w : W) (x : Z) : Prop := wm_get alive w x = Some x.

(** Whatever is found in a table is what was asked for, and the process, group
    and session it belongs to are found as well. *)
Record tables_ok (al : Alive) (tb : Tables W) : Prop := {
  tok_owned : owned al;
  tok_thread t v : wm_get (al_thread al) (thread_table tb) t = Some v ->
    v = t /\ shows (al_process al) (process_table tb) (process_of t);
  tok_process p v : wm_get (al_process al) (process_table tb) p = Some v ->
    v = p /\ shows (al_group al) (process_group_table tb) (group_of p);
  tok_group g v : wm_get (al_group al) (process_group_table tb) g = Some v ->
    v = g /\ shows (al_session al) (session_table tb) (session_of g);
  tok_session s v : wm_get (al_session al) (session_table tb) s = Some v -> v = s
}.

Lemma shows_less alive alive' w x :
  (forall y, alive' y = true -> alive y = true) -> shows alive w x -> alive' x = true -> shows alive' w x.
Proof. intros Hl Hs Ha. by apply (wm_get_less alive). Qed.

Lemma tables_ok_dies al al' tb : owned al' -> fewer al' al -> tables_ok al tb -> tables_ok al' tb.
Proof.
  intros Ho (F1 & F2 & F3 & F4) [_ H1 H2 H3 H4]. pose proof Ho as (O1 & O2 & O3). split; [done|..].
  - intros t v E. destruct (H1 t v) as [-> Hs]; [by apply (wm_get_more _ (al_thread al'))|].
    split; [done|]. apply (shows_less _ _ _ _ F2 Hs), O1, (wm_get_alive _ _ _ _ E).
  - intros p v E. destruct (H2 p v) as [-> Hs]; [by apply (wm_get_more _ (al_process al'))|].
    split; [done|]. apply (shows_less _ _ _ _ F3 Hs), O2, (wm_get_alive _ _ _ _ E).
  - intros g v E. destruct (H3 g v) as [-> Hs]; [by apply (wm_get_more _ (al_group al'))|].
    split; [done|]. apply (shows_less _ _ _ _ F4 Hs), O3, (wm_get_alive _ _ _ _ E).
  - intros s v E. apply H4. by apply (wm_get_more _ (al_session al')).
Qed.

Lemma tables_ok_view al al' tb : owned al' -> same_view al al' tb -> tables_ok al tb -> tables_ok al' tb.
Proof.
  intros Ho Hv [_ H1 H2 H3 H4]. unfold shows in *. split; unfold shows; [done|..]; intros x v E;
    destruct (Hv x) as (V1 & V2 & V3 & V4).
  - rewrite V1 in E. destruct (Hv (process_of x)) as (_ & -> & _). eauto.
  - rewrite V2 in E. destruct (Hv (group_of x)) as (_ & _ & -> & _). eauto.
  - rewrite V3 in E. destruct (Hv (session_of x)) as (_ & _ & _ & ->). eauto.
  - rewrite V4 in E. eauto.
Qed.

(** Inserting an entry [x] whose owner is shown keeps a table complete. *)
Lemma insert_get alive (w : W) x y v :
  wm_get alive (wm_insert x x w) y = Some v -> (y = x /\ v = x) \/ (y <> x /\ wm_get alive w y = Some v).
Proof.
  destruct (decide (y = x)) as [->|Hn].
  - rewrite wm_get_insert. destruct (alive x); [|discriminate]. intros [= <-]. auto.
  - rewrite wm_get_insert_ne by done. auto.
Qed.

Lemma insert_shows alive (w : W) x y :
  alive x = true -> y = x \/ shows alive w y -> shows alive (wm_insert x x w) y.
Proof.
  intros Ha Hy. unfold shows in *. destruct (decide (y = x)) as [->|Hn].
  - by rewrite wm_get_insert, Ha.
  - rewrite wm_get_insert_ne by done. naive_solver.
Qed.

Lemma contains_shows alive (w : W) x :
  (forall v, wm_get alive w x = Some v -> v = x) ->
  wm_contains_key alive w x = true -> shows alive w x.
Proof. intros Hv [v E]%bool_decide_eq_true. unfold shows. rewrite E. f_equal. auto. Qed.

Lemma tables_ok_add al tb t :
  al_thread al t = true -> tables_ok al tb ->
  let p := process_of t in let g := group_of p in let s := session_of g in
  tables_ok al (add_thread_to_table al t p g s tb) /\
  shows (al_thread al) (thread_table (add_thread_to_table al t p g s tb)) t.
Proof.
  intros Ht [Ho H1 H2 H3 H4] p g s. pose proof Ho as (O1 & O2 & O3).
  assert (al_process al p = true) as Ap by by apply O1. assert (al_group al g = true) as Ag by by apply O2.
  assert (al_session al s = true) as As by by apply O3.
  assert (forall v, wm_get (al_process al) (process_table tb) p = Some v -> v = p) as V2 by (intros; by eapply H2).
  assert (forall v, wm_get (al_group al) (process_group_table tb) g = Some v -> v = g) as V3 by (intros; by eapply H3).
  unfold add_thread_to_table.
  destruct (wm_contains_key (al_process al) _ _) eqn:E2; [apply contains_shows in E2; [|done]|];
  [|destruct (wm_contains_key (al_group al) _ _) eqn:E3; [apply contains_shows in E3; [|done]|];
    [|destruct (wm_contains_key (al_session al) _ _) eqn:E4; [apply contains_shows in E4; [|auto]|]]];
  (split; [|simpl; apply insert_shows; auto]);
  (split; simpl; [done|..]; intros x v E; try (apply insert_get in E as [[-> ->]|[Hn E]]);
   try (split; [done|]); auto; try (eapply H1 in E as [-> E]); try (eapply H2 in E as [-> E]);
   try (eapply H3 in E as [-> E]); auto using insert_shows).
Qed.

(** C28: through any creation of threads and any death of threads, processes,
    groups and sessions, a lookup in a table finds only the thing asked for, and
    whoever finds a thread also finds its process, its group and its session:
    the early returns of [add_thread_to_table] never skip a needed entry. *)
Theorem task_tables_complete al tb al' tb' :
  tables_ok al tb -> rtc table_step (al, tb) (al', tb') ->
  forall t v, get_thread al' tb' t = Ok v -> v = t /\
    get_process al' tb' (process_of t) = Ok (process_of t) /\
    get_process_group al' tb' (group_of (process_of t)) = Ok (group_of (process_of t)) /\
    get_session al' tb' (session_of (group_of (process_of t))) = Ok (session_of (group_of (process_of t))).
Proof.
  intros Hok Hr. assert (tables_ok al' tb') as [_ H1 H2 H3 _].
  { change (tables_ok (fst (al', tb')) (snd (al', tb'))). revert Hok.
    change (tables_ok al tb) with (tables_ok (fst (al, tb)) (snd (al, tb))).
    induction Hr as [|x y z Hs _ IH]; [done|]. intros Hx. apply IH. clear IH.
    destruct Hs as [? ? ? Ho Hf|? ? ? ? Ho Hf Hv Ht]; simpl in *; [by eapply tables_ok_dies|].
    apply tables_ok_add; [done|]. by eapply tables_ok_view. }
  intros t v. unfold get_thread, ok_or. destruct (wm_get _ _ t) eqn:E; [|discriminate]. intros [= <-].
  apply H1 in E as [-> E1]. destruct (H2 _ _ E1) as [_ E2]. destruct (H3 _ _ E2) as [_ E3].
  unfold get_process, get_process_group, get_session. by rewrite E1, E2, E3.
Qed.
End TablesOk.

(** ** [sys_clone] *)

(** A task that has been created: what it runs, the word it writes its id to when
    it starts, and the address space whose page table it uses. *)
Record Task (UC : Type) : Type := mkTask {
  task_id : Z; task_name : str; task_uctx : UC; task_set_child_tid : option Z; task_root : nat
}.
Arguments mkTask {UC} _ _ _ _ _.
Arguments task_id {UC} _.
Arguments task_name {UC} _.
Arguments task_uctx {UC} _.
Arguments task_set_child_tid {UC} _.
Arguments task_root {UC} _.

(** The kernel, the task tables and the tasks that have been spawned. *)
Record CState (PS T AS WQ SG SA CW W UC : Type) : Type := mkC {
  c_k : KState PS T AS WQ SG SA CW; c_tables : Tables W; c_tasks : list (Task UC)
}.
Arguments mkC {PS T AS WQ SG SA CW W UC} _ _ _.
Arguments c_k {PS T AS WQ SG SA CW W UC} _.
Arguments c_tables {PS T AS WQ SG SA CW W UC} _.
Arguments c_tasks {PS T AS WQ SG SA CW W UC} _.

Section Clone.
Context {PS T AS WQ SG SA SI CW W TF UC : Type} `{AxProcess PS} `{FlattenObjects T nat} `{WaitQueue WQ}
  `{AxSignal SG SA SI} `{ErrorConv, MemoryAddr, MappingFlags} `{AddrSpace AS} `{AddrSpaceClone AS}
  `{WeakMap W} `{UserContext TF UC} `{CloneConsts}.
Context (USER_HEAP_BASE : Z) (p_session : PS -> Z -> Z) (alive : KState PS T AS WQ SG SA CW -> Alive).
#[local] Existing Instance pid_pod.
Abbreviation K := (KState PS T AS WQ SG SA CW).
Abbreviation C := (CState PS T AS WQ SG SA CW W UC).
Abbreviation KM := (M K LinuxError).
Abbreviation CM := (M C LinuxError).

Definition on_k {A} (m : KM A) : CM A :=
  fun c => let '(r, k) := m (c_k c) in (r, mkC k (c_tables c) (c_tasks c)).

Definition copy_from_kernel : M AS AxError unit :=
  if negb separate_kernel_table then copy_mappings_from_kernel else mret tt.

(** A new identity with its contents. *)
Definition new_space (u : UState AS) : KM nat :=
  k ← get; let i := fresh (dom (k_spaces k)) in
  put (set_spaces (<[i := u]> (k_spaces k)) k);; mret i.
Definition new_actions (a : SA) : KM nat :=
  k ← get; let i := fresh (dom (k_actions k)) in
  put (set_actions (<[i := a]> (k_actions k)) k);; mret i.
Definition new_cwd (c : CW) : KM nat :=
  k ← get; let i := fresh (dom (k_cwds k)) in
  put (set_cwds (<[i := c]> (k_cwds k)) k);; mret i.
Definition new_table (t : T) : KM nat :=
  k ← get; let f := k_files k in let i := fresh (dom (fd_table f)) in
  put (set_files (mkFd (<[i := t]> (fd_table f)) (heap f) (rings f) (nonblocking f)) k);; mret i.

(** [aspace.lock().try_clone()?] and [copy_from_kernel(&mut aspace)?]. *)
Definition clone_space (p : Z) : KM nat :=
  v ← on_space p (fun u => let '(r, u') := us_try_clone u in (map_err ax_into r, u'));
  let '(r, a) := copy_from_kernel (us_aspace v) in
  lift (map_err ax_into r);; new_space (mkUState a (us_mem v)).

(** The namespace entries and the data of a new process [tid]. *)
Definition clone_fd_table (p flags : Z) (d : ProcessData WQ) : KM nat :=
  if contains flags CLONE_FILES then mret (ns_fd_table d) else t ← on_fds p copy_inner; new_table t.
Definition clone_cwd (flags : Z) (d : ProcessData WQ) : KM nat :=
  if contains flags CLONE_FS then mret (ns_cwd d)
  else k ← get; c ← lift (unwrap_opt (k_cwds k !! ns_cwd d)); new_cwd c.
Definition clone_actions (parent flags : Z) : KM nat :=
  k ← get;
  match (if contains flags CLONE_SIGHAND then k_pdata k !! parent else None) with
  | Some dp => mret (sig_actions dp)
  | None => new_actions SA_default
  end.

Definition clone_process (p tid flags : Z) (exit_signal : option Z) : KM nat :=
  k ← get;
  parent ← (if contains flags CLONE_PARENT then lift (ok_or (p_parent (k_ps k) p) EINVAL) else mret p);
  d ← process_data p;
  space ← (if contains flags CLONE_VM then mret (aspace d) else clone_space p);
  actions ← clone_actions parent flags;
  fds ← clone_fd_table p flags d;
  cwd ← clone_cwd flags d;
  modify (fun k =>
    set_pdata (<[tid := ProcessData_new USER_HEAP_BASE (exe_path d) space actions exit_signal fds cwd]> (k_pdata k))
      (set_ps (p_fork parent tid (k_ps k)) k));;
  mret space.

(** The new thread, in its process and in the tables, and its task. *)
Definition spawn_thread (process tid flags child_tid : Z) (task : Task UC) : CM unit :=
  on_k (process_data process);;
  let td := if contains flags CLONE_CHILD_CLEARTID then set_clear_child_tid child_tid ThreadData_new
            else ThreadData_new in
  on_k (modify (fun k => set_tdata (<[tid := td]> (k_tdata k)) (set_ps (p_new_thread process tid (k_ps k)) k)));;
  modify (fun c =>
    let s := k_ps (c_k c) in
    mkC (c_k c)
      (add_thread_to_table (alive (c_k c)) tid process (p_pgid s process) (p_session s (p_pgid s process)) (c_tables c))
      (c_tasks c ++ [task])).

Definition FLAG_MASK : Z := 255.

(** [p] is the caller's process, [name] its task's name, and [id] the number that
    the new task is given. *)
Definition sys_clone (p : Z) (name : str) (id : Z) (tf : TF) (flags stack parent_tid child_tid tls : Z) : CM Z :=
  let exit_signal := Z.land flags FLAG_MASK in
  let flags := from_bits_truncate CloneFlags_all (Z.land flags (as_u32 (Z.lnot FLAG_MASK))) in
  if negb (exit_signal =? 0) && contains flags (Z.lor CLONE_THREAD CLONE_PARENT) then fail EINVAL
  else if contains flags CLONE_THREAD && negb (contains flags (Z.lor CLONE_VM CLONE_SIGHAND)) then fail EINVAL
  else
    let exit_signal := Signo_from_repr (as_u8 exit_signal) in
    let uctx := uctx_from tf in
    let uctx := if negb (stack =? 0) then uctx_set_sp stack uctx else uctx in
    let uctx := if contains flags CLONE_SETTLS then uctx_set_tls tls uctx else uctx in
    let uctx := uctx_set_retval 0 uctx in
    set_child_tid ← (if contains flags CLONE_CHILD_SETTID
                     then a ← on_k (on_space p (on_aspace (get_as_mut Z child_tid))); mret (Some a)
                     else mret None);
    let tid := as_u32 id in
    (if contains flags CLONE_PARENT_SETTID then on_k (on_space p (write_user parent_tid tid)) else mret tt);;
    if contains flags CLONE_THREAD then
      d ← on_k (process_data p);
      spawn_thread p tid flags child_tid (mkTask id name uctx set_child_tid (aspace d));;
      mret (as_isize tid)
    else
      root ← on_k (clone_process p tid flags exit_signal);
      spawn_thread tid tid flags child_tid (mkTask id name uctx set_child_tid root);;
      mret (as_isize tid).

(** The body of [new_user_task], up to the entry into user space: the task writes
    its number where it was asked to, in the address space it runs in. *)
Definition task_start (task : Task UC) (k : K) : K :=
  match task_set_child_tid task with
  | None => k
  | Some a =>
      set_spaces (alter (fun u => mkUState (us_aspace u) (store (us_mem u) a (as_u32 (task_id task))))
                    (task_root task) (k_spaces k)) k
  end.

Definition sys_fork (p : Z) (name : str) (id : Z) (tf : TF) : CM Z :=
  sys_clone p name id tf SIGCHLD 0 0 0 0.
End Clone.

(** ** What a new process shares *)

Class CloneConstsOk `{CloneConsts} : Prop := clone_flags_nonzero :
  Forall (fun f => f <> 0) [CLONE_VM; CLONE_FS; CLONE_FILES; CLONE_SIGHAND; CLONE_PARENT; CLONE_THREAD;
    CLONE_SETTLS; CLONE_PARENT_SETTID; CLONE_CHILD_CLEARTID; CLONE_CHILD_SETTID].

Section CloneTheorems.
Context {PS T AS WQ SG SA SI CW W TF UC : Type} `{AxProcess PS} `{FlattenObjectsOk T nat} `{WaitQueue WQ}
  `{AxSignal SG SA SI} `{ErrorConv, MemoryAddr, MappingFlags} `{AddrSpace AS} `{AddrSpaceCloneOk AS}
  `{WeakMap W} `{UserContext TF UC} `{CloneConsts}.
Context (USER_HEAP_BASE : Z) (p_session : PS -> Z -> Z) (alive : KState PS T AS WQ SG SA CW -> Alive).
#[local] Existing Instance pid_pod.
Abbreviation K := (KState PS T AS WQ SG SA CW).
Abbreviation C := (CState PS T AS WQ SG SA CW W UC).

(** Everything the caller's data names exists, and its descriptor table is well
    formed. *)
Record caller_ok (k : K) (p : Z) (d : ProcessData WQ) (u : UState AS) (tbl : T) (cw : CW) : Prop := {
  co_data : k_pdata k !! p = Some d;
  co_space : k_spaces k !! aspace d = Some u;
  co_table : fd_table (k_files k) !! ns_fd_table d = Some tbl;
  co_inv : exists ext, fd_inv (view tbl (k_files k)) ext;
  co_cwd : k_cwds k !! ns_cwd d = Some cw
}.

(** The copy of the address space succeeds. *)
Definition space_copies (u : UState AS) : Prop :=
  exists v u' a, us_try_clone u = (Ok v, u') /\ copy_from_kernel (us_aspace v) = (Ok tt, a).

(** [cd] is the data of a process cloned from the one of [d] with [flags]; [dq] is
    the data of the process that becomes the parent. *)
Record cloned (k k' : K) (flags : Z) (d dq cd : ProcessData WQ) (u : UState AS) (tbl : T) (cw : CW) : Prop := {
  cl_exe : exe_path cd = exe_path d;
  cl_heap : pd_heap cd = mkHeap USER_HEAP_BASE USER_HEAP_BASE;
  cl_space : if contains flags CLONE_VM then aspace cd = aspace d /\ k_spaces k' = k_spaces k
    else k_spaces k !! aspace cd = None /\ exists v u', k_spaces k' !! aspace cd = Some v /\
      k_spaces k' !! aspace d = Some u' /\ us_mem v = us_mem u /\ us_mem u' = us_mem u;
  cl_fds : if contains flags CLONE_FILES then ns_fd_table cd = ns_fd_table d /\ k_files k' = k_files k
    else fd_table (k_files k) !! ns_fd_table cd = None /\
      fd_table (k_files k') !! ns_fd_table d = Some tbl /\
      exists t, fd_table (k_files k') !! ns_fd_table cd = Some t /\ forall fd, fo_get t fd = fo_get tbl fd;
  cl_cwd : if contains flags CLONE_FS then ns_cwd cd = ns_cwd d
    else k_cwds k !! ns_cwd cd = None /\ k_cwds k' !! ns_cwd cd = Some cw /\ k_cwds k' !! ns_cwd d = Some cw;
  cl_actions : if contains flags CLONE_SIGHAND then sig_actions cd = sig_actions dq
    else k_actions k !! sig_actions cd = None /\ k_actions k' !! sig_actions cd = Some SA_default
}.

Lemma fresh_none {A} (m : gmap nat A) : m !! fresh (dom m) = None.
Proof. apply not_elem_of_dom, is_fresh. Qed.

Lemma clone_space_ok p d u (k : K) :
  k_pdata k !! p = Some d -> k_spaces k !! aspace d = Some u -> space_copies u ->
  exists i v u', clone_space p k = (Ok i, set_spaces (<[i := v]> (<[aspace d := u']> (k_spaces k))) k) /\
    k_spaces k !! i = None /\ i <> aspace d /\ us_mem v = us_mem u /\ us_mem u' = us_mem u.
Proof.
  intros Hd Hu (v & u' & a & Ev & Ea).
  unfold clone_space, on_space, process_data, new_space. unfold_M. rewrite Hd. simpl. rewrite Hu. simpl.
  rewrite Ev. simpl. rewrite Ea. simpl. set (m := <[aspace d := u']> (k_spaces k)).
  exists (fresh (dom m)), (mkUState a (us_mem v)), u'.
  pose proof (fresh_none m) as Hf. destruct (try_clone_mem u u' v Ev) as [? ?].
  assert (fresh (dom m) <> aspace d) as Hne. { intros E. rewrite E in Hf. subst m. by rewrite lookup_insert_eq in Hf. }
  split_and!; auto. subst m. by rewrite lookup_insert_ne in Hf.
Qed.

Lemma clone_fd_table_ok p flags d tbl ext (k : K) :
  k_pdata k !! p = Some d -> fd_table (k_files k) !! ns_fd_table d = Some tbl ->
  fd_inv (view tbl (k_files k)) ext ->
  exists i f, clone_fd_table p flags d k = (Ok i, set_files f k) /\
    if contains flags CLONE_FILES then i = ns_fd_table d /\ f = k_files k
    else fd_table (k_files k) !! i = None /\ fd_table f !! ns_fd_table d = Some tbl /\
      exists t, fd_table f !! i = Some t /\ forall fd, fo_get t fd = fo_get tbl fd.
Proof.
  intros Hd Ht Hi. unfold clone_fd_table. unfold_M. destruct (contains flags CLONE_FILES).
  { exists (ns_fd_table d), (k_files k). by destruct k. }
  unfold on_fds, process_data, new_table. unfold_M. rewrite Hd. simpl. rewrite Ht. simpl.
  destruct (copy_inner_spec _ ext Hi) as (t & s' & -> & Es & Hg & _). cbn in Es, Hg. simpl.
  rewrite Es, insert_id by done. do 2 eexists. split; [reflexivity|]. simpl.
  rewrite fresh_none. split_and!; auto.
  - rewrite lookup_insert_ne; [done|]. intros E. pose proof (fresh_none (fd_table (k_files k))). congruence.
  - exists t. by rewrite lookup_insert_eq.
Qed.

Lemma clone_cwd_ok flags d cw (k : K) :
  k_cwds k !! ns_cwd d = Some cw ->
  exists i m, clone_cwd flags d k = (Ok i, set_cwds m k) /\
    if contains flags CLONE_FS then i = ns_cwd d
    else k_cwds k !! i = None /\ m !! i = Some cw /\ m !! ns_cwd d = Some cw.
Proof.
  intros Hc. unfold clone_cwd, new_cwd. unfold_M. destruct (contains flags CLONE_FS).
  { exists (ns_cwd d), (k_cwds k). by destruct k. }
  rewrite Hc. simpl. do 2 eexists. split; [reflexivity|]. rewrite fresh_none, lookup_insert_eq.
  split_and!; auto. rewrite lookup_insert_ne; [done|]. intros E. pose proof (fresh_none (k_cwds k)). congruence.
Qed.

Lemma clone_actions_ok q dq flags (k : K) :
  k_pdata k !! q = Some dq ->
  exists i m, clone_actions q flags k = (Ok i, set_actions m k) /\
    if contains flags CLONE_SIGHAND then i = sig_actions dq
    else k_actions k !! i = None /\ m !! i = Some SA_default.
Proof.
  intros Hq. unfold clone_actions, new_actions. unfold_M. destruct (contains flags CLONE_SIGHAND).
  { rewrite Hq. exists (sig_actions dq), (k_actions k). by destruct k. }
  do 2 eexists. split; [reflexivity|]. by rewrite fresh_none, lookup_insert_eq.
Qed.

(** The process the new one will be a child of. *)
Definition new_parent (k : K) (p flags q : Z) : Prop :=
  if contains flags CLONE_PARENT then p_parent (k_ps k) p = Some q else q = p.

Lemma clone_process_ok p q tid flags es d dq u tbl cw (k : K) :
  caller_ok k p d u tbl cw -> new_parent k p flags q -> k_pdata k !! q = Some dq ->
  (contains flags CLONE_VM = false -> space_copies u) ->
  exists k' cd, clone_process USER_HEAP_BASE p tid flags es k = (Ok (aspace cd), k') /\
    k_ps k' = p_fork q tid (k_ps k) /\ k_pdata k' = <[tid := cd]> (k_pdata k) /\
    k_tdata k' = k_tdata k /\ exit_signal cd = es /\ cloned k k' flags d dq cd u tbl cw.
Proof.
  intros [Hd Hu Ht [ext Hi] Hc] Hq Hdq Hvm.
  assert (Hpar : (if contains flags CLONE_PARENT then lift (ok_or (p_parent (k_ps k) p) EINVAL) else mret p) k
    = (Ok q, k)).
  { unfold new_parent in Hq. unfold_M. destruct (contains flags CLONE_PARENT); [by rewrite Hq|by subst]. }
  assert (exists i sp, (if contains flags CLONE_VM then mret (aspace d) else clone_space p) k
    = (Ok i, set_spaces sp k) /\ if contains flags CLONE_VM then i = aspace d /\ sp = k_spaces k
      else k_spaces k !! i = None /\ exists v u', sp !! i = Some v /\
        sp !! aspace d = Some u' /\ us_mem v = us_mem u /\ us_mem u' = us_mem u) as (i & sp & Esp & Hsp).
  { destruct (contains flags CLONE_VM) eqn:Evm. { exists (aspace d), (k_spaces k). unfold_M. by destruct k. }
    destruct (clone_space_ok p d u k Hd Hu) as (i & v & u' & E & Hf & Hne & Hm & Hm'); [auto|].
    exists i, (<[i := v]> (<[aspace d := u']> (k_spaces k))). split; [exact E|]. split; [done|].
    exists v, u'. by rewrite lookup_insert_eq, lookup_insert_ne, lookup_insert_eq. }
  unfold clone_process. unfold_M. rewrite Hpar. unfold process_data. unfold_M. rewrite Hd. simpl.
  rewrite Esp. clear Esp. set (k1 := set_spaces sp k).
  destruct (clone_actions_ok q dq flags k1 Hdq) as (ia & ma & Ea & Ha). rewrite Ea.
  set (k2 := set_actions ma k1).
  destruct (clone_fd_table_ok p flags d tbl ext k2 Hd Ht Hi) as (ifd & f & Ef & Hf). rewrite Ef.
  destruct (clone_cwd_ok flags d cw (set_files f k2) Hc) as (ic & mc & Ec & Hcw). rewrite Ec.
  eexists _, (ProcessData_new USER_HEAP_BASE (exe_path d) i ia es ifd ic).
  split; [reflexivity|]. simpl. split_and!; try reflexivity. by split.
Qed.

(** C13: which resources a new process shares is decided flag by flag.  A shared
    resource is the same object in both; the others are new objects with the
    contents the creator's had (memory, descriptors, working directory), the creator
    keeping its own.  The signal actions are different: with [CLONE_SIGHAND] they are
    those of the new parent, which is the creator unless [CLONE_PARENT] is given, and
    then the creator's own parent; without it they are the default ones.  The heap
    bounds are reset. *)
Theorem clone_process_shares p q tid flags es d dq u tbl cw (k : K) :
  caller_ok k p d u tbl cw -> new_parent k p flags q -> k_pdata k !! q = Some dq ->
  (contains flags CLONE_VM = false -> space_copies u) ->
  exists k' cd, clone_process USER_HEAP_BASE p tid flags es k = (Ok (aspace cd), k') /\
    k_ps k' = p_fork q tid (k_ps k) /\ k_pdata k' = <[tid := cd]> (k_pdata k) /\
    exit_signal cd = es /\ cloned k k' flags d dq cd u tbl cw.
Proof.
  intros Hc Hq Hdq Hv. destruct (clone_process_ok p q tid flags es d dq u tbl cw k Hc Hq Hdq Hv)
    as (k' & cd & E & ? & ? & _ & ? & ?). by exists k', cd.
Qed.

Lemma spawn_thread_ok process tid flags child_tid task d (c : C) :
  k_pdata (c_k c) !! process = Some d ->
  exists c', spawn_thread p_session alive process tid flags child_tid task c = (Ok tt, c') /\
    k_ps (c_k c') = p_new_thread process tid (k_ps (c_k c)) /\
    k_pdata (c_k c') = k_pdata (c_k c) /\ k_spaces (c_k c') = k_spaces (c_k c) /\
    k_files (c_k c') = k_files (c_k c) /\ k_cwds (c_k c') = k_cwds (c_k c) /\
    k_actions (c_k c') = k_actions (c_k c) /\
    k_tdata (c_k c') !! tid = Some (mkTD (if contains flags CLONE_CHILD_CLEARTID then child_tid else 0)) /\
    c_tasks c' = c_tasks c ++ [task].
Proof.
  intros Hd. unfold spawn_thread, on_k, process_data. unfold_M. rewrite Hd. simpl.
  eexists. split; [reflexivity|]. simpl. rewrite lookup_insert_eq. split_and!; auto.
  by destruct (contains flags CLONE_CHILD_CLEARTID).
Qed.

Lemma contains_zero f : f <> 0 -> contains 0 f = false.
Proof. unfold contains. intros. rewrite Z.land_0_l. apply Z.eqb_neq. lia. Qed.

(** Evaluate the flag tests of a call without flags. *)
Ltac zero_flags :=
  repeat match goal with
  | Hx : contains 0 ?f = false |- context [contains 0 ?f] => rewrite Hx
  end.

(** The child of a plain fork: it has its own copy of everything, but not the
    handlers and not the heap bounds of its parent. *)
Record forked (k k' : K) (d cd : ProcessData WQ) (u : UState AS) (tbl : T) (cw : CW) : Prop := {
  fk_memory : aspace cd <> aspace d /\ exists v u', k_spaces k' !! aspace cd = Some v /\
    k_spaces k' !! aspace d = Some u' /\ us_mem v = us_mem u /\ us_mem u' = us_mem u;
  fk_fds : ns_fd_table cd <> ns_fd_table d /\ exists t, fd_table (k_files k') !! ns_fd_table cd = Some t /\
    forall fd, fo_get t fd = fo_get tbl fd;
  fk_cwd : ns_cwd cd <> ns_cwd d /\ k_cwds k' !! ns_cwd cd = Some cw;
  fk_actions : k_actions k' !! sig_actions cd = Some SA_default;
  fk_heap : pd_heap cd = mkHeap USER_HEAP_BASE USER_HEAP_BASE
}.

(** [fork] returns the number of a new process whose parent is the caller and
    whose one thread resumes from the caller's registers with result 0 in its own
    copy of the memory; it holds the same descriptors in a table of its own and
    starts in the same directory.  Its signal actions are the default ones and its
    program break is the initial one, whatever the caller's were. *)
Theorem fork_spec `{!CloneConstsOk} p name id tf d u tbl cw (c : C) :
  0 <= id < 2 ^ 31 -> 0 < SIGCHLD < 256 -> Signo_from_repr SIGCHLD = Some SIGCHLD ->
  caller_ok (c_k c) p d u tbl cw -> space_copies u -> id <> p ->
  exists c' cd, sys_fork USER_HEAP_BASE p_session alive p name id tf c = (Ok id, c') /\
    k_ps (c_k c') = p_new_thread id id (p_fork p id (k_ps (c_k c))) /\
    k_pdata (c_k c') !! id = Some cd /\ k_pdata (c_k c') !! p = Some d /\
    exit_signal cd = Some SIGCHLD /\ k_tdata (c_k c') !! id = Some (mkTD 0) /\
    c_tasks c' = c_tasks c ++ [mkTask id name (uctx_set_retval 0 (uctx_from tf)) None (aspace cd)] /\
    forked (c_k c) (c_k c') d cd u tbl cw.
Proof.
  intros Hid Hs Hsr Hc Hsp Hne. pose proof clone_flags_nonzero as Hnz.
  repeat match goal with Hx : Forall _ (_ :: _) |- _ => inversion_clear Hx as [|? ? ?%contains_zero ?] end.
  assert (Z.land SIGCHLD FLAG_MASK = SIGCHLD) as E1.
  { unfold FLAG_MASK. rewrite (Z.land_ones _ 8) by lia. apply Z.mod_small. lia. }
  assert (Z.land SIGCHLD (as_u32 (Z.lnot FLAG_MASK)) = 0) as E2.
  { rewrite <- E1, <- Z.land_assoc. replace (Z.land FLAG_MASK _) with 0 by reflexivity. apply Z.land_0_r. }
  assert (as_u32 id = id) as E4 by (apply wrap_small; lia).
  assert (as_u8 SIGCHLD = SIGCHLD) as E5 by (apply wrap_small; lia).
  unfold sys_fork, sys_clone. rewrite E1, E2, E4, E5, Hsr.
  change (from_bits_truncate CloneFlags_all 0) with 0. rewrite (contains_lor 0 CLONE_THREAD).
  zero_flags. rewrite andb_false_r. cbn [andb negb Z.eqb].
  destruct (clone_process_ok p p id 0 (Some SIGCHLD) d d u tbl cw (c_k c) Hc) as
    (k' & cd & Ek & Hps & Hpd & Htd & Hes & Hcl); [|apply Hc|auto|].
  { unfold new_parent. by zero_flags. }
  unfold on_k at 1. unfold_M. simpl.
  rewrite Ek. cbn iota beta.
  edestruct (spawn_thread_ok id id 0 0) as (c' & -> & Q1 & Q2 & Q3 & Q4 & Q5 & Q6 & Q7 & Q8).
  { cbn [c_k]. rewrite Hpd. apply lookup_insert_eq. }
  exists c', cd. cbn [c_k c_tasks] in *. rewrite Q1, Q2, Q8, Hps, Hpd, lookup_insert_eq.
  destruct Hcl as [_ Hh Hm Hf Hw Ha].
  revert Hm Hf Hw Ha Q7. zero_flags. intros Hm Hf Hw Ha Q7.
  destruct Hc as [Hd Hu Ht _ Hcw]. rewrite lookup_insert_ne by done. split_and!; auto.
  - do 2 f_equal. unfold as_isize. apply swrap_small; lia.
  - split; rewrite ?Q3, ?Q4, ?Q5, ?Q6; [| | |by apply Ha|done].
    + destruct Hm as [Hn Hm]. split; [congruence|exact Hm].
    + destruct Hf as (Hn & _ & Hx). split; [congruence|exact Hx].
    + destruct Hw as (Hn & Hx & _). split; [congruence|exact Hx].
Qed.

(** [clone] with [CLONE_THREAD], [CLONE_VM] and [CLONE_SIGHAND] makes no
    process: the caller's process gets one thread more, whose task runs in the
    caller's address space on the given stack and clears the given word when it
    ends; no resource is copied. *)
Theorem clone_thread_spec p name id tf flags stack parent_tid child_tid tls d k1 (c : C) :
  let f := from_bits_truncate CloneFlags_all (Z.land flags (as_u32 (Z.lnot FLAG_MASK))) in
  let tid := as_u32 id in
  Z.land flags FLAG_MASK = 0 -> contains f CLONE_THREAD = true -> contains f CLONE_VM = true ->
  contains f CLONE_SIGHAND = true -> contains f CLONE_CHILD_SETTID = false ->
  (if contains f CLONE_PARENT_SETTID then on_space p (write_user parent_tid tid) else mret tt) (c_k c) = (Ok tt, k1) ->
  k_pdata (c_k c) !! p = Some d ->
  exists c' uctx, sys_clone USER_HEAP_BASE p_session alive p name id tf flags stack parent_tid child_tid tls c
      = (Ok (as_isize tid), c') /\
    k_ps (c_k c') = p_new_thread p tid (k_ps (c_k c)) /\ k_pdata (c_k c') = k_pdata (c_k c) /\
    k_files (c_k c') = k_files (c_k c) /\ k_spaces (c_k c') = k_spaces k1 /\
    k_tdata (c_k c') !! tid = Some (mkTD (if contains f CLONE_CHILD_CLEARTID then child_tid else 0)) /\
    c_tasks c' = c_tasks c ++ [mkTask id name uctx None (aspace d)] /\
    (stack <> 0 -> contains f CLONE_SETTLS = true ->
     uctx = uctx_set_retval 0 (uctx_set_tls tls (uctx_set_sp stack (uctx_from tf)))).
Proof.
  intros f tid Hx Ht Hvm Hsh Hcs Hw Hd. unfold sys_clone. fold f. rewrite Hx.
  rewrite (contains_lor f CLONE_VM), Ht, Hvm, Hsh, Hcs. cbn [andb negb Z.eqb].
  assert (Hk : (if contains f CLONE_PARENT_SETTID then on_k (W := W) (UC := UC) (on_space p (write_user parent_tid (as_u32 id)))
    else mret tt) c = (Ok tt, mkC k1 (c_tables c) (c_tasks c)) /\
    k_pdata k1 = k_pdata (c_k c) /\ k_ps k1 = k_ps (c_k c) /\ k_files k1 = k_files (c_k c)).
  { fold tid. destruct (contains f CLONE_PARENT_SETTID).
    - unfold on_k. rewrite Hw. by destruct (on_space_inv _ _ _ _ _ Hw) as (? & ? & ?).
    - unfold_M. injection Hw as <-. by destruct c. }
  destruct Hk as (Hk & K1 & K2 & K3).
  unfold mbind at 1, M_bind at 1. unfold mret at 1, M_ret at 1. unfold mbind at 1, M_bind at 1.
  rewrite Hk. unfold on_k at 1, process_data. unfold_M. cbn [c_k]. rewrite K1, Hd. cbn [unwrap_opt].
  edestruct (spawn_thread_ok p tid f child_tid) as (c' & E & Q1 & Q2 & Q3 & Q4 & _ & _ & Q7 & Q8);
    [|fold tid; rewrite E]; [cbn [c_k]; by rewrite K1|].
  eexists c', _. split; [reflexivity|]. cbn [c_k c_tasks] in *.
  rewrite Q1, Q2, Q3, Q4, Q7, Q8, K1, K2, K3. split_and!; auto.
  intros Hst Htls. rewrite Htls. by rewrite (proj2 (Z.eqb_neq stack 0)).
Qed.
End CloneTheorems.

(** ** A concrete system *)

Module CloneSample.
Import SimpleMem FutexSample FdTable.Sample ProcessSample.
#[local] Existing Instance Ptr.Sample.sample_conv.

#[export] Instance map_weak : WeakMap (gmap Z Z) := {
  wm_insert k v w := <[k := v]> w;
  wm_get alive w k := match w !! k with Some v => if alive v then Some v else None | None => None end;
  wm_values alive w := filter (fun v => alive v = true) (snd <$> map_to_list w)
}.
#[export] Instance map_weak_ok : WeakMapOk (gmap Z Z).
Proof.
  split; simpl.
  - intros. by rewrite lookup_insert_eq.
  - intros. by rewrite lookup_insert_ne.
  - intros alive w k v. destruct (w !! k) as [x|]; [|done]. destruct (alive x) eqn:E; [|done]. by intros [= <-].
  - intros a a' w k v Hl. destruct (w !! k) as [x|]; [|done]. destruct (a x); [|done]. intros [= <-] Ha. by rewrite Ha.
  - intros a a' w k v Hl. destruct (w !! k) as [x|]; [|done]. destruct (a' x) eqn:E; [|done].
    intros [= <-]. by rewrite (Hl x E).
Qed.

#[export] Instance reg_context : UserContext Z (list Z) := {
  uctx_from tf := [tf]; uctx_set_sp x u := x :: u; uctx_set_tls x u := x :: u; uctx_set_retval x u := x :: u
}.
#[export] Instance simple_clone : AddrSpaceClone simple_aspace := {
  us_try_clone u := (Ok u, u); copy_mappings_from_kernel a := (Ok tt, a); separate_kernel_table := false
}.
#[export] Instance simple_clone_ok : AddrSpaceCloneOk simple_aspace.
Proof. split. intros u u' v [= <- <-]. done. Qed.
#[export] Instance linux_clone : CloneConsts := {|
  CLONE_VM := 256; CLONE_FS := 512; CLONE_FILES := 1024; CLONE_SIGHAND := 2048; CLONE_PTRACE := 8192;
  CLONE_VFORK := 16384; CLONE_PARENT := 32768; CLONE_THREAD := 65536; CLONE_NEWNS := 131072;
  CLONE_SYSVSEM := 262144; CLONE_SETTLS := 524288; CLONE_PARENT_SETTID := 1048576;
  CLONE_CHILD_CLEARTID := 2097152; CLONE_UNTRACED := 8388608; CLONE_CHILD_SETTID := 16777216;
  CLONE_NEWCGROUP := 33554432; CLONE_NEWUTS := 67108864; CLONE_NEWIPC := 134217728;
  CLONE_NEWUSER := 268435456; CLONE_NEWPID := 536870912; CLONE_NEWNET := 1073741824; CLONE_IO := 2147483648
|}.
#[export] Instance linux_clone_ok : CloneConstsOk.
Proof. repeat constructor; discriminate. Qed.

Definition all_alive : Alive := mkAlive (fun _ => true) (fun _ => true) (fun _ => true) (fun _ => true).
Definition system : CState tree (gmap Z nat) simple_aspace (list Z) (list (Z * (Z * Z))) Z str (gmap Z Z) (list Z) :=
  mkC (two_procs false) (mkTables ∅ ∅ ∅ ∅) [].

Lemma two_procs_caller : caller_ok (two_procs false) 2 (data 0 [2]) parent_space (fd_table booted) [].
Proof.
  split; [reflexivity|reflexivity|apply lookup_singleton_eq| |apply lookup_singleton_eq].
  exists no_ext. exact (fd_reachable_invariant booted booted_reachable).
Qed.

Lemma clone_process_shares_witness :
  exists k' cd, clone_process 65536 2 4 1280 (Some 17) (two_procs false) = (Ok (aspace cd), k') /\
    k_ps k' = p_fork 2 4 (k_ps (two_procs false)) /\ k_pdata k' = <[4 := cd]> (k_pdata (two_procs false)) /\
    exit_signal cd = Some 17 /\
    cloned 65536 (two_procs false) k' 1280 (data 0 [2]) (data 0 [2]) cd parent_space (fd_table booted) [].
Proof.
  apply (clone_process_shares 65536 2 2 4 1280 (Some 17) (data 0 [2]) (data 0 [2]) parent_space
    (fd_table booted) [] (two_procs false)); [apply two_procs_caller|reflexivity|reflexivity|discriminate].
Defined.

Lemma fork_spec_witness :
  exists c' cd, sys_fork 65536 (fun _ _ => 2) (fun _ => all_alive) 2 [] 4 77 system = (Ok 4, c') /\
    k_ps (c_k c') = p_new_thread 4 4 (p_fork 2 4 (k_ps (c_k system))) /\
    k_pdata (c_k c') !! 4 = Some cd /\ k_pdata (c_k c') !! 2 = Some (data 0 [2]) /\
    exit_signal cd = Some SIGCHLD /\ k_tdata (c_k c') !! 4 = Some (mkTD 0) /\
    c_tasks c' = c_tasks system ++ [mkTask 4 [] (uctx_set_retval 0 (uctx_from 77)) None (aspace cd)] /\
    forked 65536 (c_k system) (c_k c') (data 0 [2]) cd parent_space (fd_table booted) [].
Proof.
  apply (fork_spec 65536 (fun _ _ => 2) (fun _ => all_alive) 2 [] 4 77 (data 0 [2]) parent_space
    (fd_table booted) [] system);
    [lia|by vm_compute|reflexivity|apply two_procs_caller| |discriminate].
  by eexists _, _, _.
Defined.

Lemma clone_thread_spec_witness :
  exists c' uctx, sys_clone 65536 (fun _ _ => 2) (fun _ => all_alive) 2 [] 4 77 4001536 6000 4096 4100 5000 system
      = (Ok (as_isize (as_u32 4)), c') /\
    k_pdata (c_k c') = k_pdata (c_k system) /\
    c_tasks c' = c_tasks system ++ [mkTask 4 [] uctx None 0%nat].
Proof.
  edestruct (clone_thread_spec 65536 (fun _ _ => 2) (fun _ => all_alive) 2 [] 4 77 4001536 6000 4096 4100 5000
    (data 0 [2]) (snd (on_space 2 (write_user (H3 := pid_pod) 4096 4) (two_procs false))) system)
    as (c' & uctx & E & _ & Hp & _ & _ & _ & Ht & _); [by vm_compute..|reflexivity|].
  exists c', uctx. split_and!; [exact E|exact Hp|exact Ht].
Defined.

Lemma task_tables_complete_witness :
  let tb := add_thread_to_table (W := gmap Z Z) all_alive 5 5 2 1 (mkTables ∅ ∅ ∅ ∅) in
  5 = 5 /\ get_process all_alive tb 5 = Ok 5 /\ get_process_group all_alive tb 2 = Ok 2 /\
  get_session all_alive tb 1 = Ok 1.
Proof.
  apply (task_tables_complete (fun t => t) (fun _ => 2) (fun _ => 1) all_alive (mkTables ∅ ∅ ∅ ∅) all_alive
    (add_thread_to_table (W := gmap Z Z) all_alive 5 5 2 1 (mkTables ∅ ∅ ∅ ∅)));
    [by split; [done|..]| |by vm_compute].
  apply rtc_once. apply (step_thread (W := gmap Z Z) (fun t => t) (fun _ => 2) (fun _ => 1) all_alive all_alive _ 5); done.
Defined.
End CloneSample.
