(* ===== verification/Signal.v ===== *)
(** * Signals: [api/src/imp/signal.rs] and [api/src/signal.rs]

    The signal managers are [axsignal]'s.  The system calls read and change the
    blocked set and the alternate stack of the calling thread, the actions of its
    process, and send signals to threads, processes and groups. *)

From stdpp Require Import base list gmap option.
From Stdlib Require Import ZArith Lia.
From S2P Require Import Prelude Bytes AddrSpace Ptr.
From S2P Require Import TimeConv FdTable Futex Mmap Process Clone.
Import ListNotations.

(** ** [axsignal]'s thread manager

    A [SignalSet] is its 64 bits. [ACT] is a [SignalAction], which converts to and
    from the [kernel_sigaction] [KSA]; [SS] is a [SignalStack]. *)
Inductive SignalOSAction : Type := Terminate | CoreDump | Stop | Continue | Handler.

Class SignalManager (SG SA SI ACT KSA SS TF : Type) : Type := {
  sg_blocked : SG -> Z -> Z;
  sg_set_blocked : Z -> Z -> SG -> SG;
  sg_pending : SG -> Z -> Z;
  sg_stack : SG -> Z -> SS;
  sg_set_stack : Z -> SS -> SG -> SG;
  sg_wait_timeout : Z -> Z -> option TimeValue -> SG -> option SI * SG;
  sg_check : Z -> TF -> option Z -> SG -> option (SI * SignalOSAction) * (TF * SG);
  sg_restore : Z -> TF -> SG -> TF * SG;
  si_signo : SI -> Z;
  si_code : SI -> Z;
  si_set_signo : Z -> SI -> SI;
  sa_get : SA -> Z -> ACT;
  sa_set : SA -> Z -> ACT -> SA;
  act_to_ctype : ACT -> KSA;
  act_try_from : KSA -> outcome LinuxError ACT;
  ss_sp : SS -> Z;
  ss_size : SS -> Z;
  tf_retval : TF -> Z;
  tf_set_retval : Z -> TF -> TF;
  set_remove : Z -> Z -> Z;
  SIGSTOP : Z;
  EINTR_code : Z
}.

(** The blocked sets of the threads are independent of one another and of the
    signals that are sent. *)
Class SignalManagerOk (SG SA SI ACT KSA SS TF : Type) `{SignalManager SG SA SI ACT KSA SS TF} : Prop := {
  blocked_set t m s u : sg_blocked (sg_set_blocked t m s) u = if bool_decide (t = u) then m else sg_blocked s u
}.

Class SignalConsts : Type := {
  SIG_BLOCK : Z; SIG_UNBLOCK : Z; SIG_SETMASK : Z; SI_USER : Z; SI_TKILL : Z; MINSIGSTKSZ : Z
}.

(** A [SignalSet] in user memory. *)
#[local] Instance set_pod : Pod Z := int_pod 8.

Section SignalCalls.
Context {PS T AS WQ SG SA SI CW W UC ACT KSA SS TF : Type} `{AxProcess PS} `{FlattenObjects T nat}
  `{WaitQueue WQ} `{AxSignal SG SA SI} `{ErrorConv, MemoryAddr, MappingFlags} `{AddrSpace AS} `{WeakMap W}
  `{SignalManager SG SA SI ACT KSA SS TF} `{SignalConsts}
  `{Pod KSA} `{Pod SS} `{Pod SI}.
Context (alive : KState PS T AS WQ SG SA CW -> Alive) (group_processes : PS -> Z -> list Z).
Abbreviation K := (KState PS T AS WQ SG SA CW).
Abbreviation C := (CState PS T AS WQ SG SA CW W UC).
Abbreviation KM := (M K LinuxError).
Abbreviation CM := (M C LinuxError).

Definition check_sigset_size (size : Z) : LinuxResult unit := if size =? 8 then Ok tt else Err EINVAL.

Definition parse_signo (signo : Z) : LinuxResult Z := ok_or (Signo_from_repr (as_u8 signo)) EINVAL.

(** [if let Some(r) = nullable!(p.get_as_mut())? { *r = x }], with [x] read from
    the kernel at that point. *)
Definition write_nullable {A} `{Pod A} (p ptr : Z) (x : K -> A) : KM unit :=
  r ← on_space p (on_aspace (nullable ptr (get_as_mut A ptr)));
  match r with
  | None => mret tt
  | Some a => k ← get; on_space p (assign a (x k))
  end.
(** [nullable!(p.get_as_ref())?], with the value read. *)
Definition read_nullable A `{Pod A} (p ptr : Z) : KM (option A) :=
  r ← on_space p (on_aspace (nullable ptr (get_as_ref A ptr)));
  match r with
  | None => mret None
  | Some a => x ← on_space p (deref A a); mret (Some x)
  end.

(** The new mask, by [how as u32]. *)
Definition apply_how (how blocked set : Z) : LinuxResult Z :=
  if as_u32 how =? SIG_BLOCK then Ok (Z.lor blocked set)
  else if as_u32 how =? SIG_UNBLOCK then Ok (Z.ldiff blocked set)
  else if as_u32 how =? SIG_SETMASK then Ok set
  else Err EINVAL.

(** For the thread [t] of the process [p]. *)
Definition sys_rt_sigprocmask (p t how set oldset sigsetsize : Z) : KM Z :=
  lift (check_sigset_size sigsetsize);;
  thread_data t;;
  write_nullable p oldset (fun k => sg_blocked (k_sig k) t);;
  s ← read_nullable Z p set;
  (match s with
   | None => mret tt
   | Some s =>
       k ← get;
       m ← lift (apply_how how (sg_blocked (k_sig k) t) s);
       put (set_sig (sg_set_blocked t m (k_sig k)) k)
   end);;
  mret 0.

Definition sys_rt_sigaction (p signo act oldact sigsetsize : Z) : KM Z :=
  lift (check_sigset_size sigsetsize);;
  signo ← lift (parse_signo signo);
  if (signo =? SIGKILL) || (signo =? SIGSTOP) then fail EINVAL
  else
    d ← process_data p;
    k ← get;
    lift (unwrap_opt (k_actions k !! sig_actions d));;
    write_nullable p oldact (fun k =>
      act_to_ctype (sa_get (default SA_default (k_actions k !! sig_actions d)) signo));;
    a ← read_nullable KSA p act;
    (match a with
     | None => mret tt
     | Some a =>
         x ← lift (act_try_from a);
         modify (fun k => set_actions (alter (fun sa => sa_set sa signo x) (sig_actions d) (k_actions k)) k)
     end);;
    mret 0.

Definition sys_rt_sigpending (p t set sigsetsize : Z) : KM Z :=
  lift (check_sigset_size sigsetsize);;
  a ← on_space p (on_aspace (get_as_mut Z set));
  thread_data t;;
  k ← get;
  on_space p (assign a (sg_pending (k_sig k) t));;
  mret 0.

(** *** Sending *)

Definition make_siginfo (signo code : Z) : LinuxResult (option SI) :=
  if signo =? 0 then Ok None
  else match parse_signo signo with
       | Ok n => Ok (Some (SignalInfo_new n code))
       | Err e => Err e
       | Panic => Panic
       end.

Fixpoint send_signal_processes (sig : SI) (ps : list Z) : KM Z :=
  match ps with
  | [] => mret 0
  | p :: ps' =>
      ok ← (fun k => match send_signal_process p sig k with
                     | (Ok _, k') => (Ok 1, k') | (Err _, k') => (Ok 0, k') | (Panic, k') => (Panic, k') end);
      n ← send_signal_processes sig ps'; mret (ok + n)
  end.
Definition send_signal_process_group (pgid : Z) (sig : SI) : KM Z :=
  k ← get; send_signal_processes sig (group_processes (k_ps k) pgid).

Definition lookup_in {A} (f : Alive -> Tables W -> LinuxResult A) : CM A :=
  c ← get; lift (f (alive (c_k c)) (c_tables c)).

(** [kill(-1)]: every process but init, stopping at the first that cannot be sent
    to. *)
Fixpoint kill_all (sig : SI) (ps : list Z) : KM Z :=
  match ps with
  | [] => mret 0
  | p :: ps' =>
      if p_is_init p then kill_all sig ps'
      else send_signal_process p sig;; n ← kill_all sig ps'; mret (n + 1)
  end.

Definition sys_kill (p pid signo : Z) : CM Z :=
  sig ← lift (make_siginfo signo SI_USER);
  match sig with
  | None => mret 0
  | Some sig =>
      if 1 <=? pid then
        q ← lookup_in (fun al tb => get_process al tb (as_u32 pid));
        on_k (send_signal_process q sig);; mret 1
      else if pid =? 0 then
        c ← get; on_k (send_signal_process_group (p_pgid (k_ps (c_k c)) p) sig)
      else if pid =? -1 then
        c ← get; on_k (kill_all sig (processes (alive (c_k c)) (c_tables c)))
      else
        g ← lookup_in (fun al tb => get_process_group al tb (as_u32 (as_i32 (- pid))));
        on_k (send_signal_process_group g sig)
  end.

Definition sys_tkill (tid signo : Z) : CM Z :=
  sig ← lift (make_siginfo signo SI_TKILL);
  match sig with
  | None => mret 0
  | Some sig =>
      t ← lookup_in (fun al tb => get_thread al tb tid);
      on_k (send_signal_thread t sig);; mret 0
  end.

(** The process of a thread. *)
Context (process_of : PS -> Z -> Z).

Definition find_thread_in_group (tgid tid : Z) : CM Z :=
  t ← lookup_in (fun al tb => get_thread al tb tid);
  c ← get;
  if negb (process_of (k_ps (c_k c)) t =? tgid) then fail ESRCH else mret t.

Definition sys_tgkill (tgid tid signo : Z) : CM Z :=
  sig ← lift (make_siginfo signo SI_TKILL);
  match sig with
  | None => mret 0
  | Some sig => t ← find_thread_in_group tgid tid; on_k (send_signal_thread t sig);; mret 0
  end.

Definition make_queue_signal_info (p tgid signo sig : Z) : KM SI :=
  signo ← lift (parse_signo signo);
  info ← on_space p (read_user SI sig);
  let info := si_set_signo signo info in
  if negb (p =? tgid) && ((0 <=? si_code info) || (si_code info =? SI_TKILL)) then fail EPERM else mret info.

Definition sys_rt_sigqueueinfo (p tgid signo sig sigsetsize : Z) : CM Z :=
  lift (check_sigset_size sigsetsize);;
  info ← on_k (make_queue_signal_info p tgid signo sig);
  q ← lookup_in (fun al tb => get_process al tb tgid);
  on_k (send_signal_process q info);; mret 0.

Definition sys_rt_tgsigqueueinfo (p tgid tid signo sig sigsetsize : Z) : CM Z :=
  lift (check_sigset_size sigsetsize);;
  info ← on_k (make_queue_signal_info p tgid signo sig);
  t ← find_thread_in_group tgid tid;
  on_k (send_signal_thread t info);; mret 0.

(** *** Waiting and handlers *)

Definition sys_rt_sigreturn (t : Z) (tf : TF) : KM (Z * TF) :=
  thread_data t;;
  k ← get;
  let '(tf, s) := sg_restore t tf (k_sig k) in
  put (set_sig s k);; mret (as_isize (tf_retval tf), tf).

Definition sys_rt_sigtimedwait (p t set info timeout sigsetsize : Z) : KM Z :=
  lift (check_sigset_size sigsetsize);;
  s ← on_space p (read_user Z set);
  ts ← read_nullable timespec p timeout;
  dur ← (match ts with
         | None => mret None
         | Some ts => d ← lift (unwrap_opt (to_time_value ts)); mret (Some d)
         end);
  thread_data t;;
  k ← get;
  let '(r, g) := sg_wait_timeout t s dur (k_sig k) in
  put (set_sig g k);;
  match r with
  | None => fail EAGAIN
  | Some sig => write_nullable p info (fun _ => sig);; mret 0
  end.

(** [check_signals]: the signal that is due, if any, is handled by its handler or
    ends the process; [do_exit] does not return. *)
Inductive checked : Type := NoSignal | Handled | Exited.

(** The signal that is due and what it asks for: the exit code when the thread has
    to end. *)
Definition due_signal (t : Z) (tf : TF) (restore_blocked : option Z) : KM (option (option Z) * TF) :=
  thread_data t;;
  k ← get;
  let '(r, (tf, s)) := sg_check t tf restore_blocked (k_sig k) in
  put (set_sig s k);;
  match r with
  | None => mret (None, tf)
  | Some (sig, os_action) =>
      match os_action with
      | Terminate | CoreDump => mret (Some (Some (128 + si_signo sig)), tf)
      | Stop => mret (Some (Some 1), tf)
      | Continue | Handler => mret (Some None, tf)
      end
  end.

Definition check_signals (SI_KERNEL : Z) (yield : K -> K) (p t : Z) (tf : TF) (restore_blocked : option Z)
  : KM (checked * TF) :=
  r ← due_signal t tf restore_blocked;
  match r.1 with
  | None => mret (NoSignal, r.2)
  | Some None => mret (Handled, r.2)
  | Some (Some code) => do_exit SI_KERNEL yield p t code true;; mret (Exited, r.2)
  end.

Definition post_trap_callback (SI_KERNEL : Z) (yield : K -> K) (p t : Z) (tf : TF) (from_user : bool) : KM TF :=
  if negb from_user then mret tf
  else r ← check_signals SI_KERNEL yield p t tf None; mret (snd r).

(** The loop of [sigsuspend]: [env i] is what the others have done when the caller
    wakes from its [i]-th sleep in [wait_signal]; [None] when it still sleeps after
    [fuel] rounds. *)
Fixpoint suspend_loop (fuel i : nat) (env : nat -> K -> K) (SI_KERNEL : Z) (yield : K -> K) (p t : Z) (tf : TF)
  (old_blocked : Z) (k : K) : option (LinuxResult (checked * TF) * K) :=
  match fuel with
  | O => None
  | S fuel' =>
      match check_signals SI_KERNEL yield p t tf (Some old_blocked) k with
      | (Ok (NoSignal, tf), k) => suspend_loop fuel' (S i) env SI_KERNEL yield p t tf old_blocked (env i k)
      | r => Some r
      end
  end.

Definition suspend_setup (p t : Z) (tf : TF) (set sigsetsize : Z) : KM (Z * TF) :=
  lift (check_sigset_size sigsetsize);;
  thread_data t;;
  s ← on_space p (read_user Z set);
  let s := set_remove (set_remove s SIGKILL) SIGSTOP in
  k ← get;
  put (set_sig (sg_set_blocked t s (k_sig k)) k);;
  mret (sg_blocked (k_sig k) t, tf_set_retval (as_usize (- EINTR_code)) tf).

Definition sys_rt_sigsuspend (fuel : nat) (env : nat -> K -> K) (SI_KERNEL : Z) (yield : K -> K) (p t : Z) (tf : TF)
  (set sigsetsize : Z) (k : K) : option (LinuxResult (checked * TF) * K) :=
  match suspend_setup p t tf set sigsetsize k with
  | (Ok (old_blocked, tf), k) => suspend_loop fuel 0 env SI_KERNEL yield p t tf old_blocked k
  | (Err e, k) => Some (Err e, k)
  | (Panic, k) => Some (Panic, k)
  end.

Definition sys_sigaltstack (p t ss old_ss : Z) : KM Z :=
  thread_data t;;
  write_nullable p old_ss (fun k => sg_stack (k_sig k) t);;
  s ← read_nullable SS p ss;
  match s with
  | None => mret 0
  | Some s =>
      if ss_size s <=? MINSIGSTKSZ then fail ENOMEM
      else
        on_space p (on_aspace (get_as_slice (H3 := int_pod 1) Z (ss_sp s) (ss_size s)));;
        modify (fun k => set_sig (sg_set_stack t s (k_sig k)) k);;
        mret 0
  end.
End SignalCalls.

(** ** Theorems *)

Section SignalTheorems.
Context {PS T AS WQ SG SA SI CW W UC ACT KSA SS TF : Type} `{AxProcess PS} `{FlattenObjects T nat}
  `{WaitQueue WQ} `{AxSignal SG SA SI} `{ErrorConv, MemoryAddr, MappingFlags} `{AddrSpace AS} `{WeakMap W}
  `{SignalManagerOk SG SA SI ACT KSA SS TF} `{SignalConsts}
  `{Pod KSA} `{Pod SS} `{Pod SI}.
Context (alive : KState PS T AS WQ SG SA CW -> Alive) (group_processes : PS -> Z -> list Z).
Abbreviation K := (KState PS T AS WQ SG SA CW).
Abbreviation C := (CState PS T AS WQ SG SA CW W UC).

Definition with_space (d : ProcessData WQ) (u : UState AS) (k : K) : K :=
  set_spaces (<[aspace d := u]> (k_spaces k)) k.

Lemma write_nullable_ok {A} `{Pod A} p d u ptr (x : K -> A) a1 (k : K) :
  k_pdata k !! p = Some d -> k_spaces k !! aspace d = Some u -> ptr <> 0 ->
  get_as_mut A ptr (us_aspace u) = (Ok ptr, a1) ->
  write_nullable p ptr x k =
    (Ok tt, with_space d (mkUState a1 (store (us_mem u) ptr (x (with_space d (mkUState a1 (us_mem u)) k)))) k).
Proof.
  intros Hd Hu Hn Ha. unfold write_nullable. unfold_M.
  rewrite (on_space_aspace _ _ d u) by done. unfold nullable, is_null. unfold_M.
  rewrite (proj2 (Z.eqb_neq ptr 0) Hn), Ha. simpl.
  unfold on_space, process_data, assign. unfold_M. simpl. rewrite Hd. simpl. rewrite lookup_insert_eq. simpl.
  unfold with_space, set_spaces. simpl. by rewrite insert_insert_eq.
Qed.

Lemma read_nullable_ok {A} `{Pod A} p d u ptr a1 (k : K) :
  k_pdata k !! p = Some d -> k_spaces k !! aspace d = Some u -> ptr <> 0 ->
  get_as_ref A ptr (us_aspace u) = (Ok ptr, a1) ->
  read_nullable A p ptr k = (Ok (Some (load (us_mem u) ptr)), with_space d (mkUState a1 (us_mem u)) k).
Proof.
  intros Hd Hu Hn Ha. unfold read_nullable. unfold_M.
  rewrite (on_space_aspace _ _ d u) by done. unfold nullable, is_null. unfold_M.
  rewrite (proj2 (Z.eqb_neq ptr 0) Hn), Ha. simpl.
  unfold on_space, process_data, deref. unfold_M. simpl. rewrite Hd. simpl. rewrite lookup_insert_eq. simpl.
  unfold with_space, set_spaces. simpl. by rewrite insert_insert_eq.
Qed.

Lemma load_store_u64 m a x : 0 <= x < 2 ^ 64 -> load (store m a x) a = x.
Proof.
  intros Hx. unfold load, store. cbn [pod_layout set_pod int_pod layout_size pod_enc pod_dec].
  replace (Z.to_nat _) with (length (le_enc 8 x)) by (rewrite le_enc_length; reflexivity).
  rewrite mem_read_write. apply le_dec_enc_small. done.
Qed.

(** The mask that is applied is the one in memory after the old mask was stored. *)
Lemma sigprocmask_effect p t d u td how set oldset a1 a2 m (k : K) :
  let old := sg_blocked (k_sig k) t in
  let mem := store (us_mem u) oldset old in
  k_pdata k !! p = Some d -> k_spaces k !! aspace d = Some u -> k_tdata k !! t = Some td ->
  oldset <> 0 -> set <> 0 -> get_as_mut Z oldset (us_aspace u) = (Ok oldset, a1) ->
  get_as_ref Z set a1 = (Ok set, a2) -> apply_how how old (load mem set) = Ok m ->
  sys_rt_sigprocmask p t how set oldset 8 k =
    (Ok 0, set_sig (sg_set_blocked t m (k_sig k)) (with_space d (mkUState a2 mem) k)).
Proof.
  intros old mem Hd Hu Ht Ho Hs H1' H2' Hh. unfold sys_rt_sigprocmask, thread_data. unfold_M.
  rewrite Ht. simpl. rewrite (write_nullable_ok p d u oldset _ a1) by done. simpl.
  fold old. fold mem.
  rewrite (read_nullable_ok p d (mkUState a1 mem) set a2); [|done|apply lookup_insert_eq|done|done].
  cbn [us_mem]. change (sg_blocked (k_sig (with_space _ _ _)) t) with old. rewrite Hh. unfold with_space, set_spaces. simpl. by rewrite insert_insert_eq.
Qed.

(** With separate buffers [rt_sigprocmask] stores the old mask of the calling
    thread and installs the union, the difference or the new set, as [how] says;
    no other thread's mask changes. *)
Theorem sigprocmask_spec p t d u td how set oldset a1 a2 m (k : K) :
  let old := sg_blocked (k_sig k) t in
  k_pdata k !! p = Some d -> k_spaces k !! aspace d = Some u -> k_tdata k !! t = Some td ->
  oldset <> 0 -> set <> 0 -> get_as_mut Z oldset (us_aspace u) = (Ok oldset, a1) ->
  get_as_ref Z set a1 = (Ok set, a2) -> set + 8 <= oldset \/ oldset + 8 <= set ->
  0 <= old < 2 ^ 64 -> apply_how how old (load (us_mem u) set) = Ok m ->
  exists k' u', sys_rt_sigprocmask p t how set oldset 8 k = (Ok 0, k') /\
    sg_blocked (k_sig k') t = m /\ (forall t', t' <> t -> sg_blocked (k_sig k') t' = sg_blocked (k_sig k) t') /\
    k_spaces k' !! aspace d = Some u' /\ load (us_mem u') oldset = old.
Proof.
  intros old Hd Hu Ht Ho Hs H1' H2' Hdis Hold Hh. do 2 eexists. split_and!.
  - apply (sigprocmask_effect p t d u td how set oldset a1 a2 m k Hd Hu Ht Ho Hs H1' H2'). fold old.
    rewrite <- Hh. f_equal. unfold load, store. f_equal. apply mem_read_write_disjoint.
    cbn [pod_enc set_pod int_pod pod_layout layout_size]. rewrite le_enc_length. lia.
  - simpl. by rewrite blocked_set, bool_decide_true.
  - intros t' Hn. simpl. rewrite blocked_set, bool_decide_false; [done|congruence].
  - simpl. by rewrite lookup_insert_eq.
  - cbn [us_mem]. apply load_store_u64. exact Hold.
Qed.

(** When both arguments are the same buffer, as [sigprocmask] allows, the old
    mask is stored before the new one is read, so the request is lost: blocking or
    setting leaves the mask as it is, and unblocking empties it. *)
Theorem sigprocmask_alias p t d u td how buf a1 a2 (k : K) :
  let old := sg_blocked (k_sig k) t in
  k_pdata k !! p = Some d -> k_spaces k !! aspace d = Some u -> k_tdata k !! t = Some td ->
  buf <> 0 -> get_as_mut Z buf (us_aspace u) = (Ok buf, a1) -> get_as_ref Z buf a1 = (Ok buf, a2) ->
  0 <= old < 2 ^ 64 ->
  ((as_u32 how = SIG_BLOCK \/ as_u32 how <> SIG_UNBLOCK /\ as_u32 how = SIG_SETMASK) ->
   exists k', sys_rt_sigprocmask p t how buf buf 8 k = (Ok 0, k') /\ sg_blocked (k_sig k') t = old) /\
  (as_u32 how <> SIG_BLOCK -> as_u32 how = SIG_UNBLOCK ->
   exists k', sys_rt_sigprocmask p t how buf buf 8 k = (Ok 0, k') /\ sg_blocked (k_sig k') t = 0).
Proof.
  intros old Hd Hu Ht Hb H1' H2' Hold.
  pose proof (load_store_u64 (us_mem u) buf old Hold) as Hl.
  assert (forall m, apply_how how old old = Ok m ->
    exists k', sys_rt_sigprocmask p t how buf buf 8 k = (Ok 0, k') /\ sg_blocked (k_sig k') t = m) as Hm.
  { intros m Hm. eexists. split.
    - apply (sigprocmask_effect p t d u td how buf buf a1 a2 m k Hd Hu Ht Hb Hb H1' H2'). fold old. by rewrite Hl.
    - simpl. by rewrite blocked_set, bool_decide_true. }
  unfold apply_how in Hm. rewrite Z.lor_diag, Z.ldiff_diag in Hm.
  split; [intros [E|[N E]]|intros N E]; apply Hm; rewrite ?E; split_tests; congruence.
Qed.

(** *** Sending *)

(** The processes of a list that can be sent to, and the effect of sending to each
    of them in turn. *)
Definition reachable_procs (k : K) (ps : list Z) : list Z := filter (fun p => is_Some (k_pdata k !! p)) ps.
Definition sent (sig : SI) (ps : list Z) (g : SG) : SG := foldl (fun g p => sg_send_process p sig g) g ps.

Lemma send_signal_processes_effect sig ps : forall k : K,
  send_signal_processes sig ps k =
    (Ok (Z.of_nat (length (reachable_procs k ps))), set_sig (sent sig (reachable_procs k ps) (k_sig k)) k).
Proof.
  induction ps as [|p ps IH]; intros k; [by destruct k|].
  cbn [send_signal_processes]. unfold_M. unfold send_signal_process, reachable_procs. rewrite filter_cons.
  destruct (k_pdata k !! p) as [d|] eqn:E.
  - rewrite decide_True by eauto. rewrite IH. unfold reachable_procs. simpl. do 2 f_equal. lia.
  - rewrite decide_False by (by intros [? ?]). rewrite IH. done.
Qed.

(** A signal to a group ([kill] with 0 for the caller's group, or with [-pgid])
    is delivered exactly once to every process of the group that the kernel has
    data for, and the answer is their number; nothing else changes. *)
Theorem kill_reaches_group p pid signo n g (c : C) :
  pid = 0 /\ g = p_pgid (k_ps (c_k c)) p \/
  - 2 ^ 31 < pid < -1 /\ get_process_group (alive (c_k c)) (c_tables c) (- pid) = Ok g ->
  signo <> 0 -> parse_signo signo = Ok n ->
  let ps := reachable_procs (c_k c) (group_processes (k_ps (c_k c)) g) in
  sys_kill alive group_processes p pid signo c =
    (Ok (Z.of_nat (length ps)),
     mkC (set_sig (sent (SignalInfo_new n SI_USER) ps (k_sig (c_k c))) (c_k c)) (c_tables c) (c_tasks c)).
Proof.
  intros Hp Hs Hn ps. unfold sys_kill, make_siginfo. rewrite (proj2 (Z.eqb_neq signo 0) Hs), Hn. unfold_M.
  destruct Hp as [[-> ->]|[Hp Hg]].
  - cbn [Z.leb Z.compare Z.eqb]. unfold on_k, send_signal_process_group. unfold_M.
    by rewrite send_signal_processes_effect.
  - rewrite (proj2 (Z.leb_gt 1 pid)), (proj2 (Z.eqb_neq pid 0)), (proj2 (Z.eqb_neq pid (-1))) by lia.
    unfold lookup_in. unfold_M.
    replace (as_u32 (as_i32 (- pid))) with (- pid).
    + rewrite Hg. unfold on_k, send_signal_process_group. unfold_M. by rewrite send_signal_processes_effect.
    + unfold as_i32, as_u32. rewrite swrap_small, wrap_small; lia.
Qed.

(** C30: a process cannot pose as the kernel.  A queued signal is sent to the
    process that the table of processes has under [tgid] and to no other, with the
    description that the caller has in its memory and the number it asked for; and
    if [tgid] is not the caller itself, only if the code of that description is
    negative and not that of [tkill].  Any other request leaves every signal queue as
    it was. *)
Theorem sigqueueinfo_no_forgery p tgid signo sig size r (c c' : C) :
  sys_rt_sigqueueinfo alive p tgid signo sig size c = (r, c') -> r <> Panic ->
  k_sig (c_k c') = k_sig (c_k c) \/
  exists info n q k1, on_space p (read_user SI sig) (c_k c) = (Ok info, k1) /\ parse_signo signo = Ok n /\
    get_process (alive k1) (c_tables c) tgid = Ok q /\ r = Ok 0 /\
    k_sig (c_k c') = sg_send_process q (si_set_signo n info) (k_sig (c_k c)) /\
    (p = tgid \/ si_code (si_set_signo n info) < 0 /\ si_code (si_set_signo n info) <> SI_TKILL).
Proof.
  unfold sys_rt_sigqueueinfo, make_queue_signal_info, on_k, lookup_in. unfold_M. intros E Hr.
  destruct (check_sigset_size size); [|simplify_eq; by left..].
  destruct (parse_signo signo) as [n| |] eqn:En; [|simplify_eq; by left..].
  destruct (on_space p (read_user SI sig) (c_k c)) as [[info| |] k1] eqn:Er.
  2: { simplify_eq. left. simpl. by rewrite (on_space_sig _ _ _ _ _ Er). }
  2: { simplify_eq. }
  pose proof (on_space_sig _ _ _ _ _ Er) as Hk.
  destruct (negb (p =? tgid) && _) eqn:Eg; [simplify_eq; left; exact Hk|].
  cbn [c_k c_tables] in E. destruct (get_process (alive k1) (c_tables c) tgid) as [q| |] eqn:Eq; simpl in E;
    [|simplify_eq; left; exact Hk..].
  unfold send_signal_process in E. destruct (k_pdata k1 !! q); simplify_eq; [|left; exact Hk].
  right. exists info, n, q, k1. split_and!; auto; [simpl; by rewrite Hk|].
  apply andb_false_iff in Eg as [Eg|Eg]; [left; by apply negb_false_iff, Z.eqb_eq in Eg|].
  right. apply orb_false_iff in Eg as [E1%Z.leb_gt E2%Z.eqb_neq]. auto.
Qed.

(** [parse_signo] looks at the low byte only. *)
Lemma parse_signo_truncates n k : parse_signo (n + 256 * k) = parse_signo n.
Proof. unfold parse_signo, as_u8, wrap. do 2 f_equal. replace (2 ^ 8) with 256 by done. zdiv. Qed.
End SignalTheorems.

(** ** A concrete signal manager *)

Module SignalSample.
Import SimpleMem FutexSample FdTable.Sample ProcessSample CloneSample.
#[local] Existing Instance Ptr.Sample.sample_conv.

(** The masks of the threads, and the log of what was sent. *)
Record signals : Type := mkSignals { masks : gmap Z Z; log : list (Z * (Z * Z)) }.

#[export] Instance masked_signal : AxSignal signals Z (Z * Z) := {
  Signo_from_repr n := if (1 <=? n) && (n <=? 64) then Some n else None;
  SIGCHLD := 17;
  SIGKILL := 9;
  SA_default := 0;
  SignalInfo_new signo code := (signo, code);
  sg_send_process p sig s := mkSignals (masks s) (log s ++ [(p, sig)]);
  sg_send_thread t sig s := mkSignals (masks s) (log s ++ [(t, sig)])
}.
#[export] Instance masked_manager : SignalManager signals Z (Z * Z) Z Z (Z * Z) Z := {
  sg_blocked s t := default 0 (masks s !! t);
  sg_set_blocked t m s := mkSignals (<[t := m]> (masks s)) (log s);
  sg_pending s t := 0;
  sg_stack s t := (0, 0);
  sg_set_stack t x s := s;
  sg_wait_timeout t m d s := (None, s);
  sg_check t tf m s := (None, (tf, s));
  sg_restore t tf s := (tf, s);
  si_signo := fst;
  si_code := snd;
  si_set_signo n i := (n, snd i);
  sa_get sa _ := sa;
  sa_set sa _ a := a;
  act_to_ctype a := a;
  act_try_from a := Ok a;
  ss_sp := fst;
  ss_size := snd;
  tf_retval tf := tf;
  tf_set_retval r _ := r;
  set_remove m n := Z.ldiff m (2 ^ (n - 1));
  SIGSTOP := 19;
  EINTR_code := 4
}.
#[export] Instance masked_manager_ok : SignalManagerOk signals Z (Z * Z) Z Z (Z * Z) Z.
Proof.
  split. intros t m s u. simpl. case_bool_decide; [subst; by rewrite lookup_insert_eq|].
  by rewrite lookup_insert_ne.
Qed.
#[export] Instance linux_signal : SignalConsts := {|
  SIG_BLOCK := 0; SIG_UNBLOCK := 1; SIG_SETMASK := 2; SI_USER := 0; SI_TKILL := -6; MINSIGSTKSZ := 2048
|}.

(** The thread 2 of process 2 blocks the set 6; its memory holds the set 8 at 4096
    and, at 4112, a signal description with the code [code]. *)
Definition signal_kernel (code : Z) : KState tree (gmap Z nat) simple_aspace (list Z) signals Z str :=
  let f := two_procs false in
  mkK (k_ps f) (k_pdata f) (k_tdata f)
    (<[0%nat := mkUState (mkSimple 4096 8192 3) (mem_write ∅ 4096 (le_enc 8 8 ++ le_enc 8 0 ++ pod_enc (5, code)))]>
       (k_spaces f)) (k_files f) (k_cwds f) (k_actions f) (mkSignals {[2 := 6]} []).
Definition signal_system (code : Z) : CState tree (gmap Z nat) simple_aspace (list Z) signals Z str (gmap Z Z) (list Z) :=
  mkC (signal_kernel code)
    (add_thread_to_table all_alive 2 2 2 1 (mkTables ∅ ∅ ∅ ∅)) [].

Lemma sigprocmask_spec_witness :
  exists k' u', sys_rt_sigprocmask 2 2 0 4096 4104 8 (signal_kernel 0) = (Ok 0, k') /\
    sg_blocked (k_sig k') 2 = 14 /\ (forall t', t' <> 2 -> sg_blocked (k_sig k') t' = sg_blocked (k_sig (signal_kernel 0)) t') /\
    k_spaces k' !! 0%nat = Some u' /\ load (H := set_pod) (us_mem u') 4104 = 6.
Proof.
  edestruct (sigprocmask_spec 2 2 (data 0 [2])
    (mkUState (mkSimple 4096 8192 3) (mem_write ∅ 4096 (le_enc 8 8 ++ le_enc 8 0 ++ pod_enc (5, 0))))
    (mkTD 0) 0 4096 4104 (mkSimple 4096 8192 3) (mkSimple 4096 8192 3) 14 (signal_kernel 0))
    as (k' & u' & E & Hm & Hf & Hs & Hl);
    [reflexivity..|lia|lia|by vm_compute|by vm_compute|lia|by vm_compute|by vm_compute|].
  exists k', u'. split_and!; [exact E|exact Hm|exact Hf|exact Hs|rewrite Hl; by vm_compute].
Defined.

Lemma sigprocmask_alias_witness :
  (exists k', sys_rt_sigprocmask 2 2 2 4096 4096 8 (signal_kernel 0) = (Ok 0, k') /\ sg_blocked (k_sig k') 2 = sg_blocked (k_sig (signal_kernel 0)) 2) /\
  (exists k', sys_rt_sigprocmask 2 2 1 4096 4096 8 (signal_kernel 0) = (Ok 0, k') /\ sg_blocked (k_sig k') 2 = 0).
Proof.
  split.
  - apply (sigprocmask_alias 2 2 (data 0 [2])
      (mkUState (mkSimple 4096 8192 3) (mem_write ∅ 4096 (le_enc 8 8 ++ le_enc 8 0 ++ pod_enc (5, 0))))
      (mkTD 0) 2 4096 (mkSimple 4096 8192 3) (mkSimple 4096 8192 3) (signal_kernel 0));
      [reflexivity..|lia|by vm_compute|by vm_compute|by vm_compute|by right].
  - apply (sigprocmask_alias 2 2 (data 0 [2])
      (mkUState (mkSimple 4096 8192 3) (mem_write ∅ 4096 (le_enc 8 8 ++ le_enc 8 0 ++ pod_enc (5, 0))))
      (mkTD 0) 1 4096 (mkSimple 4096 8192 3) (mkSimple 4096 8192 3) (signal_kernel 0));
      [reflexivity..|lia|by vm_compute|by vm_compute|by vm_compute|discriminate|reflexivity].
Defined.

Lemma kill_reaches_group_witness :
  sys_kill (fun _ => all_alive) (fun _ _ => [2; 3; 4]) 2 (-2) 10 (signal_system 0) =
    (Ok 2, mkC (set_sig (mkSignals {[2 := 6]} [(2, (10, 0)); (3, (10, 0))]) (signal_kernel 0))
             (c_tables (signal_system 0)) []).
Proof.
  etransitivity;
    [apply (kill_reaches_group (fun _ => all_alive) (fun _ _ => [2; 3; 4]) 2 (-2) 10 10 2 (signal_system 0));
     [right; split; [lia|by vm_compute]|lia|by vm_compute]|by vm_compute].
Defined.

(** The code of the kernel is refused to another process; to itself it is sent. *)
Lemma sigqueueinfo_no_forgery_witness :
  (let r := sys_rt_sigqueueinfo (fun _ => all_alive) 3 2 10 4112 8 (signal_system 0) in
   fst r = Err EPERM /\ k_sig (c_k (snd r)) = k_sig (c_k (signal_system 0))) /\
  (let r := sys_rt_sigqueueinfo (fun _ => all_alive) 2 2 10 4112 8 (signal_system 0) in
   log (k_sig (c_k (snd r))) = [(2, (10, 0))] /\
   exists q, get_process (W := gmap Z Z) all_alive (c_tables (signal_system 0)) 2 = Ok q /\
     exists i, k_sig (c_k (snd r)) = sg_send_process q i (k_sig (c_k (signal_system 0)))).
Proof.
  split; (split; [by vm_compute|]).
  - destruct (sigqueueinfo_no_forgery (fun _ => all_alive) 3 2 10 4112 8 (Err EPERM) (signal_system 0)
      (snd (sys_rt_sigqueueinfo (fun _ => all_alive) 3 2 10 4112 8 (signal_system 0))))
      as [E|(info & n & q & k1 & _ & _ & _ & Hr & _)]; [by vm_compute|discriminate|exact E|discriminate Hr].
  - destruct (sigqueueinfo_no_forgery (fun _ => all_alive) 2 2 10 4112 8 (Ok 0) (signal_system 0)
      (snd (sys_rt_sigqueueinfo (fun _ => all_alive) 2 2 10 4112 8 (signal_system 0))))
      as [E|(info & n & q & k1 & _ & _ & Hq & _ & E & _)]; [by vm_compute|discriminate|by vm_compute in E|].
    exists q. split; [exact Hq|]. eexists. exact E.
Defined.
End SignalSample.
