(* ===== verification/Loader.v ===== *)
(** * Loading programs: [load_user_app] and [map_elf] of [core/src/mm.rs], and
    [api/src/imp/task/execve.rs]

    The ELF parsers ([xmas_elf], [kernel_elf_parser]) and the file system are
    interfaces; the handling of scripts and interpreters, the mapping of the
    segments, of the stack and of the heap, and the replacement of a process's
    image are the kernel's. *)

From stdpp Require Import base list gmap option strings.
From Stdlib Require Import ZArith Lia.
From S2P Require Import Prelude Text Bytes AddrSpace Ptr.
Import ListNotations.

(** ** Interfaces *)

Record Segment : Type := mkSegment {
  seg_vaddr : Z; seg_memsz : Z; seg_filesz : Z; seg_offset : Z; seg_flags : Z
}.

(** The data of an interpreter header: bytes, or something the kernel panics on. *)
Inductive InterpData : Type := Undefined (data : list Z) | OtherData.

(** [E] is a parsed file, [L] a file prepared for loading at a base address and
    [X] its auxiliary vector. *)
Class Elf (E L X : Type) : Type := {
  ElfFile_new : list Z -> option E;
  elf_interp : E -> option InterpData;
  ELFParser_new : E -> Z -> Z -> Z -> option L;
  ph_load : L -> list Segment;
  elf_entry : L -> Z;
  auxv_vector : L -> Z -> X;
  app_stack_region : list str -> list str -> X -> Z -> Z -> list Z
}.

(** [axfs::api::read] and [canonicalize]. *)
Class FileStore (FS : Type) : Type := {
  fs_read : FS -> str -> AxResult (list Z);
  fs_canonicalize : FS -> str -> AxResult str
}.

(** [axconfig]'s addresses. *)
Class LoadConfig : Type := {
  USER_INTERP_BASE : Z; USER_STACK_TOP : Z; USER_STACK_SIZE : Z; USER_HEAP_BASE : Z; USER_HEAP_SIZE : Z;
  SIGNAL_TRAMPOLINE : Z
}.

(** The other operations of [axmm::AddrSpace] that loading needs. *)
Class AddrSpaceLoad (AS : Type) : Type := {
  as_map_linear : Z -> Z -> Z -> Z -> PageSize -> M AS AxError unit;
  as_unmap_user_areas : M AS AxError unit;
  trampoline_paddr : Z
}.

(** The parts of the task and its process that [execve] changes; [TF] is the trap
    frame. *)
Record ExecState (AS TF : Type) : Type := mkExec {
  ex_aspace : AS; ex_name : str; ex_path : str; ex_tf : TF
}.
Arguments mkExec {AS TF} _ _ _ _.
Arguments ex_aspace {AS TF} _.
Arguments ex_name {AS TF} _.
Arguments ex_path {AS TF} _.
Arguments ex_tf {AS TF} _.

Section Load.
Context {AS E L X FS : Type} `{ErrorConv, MemoryAddr, MappingFlags} `{AddrSpace AS} `{Elf E L X} `{FileStore FS}
  `{LoadConfig} `{AddrSpaceLoad AS}.
Abbreviation AM := (M AS AxError).

Definition map_trampoline : AM unit :=
  as_map_linear SIGNAL_TRAMPOLINE trampoline_paddr PAGE_SIZE_4K
    (Z.lor (Z.lor MF_READ MF_EXECUTE) MF_USER) Size4K.

(** [segement.vaddr.align_offset_4k()]. *)
Definition align_offset_4k (a : Z) : Z := Z.land a (PAGE_SIZE_4K - 1).

Definition seg_align_size (seg : Segment) : Z :=
  Z.land (as_usize (as_usize (seg_memsz seg + align_offset_4k (seg_vaddr seg)) + PAGE_SIZE_4K - 1))
    (as_usize (Z.lnot (PAGE_SIZE_4K - 1))).

(** [elf.input.get(offset..offset + filesz)]. *)
Definition seg_data (input : list Z) (seg : Segment) : option (list Z) :=
  let fin := as_usize (seg_offset seg + seg_filesz seg) in
  if (seg_offset seg <=? fin) && (fin <=? Z.of_nat (length input))
  then Some (take (Z.to_nat (fin - seg_offset seg)) (drop (Z.to_nat (seg_offset seg)) input)) else None.

Definition map_segment (input : list Z) (seg : Segment) : AM unit :=
  if negb (align_offset_4k (seg_vaddr seg) =? seg_offset seg mod PAGE_SIZE_4K) then panic
  else
    as_map_alloc (align_down_4k (seg_vaddr seg)) (seg_align_size seg) (seg_flags seg) true Size4K;;
    data ← lift (ok_or (seg_data input seg) AxInvalidData);
    as_write (seg_vaddr seg) Size4K data.

Fixpoint map_segments (input : list Z) (segs : list Segment) : AM unit :=
  match segs with
  | [] => mret tt
  | seg :: segs' => map_segment input seg;; map_segments input segs'
  end.

Definition map_elf (input : list Z) (elf : E) : AM (Z * X) :=
  s ← get;
  l ← lift (ok_or (ELFParser_new elf USER_INTERP_BASE (as_base s) (as_base s)) AxInvalidData);
  map_segments input (ph_load l);;
  mret (elf_entry l, auxv_vector l PAGE_SIZE_4K).

(** *** Scripts *)

Definition NEWLINE : Z := 10.
Definition is_script (file_data : list Z) : bool := starts_with file_data (lit "#!").

(** The first line: at most 254 bytes after the [#!], up to a newline. *)
Definition script_line (file_data : list Z) : list Z :=
  let head := take (Nat.min (length file_data) 256 - 2) (drop 2 file_data) in
  match list_find (fun c => c = NEWLINE) head with Some (pos, _) => take pos head | None => head end.

Definition script_args (file_data : list Z) (args : list str) : AxResult (list str) :=
  match decode_utf8 (script_line file_data) with
  | None => Err AxInvalidData
  | Some line => Ok (map trim_ascii (splitn2 line is_ascii_whitespace) ++ args)
  end.

(** *** Interpreters of ELF files *)

(** [CStr::from_bytes_with_nul(..).to_str()]: one null, at the end. *)
Definition cstr_to_str (bs : list Z) : option str :=
  match list_find (fun c => c = 0) bs with
  | Some (pos, _) => if (S pos =? length bs)%nat then decode_utf8 (take pos bs) else None
  | None => None
  end.

Definition interp_path_fix (p : str) : str :=
  if bool_decide (p ∈ [lit "/lib/ld-linux-riscv64-lp64.so.1"; lit "/lib64/ld-linux-loongarch-lp64d.so.1";
                       lit "/lib64/ld-linux-x86-64.so.2"; lit "/lib/ld-linux-aarch64.so.1"])
  then lit "/musl/lib/libc.so" else p.

Definition interp_args (fs : FS) (interp : InterpData) (args : list str) : AxResult (list str) :=
  match interp with
  | OtherData => Panic
  | Undefined data =>
      match cstr_to_str data with
      | None => Err AxInvalidData
      | Some p =>
          match fs_canonicalize fs p with
          | Ok p => Ok (interp_path_fix p :: args)
          | Err e => Err e
          | Panic => Panic
          end
      end
  end.

(** *** The image of an ELF file without interpreter *)

Definition ustack_start : Z := USER_STACK_TOP - USER_STACK_SIZE.

Definition map_image (input : list Z) (elf : E) (args envs : list str) : AM (Z * Z) :=
  ea ← map_elf input elf;
  let stack_data := app_stack_region args envs (snd ea) ustack_start USER_STACK_SIZE in
  let rwu := Z.lor (Z.lor MF_READ MF_WRITE) MF_USER in
  as_map_alloc ustack_start USER_STACK_SIZE rwu true Size4K;;
  as_map_alloc USER_HEAP_BASE USER_HEAP_SIZE rwu true Size4K;;
  let user_sp := USER_STACK_TOP - Z.of_nat (length stack_data) in
  as_write user_sp Size4K stack_data;;
  mret (fst ea, user_sp).

(** What the file named by the first argument asks for: an image, or another
    round with a longer argument list. *)
Inductive load_step : Type := Again (args : list str) | Image (input : list Z) (elf : E).
Arguments Again _ : clear implicits.

Definition load_next (fs : FS) (args : list str) : AxResult load_step :=
  match args with
  | [] => Err AxInvalidInput
  | path :: _ =>
      match fs_read fs path with
      | Err e => Err e
      | Panic => Panic
      | Ok file_data =>
          if is_script file_data then
            match script_args file_data args with
            | Ok new_args => Ok (Again new_args) | Err e => Err e | Panic => Panic
            end
          else
            match ElfFile_new file_data with
            | None => Err AxInvalidData
            | Some elf =>
                match elf_interp elf with
                | Some interp =>
                    match interp_args fs interp args with
                    | Ok new_args => Ok (Again new_args) | Err e => Err e | Panic => Panic
                    end
                | None => Ok (Image file_data elf)
                end
            end
      end
  end.

(** The recursion of [load_user_app]; [None] when it is still going after [fuel]
    rounds. *)
Fixpoint load_user_app (fuel : nat) (fs : FS) (args envs : list str) (s : AS)
  : option (AxResult (Z * Z) * AS) :=
  match fuel with
  | O => None
  | S fuel' =>
      match load_next fs args with
      | Err e => Some (Err e, s)
      | Panic => Some (Panic, s)
      | Ok (Again new_args) => load_user_app fuel' fs new_args envs s
      | Ok (Image input elf) => Some (map_image input elf args envs s)
      end
  end.

(** ** [sys_execve] *)

(** [argv.get_as_null_terminated()?]: the pointers of a null-terminated array. *)
Definition get_as_null_terminated (m : umem) (a : AS) (p : Z) : LinuxResult (list Z) :=
  let read q := if forallb (fun i => bool_decide (is_Some (m !! (q + Z.of_nat i)))) (seq 0 8)
                then Some (le_dec (mem_read m q 8)) else None in
  match check_null_terminated a UserConstPtr_ACCESS_FLAGS 8 read
          (S (Z.to_nat ((as_end a - p) / 8))) 8 p with
  | ScanOk n => Ok (map (fun i => le_dec (mem_read m (p + 8 * Z.of_nat i) 8)) (seq 0 (Z.to_nat n)))
  | ScanErr => Err EFAULT
  | _ => Panic
  end.

(** [.map(get_as_str).collect::<Result<Vec<_>, _>>()?]: the first error wins. *)
Fixpoint collect_strs (m : umem) (a : AS) (ps : list Z) : LinuxResult (list str) :=
  match ps with
  | [] => Ok []
  | p :: ps' => s ← get_as_str a m p; r ← collect_strs m a ps'; Ok (s :: r)
  end.
Definition read_strs (m : umem) (a : AS) (p : Z) : LinuxResult (list str) :=
  ps ← get_as_null_terminated m a p; collect_strs m a ps.

Context {TF : Type} (tf_set_ip tf_set_sp : Z -> TF -> TF).

Definition base_name (path : str) : str :=
  match rsplit_once path SLASH with Some (_, name) => name | None => path end.

(** Once the arguments are read: [threads] is the number of threads of the
    process. *)
Definition exec_image (fuel : nat) (fs : FS) (threads : Z) (path : str) (args envs : list str) (s : ExecState AS TF)
  : option (LinuxResult Z * ExecState AS TF) :=
  if 1 <? threads then Some (Err EAGAIN, s)
  else
    let with_as a := mkExec a (ex_name s) (ex_path s) (ex_tf s) in
    match (as_unmap_user_areas;; map_trampoline) (ex_aspace s) with
    | (Err e, a) => Some (Err (ax_into e), with_as a)
    | (Panic, a) => Some (Panic, with_as a)
    | (Ok _, a) =>
        '(r, a) ← load_user_app fuel fs args envs a;
        match r with
        | Err _ => Some (Err ENOENT, with_as a)
        | Panic => Some (Panic, with_as a)
        | Ok (entry_point, user_stack_base) =>
            Some (Ok 0, mkExec a (base_name path) path
                          (tf_set_sp user_stack_base (tf_set_ip entry_point (ex_tf s))))
        end
    end.

Definition exec_args (m : umem) (path argv envp : Z) (a : AS) : LinuxResult (str * list str * list str) :=
  p ← get_as_str a m path; args ← read_strs m a argv; envs ← read_strs m a envp; Ok (p, args, envs).

Definition sys_execve (fuel : nat) (fs : FS) (threads : Z) (m : umem) (path argv envp : Z) (s : ExecState AS TF)
  : option (LinuxResult Z * ExecState AS TF) :=
  match exec_args m path argv envp (ex_aspace s) with
  | Err e => Some (Err e, s)
  | Panic => Some (Panic, s)
  | Ok (p, args, envs) => exec_image fuel fs threads p args envs s
  end.
End Load.

(** ** Theorems *)

(** A byte of a character's encoding is the character itself or not ASCII. *)
Lemma encode_char_byte c b : scalar c -> b ∈ encode_char c -> b = c \/ 128 <= b.
Proof.
  unfold scalar, encode_char. intros Hc Hb.
  destruct (Z.ltb_spec c 128); [left; set_solver|right].
  destruct (Z.ltb_spec c 2048); [|destruct (Z.ltb_spec c 65536)];
    rewrite ?elem_of_cons in Hb; repeat destruct Hb as [->|Hb]; try (by apply not_elem_of_nil in Hb); zdiv.
Qed.

Lemma encode_utf8_byte s c : Forall scalar s -> c < 128 -> c ∉ s -> c ∉ encode_utf8 s.
Proof.
  unfold encode_utf8. induction 1 as [|x s Hx _ IH]; intros Hc Hn; simpl; [set_solver|].
  rewrite elem_of_app. intros [Hb|Hb].
  - apply encode_char_byte in Hb as [->|?]; [set_solver|lia|done].
  - apply IH; [lia|set_solver|done].
Qed.

Lemma encode_utf8_app s t : encode_utf8 (s ++ t) = encode_utf8 s ++ encode_utf8 t.
Proof. unfold encode_utf8. by rewrite map_app, concat_app. Qed.

Lemma list_find_app_eq (l r : list Z) c :
  c ∉ l -> list_find (fun x => x = c) (l ++ c :: r) = Some (length l, c).
Proof.
  intros Hn. rewrite list_find_app_r.
  - simpl. rewrite decide_True by done. done.
  - apply list_find_None. apply Forall_forall. intros x Hx ->. apply Hn. by apply list_elem_of_In.
Qed.

Lemma splitn2_sep f s c t :
  Forall (fun x => f x = false) s -> f c = true -> splitn2 (s ++ c :: t) f = [s; t].
Proof.
  induction 1 as [|x s Hx _ IH]; intros Hc; simpl; [by rewrite Hc|]. by rewrite Hx, IH.
Qed.
Lemma splitn2_none f s : Forall (fun x => f x = false) s -> splitn2 s f = [s].
Proof. induction 1 as [|x s Hx _ IH]; simpl; [done|]. by rewrite Hx, IH. Qed.

Lemma drop_while_none f s : Forall (fun x => f x = false) s -> drop_while f s = s.
Proof. by intros [|x l Hx _]; simpl; [|rewrite Hx]. Qed.
Lemma trim_none f s : Forall (fun x => f x = false) s -> trim_by f s = s.
Proof.
  intros Hs. unfold trim_by. rewrite (drop_while_none f s Hs), drop_while_none, rev_involutive; [done|].
  by apply Forall_rev.
Qed.

(** The first line of a file that starts with [#!], a line and a newline. *)
Lemma script_line_spec line rest :
  Z.of_nat (length line) <= 253 -> NEWLINE ∉ line -> script_line (lit "#!" ++ line ++ NEWLINE :: rest) = line.
Proof.
  intros Hl Hn. unfold script_line.
  assert (exists r, take (Nat.min (length (lit "#!" ++ line ++ NEWLINE :: rest)) 256 - 2)
    (drop 2 (lit "#!" ++ line ++ NEWLINE :: rest)) = line ++ NEWLINE :: r) as [r ->].
  { exists (take (Nat.min (length (lit "#!" ++ line ++ NEWLINE :: rest)) 256 - 2 - S (length line)) rest).
    change (drop 2 (lit "#!" ++ line ++ NEWLINE :: rest)) with (line ++ NEWLINE :: rest).
    rewrite !length_app. simpl length. rewrite take_app_ge by lia. f_equal.
    destruct (_ - length line)%nat as [|n] eqn:En; [lia|]. simpl. f_equal. f_equal. lia. }
  by rewrite list_find_app_eq, take_app_length.
Qed.

Section LoadTheorems.
Context {AS E L X FS : Type} `{ErrorConv, MemoryAddrOk, MappingFlags} `{AddrSpace AS} `{Elf E L X} `{FileStore FS}
  `{LoadConfig} `{AddrSpaceLoad AS}.

(** A word of the first line. *)
Definition word (s : str) : Prop := Forall scalar s /\ Forall (fun c => is_ascii_whitespace c = false) s.

Lemma word_no_newline s : word s -> NEWLINE ∉ s.
Proof.
  intros [_ Hw] Hn. induction Hw as [|x s Hx _ IH]; [by apply not_elem_of_nil in Hn|].
  apply elem_of_cons in Hn as [<-|Hn]; [discriminate|auto].
Qed.

Lemma script_args_two interp arg rest args :
  word interp -> Forall scalar arg -> NEWLINE ∉ arg -> trim_ascii arg = arg ->
  Z.of_nat (length (encode_utf8 (interp ++ 32 :: arg))) <= 253 ->
  script_args (lit "#!" ++ encode_utf8 (interp ++ 32 :: arg) ++ NEWLINE :: rest) args = Ok (interp :: arg :: args).
Proof.
  intros Hw Ha Hn Ht Hl. pose proof (word_no_newline _ Hw) as Hwn. destruct Hw as [Hs Hw].
  assert (Forall scalar (interp ++ 32 :: arg)) as Hsc.
  { apply Forall_app; split; [done|]. constructor; [left; lia|done]. }
  unfold script_args. rewrite script_line_spec; [|done|].
  - rewrite decode_encode_utf8 by done. rewrite splitn2_sep by done. simpl.
    rewrite Ht. unfold trim_ascii. by rewrite trim_none.
  - apply encode_utf8_byte; [done|unfold NEWLINE; lia|].
    rewrite elem_of_app, elem_of_cons. unfold NEWLINE in *. intros [?|[?|?]]; [done|lia|done].
Qed.

Lemma script_args_one interp rest args :
  word interp -> Z.of_nat (length (encode_utf8 interp)) <= 253 ->
  script_args (lit "#!" ++ encode_utf8 interp ++ NEWLINE :: rest) args = Ok (interp :: args).
Proof.
  intros Hw Hl. pose proof (word_no_newline _ Hw) as Hwn. destruct Hw as [Hs Hw].
  unfold script_args. rewrite script_line_spec; [|done|].
  - rewrite decode_encode_utf8 by done. rewrite splitn2_none by done. simpl.
    unfold trim_ascii. by rewrite trim_none.
  - apply encode_utf8_byte; [done|unfold NEWLINE; lia|done].
Qed.

Lemma is_script_spec r : is_script (lit "#!" ++ r) = true.
Proof. unfold is_script, starts_with. apply bool_decide_eq_true. by exists r. Qed.

Lemma load_script fuel fs path l envs (s : AS) data new_args :
  fs_read fs path = Ok data -> is_script data = true -> script_args data (path :: l) = Ok new_args ->
  load_user_app (S fuel) fs (path :: l) envs s = load_user_app fuel fs new_args envs s.
Proof. intros Hr Hs Ha. cbn [load_user_app load_next]. by rewrite Hr, Hs, Ha. Qed.

(** A script runs its interpreter as the first line says: the interpreter is
    loaded with its own path, the rest of the line as one argument if there is
    any, and then the path of the script and the script's own arguments. *)
Theorem script_runs_interpreter fuel fs path interp arg rest l envs (s : AS) :
  word interp -> Forall scalar arg -> NEWLINE ∉ arg -> trim_ascii arg = arg ->
  Z.of_nat (length (encode_utf8 (interp ++ 32 :: arg))) <= 253 ->
  (fs_read fs path = Ok (lit "#!" ++ encode_utf8 interp ++ NEWLINE :: rest) ->
   load_user_app (S fuel) fs (path :: l) envs s = load_user_app fuel fs (interp :: path :: l) envs s) /\
  (fs_read fs path = Ok (lit "#!" ++ encode_utf8 (interp ++ 32 :: arg) ++ NEWLINE :: rest) ->
   load_user_app (S fuel) fs (path :: l) envs s = load_user_app fuel fs (interp :: arg :: path :: l) envs s).
Proof.
  intros Hw Ha Hn Ht Hl. split; intros Hr.
  - apply (load_script _ _ _ _ _ _ _ _ Hr (is_script_spec _)), script_args_one; [done|].
    revert Hl. rewrite encode_utf8_app, length_app. lia.
  - by apply (load_script _ _ _ _ _ _ _ _ Hr (is_script_spec _)), script_args_two.
Qed.

Lemma load_user_app_step fuel fs args envs (s : AS) :
  load_user_app (S fuel) fs args envs s =
    match load_next fs args with
    | Err e => Some (Err e, s)
    | Panic => Some (Panic, s)
    | Ok (Again new_args) => load_user_app fuel fs new_args envs s
    | Ok (Image input elf) => Some (map_image input elf args envs s)
    end.
Proof. reflexivity. Qed.

(** *** Chains of interpreters

    What the bytes of the files say, apart from the code that follows them: [chain fs
    args n out] holds when the file named first in [args] leads, over [n] files that
    each name an interpreter, to a program that is loaded with the given arguments, or
    to an error. *)
Definition script_file (fs : FS) (path line : str) : Prop :=
  exists rest, fs_read fs path = Ok (lit "#!" ++ encode_utf8 line ++ NEWLINE :: rest) /\
    Z.of_nat (length (encode_utf8 line)) <= 253.
Definition elf_file (fs : FS) (path : str) (data : list Z) (elf : E) : Prop :=
  fs_read fs path = Ok data /\ (forall r, data <> lit "#!" ++ r) /\ ElfFile_new data = Some elf.
Definition glibc_loaders : list str :=
  [lit "/lib/ld-linux-riscv64-lp64.so.1"; lit "/lib64/ld-linux-loongarch-lp64d.so.1";
   lit "/lib64/ld-linux-x86-64.so.2"; lit "/lib/ld-linux-aarch64.so.1"].

Inductive chain (fs : FS) : list str -> nat -> AxError + (list str * list Z * E) -> Prop :=
| chain_program path l data elf :
    elf_file fs path data elf -> elf_interp elf = None -> chain fs (path :: l) 0 (inr (path :: l, data, elf))
| chain_missing path l e : fs_read fs path = Err e -> chain fs (path :: l) 0 (inl e)
| chain_no_program path l data :
    fs_read fs path = Ok data -> (forall r, data <> lit "#!" ++ r) -> ElfFile_new data = None ->
    chain fs (path :: l) 0 (inl AxInvalidData)
| chain_script path l interp n out :
    script_file fs path interp -> word interp ->
    chain fs (interp :: path :: l) n out -> chain fs (path :: l) (S n) out
| chain_script_arg path l interp arg n out :
    script_file fs path (interp ++ 32 :: arg) -> word interp ->
    Forall scalar arg -> NEWLINE ∉ arg -> trim_ascii arg = arg ->
    chain fs (interp :: arg :: path :: l) n out -> chain fs (path :: l) (S n) out
| chain_interp path l data elf name real n out :
    elf_file fs path data elf -> elf_interp elf = Some (Undefined (encode_utf8 name ++ [0])) ->
    Forall scalar name -> 0 ∉ name -> fs_canonicalize fs name = Ok real -> real ∉ glibc_loaders ->
    chain fs (real :: path :: l) n out -> chain fs (path :: l) (S n) out
| chain_glibc path l data elf name real n out :
    elf_file fs path data elf -> elf_interp elf = Some (Undefined (encode_utf8 name ++ [0])) ->
    Forall scalar name -> 0 ∉ name -> fs_canonicalize fs name = Ok real -> real ∈ glibc_loaders ->
    chain fs (lit "/musl/lib/libc.so" :: path :: l) n out -> chain fs (path :: l) (S n) out.

Lemma not_script data : (forall r, data <> lit "#!" ++ r) -> is_script data = false.
Proof. intros Hn. unfold is_script, starts_with. apply bool_decide_eq_false. intros [r ->]. by apply (Hn r). Qed.

Lemma cstr_encoded name : Forall scalar name -> 0 ∉ name -> cstr_to_str (encode_utf8 name ++ [0]) = Some name.
Proof.
  intros Hs Hz. unfold cstr_to_str. rewrite list_find_app_eq by (apply encode_utf8_byte; [done|lia|done]).
  rewrite length_app. simpl. rewrite Nat.add_1_r, Nat.eqb_refl, take_app_length. by apply decode_encode_utf8.
Qed.

Lemma load_next_interp fs path l data elf name real :
  elf_file fs path data elf -> elf_interp elf = Some (Undefined (encode_utf8 name ++ [0])) ->
  Forall scalar name -> 0 ∉ name -> fs_canonicalize fs name = Ok real ->
  load_next fs (path :: l) =
    Ok (Again ((if bool_decide (real ∈ glibc_loaders) then lit "/musl/lib/libc.so" else real) :: path :: l)).
Proof.
  intros (Hr & Hn & He) Hi Hs Hz Hc. cbn [load_next]. rewrite Hr, (not_script _ Hn), He, Hi. unfold interp_args.
  by rewrite cstr_encoded, Hc.
Qed.

Lemma load_next_script fs path l interp args rest :
  fs_read fs path = Ok (lit "#!" ++ rest) -> script_args (lit "#!" ++ rest) (path :: l) = Ok (interp :: args) ->
  load_next fs (path :: l) = Ok (Again (interp :: args)).
Proof. intros Hr Ha. cbn [load_next]. by rewrite Hr, is_script_spec, Ha. Qed.

(** C21: the loader follows the interpreters that the files name, and ends.  When the
    file named first leads over [n] files (scripts, which name an interpreter and perhaps
    one argument in a first line of at most 253 bytes; programs, which name one in their
    interpreter header) to a program without interpreter, [load_user_app] maps that
    program, with the arguments that the chain builds up: each interpreter before the
    file that named it, and glibc's loaders replaced by musl's.  When the chain ends at
    a file that cannot be read or is no program, that error is returned and the address
    space is as it was.  It takes [n] rounds and one: with fewer it is not done. *)
Theorem load_follows_interpreters fuel fs args n out envs (s : AS) :
  chain fs args n out ->
  load_user_app fuel fs args envs s =
    if (n <? fuel)%nat
    then match out with
         | inr (args', data, elf) => Some (map_image data elf args' envs s)
         | inl e => Some (Err e, s)
         end
    else None.
Proof.
  intros Hc. revert fuel. induction Hc as [path l data elf (Hr & Hn & He) Hi|path l e Hr|path l data Hr Hn He
    |path l interp n out (rest & Hr & Hl) Hw Hc IH|path l interp arg n out (rest & Hr & Hl) Hw Ha Hn Ht Hc IH
    |path l data elf name real n out Hf Hi Hs Hz Hcan Hg Hc IH|path l data elf name real n out Hf Hi Hs Hz Hcan Hg Hc IH];
    intros [|fuel]; try done; rewrite load_user_app_step.
  - cbn [load_next]. by rewrite Hr, (not_script _ Hn), He, Hi.
  - cbn [load_next]. by rewrite Hr.
  - cbn [load_next]. by rewrite Hr, (not_script _ Hn), He.
  - rewrite (load_next_script _ _ _ _ _ _ Hr (script_args_one interp rest (path :: l) Hw Hl)). apply IH.
  - rewrite (load_next_script _ _ _ _ _ _ Hr (script_args_two interp arg rest (path :: l) Hw Ha Hn Ht Hl)). apply IH.
  - rewrite (load_next_interp _ _ _ _ _ _ _ Hf Hi Hs Hz Hcan), bool_decide_eq_false_2 by done. apply IH.
  - rewrite (load_next_interp _ _ _ _ _ _ _ Hf Hi Hs Hz Hcan), bool_decide_eq_true_2 by done. apply IH.
Qed.

(** A script that names itself as its interpreter is loaded for ever, with one more
    argument each time. *)
Theorem self_script_diverges fuel fs path rest l envs (s : AS) :
  word path -> Z.of_nat (length (encode_utf8 path)) <= 253 ->
  fs_read fs path = Ok (lit "#!" ++ encode_utf8 path ++ NEWLINE :: rest) ->
  load_user_app fuel fs (path :: l) envs s = None.
Proof.
  intros Hw Hl Hr. revert l. induction fuel as [|fuel IH]; intros l; [done|].
  rewrite (load_script _ _ _ _ _ _ _ _ Hr (is_script_spec _) (script_args_one path rest (path :: l) Hw Hl)). apply IH.
Qed.

(** A blank after the [#!], which other systems skip, makes the interpreter the
    empty path. *)
Lemma script_space_empty_interp line rest args :
  Forall scalar line -> NEWLINE ∉ line -> Z.of_nat (length (encode_utf8 (32 :: line))) <= 253 ->
  script_args (lit "#!" ++ encode_utf8 (32 :: line) ++ NEWLINE :: rest) args = Ok ([] :: trim_ascii line :: args).
Proof.
  intros Hs Hn Hl. unfold script_args. rewrite script_line_spec; [|done|].
  - rewrite decode_encode_utf8; [done|]. constructor; [left; lia|done].
  - apply encode_utf8_byte; [constructor; [left; lia|done]|unfold NEWLINE; lia|].
    unfold NEWLINE in *. set_solver.
Qed.

(** *** Segments *)

Lemma land_page_mask x : 0 <= x < 2 ^ 64 ->
  Z.land x (as_usize (Z.lnot (PAGE_SIZE_4K - 1))) = 4096 * (x / 4096).
Proof.
  intros Hx. change (as_usize (Z.lnot (PAGE_SIZE_4K - 1))) with (Z.land (Z.lnot (Z.ones 12)) (Z.ones 64)).
  rewrite (Z.land_comm (Z.lnot _)), Z.land_assoc, Z.land_ones by lia. rewrite Z.mod_small by lia.
  rewrite <- Z.ldiff_land, Z.ldiff_ones_r, Z.shiftl_mul_pow2, Z.shiftr_div_pow2 by lia.
  change (2 ^ 12) with 4096. lia.
Qed.

(** The fields of a segment as the program header has them: 64-bit numbers. *)
Definition seg_typed (seg : Segment) : Prop :=
  is_usize (seg_vaddr seg) /\ is_usize (seg_memsz seg) /\ is_usize (seg_offset seg) /\ is_usize (seg_filesz seg).

(** The size that is mapped, with its wrap-around. *)
Lemma seg_align_size_spec seg : seg_typed seg ->
  seg_align_size seg = 4096 * (((seg_memsz seg + seg_vaddr seg mod 4096 + 4095) mod 2 ^ 64) / 4096).
Proof.
  intros _. unfold seg_align_size, align_offset_4k, PAGE_SIZE_4K, as_usize at 1 2, wrap.
  rewrite (Z.land_ones _ 12), <- Z.add_sub_assoc, Zplus_mod_idemp_l by lia. change (2 ^ 12) with 4096.
  rewrite land_page_mask by (apply Z.mod_pos_bound; lia). done.
Qed.

(** The pages that are mapped for a segment: they cover it, unless its size was too
    large for the sum; then they are at most one. *)
Definition seg_pages (seg : Segment) (lo n : Z) : Prop :=
  lo mod PAGE_SIZE_4K = 0 /\ n mod PAGE_SIZE_4K = 0 /\ lo <= seg_vaddr seg < lo + PAGE_SIZE_4K /\
  (if seg_memsz seg + seg_vaddr seg mod PAGE_SIZE_4K + (PAGE_SIZE_4K - 1) <? 2 ^ 64
   then seg_vaddr seg + seg_memsz seg <= lo + n < seg_vaddr seg + seg_memsz seg + PAGE_SIZE_4K
   else n <= PAGE_SIZE_4K).

Lemma seg_pages_spec seg : seg_typed seg -> seg_pages seg (align_down_4k (seg_vaddr seg)) (seg_align_size seg).
Proof.
  intros Ht. unfold seg_pages. rewrite seg_align_size_spec by done. destruct Ht as (Hv & Hm & _). unfold is_usize in *.
  unfold align_down_4k, PAGE_SIZE_4K in *. rewrite align_down_spec by lia. change (4096 - 1) with 4095.
  assert (0 <= seg_vaddr seg mod 4096 < 4096) by (apply Z.mod_pos_bound; lia).
  destruct (Z.ltb_spec (seg_memsz seg + seg_vaddr seg mod 4096 + 4095) (2 ^ 64)) as [Hs|Hs].
  - rewrite (Z.mod_small _ (2 ^ 64)) by lia. zdiv.
  - replace ((seg_memsz seg + seg_vaddr seg mod 4096 + 4095) mod 2 ^ 64)
      with (seg_memsz seg + seg_vaddr seg mod 4096 + 4095 - 2 ^ 64); [zdiv|].
    apply (Z.mod_unique_pos _ _ 1); lia.
Qed.

Lemma seg_data_some input seg data :
  seg_typed seg -> seg_data input seg = Some data ->
  seg_offset seg + seg_filesz seg <= Z.of_nat (length input) /\
  data = take (Z.to_nat (seg_filesz seg)) (drop (Z.to_nat (seg_offset seg)) input).
Proof.
  intros (_ & _ & Ho & Hf). unfold is_usize in *. unfold seg_data, as_usize.
  destruct (_ && _) eqn:Ec; [|discriminate]. intros [= <-]. apply andb_true_iff in Ec as [E1%Z.leb_le E2%Z.leb_le].
  assert (seg_offset seg + seg_filesz seg < 2 ^ 64).
  { destruct (Z.lt_ge_cases (seg_offset seg + seg_filesz seg) (2 ^ 64)); [done|]. exfalso.
    revert E1. unfold wrap. rewrite <- (Z.mod_unique_pos _ (2 ^ 64) 1 (seg_offset seg + seg_filesz seg - 2 ^ 64)); lia. }
  rewrite wrap_small in * by lia. split; [done|]. f_equal. lia.
Qed.

(** The run over the segments, from address space to address space. *)
Inductive segs_mapped (input : list Z) : list Segment -> AS -> AS -> Prop :=
| segs_nil s : segs_mapped input [] s s
| segs_cons seg segs lo n s s1 s2 s' :
    seg_pages seg lo n -> as_map_alloc lo n (seg_flags seg) true Size4K s = (Ok tt, s1) ->
    seg_offset seg + seg_filesz seg <= Z.of_nat (length input) ->
    as_write (seg_vaddr seg) Size4K
      (take (Z.to_nat (seg_filesz seg)) (drop (Z.to_nat (seg_offset seg)) input)) s1 = (Ok tt, s2) ->
    segs_mapped input segs s2 s' -> segs_mapped input (seg :: segs) s s'.

(** C22: when the segments of a program are mapped, for each of them in turn, in the
    address space that the one before left, whole pages are mapped from the page of
    its address on and then exactly its part of the file is written at its address; a
    segment that claims bytes outside the file is refused.  The pages cover the range of
    the segment and less than a page more, unless the size in the file is so large
    that the sum of size, offset in the page and 4095 passes [2^64]: the sum is not
    checked, and then at most one page is mapped. *)
Theorem map_segments_sound input segs (s s' : AS) :
  Forall seg_typed segs -> map_segments input segs s = (Ok tt, s') -> segs_mapped input segs s s'.
Proof.
  intros Hf. revert s. induction Hf as [|seg segs Hseg _ IH]; intros s Hm; [injection Hm as <-; constructor|].
  cbn [map_segments] in Hm. revert Hm. unfold mbind at 1, M_bind at 1.
  destruct (map_segment input seg s) as [[[]| |] s2] eqn:E1; [|discriminate..]. intros Hm. apply IH in Hm.
  revert E1. unfold map_segment. destruct (negb _); [discriminate|]. unfold_M.
  destruct (as_map_alloc _ _ _ _ _ s) as [[[]| |] s1] eqn:E2; [|discriminate..].
  destruct (seg_data input seg) as [data|] eqn:Ed; simpl; [|discriminate].
  destruct (seg_data_some _ _ _ Hseg Ed) as [Hlen ->]. intros E3.
  by eapply segs_cons; [apply seg_pages_spec|..].
Qed.

(** A segment whose address and file offset disagree modulo the page size panics
    the kernel, whatever else is in the file. *)
Lemma map_segments_panics input seg segs (s : AS) :
  align_offset_4k (seg_vaddr seg) <> seg_offset seg mod PAGE_SIZE_4K ->
  map_segments input (seg :: segs) s = (Panic, s).
Proof.
  intros Hn. cbn [map_segments]. unfold map_segment. rewrite (proj2 (Z.eqb_neq _ _) Hn). reflexivity.
Qed.

(** *** [execve] *)

Context {TF : Type} (tf_set_ip tf_set_sp : Z -> TF -> TF).

(** The program that [execve] runs does not depend on its path argument: only the
    arguments, the first of which names the file, decide. *)
Theorem execve_runs_argv0 fuel fs threads path1 path2 args envs (s : ExecState AS TF) :
  match exec_image tf_set_ip tf_set_sp fuel fs threads path1 args envs s,
        exec_image tf_set_ip tf_set_sp fuel fs threads path2 args envs s with
  | Some (r1, s1), Some (r2, s2) => r1 = r2 /\ ex_aspace s1 = ex_aspace s2 /\ ex_tf s1 = ex_tf s2
  | None, None => True
  | _, _ => False
  end.
Proof.
  unfold exec_image. destruct (1 <? threads); [done|].
  destruct ((as_unmap_user_areas;; map_trampoline) (ex_aspace s)) as [[[]| |] a]; [|done..].
  destruct (load_user_app fuel fs args envs a) as [[[[e sp]| |] a']|]; simpl; done.
Qed.

(** When the program cannot be loaded, [execve] answers ENOENT only after the
    caller's memory is gone: nothing is left in the address space but what
    unmapping everything and mapping the trampoline leave, and the registers still
    point into the old image. *)
Theorem execve_failure_loses_image fuel fs path args envs e a (s : ExecState AS TF) :
  (as_unmap_user_areas;; map_trampoline) (ex_aspace s) = (Ok tt, a) ->
  load_next fs args = Err e ->
  exec_image tf_set_ip tf_set_sp (S fuel) fs 1 path args envs s =
    Some (Err ENOENT, mkExec a (ex_name s) (ex_path s) (ex_tf s)).
Proof. intros Hu Hl. unfold exec_image. simpl. rewrite Hu. by rewrite Hl. Qed.
End LoadTheorems.

(** ** A concrete file system and ELF format

    A program is the byte 127; it has one segment, the rest of the file, which is
    loaded at 65536. *)

Module LoaderSample.
Import SimpleMem.
#[local] Existing Instance Ptr.Sample.sample_conv.

#[export] Instance store_files : FileStore (list (str * list Z)) := {
  fs_read fs p := match list_find (fun e => fst e = p) fs with Some (_, (_, d)) => Ok d | None => Err AxNotFound end;
  fs_canonicalize _ p := Ok p
}.
#[export] Instance tiny_elf : Elf (list Z) (list Z) unit := {
  ElfFile_new data := match data with 127 :: _ => Some data | _ => None end;
  elf_interp _ := None;
  ELFParser_new e _ _ _ := Some e;
  ph_load e := [mkSegment 65536 8192 (Z.of_nat (length e)) 0 7];
  elf_entry _ := 65536;
  auxv_vector _ _ := tt;
  app_stack_region args envs _ _ _ := concat args ++ concat envs
}.
#[export] Instance tiny_config : LoadConfig := {|
  USER_INTERP_BASE := 1048576; USER_STACK_TOP := 1056768; USER_STACK_SIZE := 8192;
  USER_HEAP_BASE := 2097152; USER_HEAP_SIZE := 65536; SIGNAL_TRAMPOLINE := 4096
|}.
#[export] Instance simple_load : AddrSpaceLoad simple_aspace := {
  as_map_linear lo _ n f _ s := (Ok tt, mkSimple lo (lo + n) f);
  as_unmap_user_areas s := (Ok tt, mkSimple 0 0 0);
  trampoline_paddr := 0
}.

Definition sh : str := lit "/bin/sh".
Definition script : list Z := lit "#!" ++ encode_utf8 (sh ++ 32 :: lit "-e") ++ NEWLINE :: lit "exit".
Definition plain_script : list Z := lit "#!" ++ encode_utf8 sh ++ NEWLINE :: lit "exit".
Definition files : list (str * list Z) := [(sh, [127; 1; 2]); (lit "a", script); (lit "b", plain_script)].

Lemma script_runs_interpreter_witness :
  load_user_app 2 files [lit "b"] [] (mkSimple 0 0 0) = load_user_app 1 files [sh; lit "b"] [] (mkSimple 0 0 0) /\
  load_user_app 2 files [lit "a"] [] (mkSimple 0 0 0) = load_user_app 1 files [sh; lit "-e"; lit "a"] [] (mkSimple 0 0 0).
Proof.
  assert (word sh) as Hw by (split; apply (bool_decide_unpack _); by vm_compute).
  assert (Forall scalar (lit "-e")) as Ha by (apply (bool_decide_unpack _); by vm_compute).
  assert (NEWLINE ∉ lit "-e") as Hn by (apply (bool_decide_unpack _); by vm_compute).
  split.
  - apply (script_runs_interpreter 1 files (lit "b") sh (lit "-e") (lit "exit") [] [] (mkSimple 0 0 0));
      [done..|by vm_compute|by vm_compute|by vm_compute].
  - apply (script_runs_interpreter 1 files (lit "a") sh (lit "-e") (lit "exit") [] [] (mkSimple 0 0 0));
      [done..|by vm_compute|by vm_compute|by vm_compute].
Defined.

(** A script with an argument, whose interpreter is a program. *)
Lemma load_follows_interpreters_witness :
  load_user_app 2 files [lit "a"; lit "x"] [] (mkSimple 0 0 0) =
    Some (map_image [127; 1; 2] [127; 1; 2] [sh; lit "-e"; lit "a"; lit "x"] [] (mkSimple 0 0 0)) /\
  load_user_app 1 files [lit "a"; lit "x"] [] (mkSimple 0 0 0) = None.
Proof.
  assert (chain files [lit "a"; lit "x"] 1 (inr ([sh; lit "-e"; lit "a"; lit "x"], [127; 1; 2], [127; 1; 2]))) as Hc.
  { apply (chain_script_arg files (lit "a") [lit "x"] sh (lit "-e")).
    - exists (lit "exit"). split; by vm_compute.
    - split; apply (bool_decide_unpack _); by vm_compute.
    - apply (bool_decide_unpack _); by vm_compute.
    - apply (bool_decide_unpack _); by vm_compute.
    - by vm_compute.
    - apply chain_program; [|done]. split_and!; [by vm_compute|intros r Hr; discriminate Hr|done]. }
  split; [exact (load_follows_interpreters 2 files _ _ _ [] (mkSimple 0 0 0) Hc)
         |exact (load_follows_interpreters 1 files _ _ _ [] (mkSimple 0 0 0) Hc)].
Defined.

(** A segment that fits, and one that says it has 2^64 - 1 bytes: one page is mapped. *)
Lemma map_segments_sound_witness :
  segs_mapped [127; 1; 2] [mkSegment 65536 8192 3 0 7] (mkSimple 0 0 0) (mkSimple 65536 73728 7) /\
  segs_mapped (replicate 4098 1) [mkSegment 69631 (2 ^ 64 - 1) 2 4095 7] (mkSimple 0 0 0) (mkSimple 65536 69632 7).
Proof.
  split; (apply map_segments_sound; [|vm_compute; reflexivity]);
    (constructor; [|constructor]); unfold seg_typed, is_usize; cbn [seg_vaddr seg_memsz seg_offset seg_filesz]; lia.
Defined.

Lemma execve_failure_loses_image_witness :
  exec_image (TF := Z * Z) (fun ip tf => (ip, snd tf)) (fun sp tf => (fst tf, sp)) 5 files 1 sh [lit "none"] []
    (mkExec (mkSimple 65536 73728 7) [] [] (65536, 0)) =
  Some (Err ENOENT, mkExec (mkSimple 4096 8192 13) [] [] (65536, 0)).
Proof.
  apply (execve_failure_loses_image (fun ip tf => (ip, snd tf)) (fun sp tf => (fst tf, sp)) 4 files sh [lit "none"] []
    AxNotFound (mkSimple 4096 8192 13) (mkExec (mkSimple 65536 73728 7) [] [] (65536, 0))); by vm_compute.
Defined.
End LoaderSample.
