(* ===== verification/Files.v ===== *)
(** * The files behind descriptors: [Kstat] and the [FileLike] trait of
    [api/src/file/mod.rs] with its implementations in [file/fs.rs], [file/stdio.rs],
    [file/net.rs] and [file/pipe.rs]

    The method called on an [Arc<dyn FileLike>] is chosen by the kind of the
    object.  The file system, the console, the sockets and the buffered reader
    are interfaces; pipes are those of the pipe model, whose rings are part of the
    state of the descriptors. *)

From stdpp Require Import base list gmap option.
From Stdlib Require Import ZArith Lia.
From S2P Require Import Prelude Bytes.
From S2P Require Import Pipe FdTable.
Import ListNotations.

(** ** [Kstat] and the user's structures *)

Record Kstat : Type := mkKstat {
  ino : Z; nlink : Z; uid : Z; gid : Z; mode : Z; size : Z; blocks : Z; blksize : Z
}.

Definition Kstat_default : Kstat := mkKstat 1 1 1 1 0 0 0 4096.
Definition with_mode (m : Z) (s : Kstat) : Kstat :=
  mkKstat (ino s) (nlink s) (uid s) (gid s) m (size s) (blocks s) (blksize s).
Definition with_blksize (b : Z) (s : Kstat) : Kstat :=
  mkKstat (ino s) (nlink s) (uid s) (gid s) (mode s) (size s) (blocks s) b.

(** The fields of [linux_raw_sys]'s [stat] (of x86-64) and [statx] that the
    conversions assign; every other field is zero. *)
Record stat : Type := mkStat {
  st_ino : Z; st_nlink : Z; st_mode : Z; st_uid : Z; st_gid : Z; st_size : Z; st_blksize : Z; st_blocks : Z
}.
Record statx : Type := mkStatx {
  stx_blksize : Z; stx_attributes : Z; stx_nlink : Z; stx_uid : Z; stx_gid : Z; stx_mode : Z; stx_ino : Z;
  stx_size : Z; stx_blocks : Z
}.

Definition stat_from (v : Kstat) : stat :=
  mkStat (as_u64 (ino v)) (as_u64 (nlink v)) (as_u32 (mode v)) (as_u32 (uid v)) (as_u32 (gid v))
    (as_i64 (size v)) (as_i64 (blksize v)) (as_i64 (blocks v)).

Definition statx_from (v : Kstat) : statx :=
  mkStatx (as_u32 (blksize v)) (as_u64 (mode v)) (as_u32 (nlink v)) (as_u32 (uid v)) (as_u32 (gid v))
    (as_u16 (mode v)) (as_u64 (ino v)) (as_u64 (size v)) (as_u64 (blocks v)).

(** ** The console: [file/stdio.rs] *)

(** [axhal::console] transfers some bytes, at most as many as asked for. *)
Class Console (CON : Type) : Type := {
  con_read : nat -> CON -> list Z * CON;
  con_write : list Z -> CON -> CON
}.

(** What is pending comes in order; nothing comes only when nothing is pending
    (or nothing was asked for). *)
Class ConsoleOk (CON : Type) `{Console CON} : Type := {
  pending : CON -> list Z;
  con_read_spec n c : exists m, (m <= n)%nat /\ fst (con_read n c) = take m (pending c) /\
    pending (snd (con_read n c)) = drop m (pending c) /\
    (fst (con_read n c) = [] -> n = 0%nat \/ pending c = [])
}.

Section Stdio.
Context {CON : Type} `{Console CON}.

Definition crnl (c : Z) : Z := if c =? 13 then 10 else c.

Definition console_read_bytes (n : nat) (c : CON) : list Z * CON :=
  let '(bs, c') := con_read n c in (map crnl bs, c').

Definition console_write_bytes (buf : list Z) (c : CON) : Z * CON :=
  (Z.of_nat (length buf), con_write buf c).

(** [StdinRaw::read]: the loop that fills [room] bytes; a turn that brings
    something makes the room smaller, so [S room] turns are enough. *)
Fixpoint raw_loop (fuel room : nat) (c : CON) : list Z * CON :=
  match fuel with
  | O => ([], c)
  | S fuel' =>
      if (room =? 0)%nat then ([], c)
      else
        let '(bs, c) := console_read_bytes room c in
        match bs with
        | [] => ([], c)
        | _ :: _ => let '(r, c) := raw_loop fuel' (room - length bs) c in (bs ++ r, c)
        end
  end.

Definition StdinRaw_read (n : nat) (c : CON) : list Z * CON := raw_loop (S n) n c.
Definition StdoutRaw_write (buf : list Z) (c : CON) : Z * CON := console_write_bytes buf c.

(** [axio::BufReader] over a reader: its state is [BR]. *)
Context {BR : Type}
  (br_read : (nat -> CON -> list Z * CON) -> nat -> BR * CON -> (AxError + list Z) * (BR * CON)).

Definition stdin_read (n : nat) (s : BR * CON) : (AxError + list Z) * (BR * CON) := br_read StdinRaw_read n s.

End Stdio.

(** [Stdin::read_blocked], where [rd] is one locked read of the shared reader, [n]
    the size of the buffer and [env i] what happens to the system [S] while the
    caller yields for the [i]-th time.  [None] when there was nothing in [fuel]
    tries. *)
Fixpoint blocked_loop {S} (rd : S -> (AxError + list Z) * S) (fuel i : nat) (env : nat -> S -> S) (s : S)
  : option ((AxError + list Z) * S) :=
  match fuel with
  | O => None
  | Datatypes.S fuel' =>
      match rd s with
      | (inl e, s) => Some (inl e, s)
      | (inr [], s) => blocked_loop rd fuel' (Datatypes.S i) env (env i s)
      | (inr bs, s) => Some (inr bs, s)
      end
  end.

Definition read_blocked {S} (rd : S -> (AxError + list Z) * S) (fuel : nat) (env : nat -> S -> S) (n : nat) (s : S)
  : option ((AxError + list Z) * S) :=
  match rd s with
  | (inl e, s) => Some (inl e, s)
  | (inr bs, s) =>
      if (n =? 0)%nat || negb (bool_decide (bs = [])) then Some (inr bs, s) else blocked_loop rd fuel 0 env s
  end.

(** *** Reading the console in pieces is reading it at once *)

Section StdioOk.
Context {CON : Type} `{ConsoleOk CON}.

Lemma raw_loop_spec fuel : forall room c, (room < fuel)%nat ->
  fst (raw_loop fuel room c) = map crnl (take room (pending c)) /\
  pending (snd (raw_loop fuel room c)) = drop room (pending c).
Proof.
  induction fuel as [|fuel IH]; intros room c Hf; [lia|]. cbn [raw_loop].
  destruct (Nat.eqb_spec room 0) as [->|Hr]; [by rewrite drop_0|].
  unfold console_read_bytes. destruct (con_read_spec room c) as (m & Hm & Hb & Hp & He).
  destruct (con_read room c) as [bs c1]. simpl in *.
  destruct bs as [|b bs]; simpl.
  - destruct He as [?|E]; [done|lia|]. rewrite Hp, E, !take_nil, !drop_nil. done.
  - assert (S (length bs) = m `min` length (pending c))%nat as Hlen.
    { rewrite <- length_take, <- Hb. done. }
    rewrite length_map. set (k := S (length bs)) in *.
    specialize (IH (room - k)%nat c1 ltac:(lia)).
    destruct (raw_loop fuel (room - k) c1) as [r c2]. simpl in *. destruct IH as [-> ->]. rewrite Hp.
    assert (map crnl (b :: bs) = map crnl (take m (pending c))) as Hmap by (by rewrite Hb).
    destruct (decide (m <= length (pending c))%nat) as [Hle|Hgt].
    + assert (k = m) as -> by lia. split.
      * rewrite app_comm_cons. change (crnl b :: map crnl bs) with (map crnl (b :: bs)). rewrite Hmap, <- map_app.
        f_equal. rewrite take_take_drop. f_equal. lia.
      * rewrite drop_drop. f_equal. lia.
    + rewrite (drop_ge (pending c) m) by lia. rewrite take_nil, drop_nil, app_nil_r.
      split; [|rewrite drop_ge by lia; done].
      change (crnl b :: map crnl bs) with (map crnl (b :: bs)). rewrite Hmap, !take_ge by lia. done.
Qed.

(** C23: the raw console read, which asks the hardware again and again for the rest
    of the buffer, is the same as taking the pending input up to the size of the
    buffer at once, with every carriage return turned into a newline. *)
Theorem StdinRaw_read_equiv n (c : CON) :
  fst (StdinRaw_read n c) = map crnl (take n (pending c)) /\
  pending (snd (StdinRaw_read n c)) = drop n (pending c).
Proof. apply raw_loop_spec. lia. Qed.
End StdioOk.

(** ** Sockets: [file/net.rs] *)

(** [PollState]. *)
Record PollState : Type := mkPoll { poll_readable : bool; poll_writable : bool }.

Inductive Socket (U V : Type) : Type := Udp (udpsocket : U) | Tcp (tcpsocket : V).
Arguments Udp {U V} _.
Arguments Tcp {U V} _.

(** The methods of [axnet]'s sockets, with [ADDR] for [SocketAddr]. *)
Class AxNet (U V ADDR : Type) : Type := {
  udp_recv_from : list Z -> U -> (AxError + Z * ADDR) * list Z * U;
  tcp_recv : list Z -> V -> (AxError + Z) * list Z * V;
  udp_send_to : list Z -> ADDR -> U -> (AxError + Z) * U;
  udp_send : list Z -> U -> (AxError + Z) * U;
  tcp_send : list Z -> V -> (AxError + Z) * V;
  tcp_listen : V -> (AxError + unit) * V;
  tcp_accept : V -> (AxError + V) * V;
  udp_poll : U -> (AxError + PollState) * U;
  tcp_poll : V -> (AxError + PollState) * V;
  udp_local_addr : U -> (AxError + ADDR) * U;
  tcp_local_addr : V -> (AxError + ADDR) * V;
  udp_peer_addr : U -> (AxError + ADDR) * U;
  tcp_peer_addr : V -> (AxError + ADDR) * V;
  udp_bind : ADDR -> U -> (AxError + unit) * U;
  tcp_bind : ADDR -> V -> (AxError + unit) * V;
  udp_connect : ADDR -> U -> (AxError + unit) * U;
  tcp_connect : ADDR -> V -> (AxError + unit) * V;
  udp_shutdown : U -> (AxError + unit) * U;
  tcp_shutdown : V -> (AxError + unit) * V;
  udp_set_nonblocking : bool -> U -> U;
  tcp_set_nonblocking : bool -> V -> V
}.

(** [?] on an [AxResult]. *)
Definition ax_ok `{ErrorConv} {A} (r : AxError + A) : LinuxResult A :=
  match r with inr a => Ok a | inl e => Err (ax_into e) end.

Section Sockets.
Context {U V ADDR : Type} `{AxNet U V ADDR} `{ErrorConv}.
Abbreviation SockM A := (Socket U V -> LinuxResult A * Socket U V).

(** The macro [impl_socket!]. *)
Definition impl_socket {A} (fu : U -> (AxError + A) * U) (fv : V -> (AxError + A) * V) : SockM A := fun s =>
  match s with
  | Udp u => let '(r, u) := fu u in (ax_ok r, Udp u)
  | Tcp v => let '(r, v) := fv v in (ax_ok r, Tcp v)
  end.

Definition socket_send (buf : list Z) : SockM Z := impl_socket (udp_send buf) (tcp_send buf).
Definition socket_poll : SockM PollState := impl_socket udp_poll tcp_poll.
Definition socket_local_addr : SockM ADDR := impl_socket udp_local_addr tcp_local_addr.
Definition socket_peer_addr : SockM ADDR := impl_socket udp_peer_addr tcp_peer_addr.
Definition socket_bind (a : ADDR) : SockM unit := impl_socket (udp_bind a) (tcp_bind a).
Definition socket_connect (a : ADDR) : SockM unit := impl_socket (udp_connect a) (tcp_connect a).
Definition socket_shutdown : SockM unit := impl_socket udp_shutdown tcp_shutdown.

Definition socket_recv (buf : list Z) (s : Socket U V) : LinuxResult Z * list Z * Socket U V :=
  match s with
  | Udp u => let '(r, b, u) := udp_recv_from buf u in (ax_ok (sum_map id fst r), b, Udp u)
  | Tcp v => let '(r, b, v) := tcp_recv buf v in (ax_ok r, b, Tcp v)
  end.

Definition socket_sendto (buf : list Z) (a : ADDR) : SockM Z := fun s =>
  match s with
  | Udp u => let '(r, u) := udp_send_to buf a u in (ax_ok r, Udp u)
  | Tcp _ => (Err EISCONN, s)
  end.

Definition socket_recvfrom (buf : list Z) (s : Socket U V) : LinuxResult (Z * option ADDR) * list Z * Socket U V :=
  match s with
  | Udp u => let '(r, b, u) := udp_recv_from buf u in
             (ax_ok (sum_map id (fun x => (fst x, Some (snd x))) r), b, Udp u)
  | Tcp v => let '(r, b, v) := tcp_recv buf v in (ax_ok (sum_map id (fun n => (n, None)) r), b, Tcp v)
  end.

Definition socket_listen : SockM unit := fun s =>
  match s with
  | Udp _ => (Err EOPNOTSUPP, s)
  | Tcp v => let '(r, v) := tcp_listen v in (ax_ok r, Tcp v)
  end.

Definition socket_accept : SockM V := fun s =>
  match s with
  | Udp _ => (Err EOPNOTSUPP, s)
  | Tcp v => let '(r, v) := tcp_accept v in (ax_ok r, Tcp v)
  end.

Definition socket_set_nonblocking (b : bool) (s : Socket U V) : Socket U V :=
  match s with Udp u => Udp (udp_set_nonblocking b u) | Tcp v => Tcp (tcp_set_nonblocking b v) end.
End Sockets.

(** ** Files and directories: [file/fs.rs] *)

(** The metadata of [axfs]: file type, permission bits, size and blocks. *)
Record Metadata : Type := mkMeta { md_type : Z; md_perm : Z; md_size : Z; md_blocks : Z }.

(** The open files ([FH]) of [axfs::fops] over a file-system state [FW]. *)
Class AxFops (FW FH : Type) : Type := {
  fops_read : FH -> list Z -> FW -> (AxError + Z) * list Z * (FH * FW);
  fops_write : FH -> list Z -> FW -> (AxError + Z) * (FH * FW);
  fops_get_attr : FH -> FW -> AxError + Metadata
}.

(** [S_IFDIR], [S_IFCHR], [S_IFSOCK], [S_IFIFO]. *)
Class FileModes : Type := { S_IFDIR : Z; S_IFCHR : Z; S_IFSOCK : Z; S_IFIFO : Z }.

Section Stat.
Context `{FileModes}.

Definition file_kstat (md : Metadata) : Kstat :=
  mkKstat 1 1 1 1 (Z.lor (Z.shiftl (as_u32 (as_u8 (md_type md))) 12) (as_u32 (md_perm md)))
    (md_size md) (md_blocks md) 512.
Definition directory_kstat : Kstat := with_mode (Z.lor S_IFDIR 493) Kstat_default.
Definition stdin_kstat : Kstat := with_mode (Z.lor S_IFCHR 292) Kstat_default.
Definition stdout_kstat : Kstat := with_mode (Z.lor S_IFCHR 144) Kstat_default.
Definition socket_kstat : Kstat := with_blksize 4096 (with_mode (Z.lor S_IFSOCK 511) Kstat_default).
Definition pipe_kstat : Kstat := with_mode (Z.lor S_IFIFO 384) Kstat_default.

(** [FileLike::stat] by the concrete type; [file] is the answer of [File::stat]. *)
Definition kind_stat (k : FileKind) (file : option (LinuxResult Kstat)) : option (LinuxResult Kstat) :=
  match k with
  | KFile _ => file
  | KDirectory _ => Some (Ok directory_kstat)
  | KPipe _ _ => Some (Ok pipe_kstat)
  | KStdin => Some (Ok stdin_kstat)
  | KStdout => Some (Ok stdout_kstat)
  | KSocket => Some (Ok socket_kstat)
  end.
End Stat.

(** ** The trait: [dyn FileLike] *)

(** What lies behind the objects, apart from the rings of the pipes: the console
    and the reader in front of it, the file system, and the open file or the
    socket inside each object. *)
Record World (CON BR U V FW FH : Type) : Type := mkWorld {
  w_console : CON; w_stdin : BR; w_fs : FW; w_files : gmap nat FH; w_socks : gmap nat (Socket U V)
}.
Arguments mkWorld {CON BR U V FW FH} _ _ _ _ _.
Arguments w_console {CON BR U V FW FH} _.
Arguments w_stdin {CON BR U V FW FH} _.
Arguments w_fs {CON BR U V FW FH} _.
Arguments w_files {CON BR U V FW FH} _.
Arguments w_socks {CON BR U V FW FH} _.

Section Dispatch.
Context {T CON BR U V ADDR FW FH : Type} `{FlattenObjects T nat} `{Console CON} `{AxNet U V ADDR} `{AxFops FW FH}
  `{ErrorConv} `{FileModes}
  (br_read : (nat -> CON -> list Z * CON) -> nat -> BR * CON -> (AxError + list Z) * (BR * CON)).

Abbreviation Sys := (FdState T * World CON BR U V FW FH)%type.
Abbreviation Env := (nat -> Sys -> Sys).

Definition set_ring (r : nat) (sh : SharedRing) (s : Sys) : Sys :=
  (mkFd (fd_table s.1) (heap s.1) (<[r := sh]> (rings s.1)) (nonblocking s.1), s.2).
Definition set_console (bc : BR * CON) (s : Sys) : Sys :=
  (s.1, mkWorld bc.2 bc.1 (w_fs s.2) (w_files s.2) (w_socks s.2)).
Definition set_file (o : nat) (hf : FH * FW) (s : Sys) : Sys :=
  (s.1, mkWorld (w_console s.2) (w_stdin s.2) hf.2 (<[o := hf.1]> (w_files s.2)) (w_socks s.2)).
Definition set_sock (o : nat) (k : Socket U V) (s : Sys) : Sys :=
  (s.1, mkWorld (w_console s.2) (w_stdin s.2) (w_fs s.2) (w_files s.2) (<[o := k]> (w_socks s.2))).

(** A read answers the count and the buffer as it leaves it. *)
Abbreviation ReadAns := (option (LinuxResult Z * list Z * Sys)).
Abbreviation WriteAns := (option (LinuxResult Z * Sys)).

(** [Pipe::read] and [Pipe::write] on the ring [r]: the loops of the pipe model
    with the whole system moving between two turns. *)
Fixpoint pipe_read_at (fuel i : nat) (env : Env) (r : nat) (buf : list Z) (s : Sys) : ReadAns :=
  match fuel with
  | O => None
  | S fuel' =>
      sh ← rings s.1 !! r;
      '(t, sh) ← read_iter sh buf;
      let s := set_ring r sh s in
      match t with
      | Return (n, b) => Some (Ok (Z.of_nat n), b, s)
      | Again _ => pipe_read_at fuel' (S i) env r buf (env i s)
      end
  end.

Fixpoint pipe_write_at (fuel i : nat) (env : Env) (r : nat) (buf : list Z) (ws : nat) (s : Sys) : WriteAns :=
  match fuel with
  | O => None
  | S fuel' =>
      sh ← rings s.1 !! r;
      '(t, sh) ← write_iter sh buf ws;
      let s := set_ring r sh s in
      match t with
      | Return n => Some (Ok (Z.of_nat n), s)
      | Again ws => pipe_write_at fuel' (S i) env r buf ws (env i s)
      end
  end.

Definition Pipe_read (fuel : nat) (env : Env) (r : nat) (rd : bool) (buf : list Z) (s : Sys) : ReadAns :=
  if negb rd then Some (Err EPERM, buf, s)
  else if bool_decide (buf = []) then Some (Ok 0, buf, s)
  else pipe_read_at fuel 0 env r buf s.

Definition Pipe_write (fuel : nat) (env : Env) (r : nat) (rd : bool) (buf : list Z) (s : Sys) : WriteAns :=
  if rd then Some (Err EPERM, s)
  else
    sh ← rings s.1 !! r;
    if closed sh then Some (Err EPIPE, s)
    else if bool_decide (buf = []) then Some (Ok 0, s)
    else pipe_write_at fuel 0 env r buf 0 s.

(** One locked read of the console's reader. *)
Definition stdin_locked (n : nat) (s : Sys) : (AxError + list Z) * Sys :=
  let '(r, bc) := stdin_read br_read n (w_stdin s.2, w_console s.2) in (r, set_console bc s).

Definition Stdin_read (fuel : nat) (env : Env) (buf : list Z) (s : Sys) : ReadAns :=
  '(r, s) ← read_blocked (stdin_locked (length buf)) fuel env (length buf) s;
  match r with
  | inr bs => Some (Ok (Z.of_nat (length bs)), bs ++ drop (length bs) buf, s)
  | inl e => Some (Err (ax_into e), buf, s)
  end.

Definition Stdout_write (buf : list Z) (s : Sys) : WriteAns :=
  let '(n, c) := StdoutRaw_write buf (w_console s.2) in Some (Ok n, set_console (w_stdin s.2, c) s).

Definition File_read (o : nat) (buf : list Z) (s : Sys) : ReadAns :=
  h ← w_files s.2 !! o;
  let '(r, b, hf) := fops_read h buf (w_fs s.2) in Some (ax_ok r, b, set_file o hf s).
Definition File_write (o : nat) (buf : list Z) (s : Sys) : WriteAns :=
  h ← w_files s.2 !! o;
  let '(r, hf) := fops_write h buf (w_fs s.2) in Some (ax_ok r, set_file o hf s).
Definition File_stat (o : nat) (s : Sys) : option (LinuxResult Kstat) :=
  h ← w_files s.2 !! o; Some (file_kstat <$> ax_ok (fops_get_attr h (w_fs s.2))).

Definition Socket_read (o : nat) (buf : list Z) (s : Sys) : ReadAns :=
  k ← w_socks s.2 !! o;
  let '(r, b, k) := socket_recv buf k in Some (r, b, set_sock o k s).
Definition Socket_write (o : nat) (buf : list Z) (s : Sys) : WriteAns :=
  k ← w_socks s.2 !! o;
  let '(r, k) := socket_send buf k in Some (r, set_sock o k s).

(** The directions that an object does not have. *)
Definition Directory_read (buf : list Z) (s : Sys) : ReadAns := Some (Err EBADF, buf, s).
Definition Directory_write (buf : list Z) (s : Sys) : WriteAns := Some (Err EBADF, s).
Definition Stdin_write (buf : list Z) (s : Sys) : WriteAns := Some (Err EPERM, s).
Definition Stdout_read (buf : list Z) (s : Sys) : ReadAns := Some (Err EPERM, buf, s).

(** The methods of an [Arc<dyn FileLike>], chosen by its concrete type. *)
Definition filelike_read (fuel : nat) (env : Env) (o : nat) (buf : list Z) (s : Sys) : ReadAns :=
  c ← heap s.1 !! o;
  match cell_kind c with
  | KFile _ => File_read o buf s
  | KDirectory _ => Directory_read buf s
  | KPipe r rd => Pipe_read fuel env r rd buf s
  | KStdin => Stdin_read fuel env buf s
  | KStdout => Stdout_read buf s
  | KSocket => Socket_read o buf s
  end.

Definition filelike_write (fuel : nat) (env : Env) (o : nat) (buf : list Z) (s : Sys) : WriteAns :=
  c ← heap s.1 !! o;
  match cell_kind c with
  | KFile _ => File_write o buf s
  | KDirectory _ => Directory_write buf s
  | KPipe r rd => Pipe_write fuel env r rd buf s
  | KStdin => Stdin_write buf s
  | KStdout => Stdout_write buf s
  | KSocket => Socket_write o buf s
  end.

Definition filelike_stat (o : nat) (s : Sys) : option (LinuxResult Kstat) :=
  c ← heap s.1 !! o; kind_stat (cell_kind c) (File_stat o s).

(** What the objects that never wait say of themselves. *)
Definition File_poll : PollState := mkPoll true true.
Definition Directory_poll : PollState := mkPoll true false.
Definition Stdin_poll : PollState := mkPoll true true.
Definition Stdout_poll : PollState := mkPoll true true.

Definition filelike_poll (o : nat) (s : Sys) : option (LinuxResult PollState * Sys) :=
  c ← heap s.1 !! o;
  match cell_kind c with
  | KFile _ => Some (Ok File_poll, s)
  | KDirectory _ => Some (Ok Directory_poll, s)
  | KStdin => Some (Ok Stdin_poll, s)
  | KStdout => Some (Ok Stdout_poll, s)
  | KPipe r rd =>
      sh ← rings s.1 !! r;
      let '(a, b) := pipe_poll (mkPipe rd) sh in Some (Ok (mkPoll a b), s)
  | KSocket => k ← w_socks s.2 !! o; let '(r, k) := socket_poll k in Some (r, set_sock o k s)
  end.

(** [get_file_like(fd)?.read(buf)?] and [.write(buf)?]; the reference is dropped
    with the statement. *)
Definition fd_read (fuel : nat) (env : Env) (fd : Z) (buf : list Z) (s : Sys) : ReadAns :=
  match get_file_like fd s.1 with
  | (Ok o, f) => '(r, b, s) ← filelike_read fuel env o buf (f, s.2); Some (r, b, (arc_drop o s.1, s.2))
  | (Err e, f) => Some (Err e, buf, (f, s.2))
  | (Panic, f) => Some (Panic, buf, (f, s.2))
  end.
Definition fd_write (fuel : nat) (env : Env) (fd : Z) (buf : list Z) (s : Sys) : WriteAns :=
  match get_file_like fd s.1 with
  | (Ok o, f) => '(r, s) ← filelike_write fuel env o buf (f, s.2); Some (r, (arc_drop o s.1, s.2))
  | (Err e, f) => Some (Err e, (f, s.2))
  | (Panic, f) => Some (Panic, (f, s.2))
  end.
End Dispatch.

(** ** Blocking reads of the console *)

Section Blocked.
Context {S : Type} (rd : S -> (AxError + list Z) * S).

(** The state before try [k], when every earlier try found nothing. *)
Fixpoint waiting (env : nat -> S -> S) (i k : nat) (s : S) : S :=
  match k with O => s | Datatypes.S k' => waiting env (Datatypes.S i) k' (env i (snd (rd s))) end.

Lemma blocked_loop_ready env k : forall i s,
  fst (rd (waiting env i k s)) <> inr [] ->
  exists j r s', (j <= k)%nat /\ blocked_loop rd (Datatypes.S k) i env s = Some (r, s') /\
    (r, s') = rd (waiting env i j s) /\ r <> inr [].
Proof.
  induction k as [|k IH]; intros i s Hr; simpl in Hr; cbn [blocked_loop];
    destruct (rd s) as [[e|[|b bs]] s1] eqn:E; simpl in Hr; try done.
  1,2,3,5: exists 0%nat; do 2 eexists; split_and!; [lia|reflexivity|by rewrite <- E|done].
  destruct (IH (Datatypes.S i) (env i s1) Hr) as (j & r & s' & Hj & Hl & He & Hn).
  exists (Datatypes.S j), r, s'. split_and!; [lia|done| |done]. simpl. by rewrite E.
Qed.

Lemma blocked_loop_nonempty env fuel : forall i s r s',
  blocked_loop rd fuel i env s = Some (r, s') -> r <> inr [].
Proof.
  induction fuel as [|fuel IH]; intros i s r s'; cbn [blocked_loop]; [done|].
  destruct (rd s) as [[e|[|b bs]] s1]; try (by intros [= <- _]). apply IH.
Qed.

Lemma read_blocked_cases env fuel n s r s' :
  n <> 0%nat -> read_blocked rd fuel env n s = Some (r, s') -> r <> inr [].
Proof.
  intros Hn. unfold read_blocked. destruct (rd s) as [[e|bs] s1]; [by intros [= <- _]|].
  destruct (Nat.eqb_spec n 0) as [|_]; [done|]. simpl.
  case_bool_decide as Hb; simpl; [apply blocked_loop_nonempty|]. intros [= <- _] [= ->]. done.
Qed.

(** A read of the console blocks until there is input: into a buffer that is
    not empty it never answers zero bytes, and it answers at the latest at the
    first try that finds something (or an error), with what that try found. *)
Theorem read_blocked_waits env k n (s : S) :
  n <> 0%nat ->
  (forall fuel r s', read_blocked rd fuel env n s = Some (r, s') -> r <> inr []) /\
  (fst (rd s) <> inr [] -> forall fuel, read_blocked rd fuel env n s = Some (rd s)) /\
  (fst (rd s) = inr [] -> fst (rd (waiting env 0 k (snd (rd s)))) <> inr [] ->
   exists j, (j <= k)%nat /\
     read_blocked rd (Datatypes.S k) env n s = Some (rd (waiting env 0 j (snd (rd s))))).
Proof.
  intros Hn. split_and!.
  - intros. by eapply read_blocked_cases.
  - intros Hr fuel. unfold read_blocked. destruct (rd s) as [[e|bs] s1]; [done|]. simpl in Hr.
    rewrite bool_decide_eq_false_2 by congruence. by rewrite orb_true_r.
  - unfold read_blocked. destruct (rd s) as [r0 s1]. cbn [fst snd]. intros -> Hk.
    rewrite bool_decide_eq_true_2 by done. destruct (Nat.eqb_spec n 0); [done|]. cbn [orb negb].
    destruct (blocked_loop_ready env k 0 s1 Hk) as (j & r & s' & Hj & -> & -> & _). eauto.
Qed.
End Blocked.

(** ** A pipe from end to end *)

Section EndToEnd.
Context {T CON BR U V ADDR FW FH : Type} `{FlattenObjectsOk T nat} `{Console CON} `{AxNet U V ADDR} `{AxFops FW FH}
  `{ErrorConv} `{FileModes}
  (br_read : (nat -> CON -> list Z * CON) -> nat -> BR * CON -> (AxError + list Z) * (BR * CON)).
Abbreviation Sys := (FdState T * World CON BR U V FW FH)%type.
#[local] Arguments arc_clone : simpl never.
Implicit Types (f : FdState T) (w : World CON BR U V FW FH) (env : nat -> Sys -> Sys).

(** A turn on a ring commutes with holding a reference to the pipe end. *)
Lemma set_ring_ref f w o c r sh :
  heap f !! o = Some c -> (0 < cell_strong c)%nat ->
  arc_drop o (set_ring r sh (arc_clone o f, w)).1 = (set_ring r sh (f, w)).1.
Proof.
  intros Hc Hl. pose proof (arc_clone_drop (set_ring r sh (f, w)).1 o c Hc Hl) as <-. done.
Qed.

(** The descriptor [fd] names the end [b] of the pipe with ring [r]. *)
Definition is_pipe_end f (fd : Z) (r : nat) (b : bool) : Prop :=
  exists o c, fo_get (fd_table f) (as_usize fd) = Some o /\ heap f !! o = Some c /\
    (0 < cell_strong c)%nat /\ cell_kind c = KPipe r b.

Lemma is_pipe_end_ring f w fd r b r' sh : is_pipe_end f fd r b -> is_pipe_end (set_ring r' sh (f, w)).1 fd r b.
Proof. done. Qed.

Lemma fd_write_turn fuel env f w fd r sh buf n sh' :
  is_pipe_end f fd r false -> rings f !! r = Some sh -> closed sh = false -> buf <> [] ->
  write_iter sh buf 0 = Some (Return n, sh') ->
  fd_write (S fuel) env fd buf (f, w) = Some (Ok (Z.of_nat n), set_ring r sh' (f, w)).
Proof.
  intros (o & c & Ho & Hc & Hl & Hk) Hr Hcl Hb Hi. unfold fd_write, get_file_like, filelike_write.
  simpl. rewrite Ho. simpl. rewrite lookup_alter_eq, Hc. simpl. rewrite Hk.
  unfold Pipe_write. simpl. rewrite Hr. simpl. rewrite Hcl, bool_decide_eq_false_2 by done.
  rewrite Hi. simpl. pose proof (set_ring_ref f w o c r sh' Hc Hl) as E. simpl in E.
  by rewrite E.
Qed.

Lemma fd_read_turn fuel env f w fd r sh buf n b sh' :
  is_pipe_end f fd r true -> rings f !! r = Some sh -> buf <> [] ->
  read_iter sh buf = Some (Return (n, b), sh') ->
  fd_read br_read (S fuel) env fd buf (f, w) = Some (Ok (Z.of_nat n), b, set_ring r sh' (f, w)).
Proof.
  intros (o & c & Ho & Hc & Hl & Hk) Hr Hb Hi. unfold fd_read, get_file_like, filelike_read.
  simpl. rewrite Ho. simpl. rewrite lookup_alter_eq, Hc. simpl. rewrite Hk.
  unfold Pipe_read. simpl. rewrite bool_decide_eq_false_2 by done.
  rewrite Hr. simpl. rewrite Hi. simpl. pose proof (set_ring_ref f w o c r sh' Hc Hl) as E. simpl in E.
  by rewrite E.
Qed.

Lemma add_file_like_ok f o id f' : add_file_like o f = (Ok id, f') ->
  fd_valid id /\ fo_get (fd_table f) id = None /\ heap f' = heap f /\ rings f' = rings f /\
  (forall j, fo_get (fd_table f') j = if decide (j = id) then Some o else fo_get (fd_table f) j).
Proof.
  unfold add_file_like. destruct (fo_add _ _) as [[i t]|] eqn:E; [|done]. intros [= <- <-].
  destruct (fo_add_some _ _ _ _ E) as (Hv & Hn & Hg). destruct (fd_small i Hv) as [-> _]. by split_and!.
Qed.

(** What a successful [pipe2] leaves. *)
Lemma pipe_fds_ok f rfd wfd f' : pipe_fds f = (Ok (rfd, wfd), f') ->
  rfd <> wfd /\
  exists r, rings f' !! r = Some (mkShared ring_new 2) /\ is_pipe_end f' rfd r true /\ is_pipe_end f' wfd r false.
Proof.
  unfold pipe_fds. destruct (pipe_alloc f) as [[rd wr] f0] eqn:E.
  destruct (pipe_alloc_shape f rd wr f0 E) as (r & Hr & Hrd & Hwr & Hne & ->).
  set (f0 := mkFd _ _ _ _).
  destruct (add_file_like rd f0) as [[id1|e|] f1] eqn:E1; [|done..].
  destruct (add_file_like_ok _ _ _ _ E1) as (V1 & N1 & Hp1 & R1 & G1).
  destruct (add_file_like wr f1) as [[id2|e|] f2] eqn:E2; [|by repeat case_match|done].
  destruct (add_file_like_ok _ _ _ _ E2) as (V2 & N2 & Hp2 & R2 & G2). intros [= <- <- <-].
  assert (id1 <> id2) as Hid. { intros ->. rewrite G1, decide_True in N2; done. }
  destruct (fd_small _ V1) as [_ W1]. destruct (fd_small _ V2) as [_ W2]. split; [done|]. exists r. split_and!.
  - rewrite R2, R1. simpl. by rewrite lookup_insert_eq.
  - exists rd, (mkCell (KPipe r true) 1). rewrite W1, G2, decide_False, G1, decide_True by done.
    rewrite Hp2, Hp1. simpl. split_and!; try done; [|lia]. by rewrite lookup_insert_ne, lookup_insert_eq.
  - exists wr, (mkCell (KPipe r false) 1). rewrite W2, G2, decide_True by done.
    rewrite Hp2, Hp1. simpl. split_and!; try done; [|lia]. by rewrite lookup_insert_eq.
Qed.

(** What goes in at one descriptor of a pipe comes out at the other.  After a
    successful [pipe2], a write of up to 255 bytes to the second descriptor
    answers their number without waiting, and a read from the first then fills
    its buffer with the first of them. *)
Theorem pipe_end_to_end f w rfd wfd f' env fuel bytes buf :
  pipe_fds f = (Ok (rfd, wfd), f') -> bytes <> [] -> (length bytes < RING_BUFFER_SIZE)%nat -> buf <> [] ->
  exists s1 s2, let n := Nat.min (length bytes) (length buf) in
    fd_write (S fuel) env wfd bytes (f', w) = Some (Ok (Z.of_nat (length bytes)), s1) /\
    fd_read br_read (S fuel) env rfd buf s1 = Some (Ok (Z.of_nat n), take n bytes ++ drop n buf, s2).
Proof.
  intros Hp Hb Hl Hbuf. destruct (pipe_fds_ok _ _ _ _ Hp) as (_ & r & Hr & Hrd & Hwr).
  set (sh := mkShared ring_new 2) in *.
  destruct (write_iter_refines sh bytes 0) as (sh1 & W & Wf1 & Wc & Wq); [apply ring_new_wf|lia|].
  unfold spec_write in W, Wq. change (contents (ring sh)) with (@nil Z) in W, Wq. cbn [length] in W, Wq.
  rewrite drop_0, !Nat.sub_0_r in Wq. rewrite !Nat.sub_0_r in W.
  destruct (Nat.eqb_spec RING_BUFFER_SIZE 0) as [|_]; [lia|]. simpl in W, Wq.
  destruct (Nat.ltb_spec (length bytes) RING_BUFFER_SIZE); [|lia]. simpl in W, Wq.
  rewrite take_ge in Wq by lia.
  destruct (read_iter_refines sh1 buf) as (sh2 & Rd & _); [done|]. unfold spec_read in Rd. rewrite Wq in Rd.
  assert (Nat.min (length bytes) (length buf) <> 0)%nat as Hn.
  { destruct bytes, buf; simpl; done. }
  destruct (Nat.eqb_spec (Nat.min (length bytes) (length buf)) 0) as [|_]; [done|]. simpl in Rd.
  eexists _, _. split.
  - by apply (fd_write_turn fuel env f' w wfd r sh bytes _ sh1 Hwr Hr).
  - eapply fd_read_turn; [exact (is_pipe_end_ring _ w _ _ _ r sh1 Hrd)| |done|exact Rd].
    simpl. by rewrite lookup_insert_eq.
Qed.
End EndToEnd.

(** ** A console with typed input, and no network or disk *)

Module FilesSample.
#[local] Existing Instances Sample.gmap_objects Sample.gmap_objects_ok.
(** What is typed comes at most three bytes at a time. *)
#[export] Instance typed : Console (list Z) := {|
  con_read n c := (take (Nat.min n 3) c, drop (Nat.min n 3) c);
  con_write _ c := c
|}.
#[export] Instance typed_ok : ConsoleOk (list Z).
Proof.
  refine {| pending := fun c => c |}. intros n c. exists (Nat.min n 3). simpl. split_and!; [lia|done..|].
  destruct n; [by left|]. destruct c; [by right|]. done.
Defined.

Lemma StdinRaw_read_equiv_witness :
  fst (StdinRaw_read 5 [104; 105; 13; 111; 107; 13]) = [104; 105; 10; 111; 107] /\
  pending (snd (StdinRaw_read 5 [104; 105; 13; 111; 107; 13])) = [13].
Proof. exact (StdinRaw_read_equiv 5 [104; 105; 13; 111; 107; 13]). Defined.

(** Nothing at the first two looks, then a key. *)
Definition key_after (s : nat) : (AxError + list Z) * nat :=
  (inr (if (2 <=? s)%nat then [65] else []), s).

Lemma read_blocked_waits_witness :
  exists j, (j <= 2)%nat /\
    read_blocked key_after 3 (fun _ s => S s) 1 0%nat =
    Some (key_after (waiting key_after (fun _ s => S s) 0 j 0%nat)).
Proof.
  destruct (read_blocked_waits key_after (fun _ s => S s) 2 1 0%nat) as (_ & _ & Hw); [lia|].
  apply Hw; vm_compute; congruence.
Defined.

(** Parts of the system that the pipes do not need. *)
#[export] Instance no_net : AxNet unit unit unit := {|
  udp_recv_from b u := (inl AxNotFound, b, u); tcp_recv b v := (inl AxNotFound, b, v);
  udp_send_to _ _ u := (inl AxNotFound, u); udp_send _ u := (inl AxNotFound, u);
  tcp_send _ v := (inl AxNotFound, v); tcp_listen v := (inl AxNotFound, v);
  tcp_accept v := (inl AxNotFound, v); udp_poll u := (inl AxNotFound, u);
  tcp_poll v := (inl AxNotFound, v); udp_local_addr u := (inl AxNotFound, u);
  tcp_local_addr v := (inl AxNotFound, v); udp_peer_addr u := (inl AxNotFound, u);
  tcp_peer_addr v := (inl AxNotFound, v); udp_bind _ u := (inl AxNotFound, u);
  tcp_bind _ v := (inl AxNotFound, v); udp_connect _ u := (inl AxNotFound, u);
  tcp_connect _ v := (inl AxNotFound, v); udp_shutdown u := (inl AxNotFound, u);
  tcp_shutdown v := (inl AxNotFound, v); udp_set_nonblocking _ u := u; tcp_set_nonblocking _ v := v
|}.
#[export] Instance no_files : AxFops unit unit := {|
  fops_read h b f := (inl AxNotFound, b, (h, f)); fops_write h _ f := (inl AxNotFound, (h, f));
  fops_get_attr _ _ := inl AxNotFound
|}.
#[export] Instance errors : ErrorConv := fun _ => EINVAL.
#[export] Instance modes : FileModes := {| S_IFDIR := 16384; S_IFCHR := 8192; S_IFSOCK := 49152; S_IFIFO := 4096 |}.

Definition nothing : World (list Z) unit unit unit unit unit := mkWorld [] tt tt ∅ ∅.
Definition plain_reader (rd : nat -> list Z -> list Z * list Z) (n : nat) (s : unit * list Z)
  : (AxError + list Z) * (unit * list Z) :=
  let '(b, c) := rd n (snd s) in (inr b, (tt, c)).

Lemma pipe_end_to_end_witness :
  exists s1 s2,
    fd_write (ADDR := unit) 1 (fun _ s => s) 4 [1; 2; 3] (Sample.with_pipe, nothing) = Some (Ok 3, s1) /\
    fd_read (ADDR := unit) plain_reader 1 (fun _ s => s) 3 [0; 0] s1 = Some (Ok 2, [1; 2], s2).
Proof.
  apply (pipe_end_to_end plain_reader Sample.booted nothing 3 4 Sample.with_pipe (fun _ s => s) 0 [1; 2; 3] [0; 0]);
    [vm_compute; reflexivity|done|apply Nat.ltb_lt; reflexivity|done].
Defined.
End FilesSample.
