(* ===== verification/Open.v ===== *)
(** * Opening files and asking about them: [sys_openat] of [imp/fs/fd_ops.rs],
    [imp/fs/stat.rs] and [sys_getcwd] of [imp/fs/ctl.rs]

    The opened files and directories of [axfs::fops] are handles; the handle of an
    object is kept beside the descriptor state under the object's identity. *)

From stdpp Require Import base list gmap option.
From Stdlib Require Import ZArith Lia.
From S2P Require Import Prelude Text Bytes AddrSpace Ptr.
From S2P Require Import FdTable Path.
From S2P Require Import Files.
Import ListNotations.

(** ** Interfaces *)

(** [axfs::fops::OpenOptions]: a record of switches. *)
Record OpenOptions : Type := mkOpts {
  o_read : bool; o_write : bool; o_append : bool; o_truncate : bool; o_create : bool; o_execute : bool;
  o_directory : bool
}.

(** [linux_raw_sys]'s flags. *)
Class OpenFlags : Type := {
  O_RDONLY : Z; O_WRONLY : Z; O_APPEND : Z; O_TRUNC : Z; O_CREAT : Z; O_PATH : Z; O_DIRECTORY : Z;
  AT_FDCWD : Z; AT_EMPTY_PATH : Z
}.

(** The functions of [axfs::fops] that open, and the metadata of an open file. *)
Class AxOpen (FS FH DH : Type) : Type := {
  file_open : str -> OpenOptions -> FS -> (AxError + FH) * FS;
  open_file_at : DH -> str -> OpenOptions -> FS -> (AxError + FH) * FS;
  dir_open : str -> OpenOptions -> FS -> (AxError + DH) * FS;
  open_dir_at : DH -> str -> OpenOptions -> FS -> (AxError + DH) * FS;
  get_attr : FH -> FS -> AxError + Metadata
}.

Record Handles (FH DH : Type) : Type := mkHandles { h_files : gmap nat FH; h_dirs : gmap nat DH }.
Arguments mkHandles {FH DH} _ _.
Arguments h_files {FH DH} _.
Arguments h_dirs {FH DH} _.

(** ** [flags_to_options] *)

Section Flags.
Context `{OpenFlags}.

Definition O_EXEC : Z := O_PATH.

Definition flags_to_options (flags : Z) : OpenOptions :=
  let flags := as_u32 flags in
  let acc := Z.land flags 3 in
  let has b := negb (Z.land flags b =? 0) in
  mkOpts (negb (acc =? O_WRONLY) || (acc =? O_RDONLY)) (negb (acc =? O_RDONLY))
    (has O_APPEND) (has O_TRUNC) (has O_CREAT) (has O_EXEC) (has O_DIRECTORY).
End Flags.

Section Open.
Context {T FS FH DH AS : Type} `{FlattenObjects T nat} `{AxFs FS} `{AxOpen FS FH DH}
  `{ErrorConv, MemoryAddr, MappingFlags} `{AddrSpace AS} `{OpenFlags} `{FileModes}.

(** Descriptors, paths and file system; handles; the caller's memory. *)
Abbreviation OState := ((FdState T * PathState FS) * Handles FH DH * UState AS)%type.
Abbreviation OM := (M OState LinuxError).

Definition on_fds {A} (m : M (FdState T) LinuxError A) : OM A := on_fst (on_fst (on_fst m)).
Definition on_paths {A} (m : M (FdState T * PathState FS) LinuxError A) : OM A := on_fst (on_fst m).

(** [path.get_as_str()?]. *)
Definition user_path (p : Z) : OM str := fun s => (get_as_str (us_aspace s.2) (us_mem s.2) p, s).

(** A call of [axfs::fops], with its result as a value. *)
Definition fs_try {A} (f : FS -> (AxError + A) * FS) : OM (AxError + A) := fun s =>
  let '((fd, ps), h, u) := s in
  let '(r, x) := f (fs ps) in (Ok r, ((fd, mkPS (inner ps) x), h, u)).

(** The handle of the directory object [o]. *)
Definition dir_handle (o : nat) : OM DH := fun s => (unwrap_opt (h_dirs s.1.2 !! o), s).

(** [dir] is dropped. *)
Definition drop_dir (dir : option nat) : OM unit :=
  match dir with Some o => on_fds (modify (arc_drop o)) | None => mret tt end.

(** A value that lives until [m] has returned, in whatever way, is dropped then. *)
Definition then_drop {A} (m : OM A) (dir : option nat) : OM A := fun s =>
  let '(r, s) := m s in (r, snd (drop_dir dir s)).

(** [File::new(h, p).add_to_fd_table()] and the same for [Directory]. *)
Definition add_file (h : FH) (p : str) : OM Z := fun s =>
  let '((fd, ps), hs, u) := s in
  let '(o, fd) := arc_new (KFile p) fd in
  let '(r, fd) := add_file_like o fd in
  (r, ((fd, ps), mkHandles (<[o := h]> (h_files hs)) (h_dirs hs), u)).
Definition add_directory (h : DH) (p : str) : OM Z := fun s =>
  let '((fd, ps), hs, u) := s in
  let '(o, fd) := arc_new (KDirectory p) fd in
  let '(r, fd) := add_file_like o fd in
  (r, ((fd, ps), mkHandles (h_files hs) (<[o := h]> (h_dirs hs)), u)).

Definition open_file (dir : option nat) (path : str) (opts : OpenOptions) : OM (AxError + FH) :=
  match dir with
  | None => fs_try (file_open path opts)
  | Some o => d ← dir_handle o; fs_try (open_file_at d path opts)
  end.
Definition open_dir (dir : option nat) (path : str) (opts : OpenOptions) : OM (AxError + DH) :=
  match dir with
  | None => fs_try (dir_open path opts)
  | Some o => d ← dir_handle o; fs_try (open_dir_at d path opts)
  end.

(** The directory is dropped when it has been used to open the other one. *)
Definition open_as_directory (dir : option nat) (path : str) (opts : OpenOptions) (real : str) : OM Z :=
  r ← then_drop (open_dir dir path opts) dir;
  match r with
  | inl e => fail (ax_into e)
  | inr h => fd ← add_directory h real; mret (as_isize fd)
  end.

Definition open_at (dir : option nat) (path : str) (opts : OpenOptions) (real : str) : OM Z :=
  if o_directory opts then open_as_directory dir path opts real
  else
    r ← open_file dir path opts;
    match r with
    | inl AxIsADirectory => open_as_directory dir path opts real
    | inl e => then_drop (fail (ax_into e)) dir
    | inr h => fd ← then_drop (add_file h real) dir; mret (as_isize fd)
    end.

(** [handle_file_path(dirfd, path)?], whose failure drops the directory. *)
Definition real_path_or_drop (dir : option nat) (dirfd : Z) (path : str) : OM FilePath := fun s =>
  match on_paths (handle_file_path AT_FDCWD dirfd path) s with
  | (Ok p, s) => (Ok p, s)
  | (r, s) => (r, snd (drop_dir dir s))
  end.

Definition sys_openat (dirfd path flags : Z) : OM Z :=
  path ← user_path path;
  dir ← (if starts_with_char path SLASH || (dirfd =? AT_FDCWD) then mret None
         else p ← on_fds (Directory_from_fd dirfd); mret (Some (fst p)));
  real ← real_path_or_drop dir dirfd path;
  open_at dir path (flags_to_options flags) real.

Definition sys_open (path flags : Z) : OM Z := sys_openat AT_FDCWD path flags.

(** ** [stat.rs] *)

Definition read_only : OpenOptions := mkOpts true false false false false false false.

(** [File::stat] of an open file. *)
Definition attr_kstat (h : FH) (f : FS) : LinuxResult Kstat := file_kstat <$> ax_ok (get_attr h f).

Definition stat_at_path (path : str) : OM Kstat :=
  r ← fs_try (file_open path read_only);
  match r with
  | inr h => s ← get; lift (attr_kstat h (fs s.1.1.2))
  | inl AxIsADirectory =>
      r ← fs_try (dir_open path read_only);
      match r with inr _ => mret directory_kstat | inl e => fail (ax_into e) end
  | inl e => fail (ax_into e)
  end.

(** [get_file_like(fd)?.stat()?]. *)
Definition stat_of_fd (fd : Z) : OM Kstat :=
  o ← on_fds (get_file_like fd);
  s ← get;
  then_drop
    (lift match
       c ← heap s.1.1.1 !! o;
       kind_stat (cell_kind c) (h ← h_files s.1.2 !! o; Some (attr_kstat h (fs s.1.1.2)))
     with Some r => r | None => Panic end)
    (Some o).

(** [*buf.get_as_mut()? = ks.into()]: the right-hand side comes first. *)
Definition write_stat `{!Pod stat} (statbuf : Z) (ks : Kstat) : OM Z :=
  on_snd (write_user statbuf (stat_from ks));; mret 0.
Definition write_statx `{!Pod statx} (statbuf : Z) (ks : Kstat) : OM Z :=
  on_snd (write_user statbuf (statx_from ks));; mret 0.

(** The target of [fstatat] and [statx]. *)
Definition stat_target (dirfd path flags : Z) : OM Kstat :=
  p ← (if is_null path then mret [] else user_path path);
  if bool_decide (p = []) then
    if Z.land flags AT_EMPTY_PATH =? 0 then fail ENOENT else stat_of_fd dirfd
  else
    p ← on_paths (handle_file_path AT_FDCWD dirfd p);
    stat_at_path p.

Definition sys_stat `{!Pod stat} (path statbuf : Z) : OM Z :=
  p ← user_path path; ks ← stat_at_path p; write_stat statbuf ks.
Definition sys_fstat `{!Pod stat} (fd statbuf : Z) : OM Z := ks ← stat_of_fd fd; write_stat statbuf ks.
Definition sys_lstat `{!Pod stat} (path statbuf : Z) : OM Z := sys_stat path statbuf.
Definition sys_fstatat `{!Pod stat} (dirfd path statbuf flags : Z) : OM Z :=
  ks ← stat_target dirfd path flags; write_stat statbuf ks.
Definition sys_statx `{!Pod statx} (dirfd path flags statxbuf : Z) : OM Z :=
  ks ← stat_target dirfd path flags; write_statx statxbuf ks.

(** ** [sys_getcwd] *)

#[local] Instance byte_pod : Pod Z := int_pod 1.

(** [CString::new(s)], with its terminator. *)
Definition CString_new (s : str) : option (list Z) :=
  let bs := encode_utf8 s in if bool_decide (0 ∈ bs) then None else Some (bs ++ [0]).

Definition sys_getcwd (buf size : Z) : OM Z :=
  b ← on_snd (on_aspace (nullable buf (get_as_mut_slice Z buf size)));
  match b with
  | None => mret 0
  | Some (addr, len) =>
      cwd ← on_paths (fs_query current_dir);
      bs ← lift (ok_or (CString_new cwd) EINVAL);
      if Z.of_nat (length bs) <=? len then
        on_snd (fun u => (Ok tt, mkUState (us_aspace u) (mem_write (us_mem u) addr bs)));;
        mret (as_isize addr)
      else fail ERANGE
  end.
End Open.

(** ** What opening a file does to the descriptors *)

Section OpenInv.
Context {T FS FH DH AS : Type} `{FlattenObjectsOk T nat} `{AxFs FS} `{AxOpen FS FH DH}
  `{ErrorConv, MemoryAddr, MappingFlags} `{AddrSpace AS} `{OpenFlags} `{FileModes}.
Abbreviation OState := ((FdState T * PathState FS) * Handles FH DH * UState AS)%type.
Implicit Types (f : FdState T) (s : OState) (hs : Handles FH DH).

Definition fd_part s : FdState T := s.1.1.1.

(** Every object of a file or a directory has its handle, and no object is a
    socket: no system call makes one. *)
Definition handles_ok f hs : Prop := forall o c, heap f !! o = Some c ->
  match cell_kind c with
  | KFile _ => is_Some (h_files hs !! o)
  | KDirectory _ => is_Some (h_dirs hs !! o)
  | KSocket => False
  | _ => True
  end.

(** The directory held while opening. *)
Definition bump_dir (dir : option nat) (ext : nat -> nat) : nat -> nat :=
  match dir with Some o => bump o ext | None => ext end.
Definition dir_held (dir : option nat) hs : Prop := forall o, dir = Some o -> is_Some (h_dirs hs !! o).

Lemma arc_drop_lookup f o x c : heap (arc_drop o f) !! x = Some c ->
  exists c0, heap f !! x = Some c0 /\ cell_kind c0 = cell_kind c /\ (x <> o -> c0 = c).
Proof.
  unfold arc_drop. destruct (heap f !! o) as [d|] eqn:E; [|eauto]. destruct (_ =? _)%nat; simpl.
  - intros [? ?]%lookup_delete_Some. eauto.
  - intros [[<- <-]|[? ?]]%lookup_insert_Some; [|eauto]. exists d. split_and!; [done..|]. by intros [].
Qed.
Lemma arc_drop_keeps f o x : x <> o -> heap (arc_drop o f) !! x = heap f !! x.
Proof.
  intros Hx. unfold arc_drop. destruct (heap f !! o); [|done]. destruct (_ =? _)%nat; simpl.
  - by rewrite lookup_delete_ne.
  - by rewrite lookup_insert_ne.
Qed.

Lemma handles_ok_drop f hs o : handles_ok f hs -> handles_ok (arc_drop o f) hs.
Proof. intros Hh x c Hx. apply arc_drop_lookup in Hx as (c0 & Hx & <- & _). by apply Hh. Qed.
Lemma handles_ok_clone f hs o : handles_ok f hs -> handles_ok (arc_clone o f) hs.
Proof.
  intros Hh x c. unfold arc_clone. simpl. rewrite lookup_alter_Some.
  intros [(<- & d & Hx & ->)|[? Hx]]; exact (Hh _ _ Hx).
Qed.

(** What [add_file_like] of a new object does. *)
Lemma add_object_spec f ext k :
  (forall r b, k <> KPipe r b) -> fd_inv f ext ->
  let '(o, f1) := arc_new k f in
  let '(r, f2) := add_file_like o f1 in
  fd_inv f2 ext /\ heap f !! o = None /\
  (forall x c, heap f2 !! x = Some c -> (x = o /\ cell_kind c = k) \/ (x <> o /\ heap f !! x = Some c)) /\
  match r with
  | Ok id => fd_valid id /\ fo_get (fd_table f) id = None /\ heap f2 !! o = Some (mkCell k 1) /\
      forall j, fo_get (fd_table f2) j = if decide (j = id) then Some o else fo_get (fd_table f) j
  | Err e => e = EMFILE /\ fd_table f2 = fd_table f
  | Panic => False
  end.
Proof.
  intros Hk Hi. pose proof (arc_new_inv f ext k Hk Hi) as Hn. unfold arc_new in *. simpl in *.
  set (o := fresh (dom (heap f))) in *.
  assert (heap f !! o = None) as Ho by (apply not_elem_of_dom, is_fresh).
  set (f1 := set_heap f _) in *. pose proof (add_file_like_inv f1 ext o Hn) as Ha.
  assert (forall x c, heap f1 !! x = Some c -> (x = o /\ cell_kind c = k) \/ (x <> o /\ heap f !! x = Some c)) as Hh.
  { intros x c Hx. unfold f1 in Hx. simpl in Hx. apply lookup_insert_Some in Hx as [[<- <-]|[? ?]]; [by left|right; done]. }
  destruct (add_file_like o f1) as [[id|e|] f2].
  - destruct Ha as (Hi2 & Hv & Hf & Hg & Eh & _). rewrite Eh. split_and!; try done. apply lookup_insert_eq.
  - destruct Ha as (He & -> & Hi2). split_and!; try done; [|congruence|by rewrite arc_drop_table].
    intros x c (c0 & Hx & Hc & Hne)%arc_drop_lookup. destruct (Hh _ _ Hx) as [[-> ?]|[? ?]]; [left; by split; [|congruence]|right].
    by rewrite <- Hne.
  - by destruct Ha.
Qed.

(** The outcome of opening: a new descriptor for a new object that remembers the
    path [real], or nothing. *)
Definition opened f real (r : LinuxResult Z) f' : Prop :=
  match r with
  | Ok n => fd_valid n /\ fo_get (fd_table f) n = None /\
      exists o k, (k = KFile real \/ k = KDirectory real) /\ heap f !! o = None /\ heap f' !! o = Some (mkCell k 1) /\
        forall j, fo_get (fd_table f') j = if decide (j = n) then Some o else fo_get (fd_table f) j
  | _ => fd_table f' = fd_table f
  end.

Definition drop_opt (dir : option nat) f : FdState T := match dir with Some o => arc_drop o f | None => f end.

Lemma drop_opt_table dir f : fd_table (drop_opt dir f) = fd_table f.
Proof. destruct dir; [apply arc_drop_table|done]. Qed.
Lemma drop_opt_inv dir f ext : fd_inv f (bump_dir dir ext) -> fd_inv (drop_opt dir f) ext.
Proof. destruct dir; [apply arc_drop_inv|done]. Qed.
Lemma drop_opt_handles dir f hs : handles_ok f hs -> handles_ok (drop_opt dir f) hs.
Proof. destruct dir; [apply handles_ok_drop|done]. Qed.
Lemma drop_opt_lookup dir f x c : heap (drop_opt dir f) !! x = Some c -> heap f !! x <> None.
Proof. destruct dir; [|simpl; congruence]. simpl. intros (? & -> & _)%arc_drop_lookup. done. Qed.

(** A held directory is alive. *)
Lemma held_alive f d ext : fd_inv f (bump d ext) -> heap f !! d <> None.
Proof.
  intros Hi E. pose proof (inv_strong _ _ Hi d) as Hs. rewrite E in Hs. unfold bump in Hs.
  rewrite decide_True in Hs by done. simpl in Hs. lia.
Qed.

Lemma drop_dir_eq dir f (ps : PathState FS) hs (u : UState AS) :
  drop_dir dir ((f, ps), hs, u) = (Ok tt, ((drop_opt dir f, ps), hs, u)).
Proof. by destruct dir. Qed.

(** [hs'] is [hs] with a handle for the object [o] of kind [k]. *)
Definition handle_added hs hs' (o : nat) (k : FileKind) : Prop :=
  (forall x, x <> o -> h_files hs' !! x = h_files hs !! x /\ h_dirs hs' !! x = h_dirs hs !! x) /\
  match k with
  | KFile _ => is_Some (h_files hs' !! o) | KDirectory _ => is_Some (h_dirs hs' !! o) | _ => True
  end.

Lemma add_held dir f ext hs k real :
  (k = KFile real \/ k = KDirectory real) -> fd_inv f (bump_dir dir ext) -> handles_ok f hs ->
  let '(o, f1) := arc_new k f in
  let '(r, f2) := add_file_like o f1 in
  forall hs', handle_added hs hs' o k ->
  fd_inv (drop_opt dir f2) ext /\ handles_ok (drop_opt dir f2) hs' /\ opened f real r (drop_opt dir f2).
Proof.
  intros Hk Hi Hh. pose proof (add_object_spec f (bump_dir dir ext) k ltac:(by destruct Hk; subst) Hi) as Ha.
  assert (forall o d, dir = Some d -> heap f !! o = None -> o <> d) as Hd.
  { intros o d -> Ho ->. by apply (held_alive f d ext). }
  destruct (arc_new k f) as [o f1]. destruct (add_file_like o f1) as [r f2].
  destruct Ha as (Hi2 & Ho & Hx & Hr). intros hs' [Hs Hn]. split_and!.
  - by apply drop_opt_inv.
  - apply drop_opt_handles. intros x c Hc. destruct (Hx x c Hc) as [[-> ->]|[Hne Hc']]; [by destruct Hk; subst|].
    destruct (Hs x Hne) as [-> ->]. by apply Hh.
  - destruct r as [id|e|]; simpl; rewrite ?drop_opt_table; [|by destruct Hr..].
    destruct Hr as (Hv & Hf & Hnew & Hg). split_and!; [done..|]. exists o, k. split_and!; [done..| |done].
    destruct dir as [d|]; [|done]. simpl. rewrite arc_drop_keeps; eauto.
Qed.

Lemma handle_added_file hs o h p :
  handle_added hs (mkHandles (<[o := h]> (h_files hs)) (h_dirs hs)) o (KFile p).
Proof. split; simpl; [|rewrite lookup_insert_eq; eauto]. intros x Hx. by rewrite lookup_insert_ne. Qed.
Lemma handle_added_dir hs o h p :
  handle_added hs (mkHandles (h_files hs) (<[o := h]> (h_dirs hs))) o (KDirectory p).
Proof. split; simpl; [|rewrite lookup_insert_eq; eauto]. intros x Hx. by rewrite lookup_insert_ne. Qed.

(** The outcome of a call from [s]: the invariants, and [opened]. *)
Definition open_post ext s real (rs : LinuxResult Z * OState) : Prop :=
  fd_inv (fd_part rs.2) ext /\ handles_ok (fd_part rs.2) rs.2.1.2 /\ rs.2.2 = s.2 /\
  inner rs.2.1.1.2 = inner s.1.1.2 /\ opened (fd_part s) real rs.1 (fd_part rs.2).

Lemma fs_try_eq {A} (g : FS -> (AxError + A) * FS) f ps hs (u : UState AS) :
  fs_try g ((f, ps), hs, u) = (Ok (fst (g (fs ps))), ((f, mkPS (inner ps) (snd (g (fs ps)))), hs, u)).
Proof. unfold fs_try. by destruct (g (fs ps)). Qed.

(** The two ways to open give a result and touch the file system only. *)
Lemma open_file_eq dir path opts f ps hs (u : UState AS) : dir_held dir hs ->
  exists r x, open_file dir path opts ((f, ps), hs, u) = (Ok r, ((f, mkPS (inner ps) x), hs, u)).
Proof.
  intros Hd. unfold open_file. destruct dir as [o|]; [|rewrite fs_try_eq; eauto].
  destruct (Hd o eq_refl) as [d Hl]. unfold_M. unfold dir_handle. cbn [fst snd]. rewrite Hl.
  cbn [unwrap_opt]. rewrite fs_try_eq. eauto.
Qed.
Lemma open_dir_eq dir path opts f ps hs (u : UState AS) : dir_held dir hs ->
  exists r x, open_dir dir path opts ((f, ps), hs, u) = (Ok r, ((f, mkPS (inner ps) x), hs, u)).
Proof.
  intros Hd. unfold open_dir. destruct dir as [o|]; [|rewrite fs_try_eq; eauto].
  destruct (Hd o eq_refl) as [d Hl]. unfold_M. unfold dir_handle. cbn [fst snd]. rewrite Hl.
  cbn [unwrap_opt]. rewrite fs_try_eq. eauto.
Qed.

(** Holding the directory. *)
Definition hold (dir : option nat) f : FdState T := match dir with Some o => arc_clone o f | None => f end.

(** [f] with the directory held is fit for opening. *)
Definition ready dir f ext hs : Prop :=
  fd_inv f ext /\ fd_inv (hold dir f) (bump_dir dir ext) /\ drop_opt dir (hold dir f) = f /\
  handles_ok f hs /\ dir_held dir hs.

Lemma hold_table dir f : fd_table (hold dir f) = fd_table f.
Proof. by destruct dir. Qed.
Lemma hold_None dir f o : heap (hold dir f) !! o = None -> heap f !! o = None.
Proof. destruct dir; [|done]. unfold hold, arc_clone. simpl. by rewrite lookup_alter_None. Qed.
Lemma hold_handles dir f hs : handles_ok f hs -> handles_ok (hold dir f) hs.
Proof. destruct dir; [apply handles_ok_clone|done]. Qed.

Lemma opened_hold dir f real r f' : opened (hold dir f) real r f' -> opened f real r f'.
Proof.
  unfold opened. destruct r as [n|e|]; rewrite ?hold_table; try done.
  intros (Hv & Hf & o & k & Hk & Ho & Hn & Hg). split_and!; [done..|].
  exists o, k. split_and!; [done|by eapply hold_None|done..].
Qed.

Lemma fd_isize n : fd_valid n -> as_isize n = n.
Proof. unfold fd_valid, AX_FILE_LIMIT, as_isize. intros. apply swrap_small; lia. Qed.

Lemma open_as_directory_post dir path opts real f ps hs (u : UState AS) ext :
  ready dir f ext hs ->
  open_post ext ((f, ps), hs, u) real (open_as_directory dir path opts real ((hold dir f, ps), hs, u)).
Proof.
  intros (Hi & _ & Hd & Hh & Hdir). unfold open_as_directory, then_drop. unfold_M.
  destruct (open_dir_eq dir path opts (hold dir f) ps hs u Hdir) as (r & x & ->).
  rewrite drop_dir_eq, Hd. cbn [snd]. destruct r as [e|h]; [done|].
  unfold add_directory. pose proof (add_held None f ext hs (KDirectory real) real ltac:(auto) Hi Hh) as Ha.
  destruct (arc_new _ f) as [o f1]. destruct (add_file_like o f1) as [r f2].
  destruct (Ha _ (handle_added_dir hs o h real)) as (A & B & C).
  destruct r as [n|e|]; try done. split_and!; try done. simpl in C |- *. rewrite fd_isize by apply C. done.
Qed.

Lemma open_at_post dir path opts real f ps hs (u : UState AS) ext :
  ready dir f ext hs ->
  open_post ext ((f, ps), hs, u) real (open_at dir path opts real ((hold dir f, ps), hs, u)).
Proof.
  intros Hr. unfold open_at. destruct (o_directory opts); [by apply open_as_directory_post|].
  unfold then_drop. unfold_M.
  destruct (open_file_eq dir path opts (hold dir f) ps hs u) as (r & x & ->); [apply Hr|].
  destruct r as [e|h].
  - destruct e; try (rewrite drop_dir_eq; destruct Hr as (Hi & _ & -> & Hh & _); done).
    by apply (open_as_directory_post dir path opts real f (mkPS (inner ps) x)).
  - destruct Hr as (_ & Hi & Hd & Hh & _). unfold add_file.
    pose proof (add_held dir (hold dir f) ext hs (KFile real) real ltac:(auto) Hi (hold_handles _ _ _ Hh)) as Ha.
    destruct (arc_new _ _) as [o f1]. destruct (add_file_like o f1) as [r f2].
    destruct (Ha _ (handle_added_file hs o h real)) as (A & B & C%opened_hold). rewrite drop_dir_eq.
    destruct r as [n|e|]; try done. split_and!; try done. simpl in C |- *. rewrite fd_isize by apply C. done.
Qed.

(** The path of the object behind a descriptor, downcast. *)
Definition path_at (dc : FileKind -> option str) (e : LinuxError) (fd : Z) f : LinuxResult str :=
  match fo_get (fd_table f) (as_usize fd) with
  | None => Err EBADF
  | Some o => match (c ← heap f !! o; dc (cell_kind c)) with Some p => Ok p | None => Err e end
  end.

Lemma path_of_fd_eq dc e fd f ext :
  fd_inv f ext -> path_of_fd (from_fd dc e fd) f = (path_at dc e fd f, f).
Proof. apply path_of_fd_pure. Qed.

Lemma path_at_hold dc e fd dir f : path_at dc e fd (hold dir f) = path_at dc e fd f.
Proof.
  unfold path_at. rewrite hold_table. destruct (fo_get _ _) as [o|]; [|done]. simpl.
  destruct dir as [d|]; [|done]. unfold hold, arc_clone. simpl.
  destruct (decide (o = d)) as [->|]; [rewrite lookup_alter_eq|by rewrite lookup_alter_ne].
  by destruct (heap f !! d).
Qed.

(** [handle_file_path] reads the state and leaves it. *)
Definition target_path f (ps : PathState FS) (dirfd : Z) (path : str) : LinuxResult FilePath :=
  let new p := map_err ax_into (FilePath_new ps p) in
  if starts_with_char path SLASH then new path
  else if bool_decide (path = []) then path_at as_file EINVAL dirfd f ≫= new
  else base ← (if dirfd =? AT_FDCWD then new [] else path_at as_directory ENOTDIR dirfd f ≫= new);
       map_err ax_into (join ps base path).

Lemma handle_file_path_eq f ps ext dirfd path :
  fd_inv f ext -> handle_file_path AT_FDCWD dirfd path (f, ps) = (target_path f ps dirfd path, (f, ps)).
Proof.
  intros Hi. unfold handle_file_path, target_path, File_from_fd, Directory_from_fd, new_path, join_path. unfold_M.
  destruct (starts_with_char path SLASH); [done|]. cbn [fst snd]. case_bool_decide as E.
  - rewrite (path_of_fd_eq _ _ _ _ _ Hi). by destruct (path_at _ _ _ _).
  - destruct (dirfd =? AT_FDCWD).
    + cbn [fst snd]. by destruct (map_err ax_into (FilePath_new ps [])).
    + rewrite (path_of_fd_eq _ _ _ _ _ Hi). destruct (path_at _ _ _ _) as [p| |]; try done.
      cbn [fst snd]. by destruct (map_err ax_into (FilePath_new ps p)).
Qed.

Lemma target_path_hold dir f ps dirfd path : target_path (hold dir f) ps dirfd path = target_path f ps dirfd path.
Proof. unfold target_path. by rewrite !path_at_hold. Qed.

Lemma openat_inv s ext dirfd path flags :
  fd_inv (fd_part s) ext -> handles_ok (fd_part s) s.1.2 ->
  let '(r, s') := sys_openat dirfd path flags s in
  fd_inv (fd_part s') ext /\ handles_ok (fd_part s') s'.1.2 /\ s'.2 = s.2 /\
  match r with
  | Ok n => exists p real, get_as_str (us_aspace s.2) (us_mem s.2) path = Ok p /\
      target_path (fd_part s) s.1.1.2 dirfd p = Ok real /\ opened (fd_part s) real r (fd_part s')
  | _ => fd_table (fd_part s') = fd_table (fd_part s)
  end.
Proof.
  destruct s as [[[f ps] hs] u]. unfold fd_part. simpl. intros Hi Hh.
  unfold sys_openat, user_path. unfold_M. simpl.
  destruct (get_as_str (us_aspace u) (us_mem u) path) as [p| |]; try done.
  assert (forall dir, ready dir f ext hs ->
    let '(r, s') := match real_path_or_drop dir dirfd p ((hold dir f, ps), hs, u) with
      | (Ok real, s) => open_at dir p (flags_to_options flags) real s
      | (Err e, s) => (Err e, s) | (Panic, s) => (Panic, s) end in
    fd_inv (fd_part s') ext /\ handles_ok (fd_part s') s'.1.2 /\ s'.2 = u /\
    match r with
    | Ok n => exists p0 real, Ok (E := LinuxError) p = Ok p0 /\
        target_path f ps dirfd p0 = Ok real /\ opened f real r (fd_part s')
    | _ => fd_table (fd_part s') = fd_table f
    end) as Hmain.
  { intros dir Hr. unfold real_path_or_drop, on_paths, on_fst.
    rewrite (handle_file_path_eq _ _ _ _ _ (proj1 (proj2 Hr))), target_path_hold.
    pose proof Hr as (_ & _ & Hd & _).
    destruct (target_path f ps dirfd p) as [real| |] eqn:Et; [|rewrite drop_dir_eq, Hd; done..].
    pose proof (open_at_post dir p (flags_to_options flags) real f ps hs u ext Hr) as (A & B & C & _ & D).
    destruct (open_at _ _ _ _ _) as [r s']. simpl in *. split_and!; try done. destruct r; [|done..]. by exists p, real. }
  destruct (_ || _) eqn:Ed.
  - apply (Hmain None). by split_and!.
  - unfold on_fds, on_fst, Directory_from_fd. pose proof (from_fd_spec as_directory f ext ENOTDIR dirfd Hi) as Hs.
    destruct (fo_get _ _) as [o|] eqn:Eo; [|by rewrite Hs]. destruct Hs as (c & Hc & Hs).
    destruct (as_directory (cell_kind c)) as [q|] eqn:Ek; [|by rewrite Hs]. destruct Hs as [-> Hd].
    apply (Hmain (Some o)). split_and!; try done.
    + apply arc_clone_inv; [by eexists|done].
    + intros ? [= <-]. specialize (Hh o c Hc). by destruct (cell_kind c).
Qed.

(** C14: opening a file keeps the descriptor table and its reference counts exact,
    on success and on every error path: a call that fails leaves the table as it
    was and no reference behind, to the directory it started from or to anything
    else; a call that succeeds installs one new object at a free descriptor and
    changes no other descriptor, and the object remembers the path with the links
    resolved.  Every file and directory object keeps its handle. *)
Theorem openat_spec s ext dirfd path flags :
  fd_inv (fd_part s) ext -> handles_ok (fd_part s) s.1.2 ->
  let '(r, s') := sys_openat dirfd path flags s in
  fd_inv (fd_part s') ext /\ handles_ok (fd_part s') s'.1.2 /\ s'.2 = s.2 /\
  match r with
  | Ok n => exists p real, get_as_str (us_aspace s.2) (us_mem s.2) path = Ok p /\
      target_path (fd_part s) s.1.1.2 dirfd p = Ok real /\ opened (fd_part s) real r (fd_part s')
  | _ => fd_table (fd_part s') = fd_table (fd_part s)
  end.
Proof. apply openat_inv. Qed.

(** What is opened is the path the caller gave, not the path the links lead
    to: when the file system knows no file of that name, opening it fails, even if
    the link table has an entry for it. *)
Theorem openat_ignores_links f ps hs (u : UState AS) dirfd path flags p real e x :
  get_as_str (us_aspace u) (us_mem u) path = Ok p -> starts_with_char p SLASH = true ->
  FilePath_new ps p = Ok real -> o_directory (flags_to_options flags) = false ->
  file_open p (flags_to_options flags) (fs ps) = (inl e, x) -> e <> AxIsADirectory ->
  sys_openat dirfd path flags ((f, ps), hs, u) = (Err (ax_into e), ((f, mkPS (inner ps) x), hs, u)).
Proof.
  intros Hp Hs Hr Hd Ho He. unfold sys_openat, user_path. unfold_M. simpl. rewrite Hp, Hs. simpl.
  unfold real_path_or_drop, on_paths, handle_file_path, new_path, on_fst. rewrite Hs. simpl. rewrite Hr. simpl.
  unfold open_at, open_file. unfold_M. rewrite Hd, fs_try_eq, Ho. simpl. by destruct e.
Qed.

(** Reading the state of the object behind a descriptor. *)
Lemma stat_of_fd_eq f ps hs (u : UState AS) ext fd :
  fd_inv f ext ->
  stat_of_fd fd ((f, ps), hs, u) =
    (match fo_get (fd_table f) (as_usize fd) with
     | None => Err EBADF
     | Some o => default Panic (c ← heap f !! o;
         kind_stat (cell_kind c) (h ← h_files hs !! o; Some (attr_kstat h (fs ps))))
     end, ((f, ps), hs, u)).
Proof.
  intros Hi. unfold stat_of_fd, on_fds, get_file_like. unfold_M.
  destruct (fo_get _ _) as [o|] eqn:Eo; [|done]. destruct (table_alive _ _ _ _ Hi Eo) as [c Hc].
  unfold then_drop. rewrite drop_dir_eq. cbn [fst snd drop_opt].
  rewrite (arc_clone_drop f o c Hc (inv_live _ _ Hi o c Hc)). unfold arc_clone. simpl.
  rewrite lookup_alter_eq, Hc. simpl. by destruct (kind_stat _ _).
Qed.

(** [fstat] stores what the object behind the descriptor says of itself, and
    takes nothing from the descriptors: a closed descriptor is EBADF, and on any
    error the caller's memory is as it was. *)
Theorem fstat_spec `{!Pod stat} f ps hs (u : UState AS) ext fd statbuf :
  fd_inv f ext -> handles_ok f hs ->
  let '(r, s') := sys_fstat fd statbuf ((f, ps), hs, u) in
  fd_part s' = f /\
  match fo_get (fd_table f) (as_usize fd) with
  | None => r = Err EBADF /\ s'.2 = u
  | Some o => exists c k, heap f !! o = Some c /\
      kind_stat (cell_kind c) (h ← h_files hs !! o; Some (attr_kstat h (fs ps))) = Some k /\
      match r with
      | Ok n => exists ks, n = 0 /\ k = Ok ks /\ us_mem s'.2 = store (us_mem u) statbuf (stat_from ks)
      | _ => us_mem s'.2 = us_mem u
      end
  end.
Proof.
  intros Hi Hh. unfold sys_fstat, write_stat, write_user, on_aspace, assign. unfold_M.
  rewrite (stat_of_fd_eq _ _ _ _ _ _ Hi). destruct (fo_get _ _) as [o|] eqn:Eo; [|done].
  destruct (table_alive _ _ _ _ Hi Eo) as [c Hc]. rewrite Hc. simpl.
  assert (exists k, kind_stat (cell_kind c) (h ← h_files hs !! o; Some (attr_kstat h (fs ps))) = Some k) as [k Hk].
  { specialize (Hh o c Hc). destruct (cell_kind c); simpl; eauto. destruct Hh as [h ->]. simpl. eauto. }
  rewrite Hk. simpl.
  destruct k as [ks| |]; [|split; [done|]; by exists c, (Err e)|split; [done|]; by exists c, Panic].
  destruct (get_as_mut stat statbuf (us_aspace u)) as [[a| |] w] eqn:Ea; simpl;
    (split; [done|]); exists c, (Ok ks); (split_and!; [done..|]); [|done|done].
  exists ks. split_and!; [done..|].
  enough (a = statbuf) as -> by done. revert Ea. unfold get_as_mut. unfold_M.
  destruct (check_region _ _ _ _) as [[]]; by intros [=].
Qed.

#[local] Existing Instance byte_pod.

(** [getcwd] into a valid buffer stores the whole path of the current directory
    with its terminator and answers the address of the buffer, exactly when it
    fits; otherwise it answers ERANGE and stores nothing. *)
Theorem getcwd_spec f ps hs (u : UState AS) buf size a cwd :
  is_null buf = false ->
  get_as_mut_slice Z buf size (us_aspace u) = (Ok (buf, size), a) ->
  current_dir (fs ps) = inr cwd -> (0 ∉ encode_utf8 cwd) ->
  sys_getcwd buf size ((f, ps), hs, u) =
    let bs := encode_utf8 cwd ++ [0] in
    if Z.of_nat (length bs) <=? size
    then (Ok (as_isize buf), ((f, ps), hs, mkUState a (mem_write (us_mem u) buf bs)))
    else (Err ERANGE, ((f, ps), hs, mkUState a (us_mem u))).
Proof.
  intros Hn Hs Hc Hz. unfold sys_getcwd, on_aspace, nullable. rewrite Hn. unfold_M. rewrite Hs. simpl.
  unfold on_paths, fs_query, fs_call, on_fst. simpl. rewrite Hc. simpl. unfold CString_new.
  rewrite bool_decide_eq_false_2 by done. simpl. destruct ps as [lm x]. simpl. by destruct (_ <=? size).
Qed.
End OpenInv.

(** ** A file system of named files, with a link *)

Module OpenSample.
Import SimpleMem PathSample.
#[local] Existing Instances Ptr.Sample.sample_conv FdTable.Sample.gmap_objects FdTable.Sample.gmap_objects_ok
  FilesSample.modes.

#[export] Instance linux_open : OpenFlags := {|
  O_RDONLY := 0; O_WRONLY := 1; O_APPEND := 1024; O_TRUNC := 512; O_CREAT := 64; O_PATH := 2097152;
  O_DIRECTORY := 65536; AT_FDCWD := -100; AT_EMPTY_PATH := 4096
|}.

(** A name opens as a file when it is there and as a directory when it is the
    root; a file's handle is its name. *)
Definition open_name (p : str) (f : files) : (AxError + str) * files :=
  (if decide (p ∈ f) then inr p else if bool_decide (p = [SLASH]) then inl AxIsADirectory else inl AxNotFound, f).
#[export] Instance named_open : AxOpen files str str := {|
  file_open p _ f := open_name p f;
  open_file_at d p _ f := open_name (d ++ p) f;
  dir_open p _ f := (if bool_decide (p = [SLASH]) then inr p else inl AxNotFound, f);
  open_dir_at d p _ f := (inl AxNotFound, f);
  get_attr h f := inr (mkMeta 8 420 (Z.of_nat (length h)) 1)
|}.
#[export] Instance stat_pod : Pod stat := {|
  pod_layout := mkLayout 8 8;
  pod_enc s := le_enc 4 (st_mode s) ++ le_enc 4 (as_u32 (st_size s));
  pod_dec bs := stat_from Kstat_default
|}.

(** One page of user memory. *)
Definition in_page (lo hi : Z) : bool := (4096 <=? lo) && (lo <=? hi) && (hi <=? 8192).
#[export] Instance one_page : AddrSpace unit := {
  as_base _ := 4096;
  as_end _ := 8192;
  check_region_access _ '(lo, hi) _ := in_page lo hi;
  populate_area lo n _ s := if in_page lo (lo + n) then (Ok tt, s) else (Err AxInvalidInput, s);
  as_map_alloc _ _ _ _ _ s := (Err AxInvalidInput, s);
  as_unmap _ _ s := (Err AxInvalidInput, s);
  as_protect _ _ _ s := (Err AxInvalidInput, s);
  as_write _ _ _ s := (Err AxInvalidInput, s);
  find_free_area _ _ _ _ _ := None;
  as_present _ '(lo, hi) _ := in_page lo hi
}.

Abbreviation table := (gmap Z nat).
Abbreviation OState := ((FdState table * PathState files) * Handles str str * UState unit)%type.
Definition no_handles : Handles str str := mkHandles ∅ ∅.
(** The caller's memory: the name of a file at 4096 and of a link at 4160. *)
Definition user : UState unit :=
  mkUState tt
    (mem_write (mem_write ∅ 4096 (target ++ [0])) 4160 (link1 ++ [0])).
Definition at_boot (ps : PathState files) : OState := ((FdTable.Sample.booted, ps), no_handles, user).

Lemma booted_inv : fd_inv FdTable.Sample.booted no_ext.
Proof. apply fd_reachable_invariant, FdTable.Sample.booted_reachable. Qed.
Lemma booted_handles : handles_ok FdTable.Sample.booted no_handles.
Proof.
  intros o c Hc. assert (heap FdTable.Sample.booted = {[0%nat := mkCell KStdin 1; 1%nat := mkCell KStdout 1; 2%nat := mkCell KStdout 1]})
    as E by (vm_compute; reflexivity).
  rewrite E in Hc. repeat (apply lookup_insert_Some in Hc as [[<- <-]|[_ Hc]]; [done|]).
  by apply lookup_singleton_Some in Hc as [<- <-].
Qed.

Lemma openat_spec_witness : exists s' real,
  sys_openat AT_FDCWD 4096 0 (at_boot s1) = (Ok 3, s') /\
  opened FdTable.Sample.booted real (Ok 3) (fd_part s') /\ handles_ok (fd_part s') s'.1.2.
Proof.
  pose proof (openat_spec (at_boot s1) no_ext AT_FDCWD 4096 0 booted_inv booted_handles) as Hs.
  assert (fst (sys_openat AT_FDCWD 4096 0 (at_boot s1)) = Ok 3) as E by (vm_compute; reflexivity).
  destruct (sys_openat AT_FDCWD 4096 0 (at_boot s1)) as [r s']. simpl in E. subst r.
  destruct Hs as (_ & Hh & _ & p & real & _ & _ & Ho). exists s', real. by split_and!.
Defined.

(** The link leads to a file that is there, and yet it does not open. *)
Lemma openat_ignores_links_witness :
  real_path (inner s1) link1 = target /\ fst (file_open (FH := str) (DH := str) target (flags_to_options 0) (fs s1)) = inr target /\
  fst (sys_openat AT_FDCWD 4160 0 (at_boot s1)) = Err ENOENT.
Proof.
  split; [vm_compute; reflexivity|]. split; [vm_compute; reflexivity|].
  unfold at_boot. erewrite (openat_ignores_links FdTable.Sample.booted s1 no_handles user AT_FDCWD 4160 0 link1 target
    AxNotFound (fs s1)); [vm_compute; reflexivity|vm_compute; reflexivity..|done].
Defined.

Lemma fstat_spec_witness : exists ks s',
  sys_fstat 0 4104 (at_boot s0) = (Ok 0, s') /\ ks = stdin_kstat /\
  us_mem s'.2 = store (us_mem user) 4104 (stat_from ks).
Proof.
  pose proof (fstat_spec FdTable.Sample.booted s0 no_handles user no_ext 0 4104 booted_inv booted_handles) as Hs.
  assert (fst (sys_fstat 0 4104 (at_boot s0)) = Ok 0) as E by (vm_compute; reflexivity).
  unfold at_boot in *. destruct (sys_fstat 0 4104 _) as [r s']. simpl in E. subst r. destruct Hs as [_ Hs].
  assert (fo_get (fd_table FdTable.Sample.booted) (as_usize 0) = Some 0%nat) as E0 by (vm_compute; reflexivity).
  rewrite E0 in Hs. destruct Hs as (c & k & Hc & Hk & ks & _ & -> & Hm).
  assert (c = mkCell KStdin 1) as ->.
  { assert (heap FdTable.Sample.booted !! 0%nat = Some (mkCell KStdin 1)) as E1 by (vm_compute; reflexivity). congruence. }
  exists ks, s'. split; [done|]. split; [|done]. simpl in Hk. congruence.
Defined.
End OpenSample.
