(* ===== verification/Syscall.v ===== *)
(** * The system-call entry: [src/syscall.rs], and the small calls of
    [api/src/imp/sys.rs]

    [handle_syscall] turns the number and the six register arguments of a trap
    into the call of a handler, converts each argument to the parameter's type,
    and turns the handler's result into the value of the return register.  A call
    with its converted arguments is a value here; the handlers that run on
    descriptors, paths and the caller's memory are composed from the other
    components. *)

From stdpp Require Import base list gmap option relations strings.
From Stdlib Require Import ZArith Lia.
From S2P Require Import Prelude Text Bytes AddrSpace Ptr.
From S2P Require Import TimeStat FdTable Path Files.
From S2P Require Import Open.
Import ListNotations.

(** ** Numbers and calls *)

(** The numbers [handle_syscall] names, of the [syscalls] crate's [Sysno]. *)
Inductive Sysno : Type :=
| No_ioctl | No_chdir | No_mkdirat | No_getdents64 | No_linkat | No_link | No_unlinkat | No_unlink
  | No_getcwd | No_openat | No_open | No_close | No_dup | No_dup2 | No_dup3 | No_fcntl | No_read | No_readv
  | No_write | No_writev | No_lseek | No_mount | No_umount2 | No_pipe2 | No_pipe | No_stat | No_fstat
  | No_lstat | No_newfstatat | No_fstatat | No_statx | No_brk | No_mmap | No_munmap | No_mprotect | No_getpid
  | No_getppid | No_gettid | No_sched_yield | No_nanosleep | No_execve | No_set_tid_address | No_arch_prctl
  | No_clone | No_fork | No_exit | No_exit_group | No_wait4 | No_rt_sigprocmask | No_rt_sigaction
  | No_rt_sigpending | No_rt_sigreturn | No_rt_sigtimedwait | No_rt_sigsuspend | No_kill | No_tkill
  | No_tgkill | No_rt_sigqueueinfo | No_rt_tgsigqueueinfo | No_sigaltstack | No_futex | No_getuid
  | No_geteuid | No_getgid | No_getegid | No_uname | No_gettimeofday | No_times | No_clock_gettime 
| No_other (n : Z).

(** A handler with its arguments (without the trap frame, which is part of the
    state); the last two of [clone] are [child_tid] and [tls], in an order that
    depends on the architecture. *)
Inductive call : Type :=
| C_ioctl (fd op argp : Z)
| C_chdir (path : Z)
| C_mkdirat (dirfd path mode : Z)
| C_getdents64 (fd buf len : Z)
| C_linkat (old_dirfd old_path new_dirfd new_path flags : Z)
| C_link (old_path new_path : Z)
| C_unlinkat (dirfd path flags : Z)
| C_unlink (path : Z)
| C_getcwd (buf size : Z)
| C_openat (dirfd path flags mode : Z)
| C_open (path flags mode : Z)
| C_close (fd : Z)
| C_dup (old_fd : Z)
| C_dup2 (old_fd new_fd : Z)
| C_fcntl (fd cmd arg : Z)
| C_read (fd buf len : Z)
| C_readv (fd iov iocnt : Z)
| C_write (fd buf len : Z)
| C_writev (fd iov iocnt : Z)
| C_lseek (fd offset whence : Z)
| C_mount (source target fs_type flags data : Z)
| C_umount2 (target flags : Z)
| C_pipe2 (fds flags : Z)
| C_stat (path statbuf : Z)
| C_fstat (fd statbuf : Z)
| C_lstat (path statbuf : Z)
| C_fstatat (dirfd path statbuf flags : Z)
| C_statx (dirfd path flags mask statxbuf : Z)
| C_brk (addr : Z)
| C_mmap (addr length prot flags fd offset : Z)
| C_munmap (addr length : Z)
| C_mprotect (addr length prot : Z)
| C_getpid
| C_getppid
| C_gettid
| C_sched_yield
| C_nanosleep (req rem : Z)
| C_execve (path argv envp : Z)
| C_set_tid_address (clear_child_tid : Z)
| C_arch_prctl (code addr : Z)
| C_clone (flags stack parent_tid a3 a4 : Z)
| C_fork
| C_exit (exit_code : Z)
| C_exit_group (exit_code : Z)
| C_waitpid (pid exit_code_ptr options : Z)
| C_rt_sigprocmask (how set oldset sigsetsize : Z)
| C_rt_sigaction (signo act oldact sigsetsize : Z)
| C_rt_sigpending (set sigsetsize : Z)
| C_rt_sigreturn
| C_rt_sigtimedwait (set info timeout sigsetsize : Z)
| C_rt_sigsuspend (set sigsetsize : Z)
| C_kill (pid signo : Z)
| C_tkill (tid signo : Z)
| C_tgkill (tgid tid signo : Z)
| C_rt_sigqueueinfo (tgid signo sig sigsetsize : Z)
| C_rt_tgsigqueueinfo (tgid tid signo sig sigsetsize : Z)
| C_sigaltstack (ss old_ss : Z)
| C_futex (uaddr futex_op value timeout uaddr2 value3 : Z)
| C_getuid
| C_geteuid
| C_getgid
| C_getegid
| C_uname (name : Z)
| C_gettimeofday (ts : Z)
| C_times (tms : Z)
| C_clock_gettime (clock_id ts : Z).

(** ** Decoding *)

Section Decode.
(** Whether the kernel is built for x86-64, and the register arguments. *)
Context (x86_64 : bool) (arg : nat -> Z).

(** The arm of [fs ctl]. *)
Definition decode_fs_ctl (no : Sysno) : option call :=
  match no with
  | No_ioctl => Some (C_ioctl (as_i32 (arg 0)) (arg 1) (arg 2))
  | No_chdir => Some (C_chdir (arg 0))
  | No_mkdirat => Some (C_mkdirat (as_i32 (arg 0)) (arg 1) (as_u32 (arg 2)))
  | No_getdents64 => Some (C_getdents64 (as_i32 (arg 0)) (arg 1) (arg 2))
  | No_linkat => Some (C_linkat (as_i32 (arg 0)) (arg 1) (as_i32 (arg 2)) (arg 3) (as_i32 (arg 4)))
  | No_link => if x86_64 then Some (C_link (arg 0) (arg 1)) else None
  | No_unlinkat => Some (C_unlinkat (as_i32 (arg 0)) (arg 1) (as_u32 (arg 2)))
  | No_unlink => if x86_64 then Some (C_unlink (arg 0)) else None
  | No_getcwd => Some (C_getcwd (arg 0) (arg 1))
  | _ => None
  end.

(** The arm of [fd ops]. *)
Definition decode_fd_ops (no : Sysno) : option call :=
  match no with
  | No_openat => Some (C_openat (as_i32 (arg 0)) (arg 1) (as_i32 (arg 2)) (as_u32 (arg 3)))
  | No_open => if x86_64 then Some (C_open (arg 0) (as_i32 (arg 1)) (as_u32 (arg 2))) else None
  | No_close => Some (C_close (as_i32 (arg 0)))
  | No_dup => Some (C_dup (as_i32 (arg 0)))
  | No_dup2 => if x86_64 then Some (C_dup2 (as_i32 (arg 0)) (as_i32 (arg 1))) else None
  | No_dup3 => Some (C_dup2 (as_i32 (arg 0)) (as_i32 (arg 1)))
  | No_fcntl => Some (C_fcntl (as_i32 (arg 0)) (as_i32 (arg 1)) (arg 2))
  | _ => None
  end.

(** The arm of [io]. *)
Definition decode_io (no : Sysno) : option call :=
  match no with
  | No_read => Some (C_read (as_i32 (arg 0)) (arg 1) (arg 2))
  | No_readv => Some (C_readv (as_i32 (arg 0)) (arg 1) (arg 2))
  | No_write => Some (C_write (as_i32 (arg 0)) (arg 1) (arg 2))
  | No_writev => Some (C_writev (as_i32 (arg 0)) (arg 1) (arg 2))
  | No_lseek => Some (C_lseek (as_i32 (arg 0)) (as_i64 (arg 1)) (as_i32 (arg 2)))
  | _ => None
  end.

(** The arm of [fs mount and pipe]. *)
Definition decode_mount (no : Sysno) : option call :=
  match no with
  | No_mount => Some (C_mount (arg 0) (arg 1) (arg 2) (as_i32 (arg 3)) (arg 4))
  | No_umount2 => Some (C_umount2 (arg 0) (as_i32 (arg 1)))
  | No_pipe2 => Some (C_pipe2 (arg 0) (as_i32 (arg 1)))
  | No_pipe => if x86_64 then Some (C_pipe2 (arg 0) 0) else None
  | _ => None
  end.

(** The arm of [fs stat]. *)
Definition decode_stat (no : Sysno) : option call :=
  match no with
  | No_stat => if x86_64 then Some (C_stat (arg 0) (arg 1)) else None
  | No_fstat => Some (C_fstat (as_i32 (arg 0)) (arg 1))
  | No_lstat => if x86_64 then Some (C_lstat (arg 0) (arg 1)) else None
  | No_newfstatat => if x86_64 then Some (C_fstatat (as_i32 (arg 0)) (arg 1) (arg 2) (as_u32 (arg 3))) else None
  | No_fstatat => if x86_64 then None else Some (C_fstatat (as_i32 (arg 0)) (arg 1) (arg 2) (as_u32 (arg 3)))
  | No_statx => Some (C_statx (as_i32 (arg 0)) (arg 1) (as_u32 (arg 2)) (as_u32 (arg 3)) (arg 4))
  | _ => None
  end.

(** The arm of [mm]. *)
Definition decode_mm (no : Sysno) : option call :=
  match no with
  | No_brk => Some (C_brk (arg 0))
  | No_mmap => Some (C_mmap (arg 0) (arg 1) (as_u32 (arg 2)) (as_u32 (arg 3)) (as_i32 (arg 4)) (as_isize (arg 5)))
  | No_munmap => Some (C_munmap (arg 0) (arg 1))
  | No_mprotect => Some (C_mprotect (arg 0) (arg 1) (as_u32 (arg 2)))
  | _ => None
  end.

(** The arm of [task info, scheduling, operations and management]. *)
Definition decode_task (no : Sysno) : option call :=
  match no with
  | No_getpid => Some C_getpid
  | No_getppid => Some C_getppid
  | No_gettid => Some C_gettid
  | No_sched_yield => Some C_sched_yield
  | No_nanosleep => Some (C_nanosleep (arg 0) (arg 1))
  | No_execve => Some (C_execve (arg 0) (arg 1) (arg 2))
  | No_set_tid_address => Some (C_set_tid_address (arg 0))
  | No_arch_prctl => if x86_64 then Some (C_arch_prctl (as_i32 (arg 0)) (arg 1)) else None
  | No_clone => Some (C_clone (as_u32 (arg 0)) (arg 1) (arg 2) (arg 3) (arg 4))
  | No_fork => if x86_64 then Some C_fork else None
  | No_exit => Some (C_exit (as_i32 (arg 0)))
  | No_exit_group => Some (C_exit_group (as_i32 (arg 0)))
  | No_wait4 => Some (C_waitpid (as_i32 (arg 0)) (arg 1) (as_u32 (arg 2)))
  | _ => None
  end.

(** The arm of [signal and futex]. *)
Definition decode_signal (no : Sysno) : option call :=
  match no with
  | No_rt_sigprocmask => Some (C_rt_sigprocmask (as_i32 (arg 0)) (arg 1) (arg 2) (arg 3))
  | No_rt_sigaction => Some (C_rt_sigaction (as_u32 (arg 0)) (arg 1) (arg 2) (arg 3))
  | No_rt_sigpending => Some (C_rt_sigpending (arg 0) (arg 1))
  | No_rt_sigreturn => Some C_rt_sigreturn
  | No_rt_sigtimedwait => Some (C_rt_sigtimedwait (arg 0) (arg 1) (arg 2) (arg 3))
  | No_rt_sigsuspend => Some (C_rt_sigsuspend (arg 0) (arg 1))
  | No_kill => Some (C_kill (as_i32 (arg 0)) (as_u32 (arg 1)))
  | No_tkill => Some (C_tkill (as_u32 (arg 0)) (as_u32 (arg 1)))
  | No_tgkill => Some (C_tgkill (as_u32 (arg 0)) (as_u32 (arg 1)) (as_u32 (arg 2)))
  | No_rt_sigqueueinfo => Some (C_rt_sigqueueinfo (as_u32 (arg 0)) (as_u32 (arg 1)) (arg 2) (arg 3))
  | No_rt_tgsigqueueinfo => Some (C_rt_tgsigqueueinfo (as_u32 (arg 0)) (as_u32 (arg 1)) (as_u32 (arg 2)) (arg 3) (arg 4))
  | No_sigaltstack => Some (C_sigaltstack (arg 0) (arg 1))
  | No_futex => Some (C_futex (arg 0) (as_u32 (arg 1)) (as_u32 (arg 2)) (arg 3) (arg 4) (as_u32 (arg 5)))
  | _ => None
  end.

(** The arm of [sys and time]. *)
Definition decode_sys (no : Sysno) : option call :=
  match no with
  | No_getuid => Some C_getuid
  | No_geteuid => Some C_geteuid
  | No_getgid => Some C_getgid
  | No_getegid => Some C_getegid
  | No_uname => Some (C_uname (arg 0))
  | No_gettimeofday => Some (C_gettimeofday (arg 0))
  | No_times => Some (C_times (arg 0))
  | No_clock_gettime => Some (C_clock_gettime (as_i32 (arg 0)) (arg 1))
  | _ => None
  end.

(** The [match] on the number: [None] is its last arm. *)
Definition decode (no : Sysno) : option call :=
  match decode_fs_ctl no with Some c => Some c | None =>
  match decode_fd_ops no with Some c => Some c | None =>
  match decode_io no with Some c => Some c | None =>
  match decode_mount no with Some c => Some c | None =>
  match decode_stat no with Some c => Some c | None =>
  match decode_mm no with Some c => Some c | None =>
  match decode_task no with Some c => Some c | None =>
  match decode_signal no with Some c => Some c | None => decode_sys no
  end end end end end end end end.
End Decode.

(** Every argument is a value of the type of its parameter ([UserPtr] and
    [UserConstPtr] are addresses). *)
Definition well_typed (c : call) : Prop :=
  match c with
  | C_ioctl fd op argp => is_i32 fd /\ is_usize op /\ is_usize argp
  | C_chdir path => is_usize path
  | C_mkdirat dirfd path mode => is_i32 dirfd /\ is_usize path /\ is_u32 mode
  | C_getdents64 fd buf len => is_i32 fd /\ is_usize buf /\ is_usize len
  | C_linkat old_dirfd old_path new_dirfd new_path flags => is_i32 old_dirfd /\ is_usize old_path /\ is_i32 new_dirfd /\ is_usize new_path /\ is_i32 flags
  | C_link old_path new_path => is_usize old_path /\ is_usize new_path
  | C_unlinkat dirfd path flags => is_i32 dirfd /\ is_usize path /\ is_u32 flags
  | C_unlink path => is_usize path
  | C_getcwd buf size => is_usize buf /\ is_usize size
  | C_openat dirfd path flags mode => is_i32 dirfd /\ is_usize path /\ is_i32 flags /\ is_u32 mode
  | C_open path flags mode => is_usize path /\ is_i32 flags /\ is_u32 mode
  | C_close fd => is_i32 fd
  | C_dup old_fd => is_i32 old_fd
  | C_dup2 old_fd new_fd => is_i32 old_fd /\ is_i32 new_fd
  | C_fcntl fd cmd arg => is_i32 fd /\ is_i32 cmd /\ is_usize arg
  | C_read fd buf len => is_i32 fd /\ is_usize buf /\ is_usize len
  | C_readv fd iov iocnt => is_i32 fd /\ is_usize iov /\ is_usize iocnt
  | C_write fd buf len => is_i32 fd /\ is_usize buf /\ is_usize len
  | C_writev fd iov iocnt => is_i32 fd /\ is_usize iov /\ is_usize iocnt
  | C_lseek fd offset whence => is_i32 fd /\ is_i64 offset /\ is_i32 whence
  | C_mount source target fs_type flags data => is_usize source /\ is_usize target /\ is_usize fs_type /\ is_i32 flags /\ is_usize data
  | C_umount2 target flags => is_usize target /\ is_i32 flags
  | C_pipe2 fds flags => is_usize fds /\ is_i32 flags
  | C_stat path statbuf => is_usize path /\ is_usize statbuf
  | C_fstat fd statbuf => is_i32 fd /\ is_usize statbuf
  | C_lstat path statbuf => is_usize path /\ is_usize statbuf
  | C_fstatat dirfd path statbuf flags => is_i32 dirfd /\ is_usize path /\ is_usize statbuf /\ is_u32 flags
  | C_statx dirfd path flags mask statxbuf => is_i32 dirfd /\ is_usize path /\ is_u32 flags /\ is_u32 mask /\ is_usize statxbuf
  | C_brk addr => is_usize addr
  | C_mmap addr length prot flags fd offset => is_usize addr /\ is_usize length /\ is_u32 prot /\ is_u32 flags /\ is_i32 fd /\ is_i64 offset
  | C_munmap addr length => is_usize addr /\ is_usize length
  | C_mprotect addr length prot => is_usize addr /\ is_usize length /\ is_u32 prot
  | C_getpid => True
  | C_getppid => True
  | C_gettid => True
  | C_sched_yield => True
  | C_nanosleep req rem => is_usize req /\ is_usize rem
  | C_execve path argv envp => is_usize path /\ is_usize argv /\ is_usize envp
  | C_set_tid_address clear_child_tid => is_usize clear_child_tid
  | C_arch_prctl code addr => is_i32 code /\ is_usize addr
  | C_clone flags stack parent_tid a3 a4 => is_u32 flags /\ is_usize stack /\ is_usize parent_tid /\ is_usize a3 /\ is_usize a4
  | C_fork => True
  | C_exit exit_code => is_i32 exit_code
  | C_exit_group exit_code => is_i32 exit_code
  | C_waitpid pid exit_code_ptr options => is_i32 pid /\ is_usize exit_code_ptr /\ is_u32 options
  | C_rt_sigprocmask how set oldset sigsetsize => is_i32 how /\ is_usize set /\ is_usize oldset /\ is_usize sigsetsize
  | C_rt_sigaction signo act oldact sigsetsize => is_u32 signo /\ is_usize act /\ is_usize oldact /\ is_usize sigsetsize
  | C_rt_sigpending set sigsetsize => is_usize set /\ is_usize sigsetsize
  | C_rt_sigreturn => True
  | C_rt_sigtimedwait set info timeout sigsetsize => is_usize set /\ is_usize info /\ is_usize timeout /\ is_usize sigsetsize
  | C_rt_sigsuspend set sigsetsize => is_usize set /\ is_usize sigsetsize
  | C_kill pid signo => is_i32 pid /\ is_u32 signo
  | C_tkill tid signo => is_u32 tid /\ is_u32 signo
  | C_tgkill tgid tid signo => is_u32 tgid /\ is_u32 tid /\ is_u32 signo
  | C_rt_sigqueueinfo tgid signo sig sigsetsize => is_u32 tgid /\ is_u32 signo /\ is_usize sig /\ is_usize sigsetsize
  | C_rt_tgsigqueueinfo tgid tid signo sig sigsetsize => is_u32 tgid /\ is_u32 tid /\ is_u32 signo /\ is_usize sig /\ is_usize sigsetsize
  | C_sigaltstack ss old_ss => is_usize ss /\ is_usize old_ss
  | C_futex uaddr futex_op value timeout uaddr2 value3 => is_usize uaddr /\ is_u32 futex_op /\ is_u32 value /\ is_usize timeout /\ is_usize uaddr2 /\ is_u32 value3
  | C_getuid => True
  | C_geteuid => True
  | C_getgid => True
  | C_getegid => True
  | C_uname name => is_usize name
  | C_gettimeofday ts => is_usize ts
  | C_times tms => is_usize tms
  | C_clock_gettime clock_id ts => is_i32 clock_id /\ is_usize ts
  end.

(** ** What a program puts in the registers

    The convention of Linux, from the side of the program: the number of a call, and
    its arguments in the registers in the order of the C prototype.  A parameter of 32
    bits is in the low half of its register, whatever the high half holds. *)
Inductive reg : Type := R32 (v : Z) | R64 (v : Z).
Definition in_reg (r : Z) (x : reg) : Prop :=
  match x with R32 v => as_u32 r = as_u32 v | R64 v => r = as_usize v end.

(** Some calls only x86-64 has; two have two numbers. *)
Definition abi (x86_64 : bool) (c : call) : list (Sysno * list reg) :=
  match c with
  | C_ioctl fd op argp => [(No_ioctl, [R32 fd; R64 op; R64 argp])]
  | C_chdir path => [(No_chdir, [R64 path])]
  | C_mkdirat dirfd path mode => [(No_mkdirat, [R32 dirfd; R64 path; R32 mode])]
  | C_getdents64 fd buf len => [(No_getdents64, [R32 fd; R64 buf; R64 len])]
  | C_linkat old_dirfd old_path new_dirfd new_path flags => [(No_linkat, [R32 old_dirfd; R64 old_path; R32 new_dirfd; R64 new_path; R32 flags])]
  | C_link old_path new_path => if x86_64 then [(No_link, [R64 old_path; R64 new_path])] else []
  | C_unlinkat dirfd path flags => [(No_unlinkat, [R32 dirfd; R64 path; R32 flags])]
  | C_unlink path => if x86_64 then [(No_unlink, [R64 path])] else []
  | C_getcwd buf size => [(No_getcwd, [R64 buf; R64 size])]
  | C_openat dirfd path flags mode => [(No_openat, [R32 dirfd; R64 path; R32 flags; R32 mode])]
  | C_open path flags mode => if x86_64 then [(No_open, [R64 path; R32 flags; R32 mode])] else []
  | C_close fd => [(No_close, [R32 fd])]
  | C_dup old_fd => [(No_dup, [R32 old_fd])]
  | C_dup2 old_fd new_fd => (No_dup3, [R32 old_fd; R32 new_fd]) :: if x86_64 then [(No_dup2, [R32 old_fd; R32 new_fd])] else []
  | C_fcntl fd cmd arg => [(No_fcntl, [R32 fd; R32 cmd; R64 arg])]
  | C_read fd buf len => [(No_read, [R32 fd; R64 buf; R64 len])]
  | C_readv fd iov iocnt => [(No_readv, [R32 fd; R64 iov; R64 iocnt])]
  | C_write fd buf len => [(No_write, [R32 fd; R64 buf; R64 len])]
  | C_writev fd iov iocnt => [(No_writev, [R32 fd; R64 iov; R64 iocnt])]
  | C_lseek fd offset whence => [(No_lseek, [R32 fd; R64 offset; R32 whence])]
  | C_mount source target fs_type flags data => [(No_mount, [R64 source; R64 target; R64 fs_type; R32 flags; R64 data])]
  | C_umount2 target flags => [(No_umount2, [R64 target; R32 flags])]
  | C_pipe2 fds flags => (No_pipe2, [R64 fds; R32 flags]) :: if x86_64 && (flags =? 0) then [(No_pipe, [R64 fds])] else []
  | C_stat path statbuf => if x86_64 then [(No_stat, [R64 path; R64 statbuf])] else []
  | C_fstat fd statbuf => [(No_fstat, [R32 fd; R64 statbuf])]
  | C_lstat path statbuf => if x86_64 then [(No_lstat, [R64 path; R64 statbuf])] else []
  | C_fstatat dirfd path statbuf flags => [(if x86_64 then No_newfstatat else No_fstatat, [R32 dirfd; R64 path; R64 statbuf; R32 flags])]
  | C_statx dirfd path flags mask statxbuf => [(No_statx, [R32 dirfd; R64 path; R32 flags; R32 mask; R64 statxbuf])]
  | C_brk addr => [(No_brk, [R64 addr])]
  | C_mmap addr length prot flags fd offset => [(No_mmap, [R64 addr; R64 length; R32 prot; R32 flags; R32 fd; R64 offset])]
  | C_munmap addr length => [(No_munmap, [R64 addr; R64 length])]
  | C_mprotect addr length prot => [(No_mprotect, [R64 addr; R64 length; R32 prot])]
  | C_getpid => [(No_getpid, [])]
  | C_getppid => [(No_getppid, [])]
  | C_gettid => [(No_gettid, [])]
  | C_sched_yield => [(No_sched_yield, [])]
  | C_nanosleep req rem => [(No_nanosleep, [R64 req; R64 rem])]
  | C_execve path argv envp => [(No_execve, [R64 path; R64 argv; R64 envp])]
  | C_set_tid_address clear_child_tid => [(No_set_tid_address, [R64 clear_child_tid])]
  | C_arch_prctl code addr => if x86_64 then [(No_arch_prctl, [R32 code; R64 addr])] else []
  | C_clone flags stack parent_tid a3 a4 => [(No_clone, [R32 flags; R64 stack; R64 parent_tid; R64 a3; R64 a4])]
  | C_fork => if x86_64 then [(No_fork, [])] else []
  | C_exit exit_code => [(No_exit, [R32 exit_code])]
  | C_exit_group exit_code => [(No_exit_group, [R32 exit_code])]
  | C_waitpid pid exit_code_ptr options => [(No_wait4, [R32 pid; R64 exit_code_ptr; R32 options])]
  | C_rt_sigprocmask how set oldset sigsetsize => [(No_rt_sigprocmask, [R32 how; R64 set; R64 oldset; R64 sigsetsize])]
  | C_rt_sigaction signo act oldact sigsetsize => [(No_rt_sigaction, [R32 signo; R64 act; R64 oldact; R64 sigsetsize])]
  | C_rt_sigpending set sigsetsize => [(No_rt_sigpending, [R64 set; R64 sigsetsize])]
  | C_rt_sigreturn => [(No_rt_sigreturn, [])]
  | C_rt_sigtimedwait set info timeout sigsetsize => [(No_rt_sigtimedwait, [R64 set; R64 info; R64 timeout; R64 sigsetsize])]
  | C_rt_sigsuspend set sigsetsize => [(No_rt_sigsuspend, [R64 set; R64 sigsetsize])]
  | C_kill pid signo => [(No_kill, [R32 pid; R32 signo])]
  | C_tkill tid signo => [(No_tkill, [R32 tid; R32 signo])]
  | C_tgkill tgid tid signo => [(No_tgkill, [R32 tgid; R32 tid; R32 signo])]
  | C_rt_sigqueueinfo tgid signo sig sigsetsize => [(No_rt_sigqueueinfo, [R32 tgid; R32 signo; R64 sig; R64 sigsetsize])]
  | C_rt_tgsigqueueinfo tgid tid signo sig sigsetsize => [(No_rt_tgsigqueueinfo, [R32 tgid; R32 tid; R32 signo; R64 sig; R64 sigsetsize])]
  | C_sigaltstack ss old_ss => [(No_sigaltstack, [R64 ss; R64 old_ss])]
  | C_futex uaddr futex_op value timeout uaddr2 value3 => [(No_futex, [R64 uaddr; R32 futex_op; R32 value; R64 timeout; R64 uaddr2; R32 value3])]
  | C_getuid => [(No_getuid, [])]
  | C_geteuid => [(No_geteuid, [])]
  | C_getgid => [(No_getgid, [])]
  | C_getegid => [(No_getegid, [])]
  | C_uname name => [(No_uname, [R64 name])]
  | C_gettimeofday ts => [(No_gettimeofday, [R64 ts])]
  | C_times tms => [(No_times, [R64 tms])]
  | C_clock_gettime clock_id ts => [(No_clock_gettime, [R32 clock_id; R64 ts])]
  end.

Lemma in_reg_i32 r v : is_i32 v -> in_reg r (R32 v) -> as_i32 r = v.
Proof.
  unfold is_i32, in_reg, as_u32, as_i32, wrap, swrap. intros Hv E. change (32 - 1) with 31.
  rewrite <- Zplus_mod_idemp_l, E, Zplus_mod_idemp_l, Z.mod_small by lia. lia.
Qed.
Lemma in_reg_u32 r v : is_u32 v -> in_reg r (R32 v) -> as_u32 r = v.
Proof. unfold is_u32, in_reg. intros Hv ->. by apply wrap_small. Qed.
Lemma in_reg_usize r v : is_usize v -> in_reg r (R64 v) -> r = v.
Proof. unfold is_usize, in_reg. intros Hv ->. by apply wrap_small. Qed.
Lemma in_reg_i64 r v : is_i64 v -> in_reg r (R64 v) -> as_i64 r = v.
Proof.
  unfold is_i64, in_reg, as_usize, as_i64, wrap, swrap. intros Hv ->. change (64 - 1) with 63.
  rewrite Zplus_mod_idemp_l, Z.mod_small by lia. lia.
Qed.

Lemma decode_meant x86_64 arg c no l :
  well_typed c -> (no, l) ∈ abi x86_64 c -> (forall i x, l !! i = Some x -> in_reg (arg i) x) ->
  decode x86_64 arg no = Some c.
Proof.
  intros Hw Ha Hl.
  pose proof (Hl 0%nat) as H0; pose proof (Hl 1%nat) as H1; pose proof (Hl 2%nat) as H2;
    pose proof (Hl 3%nat) as H3; pose proof (Hl 4%nat) as H4; pose proof (Hl 5%nat) as H5. clear Hl.
  destruct c, x86_64; simpl in Ha; try destruct (Z.eqb_spec flags 0); set_unfold in Ha; destruct_or?; try done;
    injection Ha as -> ->; simpl in *; unfold decode; simpl;
    destruct_and?; repeat match goal with H : forall x, Some ?y = Some x -> _ |- _ => specialize (H y eq_refl) end;
    repeat match goal with
    | Hv : is_i32 ?v, Hh : in_reg ?r (R32 ?v) |- _ => apply (in_reg_i32 r v Hv) in Hh; rewrite ?Hh
    | Hv : is_u32 ?v, Hh : in_reg ?r (R32 ?v) |- _ => apply (in_reg_u32 r v Hv) in Hh; rewrite ?Hh
    | Hv : is_usize ?v, Hh : in_reg ?r (R64 ?v) |- _ => apply (in_reg_usize r v Hv) in Hh; rewrite ?Hh
    | Hv : is_i64 ?v, Hh : in_reg ?r (R64 ?v) |- _ => apply (in_reg_i64 r v Hv) in Hh; rewrite ?Hh
    end; first [reflexivity | by subst | by f_equal; f_equal].
Qed.

Lemma decode_known x86_64 arg no c : decode x86_64 arg no = Some c -> exists l, (no, l) ∈ abi x86_64 c.
Proof.
  unfold decode. destruct no, x86_64; simpl; try discriminate; intros [= <-]; eexists; simpl; first [by left | by right; left].
Qed.


(** ** The trap handler *)

Section Handler.
(** The state [S] of the system: the saved registers, the time counters of the
    running task, the clock.  [err_code] is [LinuxError::code]; [run] executes a
    handler, [None] for one that does not return ([exit], [exit_group]). *)
Context {S : Type} (x86_64 : bool) (Sysno_from : Z -> Sysno) (err_code : LinuxError -> Z)
  (tf_arg : S -> nat -> Z) (time_stat : S -> TimeStat) (set_time_stat : TimeStat -> S -> S)
  (monotonic_ns : S -> Z) (run : call -> S -> option (LinuxResult Z * S)).

(** The counters of the task on the way in and on the way out. *)
Definition enter_kernel (s : S) : S :=
  set_time_stat (time_stat_from_user_to_kernel (monotonic_ns s) (time_stat s)) s.
Definition leave_kernel (s : S) : S :=
  set_time_stat (time_stat_from_kernel_to_user (monotonic_ns s) (time_stat s)) s.

(** [result.unwrap_or_else(|err| -err.code() as _)]. *)
Definition answer (r : LinuxResult Z) : outcome LinuxError Z :=
  match r with Ok v => Ok v | Err e => Ok (as_isize (- err_code e)) | Panic => Panic end.

Definition handle_syscall (syscall_num : Z) (s : S) : option (outcome LinuxError Z * S) :=
  let sysno := Sysno_from (as_u32 syscall_num) in
  let s := enter_kernel s in
  '(result, s) ← match decode x86_64 (tf_arg s) sysno with
                 | Some c => run c s
                 | None => Some (Err ENOSYS, s)
                 end;
  match answer result with
  | Ok ans => Some (Ok ans, leave_kernel s)
  | r => Some (r, s)
  end.

(** C20: the value in the return register tells what happened: a handler's result
    comes back as it is, and an error, whichever it is, as its negated code, which
    is in [-4095, -1]; a number that no handler is for is answered with -ENOSYS and
    changes nothing but the time counters. *)
Theorem handle_syscall_answers num s ans s' :
  (forall e, 1 <= err_code e <= 4095) ->
  handle_syscall num s = Some (Ok ans, s') ->
  let no := Sysno_from (as_u32 num) in
  match decode x86_64 (tf_arg (enter_kernel s)) no with
  | None => ans = - err_code ENOSYS /\ s' = leave_kernel (enter_kernel s)
  | Some c => exists r s1, run c (enter_kernel s) = Some (r, s1) /\ s' = leave_kernel s1 /\
      (r = Ok ans \/ exists e, r = Err e /\ ans = - err_code e /\ -4095 <= ans <= -1)
  end.
Proof.
  intros Hc. unfold handle_syscall. simpl.
  assert (forall e, as_isize (- err_code e) = - err_code e) as Hw.
  { intros e. specialize (Hc e). apply swrap_small; lia. }
  destruct (decode _ _ _) as [c|]; simpl.
  - destruct (run c (enter_kernel s)) as [[r s1]|] eqn:Er; simpl; [|done].
    intros Ha. exists r, s1. split; [done|]. destruct r as [v|e|]; simpl in Ha; simplify_eq.
    + split; [done|]. by left.
    + rewrite Hw. split; [done|]. right. specialize (Hc e). exists e. split_and!; [done|done|lia..].
  - intros Ha. simplify_eq. by rewrite Hw.
Qed.
End Handler.

(** ** [api/src/imp/sys.rs] *)

Definition sys_getuid : LinuxResult Z := Ok 0.
Definition sys_geteuid : LinuxResult Z := Ok 1.
Definition sys_getgid : LinuxResult Z := Ok 0.
Definition sys_getegid : LinuxResult Z := Ok 1.

(** A string in an array of 65 characters. *)
Definition pad_str (info : str) : list Z := encode_utf8 info ++ replicate (65 - length (encode_utf8 info)) 0.

(** [new_utsname]: six such arrays. *)
Record new_utsname : Type := mkUts {
  sysname : list Z; nodename : list Z; release : list Z; version : list Z; machine : list Z; domainname : list Z
}.
#[export] Instance utsname_pod : Pod new_utsname := {|
  pod_layout := mkLayout 390 1;
  pod_enc u := sysname u ++ nodename u ++ release u ++ version u ++ machine u ++ domainname u;
  pod_dec bs :=
    let field i := take 65 (drop (65 * i) bs) in
    mkUts (field 0%nat) (field 1%nat) (field 2%nat) (field 3%nat) (field 4%nat) (field 5%nat)
|}.

Definition UTSNAME : new_utsname :=
  mkUts (pad_str (lit "Starry")) (pad_str (lit "Starry - machine[0]")) (pad_str (lit "10.0.0"))
    (pad_str (lit "10.0.0")) (pad_str (lit "10.0.0")) (pad_str (lit "https://github.com/oscomp/starry-next")).

Section Uname.
Context {AS : Type} `{ErrorConv, MemoryAddr, MappingFlags} `{AddrSpace AS}.
Definition sys_uname (name : Z) : M (UState AS) LinuxError Z := write_user name UTSNAME;; mret 0.

(** What a successful [uname] leaves reads back as the six names. *)
Theorem uname_reads_back name (u u' : UState AS) n :
  sys_uname name u = (Ok n, u') -> n = 0 /\ load (us_mem u') name = UTSNAME.
Proof.
  unfold sys_uname, write_user, on_aspace, assign, get_as_mut. unfold_M.
  destruct (check_region _ _ _ _) as [[]]; intros E; try discriminate.
  apply pair_eq in E as [E <-]. split; [congruence|]. cbn [us_mem]. unfold load, store.
  replace (Z.to_nat (layout_size (pod_layout new_utsname))) with (length (pod_enc UTSNAME)) by (vm_compute; reflexivity).
  rewrite mem_read_write. vm_compute. reflexivity.
Qed.
End Uname.

(** ** The calls on descriptors, paths and user memory, composed *)

(** [linux_raw_sys]'s constants of [fcntl] and [unlinkat]. *)
Class CallConsts : Type := { F_DUPFD : Z; F_DUPFD_CLOEXEC : Z; F_SETFL : Z; O_NONBLOCK : Z; AT_REMOVEDIR : Z }.

Definition sys_ioctl (fd op argp : Z) : LinuxResult Z := Ok 0.

Section Run.
Context {T FS FH DH AS : Type} `{FlattenObjects T nat} `{AxFs FS} `{AxOpen FS FH DH}
  `{ErrorConv, MemoryAddr, MappingFlags} `{AddrSpace AS} `{OpenFlags} `{FileModes} `{!Pod stat, !Pod statx}
  `{CallConsts}.
Abbreviation OState := ((FdState T * PathState FS) * Handles FH DH * UState AS)%type.
Abbreviation OM := (M OState LinuxError).

(** A path call, whose strings come from the caller's memory. *)
Definition with_strings {A} (m : (Z -> LinuxResult str) -> M (FdState T * PathState FS) LinuxError A) : OM A :=
  fun s => on_paths (m (get_as_str (us_aspace s.2) (us_mem s.2))) s.

(** A call on the descriptors and the caller's memory. *)
Definition on_fds_user {A} (m : M (FdState T * UState AS) LinuxError A) : OM A := fun s =>
  let '((f, ps), hs, u) := s in let '(r, (f, u)) := m (f, u) in (r, ((f, ps), hs, u)).

(** The handlers that need no more state than this; [None] for the others. *)
Definition run_fs (c : call) : option (OM Z) :=
  match c with
  | C_ioctl fd op argp => Some (lift (sys_ioctl fd op argp))
  | C_chdir path => Some (with_strings (fun str => sys_chdir str path))
  | C_mkdirat dirfd path _ => Some (with_strings (fun str => sys_mkdirat AT_FDCWD str dirfd path))
  | C_linkat old_dirfd old_path new_dirfd new_path _ =>
      Some (with_strings (fun str => sys_linkat AT_FDCWD str old_dirfd old_path new_dirfd new_path))
  | C_link old_path new_path => Some (with_strings (fun str => sys_link AT_FDCWD str old_path new_path))
  | C_unlinkat dirfd path flags =>
      Some (with_strings (fun str => sys_unlinkat AT_FDCWD str AT_REMOVEDIR dirfd path flags))
  | C_unlink path => Some (with_strings (fun str => sys_unlink AT_FDCWD str AT_REMOVEDIR path))
  | C_getcwd buf size => Some (sys_getcwd buf size)
  | C_openat dirfd path flags _ => Some (sys_openat dirfd path flags)
  | C_open path flags _ => Some (sys_open path flags)
  | C_close fd => Some (on_fds (sys_close fd))
  | C_dup old_fd => Some (on_fds (sys_dup old_fd))
  | C_dup2 old_fd new_fd => Some (on_fds (sys_dup2 old_fd new_fd))
  | C_fcntl fd cmd arg => Some (on_fds (sys_fcntl F_DUPFD F_DUPFD_CLOEXEC F_SETFL O_NONBLOCK fd cmd arg))
  | C_pipe2 fds _ => Some (on_fds_user (sys_pipe2 fds))
  | C_stat path statbuf => Some (sys_stat path statbuf)
  | C_fstat fd statbuf => Some (sys_fstat fd statbuf)
  | C_lstat path statbuf => Some (sys_lstat path statbuf)
  | C_fstatat dirfd path statbuf flags => Some (sys_fstatat dirfd path statbuf flags)
  | C_statx dirfd path flags _ statxbuf => Some (sys_statx dirfd path flags statxbuf)
  | C_getuid => Some (lift sys_getuid)
  | C_geteuid => Some (lift sys_geteuid)
  | C_getgid => Some (lift sys_getgid)
  | C_getegid => Some (lift sys_getegid)
  | C_uname name => Some (on_snd (sys_uname name))
  | _ => None
  end.
End Run.

(** ** The descriptors survive any run of system calls *)

Section Survive.
Context {T FS FH DH AS : Type} `{FlattenObjectsOk T nat} `{AxFs FS} `{AxOpen FS FH DH}
  `{ErrorConv, MemoryAddr, MappingFlags} `{AddrSpace AS} `{OpenFlags} `{FileModes} `{!Pod stat, !Pod statx}
  `{CallConsts}.
Abbreviation OState := ((FdState T * PathState FS) * Handles FH DH * UState AS)%type.
Abbreviation OM := (M OState LinuxError).
Abbreviation FM := (M (FdState T) LinuxError).
Abbreviation PM := (M (FdState T * PathState FS) LinuxError).

(** *** Descriptor operations keep the handles fit *)

Definition keeps {A} (m : FM A) : Prop :=
  forall (f : FdState T) (hs : Handles FH DH), handles_ok f hs -> handles_ok (snd (m f)) hs.

Lemma keeps_bind {A B} (m : FM A) (k : A -> FM B) : keeps m -> (forall a, keeps (k a)) -> keeps (m ≫= k).
Proof.
  intros Hm Hk f hs Hh. specialize (Hm f hs Hh). unfold_M. destruct (m f) as [[a| |] f1]; [by apply Hk|done..].
Qed.
Lemma keeps_ret {A} (r : LinuxResult A) : keeps (lift r).
Proof. by intros f hs. Qed.
Lemma keeps_mret {A} (a : A) : keeps (mret a).
Proof. by intros f hs. Qed.
Lemma keeps_drop o : keeps (modify (arc_drop o)).
Proof. intros f hs Hh. by apply handles_ok_drop. Qed.
Lemma keeps_get fd : keeps (get_file_like fd).
Proof. intros f hs Hh. unfold get_file_like. destruct (fo_get _ _); [by apply handles_ok_clone|done]. Qed.
Lemma keeps_add o : keeps (add_file_like o).
Proof. intros f hs Hh. unfold add_file_like. destruct (fo_add _ _) as [[]|]; [done|by apply handles_ok_drop]. Qed.
Lemma keeps_close fd : keeps (close_file_like fd).
Proof.
  intros f hs Hh. unfold close_file_like. destruct (fo_remove _ _) as [[o|] t]; [|done].
  by apply handles_ok_drop.
Qed.
Lemma keeps_nonblocking o b : keeps (set_nonblocking o b).
Proof. intros f hs Hh. unfold set_nonblocking. by repeat case_match. Qed.
Lemma keeps_alloc (f : FdState T) (hs : Handles FH DH) : handles_ok f hs -> handles_ok (snd (pipe_alloc f)) hs.
Proof.
  intros Hh. destruct (pipe_alloc f) as [[rd wr] f0] eqn:E.
  destruct (pipe_alloc_shape f rd wr f0 E) as (r & _ & _ & _ & _ & ->).
  intros o c Hc. simpl in Hc. do 2 (apply lookup_insert_Some in Hc as [[<- <-]|[_ Hc]]; [done|]). by apply (Hh o).
Qed.
#[local] Hint Resolve keeps_bind keeps_ret keeps_mret keeps_drop keeps_get keeps_add keeps_close keeps_nonblocking : vegar.

Lemma keeps_dup fd : keeps (dup_fd fd).
Proof. unfold dup_fd. auto 8 with vegar. Qed.
Lemma keeps_dup2 a b : keeps (sys_dup2 a b).
Proof.
  intros f hs Hh. unfold sys_dup2. destruct (fo_get _ _) as [o|]; [|done].
  pose proof (handles_ok_clone _ _ o Hh) as Hc. destruct (a =? b); [by apply handles_ok_drop|].
  destruct (fo_remove _ _) as [[d|] t].
  - pose proof (handles_ok_drop (set_table (arc_clone o f) t) hs d Hc). by destruct (fo_add_at _ _ _).
  - by destruct (fo_add_at _ _ _).
Qed.
Lemma keeps_fcntl a b c d fd cmd arg : keeps (sys_fcntl a b c d fd cmd arg).
Proof. unfold sys_fcntl. repeat case_match; auto 10 using keeps_dup with vegar. Qed.
Lemma keeps_pipe_fds : keeps pipe_fds.
Proof.
  intros f hs Hh. unfold pipe_fds. pose proof (keeps_alloc f hs Hh) as Ha.
  destruct (pipe_alloc f) as [[rd wr] f0]. simpl in Ha.
  pose proof (keeps_add rd f0 hs Ha) as K1. destruct (add_file_like rd f0) as [[a| |] f1]; simpl in K1.
  - pose proof (keeps_add wr f1 hs K1) as K2. destruct (add_file_like wr f1) as [[b| |] f2]; simpl in K2; try done.
    pose proof (keeps_close a f2 hs K2) as K3. by destruct (close_file_like a f2) as [[]].
  - by apply handles_ok_drop.
  - done.
Qed.

(** *** Path operations leave the descriptors alone *)

Definition fixes {A} (m : PM A) : Prop :=
  forall (f : FdState T) (ps : PathState FS) ext, fd_inv f ext -> fst (snd (m (f, ps))) = f.

Lemma fixes_bind {A B} (m : PM A) (k : A -> PM B) : fixes m -> (forall a, fixes (k a)) -> fixes (m ≫= k).
Proof.
  intros Hm Hk f ps ext Hi. specialize (Hm f ps ext Hi). unfold_M.
  destruct (m (f, ps)) as [[a| |] [f1 ps1]]; simpl in Hm; subst; [by apply (Hk a f ps1 ext)|done..].
Qed.
Lemma fixes_lift {A} (r : LinuxResult A) : fixes (lift r).
Proof. by intros f ps ext. Qed.
Lemma fixes_mret {A} (a : A) : fixes (mret a).
Proof. by intros f ps ext. Qed.
Lemma fixes_fail {A} e : fixes (fail e : PM A).
Proof. by intros f ps ext. Qed.
Lemma fixes_snd {A} (m : M (PathState FS) LinuxError A) : fixes (on_snd m).
Proof. intros f ps ext _. unfold on_snd. by destruct (m ps). Qed.
Lemma fixes_call {A} (g : FS -> (AxError + A) * FS) : fixes (fs_call g).
Proof. intros f ps ext _. unfold fs_call. simpl. by destruct (g (fs ps)). Qed.
Lemma fixes_path dirfd path : fixes (handle_file_path AT_FDCWD dirfd path).
Proof. intros f ps ext Hi. by rewrite (handle_file_path_eq _ _ _ _ _ Hi). Qed.
#[local] Hint Resolve fixes_bind fixes_lift fixes_mret fixes_fail fixes_snd fixes_call fixes_path : vegar.

Lemma fixes_linkat str a b c d : fixes (sys_linkat AT_FDCWD str a b c d).
Proof. unfold sys_linkat. auto 12 with vegar. Qed.
Lemma fixes_unlinkat str a b c : fixes (sys_unlinkat AT_FDCWD str AT_REMOVEDIR a b c).
Proof.
  unfold sys_unlinkat, fs_query. do 2 (apply fixes_bind; [auto with vegar|intros ?]).
  destruct (_ =? _); [auto with vegar|]. apply fixes_bind; [auto with vegar|]. intros []; auto with vegar.
Qed.

(** *** The invariant of the whole state *)

(** [ext] counts the references from elsewhere: other tables, calls under way. *)
Definition sys_inv (ext : nat -> nat) (s : OState) : Prop := fd_inv (fd_part s) ext /\ handles_ok (fd_part s) s.1.2.

Definition preserves {A} (m : OM A) : Prop :=
  forall ext s, sys_inv ext s -> fst (m s) <> Panic -> sys_inv ext (snd (m s)).

Lemma preserves_bind {A B} (m : OM A) (k : A -> OM B) :
  preserves m -> (forall a, preserves (k a)) -> preserves (m ≫= k).
Proof.
  intros Hm Hk ext s Hi. specialize (Hm ext s Hi). unfold_M. destruct (m s) as [[a| |] s1]; simpl in *.
  - apply Hk, Hm. done.
  - intros _. by apply Hm.
  - done.
Qed.
Lemma preserves_same {A} (m : OM A) : (forall ext s, sys_inv ext s -> (snd (m s)).1.1.1 = s.1.1.1 /\ (snd (m s)).1.2 = s.1.2) -> preserves m.
Proof. intros Hm ext s Hi _. destruct (Hm ext s Hi) as [E1 E2]. unfold sys_inv, fd_part in *. by rewrite E1, E2. Qed.

Lemma preserves_lift {A} (r : LinuxResult A) : preserves (lift r).
Proof. by apply preserves_same. Qed.
Lemma preserves_mret {A} (a : A) : preserves (mret a).
Proof. by apply preserves_same. Qed.
Lemma preserves_fail {A} e : preserves (fail e : OM A).
Proof. by apply preserves_same. Qed.
Lemma preserves_user {A} (m : M (UState AS) LinuxError A) : preserves (on_snd m).
Proof. apply preserves_same. intros ext [x u] _. unfold on_snd. by destruct (m u). Qed.
Lemma preserves_path p : preserves (user_path p).
Proof. by apply preserves_same. Qed.
Lemma preserves_try {A} (g : FS -> (AxError + A) * FS) : preserves (fs_try g).
Proof. apply preserves_same. intros ext [[[f ps] hs] u] _. by rewrite fs_try_eq. Qed.
Lemma preserves_paths {A} (m : PM A) : fixes m -> preserves (on_paths m).
Proof.
  intros Hm. apply preserves_same. intros ext [[[f ps] hs] u] [Hi _]. unfold on_paths, on_fst.
  specialize (Hm f ps ext Hi). destruct (m (f, ps)) as [r [f1 ps1]]. done.
Qed.
Lemma preserves_strings {A} (m : (Z -> LinuxResult str) -> PM A) : (forall str, fixes (m str)) -> preserves (with_strings m).
Proof. intros Hm ext s. by apply preserves_paths. Qed.
Lemma preserves_fds {A} (m : FM A) : keeps m ->
  (forall ext f, fd_inv f ext -> fst (m f) <> Panic -> fd_inv (snd (m f)) ext) -> preserves (on_fds m).
Proof.
  intros Hk Hm ext [[[f ps] hs] u] [Hi Hh] Hp. unfold on_fds, on_fst in *. unfold sys_inv, fd_part in *. simpl in *.
  specialize (Hk f hs Hh). specialize (Hm ext f Hi). destruct (m f) as [r f1]. simpl in *. auto.
Qed.
Lemma preserves_stat_of_fd fd : preserves (stat_of_fd fd).
Proof. apply preserves_same. intros ext [[[f ps] hs] u] [Hi _]. by rewrite (stat_of_fd_eq _ _ _ _ _ _ Hi). Qed.
#[local] Hint Resolve preserves_bind preserves_lift preserves_mret preserves_fail preserves_user preserves_path
  preserves_try preserves_paths preserves_strings preserves_stat_of_fd : vegar.

Lemma preserves_stat_at p : preserves (stat_at_path p).
Proof.
  unfold stat_at_path. apply preserves_bind; [auto with vegar|]. intros [e|h].
  - destruct e; auto with vegar. apply preserves_bind; [auto with vegar|]. intros [|]; auto with vegar.
  - apply preserves_bind; [by apply preserves_same|auto with vegar].
Qed.
Lemma preserves_target dirfd path flags : preserves (stat_target dirfd path flags).
Proof.
  unfold stat_target. apply preserves_bind; [destruct (is_null path); auto with vegar|]. intros p.
  case_bool_decide; [destruct (_ =? 0); auto with vegar|]. apply preserves_bind; [auto with vegar|apply preserves_stat_at].
Qed.
Lemma preserves_write_stat buf ks : preserves (write_stat buf ks).
Proof. unfold write_stat. auto with vegar. Qed.
Lemma preserves_write_statx buf ks : preserves (write_statx buf ks).
Proof. unfold write_statx. auto with vegar. Qed.
Lemma preserves_openat dirfd path flags : preserves (sys_openat dirfd path flags).
Proof.
  intros ext s [Hi Hh] _. pose proof (openat_inv s ext dirfd path flags Hi Hh) as Ho.
  destruct (sys_openat dirfd path flags s) as [r s']. by destruct Ho as (? & ? & _).
Qed.
Lemma preserves_getcwd buf size : preserves (sys_getcwd buf size).
Proof.
  unfold sys_getcwd, fs_query. apply preserves_bind; [auto with vegar|]. intros [[a len]|]; [|auto with vegar].
  apply preserves_bind; [auto with vegar|]. intros cwd. apply preserves_bind; [auto with vegar|]. intros bs.
  destruct (_ <=? len); auto with vegar.
Qed.
Lemma preserves_pipe2 fds : preserves (on_fds_user (sys_pipe2 fds)).
Proof.
  intros ext [[[f ps] hs] u] [Hi Hh] _. unfold fd_part in *. simpl in *. unfold on_fds_user, sys_pipe2. unfold_M.
  destruct (on_aspace _ u) as [[a| |] u1]; try done.
  pose proof (keeps_pipe_fds f hs Hh) as Hk. pose proof (pipe_fds_inv f ext Hi) as [Hf _].
  destruct (pipe_fds f) as [[b| |] f1]; try done.
Qed.
#[local] Hint Resolve preserves_stat_at preserves_target preserves_write_stat preserves_write_statx preserves_openat
  preserves_getcwd preserves_pipe2 : vegar.

Lemma run_fs_preserves c m : run_fs c = Some m -> preserves m.
Proof.
  destruct c; simpl; intros E; try discriminate; injection E as <-;
    unfold sys_open, sys_stat, sys_fstat, sys_lstat, sys_stat, sys_fstatat, sys_statx; auto 8 with vegar.
  - apply preserves_strings. intros str. unfold sys_chdir. auto with vegar.
  - apply preserves_strings. intros str. unfold sys_mkdirat. auto 8 with vegar.
  - apply preserves_strings. intros str. apply fixes_linkat.
  - apply preserves_strings. intros str. apply fixes_linkat.
  - apply preserves_strings. intros str. apply fixes_unlinkat.
  - apply preserves_strings. intros str. apply fixes_unlinkat.
  - apply preserves_fds; [unfold sys_close; auto with vegar|]. intros ext f Hi _.
    pose proof (close_file_like_inv f ext fd Hi). unfold sys_close. unfold_M. by destruct (close_file_like fd f) as [[]].
  - apply preserves_fds; [apply keeps_dup|]. intros ext f Hi _. by apply dup_fd_inv.
  - apply preserves_fds; [apply keeps_dup2|]. intros ext f Hi Hp. pose proof (sys_dup2_inv f ext old_fd new_fd Hi).
    by destruct (sys_dup2 old_fd new_fd f) as [[]].
  - apply preserves_fds; [apply keeps_fcntl|]. intros ext f Hi _. by apply sys_fcntl_inv.
Qed.

(** *** Runs of a program *)

(** [R] is the rest of the machine: saved registers, time counters, clock.  The
    handlers on other state are [rest]. *)
Context {R : Type} (x86_64 : bool) (Sysno_from : Z -> Sysno) (err_code : LinuxError -> Z)
  (tf_arg : R -> nat -> Z) (time_stat : R -> TimeStat) (set_time_stat : TimeStat -> R -> R) (monotonic_ns : R -> Z)
  (rest : call -> OState * R -> option (LinuxResult Z * (OState * R))).

Definition run_call (c : call) (s : OState * R) : option (LinuxResult Z * (OState * R)) :=
  match run_fs c with
  | Some m => let '(r, o) := m s.1 in Some (r, (o, s.2))
  | None => rest c s
  end.

Definition trap : Z -> OState * R -> option (outcome LinuxError Z * (OState * R)) :=
  handle_syscall x86_64 Sysno_from err_code (fun s => tf_arg s.2) (fun s => time_stat s.2)
    (fun t s => (s.1, set_time_stat t s.2)) (fun s => monotonic_ns s.2) run_call.

(** A program computes in its registers and its memory, and traps. *)
Inductive machine_step (s : OState * R) : OState * R -> Prop :=
| step_user m r : machine_step s ((s.1.1, mkUState (us_aspace s.1.2) m), r)
| step_trap num ans s' : trap num s = Some (Ok ans, s') -> machine_step s s'.

Lemma trap_inv num s ans s' :
  (forall c s r s', rest c s = Some (r, s') -> r <> Panic -> sys_inv no_ext s.1 -> sys_inv no_ext s'.1) ->
  trap num s = Some (Ok ans, s') -> sys_inv no_ext s.1 -> sys_inv no_ext s'.1.
Proof.
  intros Hr Ht Hi. unfold trap, handle_syscall, leave_kernel, enter_kernel in Ht.
  set (s1 := (s.1, set_time_stat _ s.2)) in Ht.
  assert (sys_inv no_ext s1.1) as Hi1 by exact Hi. clearbody s1.
  destruct (decode _ _ _) as [c|]; [|simpl in Ht; by simplify_eq].
  destruct (run_call c s1) as [[r s2]|] eqn:E; [|done].
  assert (r <> Panic -> sys_inv no_ext s2.1) as Hi2.
  { unfold run_call in E. destruct (run_fs c) as [m|] eqn:Em.
    - pose proof (run_fs_preserves c m Em no_ext s1.1 Hi1) as Hp. destruct (m s1.1) as [r0 o]. simplify_eq. exact Hp.
    - intros Hn. by apply (Hr c s1 r s2). }
  destruct r as [v|e|]; simpl in Ht; [| |done]; injection Ht as _ <-; by apply Hi2.
Qed.

(** Whatever a program does and however it traps (any numbers, any registers,
    any memory contents, calls that fail included), every open file object is
    counted by exactly the descriptors that name it, and every file and directory
    keeps its handle.  The handlers on other state are only assumed not to break
    this themselves. *)
Theorem syscalls_keep_descriptors s0 s :
  (forall c s r s', rest c s = Some (r, s') -> r <> Panic -> sys_inv no_ext s.1 -> sys_inv no_ext s'.1) ->
  sys_inv no_ext s0.1 -> rtc machine_step s0 s ->
  (forall o, from_option cell_strong 0%nat (heap (fd_part s.1) !! o) = refs (fo_get (fd_table (fd_part s.1))) o) /\
  handles_ok (fd_part s.1) s.1.1.2.
Proof.
  intros Hr Hs0 Hs. assert (sys_inv no_ext s.1) as [Hi Hh].
  { induction Hs as [|s1 s2 s3 Hst _ IH]; [done|]. apply IH. destruct Hst as [m r|num ans s2 Ht]; [done|].
    by apply (trap_inv num s1 ans s2). }
  split; [|done]. intros o. rewrite (inv_strong _ _ Hi o). apply Nat.add_0_r.
Qed.
End Survive.

(** ** A program that opens a file and duplicates the descriptor *)

Module SyscallSample.
Import SimpleMem PathSample OpenSample.
#[local] Existing Instances Ptr.Sample.sample_conv FdTable.Sample.gmap_objects FdTable.Sample.gmap_objects_ok
  FilesSample.modes.
#[export] Instance linux_consts : CallConsts :=
  {| F_DUPFD := 0; F_DUPFD_CLOEXEC := 1030; F_SETFL := 4; O_NONBLOCK := 2048; AT_REMOVEDIR := 512 |}.
#[local] Instance statx_pod : Pod statx := {|
  pod_layout := mkLayout 8 8; pod_enc s := le_enc 8 (stx_ino s); pod_dec bs := statx_from Kstat_default
|}.

(** Three numbers of x86-64, and Linux's error codes. *)
Definition numbers (n : Z) : Sysno :=
  if n =? 257 then No_openat else if n =? 32 then No_dup else if n =? 3 then No_close else No_other n.
Definition code (e : LinuxError) : Z :=
  match e with
  | EPERM => 1 | ENOENT => 2 | ESRCH => 3 | EINTR => 4 | EBADF => 9 | ECHILD => 10 | EAGAIN => 11 | ENOMEM => 12
  | EFAULT => 14 | EEXIST => 17 | ENODEV => 19 | ENOTDIR => 20 | EISDIR => 21 | EINVAL => 22 | EMFILE => 24
  | EPIPE => 32 | ERANGE => 34 | ENOSYS => 38 | EILSEQ => 84 | EOPNOTSUPP => 95 | EAFNOSUPPORT => 97 | EISCONN => 106
  | EOther _ => 133
  end.

(** Registers, counters and a clock that stands still. *)
Abbreviation regs := (list Z * TimeStat)%type.
Abbreviation state := (((FdState (gmap Z nat) * PathState files) * Handles str str * UState unit) * regs)%type.
Definition no_rest (c : call) (s : state) : option (LinuxResult Z * state) := Some (Err ENOSYS, s).
Definition sample_trap : Z -> state -> option (outcome LinuxError Z * state) :=
  trap true numbers code (fun r i => nth i r.1 0) snd (fun t r => (r.1, t)) (fun _ => 5) no_rest.

Definition with_regs (l : list Z) (s : state) : state := ((s.1.1, mkUState (us_aspace s.1.2) (us_mem s.1.2)), (l, s.2.2)).
Definition after (num : Z) (l : list Z) (s : state) : state :=
  match sample_trap num (with_regs l s) with Some (_, s') => s' | None => s end.

Definition start : state := (at_boot s1, ([], ts_new)).
Definition opened_file : state := after 257 [2 ^ 64 - 100; 4096; 0; 0] start.
Definition duplicated : state := after 32 [3] opened_file.


(** A name that is not there, and a number nobody has. *)
Lemma handle_syscall_answers_witness : exists s s',
  sample_trap 257 (with_regs [0; 4160; 0; 0] start) = Some (Ok (- code ENOENT), s) /\
  sample_trap 999 start = Some (Ok (-38), s') /\ s'.1 = start.1.
Proof.
  assert (forall e, 1 <= code e <= 4095) as Hc by (intros []; simpl; lia).
  destruct (sample_trap 257 (with_regs [0; 4160; 0; 0] start)) as [[a s]|] eqn:E; [|vm_compute in E; discriminate].
  exists s. destruct (sample_trap 999 start) as [[b s']|] eqn:E'; [|vm_compute in E'; discriminate]. exists s'.
  assert (fst <$> sample_trap 257 (with_regs [0; 4160; 0; 0] start) = Some (Ok (-2))) as V by (vm_compute; reflexivity).
  assert (fst <$> sample_trap 999 start = Some (Ok (-38))) as V' by (vm_compute; reflexivity).
  rewrite E in V. rewrite E' in V'. simplify_eq/=. split; [done|]. split; [done|].
  unfold sample_trap, trap in E'. apply handle_syscall_answers in E'; [|done..]. by destruct E' as [_ ->].
Defined.

Lemma syscalls_keep_descriptors_witness :
  rtc (machine_step true numbers code (fun r i => nth i r.1 0) snd (fun t r => (r.1, t)) (fun _ => 5) no_rest)
    start duplicated /\
  fo_get (fd_table (fd_part duplicated.1)) 3 = Some 3%nat /\ fo_get (fd_table (fd_part duplicated.1)) 4 = Some 3%nat /\
  from_option cell_strong 0%nat (heap (fd_part duplicated.1) !! 3%nat) = refs (fo_get (fd_table (fd_part duplicated.1))) 3.
Proof.
  assert (rtc (machine_step true numbers code (fun r i => nth i r.1 0) snd (fun t r => (r.1, t)) (fun _ => 5) no_rest)
    start duplicated) as Hr.
  { eapply rtc_l; [apply (step_user _ _ _ _ _ _ _ _ start (us_mem start.1.2) ([2 ^ 64 - 100; 4096; 0; 0], ts_new))|].
    eapply rtc_l; [apply (step_trap _ _ _ _ _ _ _ _ _ 257 3 opened_file); vm_compute; reflexivity|].
    eapply rtc_l; [apply (step_user _ _ _ _ _ _ _ _ opened_file (us_mem opened_file.1.2) ([3], opened_file.2.2))|].
    eapply rtc_l; [apply (step_trap _ _ _ _ _ _ _ _ _ 32 4 duplicated); vm_compute; reflexivity|]. apply rtc_refl. }
  split; [exact Hr|]. split; [vm_compute; reflexivity|]. split; [vm_compute; reflexivity|].
  apply (syscalls_keep_descriptors true numbers code (fun r i => nth i r.1 0) snd (fun t r => (r.1, t)) (fun _ => 5) no_rest
    start duplicated); [|split; [apply booted_inv|apply booted_handles]|exact Hr].
  intros c s r s' [= _ <-]. done.
Defined.
End SyscallSample.
