(* ===== verification/Entry.v ===== *)
(** * Start-up and faults: [src/entry.rs], [src/main.rs], [src/mm.rs], the guard
    around accesses to user memory of [core/src/mm.rs], and the thread calls of
    [api/src/imp/task/thread.rs] *)

From stdpp Require Import base list gmap option strings.
From Stdlib Require Import ZArith Lia.
From S2P Require Import Prelude Text Bytes AddrSpace Ptr.
From S2P Require Import FdTable Futex Mmap Process Clone.
From S2P Require Import Loader.
Import ListNotations.

(** ** The guard around user memory *)

(** [access_user_memory] on the flag of the CPU and the rest of the state; a fault
    inside [f] sees the flag raised. *)
Definition access_user_memory {S A} (f : bool * S -> A * (bool * S)) (s : bool * S) : A * (bool * S) :=
  let '(result, s) := f (true, s.2) in (result, (false, s.2)).
Definition is_accessing_user_memory {S} (s : bool * S) : bool := s.1.

(** ** Page faults *)

(** How the handler ends: with an answer for the trap code, or with the thread. *)
Inductive fault_end : Type := Handled (b : bool) | Exited.

Section Fault.
Context {PS T AS WQ SG SA SI CW : Type} `{AxProcess PS} `{FlattenObjects T nat} `{WaitQueue WQ}
  `{AxSignal SG SA SI} `{ErrorConv, MemoryAddr, MappingFlags} `{AddrSpace AS}.
Context (SI_KERNEL SIGSEGV : Z).
(** [AddrSpace::handle_page_fault]. *)
Context (as_handle_page_fault : Z -> Z -> AS -> bool * AS).
Abbreviation K := (KState PS T AS WQ SG SA CW).

(** The fault in the address space of the process. *)
Definition resolve_fault (p vaddr access_flags : Z) : M K LinuxError bool :=
  on_space p (fun u => let '(b, a) := as_handle_page_fault vaddr access_flags (us_aspace u) in
                       (Ok b, mkUState a (us_mem u))).

(** [t] is the current thread and [p] its process; [accessing] is the flag. *)
Definition handle_page_fault (yield : K -> K) (p t : Z) (accessing : bool) (vaddr access_flags : Z) (is_user : bool)
  : M K LinuxError fault_end :=
  if negb is_user && negb accessing then mret (Handled false)
  else
    b ← resolve_fault p vaddr access_flags;
    if (b : bool) then mret (Handled true)
    else do_exit SI_KERNEL yield p t SIGSEGV true;; mret Exited.
End Fault.

(** ** Thread calls *)

Section ThreadCalls.
Context {PS T AS WQ SG SA CW : Type} `{AxProcess PS}.
Abbreviation K := (KState PS T AS WQ SG SA CW).
Abbreviation KM := (M K LinuxError).

(** [p] and [t] are the process and the number of the current task. *)
Definition sys_getpid (p : Z) : KM Z := mret (as_isize p).
Definition sys_getppid (p : Z) : KM Z :=
  k ← get; parent ← lift (unwrap_opt (p_parent (k_ps k) p)); mret (as_isize parent).
Definition sys_gettid (t : Z) : KM Z := mret (as_isize t).
Definition sys_set_tid_address (t clear_child_tid : Z) : KM Z :=
  td ← thread_data t;
  modify (fun k => set_tdata (<[t := set_clear_child_tid clear_child_tid td]> (k_tdata k)) k);;
  mret (as_isize t).

(** [others] is what the other tasks do before this one runs again. *)
Definition sys_sched_yield (others : K -> K) : KM Z := modify others;; mret 0.

(** *** The namespace of the current task

    [ext] is the data of its process, absent in a task of the kernel, which uses a
    copy of the global namespace [global] made once and kept in [kernel_ns]. *)
Definition current_namespace_base {NS} (global : NS) (ext : option NS) (kernel_ns : option NS) : NS * option NS :=
  match ext with
  | Some ns => (ns, kernel_ns)
  | None => let ns := default global kernel_ns in (ns, Some ns)
  end.

(** *** The end of a process's data *)

(** [AddrSpace::clear_mappings] of the range of the kernel, on the architectures
    whose user page tables hold the kernel's mappings. *)
Context `{AddrSpaceClone AS} (clear_kernel_mappings : AS -> AS).

(** [Drop for ProcessData]: what happens to the address space that it names. *)
Definition ProcessData_drop (d : ProcessData WQ) (k : K) : K :=
  if negb separate_kernel_table then
    set_spaces (alter (fun u => mkUState (clear_kernel_mappings (us_aspace u)) (us_mem u)) (aspace d) (k_spaces k)) k
  else k.

(** When the data of a process is dropped, the kernel's mappings go from its
    address space, also when another process lives in the same one. *)
Theorem drop_unmaps_kernel_for_sharers p q d dq u (k : K) :
  separate_kernel_table = false -> p <> q ->
  k_pdata k !! p = Some d -> k_pdata k !! q = Some dq -> aspace dq = aspace d -> k_spaces k !! aspace d = Some u ->
  let k' := set_pdata (delete p (k_pdata k)) (ProcessData_drop d k) in
  k_pdata k' !! q = Some dq /\
  k_spaces k' !! aspace dq = Some (mkUState (clear_kernel_mappings (us_aspace u)) (us_mem u)).
Proof.
  intros Hk Hpq Hd Hq E Hu. unfold ProcessData_drop. rewrite Hk. simpl.
  by rewrite lookup_delete_ne, E, lookup_alter_eq, Hu.
Qed.
End ThreadCalls.

(** *** [sys_arch_prctl] *)

Inductive ArchPrctlCode : Type := SetGs | SetFs | GetFs | GetGs | GetCpuid | SetCpuid.

Definition arch_prctl_try_from (code : Z) : option ArchPrctlCode :=
  if code =? 4097 then Some SetGs else if code =? 4098 then Some SetFs
  else if code =? 4099 then Some GetFs else if code =? 4100 then Some GetGs
  else if code =? 4113 then Some GetCpuid else if code =? 4114 then Some SetCpuid
  else None.

(** The segment bases: the trap frame's thread pointer, which is a [usize], and
    the machine register of the kernel's GS base, a [u64]. *)
Record Segments : Type := mkSegs { tf_tls : Z; kernel_gs_base : Z }.

Section Prctl.
Context {AS : Type} `{ErrorConv, MemoryAddr, MappingFlags} `{AddrSpace AS}.
#[local] Instance word_pod : Pod Z := int_pod 8.

Definition sys_arch_prctl (code addr : Z) : M (Segments * UState AS) LinuxError Z :=
  c ← lift (ok_or (arch_prctl_try_from code) EINVAL);
  match c with
  | GetFs => s ← get; on_snd (write_user addr (tf_tls s.1));; mret 0
  | SetFs => on_fst (modify (fun g => mkSegs addr (kernel_gs_base g)));; mret 0
  | GetGs => s ← get; on_snd (write_user addr (kernel_gs_base s.1));; mret 0
  | SetGs => on_fst (modify (fun g => mkSegs (tf_tls g) addr));; mret 0
  | GetCpuid => mret 0
  | SetCpuid => fail ENODEV
  end.

(** A base that has been set is read back. *)
Theorem arch_prctl_get_set (g : Segments) (u : UState AS) v addr r s' :
  is_usize v ->
  ((sys_arch_prctl 4098 v;; sys_arch_prctl 4099 addr) (g, u) = (Ok r, s') \/
   (sys_arch_prctl 4097 v;; sys_arch_prctl 4100 addr) (g, u) = (Ok r, s')) ->
  load (us_mem s'.2) addr = v.
Proof.
  intros Hv. unfold sys_arch_prctl, write_user, on_aspace, get_as_mut, assign. unfold_M. cbn [fst snd].
  assert (forall m, load (store m addr v) addr = v) as Hl.
  { intros m. unfold load, store.
    change (Z.to_nat (layout_size (pod_layout Z))) with 8%nat. rewrite <- (le_enc_length 8 v) at 1.
    change (pod_enc v) with (le_enc 8 v). rewrite mem_read_write. apply le_dec_enc_small, Hv. }
  intros [E|E]; cbn in E; destruct (check_region _ _ _ _) as [[]]; cbn in E; try discriminate;
    injection E as _ <-; apply Hl.
Qed.
End Prctl.

(** ** Running a program from the kernel *)

Section RunApp.
Context {PS T AS WQ SG SA SI CW W TF UC E L X FS : Type} `{AxProcess PS} `{FlattenObjects T nat} `{WaitQueue WQ}
  `{AxSignal SG SA SI} `{ErrorConv, MemoryAddr, MappingFlags} `{AddrSpace AS} `{AddrSpaceClone AS}
  `{WeakMap W} `{UserContext TF UC} `{CloneConsts} `{Elf E L X} `{FileStore FS} `{LoadConfig} `{AddrSpaceLoad AS}.
Context (p_session : PS -> Z -> Z) (alive : KState PS T AS WQ SG SA CW -> Alive).
(** [AddrSpace::new_empty] with [axconfig]'s bounds; what user code sees in a space
    that has just been filled; [axfs]'s [set_current_dir] on a current directory;
    [UspaceContext::new]; [join] of a spawned task. *)
Context (as_new_empty : Z -> Z -> AxResult AS) (USER_SPACE_BASE USER_SPACE_SIZE : Z) (as_contents : AS -> umem)
  (cw_set_current_dir : FS -> str -> CW -> AxError + CW) (uctx_new : Z -> Z -> Z -> UC).
(** The namespace of the kernel's own task, and the init process. *)
Context (boot_fds boot_cwd : nat) (init_proc : Z).
Abbreviation K := (KState PS T AS WQ SG SA CW).
Abbreviation C := (CState PS T AS WQ SG SA CW W UC).
Abbreviation KM := (M K LinuxError).
Abbreviation CM := (M C LinuxError).
Context (join : Z -> C -> option (option Z * C)).

Definition new_user_aspace_empty : AxResult AS := as_new_empty USER_SPACE_BASE USER_SPACE_SIZE.

(** The address space with the kernel's mappings and the trampoline. *)
Definition new_uspace : AxResult AS :=
  match new_user_aspace_empty with
  | Ok it => match (copy_from_kernel;; map_trampoline) it with
             | (Ok _, it) => Ok it | (Err e, _) => Err e | (Panic, _) => Panic
             end
  | r => r
  end.

Definition dir_and_name (exe_path : str) : str * str :=
  match rsplit_once exe_path SLASH with Some (dir, name) => (dir, name) | None => ([], exe_path) end.

(** [set_current_dir(dir).expect(..)]. *)
Definition enter_dir (fs : FS) (dir : str) : KM unit :=
  k ← get;
  cw ← lift (unwrap_opt (k_cwds k !! boot_cwd));
  cw ← lift match cw_set_current_dir fs dir cw with inr cw => Ok cw | inl _ => Panic end;
  put (set_cwds (<[boot_cwd := cw]> (k_cwds k)) k).

(** [FD_TABLE.copy_inner()] and [CURRENT_DIR.copy_inner()] of the kernel's
    namespace, as new entries. *)
Definition copy_boot_fds : KM nat :=
  k ← get;
  t ← lift (unwrap_opt (fd_table (k_files k) !! boot_fds));
  let '(r, s) := copy_inner (view t (k_files k)) in
  put (set_files (unview boot_fds (k_files k) s) k);;
  t ← lift r; new_table t.
Definition copy_boot_cwd : KM nat := k ← get; c ← lift (unwrap_opt (k_cwds k !! boot_cwd)); new_cwd c.

(** The process of a loaded program; [id] is the number of its task. *)
Definition spawn_app (id : Z) (exe name : str) (entry sp : Z) (uspace : AS) : CM Z :=
  let uctx := uctx_new entry sp 2333 in
  space ← on_k (new_space (mkUState uspace (as_contents uspace)));
  actions ← on_k (new_actions SA_default);
  fds ← on_k copy_boot_fds;
  cwd ← on_k copy_boot_cwd;
  let tid := as_u32 id in
  on_k (modify (fun k =>
    set_pdata (<[tid := ProcessData_new USER_HEAP_BASE exe space actions (Some SIGCHLD) fds cwd]> (k_pdata k))
      (set_ps (p_fork init_proc tid (k_ps k)) k)));;
  spawn_thread p_session alive tid tid 0 0 (mkTask id name uctx None space);;
  mret id.

(** [run_user_app] up to [join]: [None] when loading does not end within [fuel]
    rounds. *)
Definition start_user_app (fuel : nat) (fs : FS) (id : Z) (args envs : list str) (c : C)
  : option (LinuxResult Z * C) :=
  match new_uspace, args with
  | Ok uspace, exe :: _ =>
      let '(dir, name) := dir_and_name exe in
      match on_k (enter_dir fs dir) c with
      | (Ok _, c) =>
          '(r, uspace) ← load_user_app fuel fs args envs uspace;
          match r with
          | Ok (entry, sp) => Some (spawn_app id exe name entry sp uspace c)
          | _ => Some (Panic, c)
          end
      | (_, c) => Some (Panic, c)
      end
  | _, _ => Some (Panic, c)
  end.

Definition run_user_app (fuel : nat) (fs : FS) (id : Z) (args envs : list str) (c : C)
  : option (LinuxResult (option Z) * C) :=
  '(r, c) ← start_user_app fuel fs id args envs c;
  match r with
  | Ok t => '(code, c) ← join t c; Some (Ok code, c)
  | _ => Some (Panic, c)
  end.

(** ** [main] *)

Context (shlex_split : str -> option (list str)) (next_id : C -> Z).

(** The test cases of [AX_TESTCASES_LIST]: [','] between them, empty ones left out. *)
Definition COMMA : Z := 44.
Definition testcases (list_env : str) : list str := filter (fun x => x <> []) (split list_env COMMA).

(** The loop: a test case that cannot be parsed or is empty is skipped. *)
Fixpoint run_testcases (fuel : nat) (fs : FS) (cases : list str) (c : C) : option (LinuxResult unit * C) :=
  match cases with
  | [] => Some (Ok tt, c)
  | testcase :: cases' =>
      match shlex_split testcase with
      | None | Some [] => run_testcases fuel fs cases' c
      | Some args =>
          '(r, c) ← run_user_app fuel fs (next_id c) args [] c;
          match r with
          | Ok _ => run_testcases fuel fs cases' c
          | _ => Some (Panic, c)
          end
      end
  end.

(** [new_init] is [Process::new_init(id).build()]. *)
Definition main (new_init : PS -> PS) (fuel : nat) (fs : FS) (list_env : option str) (c : C)
  : option (LinuxResult unit * C) :=
  let c := mkC (set_ps (new_init (k_ps (c_k c))) (c_k c)) (c_tables c) (c_tasks c) in
  run_testcases fuel fs
    (testcases (default (lit "Please specify the testcases list by making user_apps") list_env)) c.
End RunApp.

(** ** Theorems *)

Section FaultTheorems.
Context {PS T AS WQ SG SA SI CW : Type} `{AxProcessOk PS} `{FlattenObjectsOk T nat} `{WaitQueueOk WQ}
  `{AxSignal SG SA SI} `{ErrorConv, MemoryAddr, MappingFlags} `{AddrSpace AS}.
Context (SI_KERNEL SIGSEGV : Z) (as_handle_page_fault : Z -> Z -> AS -> bool * AS).
Abbreviation K := (KState PS T AS WQ SG SA CW).

(** The kernel after the address space of [d] became [a]. *)
Definition with_space (d : ProcessData WQ) (u : UState AS) (a : AS) (k : K) : K :=
  set_spaces (<[aspace d := mkUState a (us_mem u)]> (k_spaces k)) k.

Lemma resolve_fault_eq p vaddr fl d u (k : K) :
  k_pdata k !! p = Some d -> k_spaces k !! aspace d = Some u ->
  resolve_fault as_handle_page_fault p vaddr fl k =
    let '(b, a) := as_handle_page_fault vaddr fl (us_aspace u) in (Ok b, with_space d u a k).
Proof.
  intros Hd Hu. unfold resolve_fault, on_space, process_data. unfold_M. rewrite Hd. simpl. rewrite Hu. simpl.
  by destruct (as_handle_page_fault _ _ _).
Qed.

(** A signal to each thread of a list that the kernel has data for. *)
Definition sent_to (sig : SI) (ts : list Z) (k : K) : SG :=
  foldl (fun g x => sg_send_thread x sig g) (k_sig k) (filter (fun x => is_Some (k_tdata k !! x)) ts).

Lemma send_all_effect sig ts : forall k : K, send_all sig ts k = (Ok tt, set_sig (sent_to sig ts k) k).
Proof.
  induction ts as [|t ts IH]; intros k; [by destruct k|].
  cbn [send_all]. unfold_M. unfold ignore, send_signal_thread, sent_to. rewrite filter_cons.
  destruct (k_tdata k !! t) as [d|] eqn:E.
  - rewrite decide_True by eauto. by rewrite IH.
  - rewrite decide_False by (by intros [? ?]). by rewrite IH.
Qed.

Lemma exit_clear_tid_ends yield p t (k : K) :
  exists k', exit_clear_tid yield p t k = (Ok tt, k') \/ exit_clear_tid yield p t k = (Panic, k').
Proof.
  unfold exit_clear_tid, thread_data, clear_tid_at. unfold_M. destruct (k_tdata k !! t) as [td|]; simpl; [|eauto].
  destruct (on_space p _ k) as [[a| |] k1]; [|eauto..]. unfold on_space, notify_futex, process_data, assign. unfold_M.
  destruct (k_pdata k1 !! p) as [d|] eqn:Ed; simpl; [|eauto]. destruct (k_spaces k1 !! aspace d) as [u|]; simpl; [|eauto].
  rewrite Ed. simpl. destruct (futex_get _ _). eauto.
Qed.

(** What the end of the thread [t] of [p] by the signal [code] has made of the kernel
    [k]: the whole group is to end.  A last thread leaves a zombie, whose status says
    that the signal killed it unless the group was already ending; otherwise the other
    threads go on until they find the SIGKILL that each of them was sent, again unless
    the group was already ending. *)
Definition killed (p t code : Z) (k k' : K) : Prop :=
  let others := filter (fun x => x <> t) (p_threads (k_ps k) p) in
  p_is_group_exited (k_ps k') p = true /\
  (p_threads (k_ps k) p = [t] -> p_is_init p = false ->
   p_is_zombie (k_ps k') p = true /\
   if p_is_group_exited (k_ps k) p then p_exit_code (k_ps k') p = p_exit_code (k_ps k) p
   else ~ WIFEXITED (p_exit_code (k_ps k') p) /\ Z.land (p_exit_code (k_ps k') p) 127 = code) /\
  (others <> [] ->
   p_threads (k_ps k') p = others /\ p_is_zombie (k_ps k') p = p_is_zombie (k_ps k) p /\
   k_sig k' = if p_is_group_exited (k_ps k) p then k_sig k else sent_to (SignalInfo_new SIGKILL SI_KERNEL) others k).

Lemma killed_last p t code d tbl (k : K) : 0 < code < 127 -> p_threads (k_ps k) p = [t] ->
  killed p t code k (after_last SI_KERNEL p t code true d tbl k).
Proof.
  intros Hc Hth. split; [|split].
  - unfold after_last. cbn [k_ps]. set (s3 := p_exit p (p_exit p _)).
    destruct (p_is_group_exited s3 p) eqn:E; simpl; [done|]. apply group_exit_flag.
  - intros _ Hinit. destruct (after_last_tree SI_KERNEL p t code true d tbl k Hinit) as (Hz & Hcode & _).
    split; [exact Hz|]. rewrite Hcode. destruct (p_is_group_exited (k_ps k) p); [done|].
    assert (Z.land code 127 = code) as E.
    { change 127 with (Z.ones 7). rewrite Z.land_ones by lia. apply Z.mod_small. lia. }
    unfold WIFEXITED. rewrite E. split; [lia|done].
  - rewrite Hth, filter_cons_False, filter_nil by (by intros []). done.
Qed.

Lemma killed_others p t code (k : K) : filter (fun x => x <> t) (p_threads (k_ps k) p) <> [] ->
  exists k', exit_thread SI_KERNEL p t code true k = (Ok tt, k') /\ killed p t code k k'.
Proof.
  intros Ho. unfold exit_thread. unfold_M.
  pose proof (thread_exit_threads (k_ps k) p t code) as Hs. pose proof (thread_exit_last (k_ps k) p t code) as Hl.
  destruct (thread_exit_tree (k_ps k) p t code p) as (_ & _ & Hz & Hg).
  destruct (p_thread_exit p t code (k_ps k)) as [last s1]. cbn [fst snd] in *.
  destruct last; [by destruct Ho; apply Hl|]. cbn [k_ps set_ps andb]. unfold killed.
  assert (p_threads (k_ps k) p = [t] -> False) as Hne.
  { intros E. apply Ho. by rewrite E, filter_cons_False, filter_nil by (by intros []). }
  rewrite Hg. destruct (p_is_group_exited (k_ps k) p) eqn:E; simpl.
  - eexists. split; [reflexivity|]. cbn [k_ps k_sig set_ps]. split_and!; [by rewrite Hg|by intros ?%Hne|done].
  - rewrite send_all_effect. eexists. split; [reflexivity|]. cbn [k_ps k_sig set_ps set_sig].
    destruct (group_exit_tree s1 p p) as (_ & _ & Ez & _ & Et). rewrite Et, Hs.
    split_and!; [apply group_exit_flag|by intros ?%Hne|]. intros _. by rewrite Ez, Hz.
Qed.

(** C25: what becomes of a page fault.  A fault of the kernel itself is left to the
    trap code; a fault of user code, or of the kernel reading user memory, that the
    address space can serve is served and changes nothing else.  Any other ends the
    thread and its whole process: after the word at [clear_child_tid] is cleared (if
    that panics, so does the fault), during which other tasks may run ([yield]), the
    thread leaves its process as [killed] says, whether or not it is the last one and
    whether or not the group was ending already. *)
Theorem page_fault_outcome yield p t accessing vaddr fl is_user d u (k : K) :
  k_pdata k !! p = Some d -> k_spaces k !! aspace d = Some u -> 0 < SIGSEGV < 127 ->
  let '(b, a) := as_handle_page_fault vaddr fl (us_aspace u) in
  let r := handle_page_fault SI_KERNEL SIGSEGV as_handle_page_fault yield p t accessing vaddr fl is_user k in
  if negb is_user && negb accessing then r = (Ok (Handled false), k)
  else if b then r = (Ok (Handled true), with_space d u a k)
  else match exit_clear_tid yield p t (with_space d u a k) with
       | (Ok _, k1) =>
           forall d1 tbl, k_pdata k1 !! p = Some d1 -> fd_table (k_files k1) !! ns_fd_table d1 = Some tbl ->
           t ∈ p_threads (k_ps k1) p -> NoDup (p_threads (k_ps k1) p) ->
           exists k', r = (Ok Exited, k') /\ killed p t SIGSEGV k1 k'
       | (_, k1) => r = (Panic, k1)
       end.
Proof.
  intros Hd Hu Hs. destruct (as_handle_page_fault vaddr fl (us_aspace u)) as [b a] eqn:Ea. cbn zeta.
  unfold handle_page_fault. destruct (negb is_user && negb accessing); [done|]. unfold_M.
  rewrite (resolve_fault_eq p vaddr fl d u k Hd Hu), Ea. destruct b; [done|]. unfold do_exit. unfold_M.
  destruct (exit_clear_tid_ends yield p t (with_space d u a k)) as [k1 [E|E]]; rewrite E; [|done].
  intros d1 tbl Hd1 Ht Hin Hnd. destruct (decide (filter (fun x => x <> t) (p_threads (k_ps k1) p) = [])) as [Ho|Ho].
  - assert (p_threads (k_ps k1) p = [t]) as Hth.
    { destruct (p_threads (k_ps k1) p) as [|x [|x' l]]; [by apply not_elem_of_nil in Hin|..].
      - apply list_elem_of_singleton in Hin as ->. done.
      - exfalso. apply NoDup_cons in Hnd as [Hx _]. rewrite filter_cons in Ho. case_decide as Hxt; [done|].
        subst x. rewrite filter_cons in Ho. case_decide as Hxt; [done|].
        subst x'. apply Hx. by left. }
    rewrite (exit_thread_last SI_KERNEL p t SIGSEGV true d1 tbl k1 Hd1 Ht Hth). eexists. split; [reflexivity|].
    by apply killed_last.
  - destruct (killed_others p t SIGSEGV k1 Ho) as (k' & -> & Hk). by exists k'.
Qed.
End FaultTheorems.

Section AppTheorems.
Context {PS T AS WQ SG SA SI CW W TF UC E L X FS : Type} `{AxProcess PS} `{FlattenObjectsOk T nat} `{WaitQueue WQ}
  `{AxSignal SG SA SI} `{ErrorConv, MemoryAddr, MappingFlags} `{AddrSpace AS} `{AddrSpaceClone AS}
  `{WeakMap W} `{UserContext TF UC} `{CloneConsts} `{Elf E L X} `{FileStore FS} `{LoadConfig} `{AddrSpaceLoad AS}.
Context (p_session : PS -> Z -> Z) (alive : KState PS T AS WQ SG SA CW -> Alive)
  (as_new_empty : Z -> Z -> AxResult AS) (USER_SPACE_BASE USER_SPACE_SIZE : Z) (as_contents : AS -> umem)
  (cw_set_current_dir : FS -> str -> CW -> AxError + CW) (uctx_new : Z -> Z -> Z -> UC)
  (boot_fds boot_cwd : nat) (init_proc : Z).
Abbreviation K := (KState PS T AS WQ SG SA CW).
Abbreviation C := (CState PS T AS WQ SG SA CW W UC).

Lemma copy_boot_fds_ok tbl ext (k : K) :
  fd_table (k_files k) !! boot_fds = Some tbl -> fd_inv (view tbl (k_files k)) ext ->
  exists i f, copy_boot_fds boot_fds k = (Ok i, set_files f k) /\ fd_table (k_files k) !! i = None /\
    fd_table f !! boot_fds = Some tbl /\ exists t, fd_table f !! i = Some t /\ forall fd, fo_get t fd = fo_get tbl fd.
Proof.
  intros Ht Hi. unfold copy_boot_fds, new_table. unfold_M. rewrite Ht. simpl.
  destruct (copy_inner_spec _ ext Hi) as (t & s' & -> & Es & Hg & _). cbn in Es, Hg. simpl.
  rewrite Es, insert_id by done. do 2 eexists. split; [reflexivity|]. simpl.
  rewrite fresh_none. split_and!; auto.
  - rewrite lookup_insert_ne; [done|]. intros Eq. pose proof (fresh_none (fd_table (k_files k))). congruence.
  - exists t. by rewrite lookup_insert_eq.
Qed.

(** The process [d] of a program that has just been started, from [k] to [k']. *)
Record app_process (k k' : K) (exe : str) (a : AS) (tbl : T) (cw : CW) (d : ProcessData WQ) : Prop := {
  app_exe : exe_path d = exe;
  app_signal : exit_signal d = Some SIGCHLD;
  app_heap : pd_heap d = mkHeap USER_HEAP_BASE USER_HEAP_BASE;
  app_space : k_spaces k !! aspace d = None /\ k_spaces k' !! aspace d = Some (mkUState a (as_contents a));
  app_fds : fd_table (k_files k) !! ns_fd_table d = None /\ fd_table (k_files k') !! boot_fds = Some tbl /\
    exists t, fd_table (k_files k') !! ns_fd_table d = Some t /\ forall fd, fo_get t fd = fo_get tbl fd;
  app_cwd : ns_cwd d <> boot_cwd /\ k_cwds k' !! ns_cwd d = Some cw /\ k_cwds k' !! boot_cwd = Some cw;
  app_actions : k_actions k !! sig_actions d = None /\ k_actions k' !! sig_actions d = Some SA_default
}.

(** C24: starting a program gives it a process of its own under init, with the loaded
    image, the descriptors of the kernel's table under the same numbers, the
    directory of the program as current directory and default signal actions, and
    one task that will enter the program's entry point on the prepared stack. *)
Theorem start_user_app_spec fuel fs id exe l envs a0 a entry sp tbl ext cw cw' (c : C) :
  0 <= id < 2 ^ 32 -> CLONE_CHILD_CLEARTID <> 0 ->
  new_uspace as_new_empty USER_SPACE_BASE USER_SPACE_SIZE = Ok a0 ->
  load_user_app fuel fs (exe :: l) envs a0 = Some (Ok (entry, sp), a) ->
  k_cwds (c_k c) !! boot_cwd = Some cw -> cw_set_current_dir fs (fst (dir_and_name exe)) cw = inr cw' ->
  fd_table (k_files (c_k c)) !! boot_fds = Some tbl -> fd_inv (view tbl (k_files (c_k c))) ext ->
  exists c' d,
    start_user_app p_session alive as_new_empty USER_SPACE_BASE USER_SPACE_SIZE as_contents cw_set_current_dir uctx_new
      boot_fds boot_cwd init_proc fuel fs id (exe :: l) envs c = Some (Ok id, c') /\
    k_pdata (c_k c') = <[id := d]> (k_pdata (c_k c)) /\
    k_ps (c_k c') = p_new_thread id id (p_fork init_proc id (k_ps (c_k c))) /\
    k_tdata (c_k c') !! id = Some (mkTD 0) /\
    c_tasks c' = c_tasks c ++ [mkTask id (snd (dir_and_name exe)) (uctx_new entry sp 2333) None (aspace d)] /\
    app_process (c_k c) (c_k c') exe a tbl cw' d.
Proof.
  intros Hid Hz Hn Hl Hc Hs Ht Hi. unfold start_user_app. rewrite Hn.
  destruct (dir_and_name exe) as [dir name]. simpl in Hs. unfold on_k at 1, enter_dir. unfold_M.
  rewrite Hc. simpl. rewrite Hs. simpl. rewrite Hl. simpl.
  unfold spawn_app, on_k, new_space, new_actions. unfold_M. cbn [c_k c_tables c_tasks].
  set (k0 := set_cwds _ (c_k c)).
  set (sid := fresh (dom (k_spaces k0))). set (k1 := set_spaces _ k0).
  set (aid := fresh (dom (k_actions k1))). set (k2 := set_actions _ k1).
  destruct (copy_boot_fds_ok tbl ext k2 Ht Hi) as (fid & f & -> & Hf1 & Hf2 & Hf3). cbn [c_k c_tables c_tasks].
  unfold copy_boot_cwd, new_cwd. unfold_M. set (k3 := set_files f k2).
  assert (k_cwds k3 !! boot_cwd = Some cw') as Hc3 by (apply lookup_insert_eq). rewrite Hc3. cbn [unwrap_opt c_k c_tables c_tasks].
  set (cid := fresh (dom (k_cwds k3))).
  assert (k_cwds k3 !! cid = None) as Hcid by apply fresh_none.
  assert (cid <> boot_cwd) as Hcb by congruence.
  assert (as_u32 id = id) as -> by (apply wrap_small; lia).
  set (d := ProcessData_new _ _ _ _ _ _ _). set (c4 := mkC _ _ _).
  destruct (spawn_thread_ok p_session alive id id 0 0 (mkTask id name (uctx_new entry sp 2333) None sid) d c4)
    as (c' & -> & E1 & E2 & E3 & E4 & E5 & E6 & E7 & E8); [apply lookup_insert_eq|].
  exists c', d. rewrite contains_zero in E7 by done. split_and!; try done.
  split; try done; rewrite ?E3, ?E4, ?E5, ?E6; simpl; split_and!; try done; try apply lookup_insert_eq;
    try apply fresh_none. by rewrite lookup_insert_ne.
Qed.
End AppTheorems.

(** ** The shell, started from the kernel; and a process that faults *)

Module EntrySample.
Import SimpleMem FutexSample FdTable.Sample ProcessSample CloneSample LoaderSample.
#[local] Existing Instance Ptr.Sample.sample_conv.

Definition new_space_at (base size : Z) : AxResult simple_aspace := Ok (mkSimple base (base + size) 0).
Definition set_dir (_ : list (str * list Z)) (dir _cw : str) : AxError + str := inr dir.

Lemma start_user_app_spec_witness :
  exists c' (d : ProcessData (list Z)),
    start_user_app (fun _ _ => 2) (fun _ => all_alive) new_space_at 4096 8192 (fun _ => ∅) set_dir (fun e s r => [e; s; r])
      0 0 1 1 LoaderSample.files 7 [sh] [] system = Some (Ok 7, c') /\
    k_cwds (c_k c') !! ns_cwd d = Some (lit "/bin") /\
    c_tasks c' = [mkTask 7 (lit "sh") [65536; 1056761; 2333] None (aspace (d : ProcessData (list Z)))].
Proof.
  edestruct (start_user_app_spec (fun _ _ => 2) (fun _ => all_alive) new_space_at 4096 8192 (fun _ => ∅) set_dir
    (fun e s r => [e; s; r]) 0 0 1 1 LoaderSample.files 7 sh [] []
    (mkSimple 4096 8192 13) (mkSimple 2097152 2162688 11) 65536 1056761 (fd_table booted) no_ext [] (lit "/bin") system)
    as (c' & d & Hs & _ & _ & _ & Ht & Ha);
    [lia|done|reflexivity|vm_compute; reflexivity|reflexivity|reflexivity|apply lookup_singleton_eq
    |exact (fd_reachable_invariant booted booted_reachable)|].
  exists c', d. split; [exact Hs|]. split; [apply Ha|]. rewrite Ht. vm_compute. reflexivity.
Defined.

(** Child 3 of the two processes, which has called [set_tid_address], touches an
    unmapped page; and so it does with a second thread 5. *)
Definition faulty : kernel := set_tdata {[3 := mkTD 4096; 5 := mkTD 0]} (two_procs false).
Definition threaded : kernel :=
  set_ps (<[3 := mkProc (Some 2) 2 [3; 5] false 0 false]> (k_ps faulty)) faulty.
Definition no_page (vaddr flags : Z) (a : simple_aspace) : bool * simple_aspace := (false, a).

(** Process 4 was made with CLONE_VM by process 2: it lives in the same space, whose
    mapping of the kernel is the interval here. *)
Definition sharing : kernel := set_pdata (<[4 := data 0 []]> (k_pdata (two_procs false))) (two_procs false).

Lemma drop_unmaps_kernel_for_sharers_witness :
  k_spaces sharing !! 0%nat = Some parent_space /\
  k_spaces (ProcessData_drop (fun _ => mkSimple 0 0 0) (data 0 []) sharing) !! aspace (data 0 [2]) =
    Some (mkUState (mkSimple 0 0 0) ∅).
Proof.
  split; [vm_compute; reflexivity|].
  apply (drop_unmaps_kernel_for_sharers (fun _ => mkSimple 0 0 0) 4 2 (data 0 []) (data 0 [2]) parent_space sharing);
    try done; vm_compute; reflexivity.
Defined.

Lemma page_fault_outcome_witness :
  (exists k1 k', exit_clear_tid (fun k => k) 3 3 faulty = (Ok tt, k1) /\
    handle_page_fault 128 11 no_page (fun k => k) 3 3 false 65536 1 true faulty = (Ok Exited, k') /\
    p_is_zombie (k_ps k') 3 = true /\ ~ WIFEXITED (p_exit_code (k_ps k') 3) /\ Z.land (p_exit_code (k_ps k') 3) 127 = 11) /\
  (exists k1 k', exit_clear_tid (fun k => k) 3 3 threaded = (Ok tt, k1) /\
    handle_page_fault 128 11 no_page (fun k => k) 3 3 false 65536 1 true threaded = (Ok Exited, k') /\
    p_threads (k_ps k') 3 = [5] /\ p_is_zombie (k_ps k') 3 = false /\ p_is_group_exited (k_ps k') 3 = true).
Proof.
  split.
  - pose proof (page_fault_outcome 128 11 no_page (fun k => k) 3 3 false 65536 1 true (data 1 []) parent_space faulty
      eq_refl eq_refl ltac:(lia)) as H. cbn [no_page negb andb] in H.
    destruct (exit_clear_tid (fun k => k) 3 3 faulty) as [r k1] eqn:E.
    change (Entry.with_space (data 1 []) parent_space (us_aspace parent_space) faulty) with faulty in H. rewrite E in H.
    vm_compute in E. injection E as <- <-.
    edestruct H as (k' & Hr & _ & Hl & _); [reflexivity|vm_compute; reflexivity|vm_compute; by left|by vm_compute; repeat constructor; set_solver|].
    eexists _, k'. split; [reflexivity|]. split; [exact Hr|]. exact (Hl eq_refl eq_refl).
  - pose proof (page_fault_outcome 128 11 no_page (fun k => k) 3 3 false 65536 1 true (data 1 []) parent_space threaded
      eq_refl eq_refl ltac:(lia)) as H. cbn [no_page negb andb] in H.
    destruct (exit_clear_tid (fun k => k) 3 3 threaded) as [r k1] eqn:E.
    change (Entry.with_space (data 1 []) parent_space (us_aspace parent_space) threaded) with threaded in H. rewrite E in H.
    vm_compute in E. injection E as <- <-.
    edestruct H as (k' & Hr & Hg & _ & Ho); [reflexivity|vm_compute; reflexivity|vm_compute; by left|by vm_compute; repeat constructor; set_solver|].
    eexists _, k'. split; [reflexivity|]. split; [exact Hr|]. destruct Ho as (Ht & Hz & _); [by vm_compute|].
    split_and!; [exact Ht|exact Hz|exact Hg].
Defined.
End EntrySample.
