(* ===== verification/Machine.v ===== *)
(** * The whole kernel: every system call on one state

    The components meet here.  A machine is the kernel's processes with their
    descriptor tables, address spaces and working directories, the devices and
    tables that all of them share, and the user threads.  Every arm of
    [handle_syscall] runs the handler of its component on the resources of the
    calling process, which the namespace of that process selects.

    A thread that has to wait inside a call is cut at that point: what it still
    has to do is a value of [pending], and other threads run before it goes on.
    So a step is what one thread does between two points where the source
    yields, sleeps or returns to user space, and a run is an interleaving. *)

From stdpp Require Import base list gmap option relations.
From Stdlib Require Import ZArith Lia.
From S2P Require Import Prelude Text Bytes AddrSpace Ptr.
From S2P Require Import Pipe TimeStat TimeConv FdTable Path Mount.
From S2P Require Import Dirent Futex Io Mmap Process Clone Signal.
From S2P Require Import Loader Files Open Syscall Entry.
Import ListNotations.

(** ** State *)

(** What the system calls of all processes share: the table of hard links, the
    disk, the open files and directories behind the objects of the descriptor
    tables with the entry that a directory has kept back, the mounts, the console
    with its reader, and the sockets. *)
Record Devices (DK FH DH CON BR U V : Type) : Type := mkDev {
  g_links : LinkManagerInner;
  g_disk : DK;
  g_handles : Handles FH DH;
  g_last : gmap nat DirEntry;
  g_mounts : list MountedFs;
  g_stdin : BR;
  g_console : CON;
  g_socks : gmap nat (Socket U V)
}.
Arguments mkDev {DK FH DH CON BR U V} _ _ _ _ _ _ _ _.
Arguments g_links {DK FH DH CON BR U V} _.
Arguments g_disk {DK FH DH CON BR U V} _.
Arguments g_handles {DK FH DH CON BR U V} _.
Arguments g_last {DK FH DH CON BR U V} _.
Arguments g_mounts {DK FH DH CON BR U V} _.
Arguments g_stdin {DK FH DH CON BR U V} _.
Arguments g_console {DK FH DH CON BR U V} _.
Arguments g_socks {DK FH DH CON BR U V} _.

(** What is left of a vectored transfer after the element it waits in. *)
Inductive io_rest : Type := IoEnd | IoVec (fd : Z) (n : nat) (iov ret : Z).

(** Where a thread waits in the kernel: before it enters user space for the first
    time, in [do_exit] after its yield, in [sched_yield], asleep, in the queue of
    its process for exiting children, in a futex queue, for a signal, or in the
    loop of a read or a write of the object [o], whose reference it holds. *)
Inductive pending (UC : Type) : Type :=
| PStart (task : Task UC)
| PExit (code : Z) (group_exit : bool)
| PYield
| PSleep (dur since : TimeValue) (rem : Z)
| PWait (children : list Z) (exit_code : option Z) (options : Z)
| PFutex (g : WaitQueueGuard) (timeout : option TimeValue)
| PSuspend (old_blocked : Z)
| PRead (o : nat) (buf : Z * Z) (rest : io_rest)
| PWrite (o : nat) (buf : Z * Z) (written : nat) (rest : io_rest).
Arguments PStart {UC} _.
Arguments PExit {UC} _ _.
Arguments PYield {UC}.
Arguments PSleep {UC} _ _ _.
Arguments PWait {UC} _ _ _.
Arguments PFutex {UC} _ _.
Arguments PSuspend {UC} _.
Arguments PRead {UC} _ _ _.
Arguments PWrite {UC} _ _ _ _.

(** A user thread: its process, the name of its task, its saved registers, its
    [TaskExt::time], and where it waits, if it does. *)
Record UThread (UC TF : Type) : Type := mkThread {
  th_process : Z; th_name : str; th_tf : TF; th_time : TimeStat; th_wait : option (pending UC)
}.
Arguments mkThread {UC TF} _ _ _ _ _.
Arguments th_process {UC TF} _.
Arguments th_name {UC TF} _.
Arguments th_tf {UC TF} _.
Arguments th_time {UC TF} _.
Arguments th_wait {UC TF} _.

(** The wall clock and the monotonic clock are part of the machine. *)
Record Machine (PS T AS WQ SG SA CW W UC TF DK FH DH CON BR U V : Type) : Type := mkMachine {
  y_c : CState PS T AS WQ SG SA CW W UC;
  y_dev : Devices DK FH DH CON BR U V;
  y_threads : gmap Z (UThread UC TF);
  y_wall : TimeValue;
  y_mono : TimeValue
}.
Arguments mkMachine {PS T AS WQ SG SA CW W UC TF DK FH DH CON BR U V} _ _ _ _ _.
Arguments y_c {PS T AS WQ SG SA CW W UC TF DK FH DH CON BR U V} _.
Arguments y_dev {PS T AS WQ SG SA CW W UC TF DK FH DH CON BR U V} _.
Arguments y_threads {PS T AS WQ SG SA CW W UC TF DK FH DH CON BR U V} _.
Arguments y_wall {PS T AS WQ SG SA CW W UC TF DK FH DH CON BR U V} _.
Arguments y_mono {PS T AS WQ SG SA CW W UC TF DK FH DH CON BR U V} _.

(** How a handler leaves: with a result, waiting, or with the end of the thread. *)
Inductive result (UC : Type) : Type := Done (r : LinuxResult Z) | Wait (q : pending UC) | Gone.
Arguments Done {UC} _.
Arguments Wait {UC} _.
Arguments Gone {UC}.

(** ** The resources of one process

    A call on files and memory sees the descriptor table, the working directory
    and the memory of its process, and the shared devices.  [axfs] resolves paths
    in the disk with the current directory of the caller, so its state is the
    pair of the two. *)

Section Local.
Context {T AS CW DK FH DH CON BR U V ADDR : Type} `{FlattenObjects T nat} `{AxFs (DK * CW)} `{AxOpen (DK * CW) FH DH}
  `{AxFops DK FH} `{Console CON} `{AxNet U V ADDR} `{ErrorConv, MemoryAddr, MappingFlags} `{AddrSpace AS} `{OpenFlags}
  `{DirTypes} `{MmapConsts}.
(** [axio::BufReader::read]; [axfs]'s [read_dir], [read_at] and [seek]; what user
    code sees when its address space has changed under it. *)
Context (br_read : (nat -> CON -> list Z * CON) -> nat -> BR * CON -> (AxError + list Z) * (BR * CON))
  (padding : list Z) (read_dir : DK -> DH -> (AxError + option DirEntry) * DH)
  (fops_read_at : FH -> Z -> list Z -> DK -> (AxError + Z) * list Z * (FH * DK))
  (fops_seek : FH -> SeekFrom -> DK -> (AxError + Z) * FH)
  (as_seen : AS -> AS -> umem -> umem) (UC : Type).
Abbreviation Dev := (Devices DK FH DH CON BR U V).
Abbreviation Local := ((FdState T * CW * UState AS) * Dev)%type.
Abbreviation LM := (M Local LinuxError).

Definition dev_set_fs (l : LinkManagerInner) (dk : DK) (h : Handles FH DH) (last : gmap nat DirEntry) (g : Dev) : Dev :=
  mkDev l dk h last (g_mounts g) (g_stdin g) (g_console g) (g_socks g).

(** The entry kept back in a directory goes when the directory does. *)
Definition kept (f : FdState T) (last : gmap nat DirEntry) : gmap nat DirEntry :=
  filter (fun e => is_Some (heap f !! e.1)) last.

Definition on_table {A} (m : M (FdState T) LinuxError A) : LM A := fun s =>
  let '((f, cw, u), g) := s in let '(r, f) := m f in (r, ((f, cw, u), g)).
Definition on_user {A} (m : M (UState AS) LinuxError A) : LM A := fun s =>
  let '((f, cw, u), g) := s in let '(r, u) := m u in (r, ((f, cw, u), g)).

(** The calls of [run_fs]. *)
Definition on_open {A} (m : M ((FdState T * PathState (DK * CW)) * Handles FH DH * UState AS) LinuxError A) : LM A :=
  fun s =>
  let '((f, cw, u), g) := s in
  let '(r, (((f', ps), h), u)) := m (((f, mkPS (g_links g) (g_disk g, cw)), g_handles g), u) in
  (r, ((f', (fs ps).2, u), dev_set_fs (Path.inner ps) (fs ps).1 h (kept f (g_last g)) g)).

(** [getdents64] works on the directory objects with the entries they keep. *)
Definition on_dirs {A} (m : DK -> M ((FdState T * gmap nat (@DirObj DH)) * UState AS) LinuxError A) : LM A := fun s =>
  let '((f, cw, u), g) := s in
  let dirs := map_imap (fun o h => Some (mkDir h (kept f (g_last g) !! o))) (h_dirs (g_handles g)) in
  let '(r, ((f, dirs), u)) := m (g_disk g) ((f, dirs), u) in
  (r, ((f, cw, u),
       dev_set_fs (g_links g) (g_disk g) (mkHandles (h_files (g_handles g)) (dir_inner <$> dirs)) (omap last_dirent dirs) g)).

(** [mount] and [umount2], whose strings come from the caller's memory. *)
Definition on_mounts {A}
  (m : (Z -> LinuxResult str) -> M ((FdState T * PathState (DK * CW)) * list MountedFs) LinuxError A) : LM A := fun s =>
  let '((f, cw, u), g) := s in
  let '(r, ((f, ps), l)) := m (get_as_str (us_aspace u) (us_mem u)) ((f, mkPS (g_links g) (g_disk g, cw)), g_mounts g) in
  (r, ((f, (fs ps).2, u),
       mkDev (Path.inner ps) (fs ps).1 (g_handles g) (g_last g) l (g_stdin g) (g_console g) (g_socks g))).

(** [mmap], [munmap] and [mprotect] on the open files and the address space. *)
Definition map_size (o : nat) (w : DK * gmap nat FH) : AxError + Z :=
  match w.2 !! o with Some h => sum_map id md_size (fops_get_attr h w.1) | None => inl AxNotFound end.
Definition map_read_at (o : nat) (off : Z) (buf : list Z) (w : DK * gmap nat FH)
  : (AxError + Z) * list Z * (DK * gmap nat FH) :=
  match w.2 !! o with
  | Some h => let '(r, b, (h, dk)) := fops_read_at h off buf w.1 in (r, b, (dk, <[o := h]> w.2))
  | None => (inl AxNotFound, buf, w)
  end.
Definition on_map {A} (m : M ((FdState T * (DK * gmap nat FH)) * AS) LinuxError A) : LM A := fun s =>
  let '((f, cw, u), g) := s in
  let '(r, ((f, (dk, files)), a)) := m ((f, (g_disk g, h_files (g_handles g))), us_aspace u) in
  (r, ((f, cw, mkUState a (as_seen (us_aspace u) a (us_mem u))),
       dev_set_fs (g_links g) dk (mkHandles files (h_dirs (g_handles g))) (g_last g) g)).

(** ** Reading and writing, one turn at a time *)

Abbreviation FSys := (FdState T * World CON BR U V DK FH)%type.
Definition world (g : Dev) : World CON BR U V DK FH :=
  mkWorld (g_console g) (g_stdin g) (g_disk g) (h_files (g_handles g)) (g_socks g).
Definition set_world (w : World CON BR U V DK FH) (g : Dev) : Dev :=
  mkDev (g_links g) (w_fs w) (mkHandles (w_files w) (h_dirs (g_handles g))) (g_last g) (g_mounts g)
    (w_stdin w) (w_console w) (w_socks w).

(** One turn of [read]: the answer with the buffer, or [None] when the loop goes
    round again.  Only a pipe and the console make the caller wait; the other
    objects answer at once. *)
Definition read_turn (o : nat) (buf : list Z) (s : FSys) : option (option (LinuxResult Z * list Z) * FSys) :=
  let at_once := '(r, b, s) ← filelike_read br_read 0 (fun _ s => s) o buf s; Some (Some (r, b), s) in
  c ← heap s.1 !! o;
  match cell_kind c with
  | KPipe r true =>
      if bool_decide (buf = []) then at_once
      else
        sh ← rings s.1 !! r;
        '(t, sh) ← read_iter sh buf;
        let s := set_ring r sh s in
        match t with
        | Pipe.Return (n, b) => Some (Some (Ok (Z.of_nat n), b), s)
        | Pipe.Again _ => Some (None, s)
        end
  | KStdin =>
      let '(r, s) := stdin_locked br_read (length buf) s in
      match r with
      | inl e => Some (Some (Err (ax_into e), buf), s)
      | inr bs =>
          if bool_decide (buf = []) || negb (bool_decide (bs = []))
          then Some (Some (Ok (Z.of_nat (length bs)), bs ++ drop (length bs) buf), s)
          else Some (None, s)
      end
  | _ => at_once
  end.

(** One turn of [write], of which [written] bytes are done; [None] at the entry,
    where a pipe without a reader is refused. *)
Definition write_turn (o : nat) (buf : list Z) (written : option nat) (s : FSys)
  : option ((LinuxResult Z + nat) * FSys) :=
  let at_once := '(r, s) ← filelike_write 0 (fun _ s => s) o buf s; Some (inl r, s) in
  c ← heap s.1 !! o;
  match cell_kind c with
  | KPipe r false =>
      sh ← rings s.1 !! r;
      if bool_decide (written = None) && (closed sh || bool_decide (buf = [])) then at_once
      else
        '(t, sh) ← write_iter sh buf (default 0%nat written);
        let s := set_ring r sh s in
        match t with
        | Pipe.Return n => Some (inl (Ok (Z.of_nat n)), s)
        | Pipe.Again n => Some (inr n, s)
        end
  | _ => at_once
  end.

(** A turn on a slice of the caller's memory: a count, or where the call waits.
    The reference to the object is dropped when the call has its answer. *)
Abbreviation Io := (LM (Z + pending UC)).

(** An access of the kernel to the bytes [[a, a + n)] of the caller's memory with the
    rights [f]: it faults, and the kernel panics, when the page tables do not have
    them, since [handle_page_fault] refuses a fault of the kernel.  The check of the
    slice had them mapped, but while the call waits a sharer of the address space
    may have unmapped them. *)
Definition touches (u : UState AS) (a n f : Z) : bool := (n <=? 0) || as_present (us_aspace u) (a, a + n) f.

(** A read stores the bytes that it answers with, which are in its slice. *)
Definition read_step (o : nat) (b : Z * Z) (rest : io_rest) : Io := fun s =>
  let '((f, cw, u), g) := s in
  match read_turn o (mem_read (us_mem u) (fst b) (Z.to_nat (snd b))) (f, world g) with
  | None => (Panic, s)
  | Some (None, (f, w)) => (Ok (inr (PRead o b rest)), ((f, cw, u), set_world w g))
  | Some (Some (r, bs), (f, w)) =>
      if touches u (fst b) (match r with Ok n => Z.min n (snd b) | _ => 0 end) MF_WRITE then
        (inl <$> r, ((arc_drop o f, cw, mkUState (us_aspace u) (mem_write (us_mem u) (fst b) bs)), set_world w g))
      else (Panic, s)
  end.

(** A write loads the bytes between what was written before and what is now. *)
Definition write_step (o : nat) (b : Z * Z) (written : option nat) (rest : io_rest) : Io := fun s =>
  let '((f, cw, u), g) := s in
  let from := Z.of_nat (default 0%nat written) in
  match write_turn o (mem_read (us_mem u) (fst b) (Z.to_nat (snd b))) written (f, world g) with
  | None => (Panic, s)
  | Some (inr n, (f, w)) =>
      if touches u (fst b + from) (Z.of_nat n - from) MF_READ
      then (Ok (inr (PWrite o b n rest)), ((f, cw, u), set_world w g)) else (Panic, s)
  | Some (inl r, (f, w)) =>
      if touches u (fst b + from) (match r with Ok n => Z.min n (snd b) - from | _ => 0 end) MF_READ
      then (inl <$> r, ((arc_drop o f, cw, u), set_world w g)) else (Panic, s)
  end.

(** [*iov] in the loop over a checked vector. *)
Definition iov_at (iov : Z) : LM iovec :=
  on_user (fun u => if touches u iov 16 MF_READ then deref iovec iov u else (Panic, u)).

#[local] Existing Instance u8_pod.

(** The loop over a vector, from its next element on, and what follows when the
    transfer of one element is complete. *)
Fixpoint readv_from (fd : Z) (n : nat) (iov ret : Z) : Io :=
  match n with
  | O => mret (inl ret)
  | S n' =>
      v ← iov_at iov;
      if iov_len v =? 0 then readv_from fd n' (iov + 16) ret
      else
        buf ← on_user (on_aspace (get_as_mut_slice Z (iov_base v) (iov_len v)));
        o ← on_table (get_file_like fd);
        r ← read_step o buf (IoVec fd n' (iov + 16) ret);
        match r with
        | inr q => mret (inr q)
        | inl read =>
            let ret := as_isize (ret + as_isize read) in
            if read <? snd buf then mret (inl ret) else readv_from fd n' (iov + 16) ret
        end
  end.

Fixpoint writev_from (fd : Z) (n : nat) (iov ret : Z) : Io :=
  match n with
  | O => mret (inl ret)
  | S n' =>
      v ← iov_at iov;
      if iov_len v =? 0 then writev_from fd n' (iov + 16) ret
      else
        buf ← on_user (on_aspace (get_as_slice Z (iov_base v) (iov_len v)));
        o ← on_table (get_file_like fd);
        r ← write_step o buf None (IoVec fd n' (iov + 16) ret);
        match r with
        | inr q => mret (inr q)
        | inl written =>
            let ret := as_isize (ret + as_isize written) in
            if written <? snd buf then mret (inl ret) else writev_from fd n' (iov + 16) ret
        end
  end.

(** What the call does with the count of a finished transfer of [b]. *)
Definition io_then (next : Z -> nat -> Z -> Z -> Io) (b : Z * Z) (rest : io_rest) (r : Z + pending UC) : Io :=
  match r, rest with
  | inr q, _ => mret (inr q)
  | inl n, IoEnd => mret (inl (as_isize n))
  | inl n, IoVec fd k iov ret =>
      let ret := as_isize (ret + as_isize n) in
      if n <? snd b then mret (inl ret) else next fd k iov ret
  end.

Definition resume_read (o : nat) (b : Z * Z) (rest : io_rest) : Io :=
  r ← read_step o b rest; io_then readv_from b rest r.
Definition resume_write (o : nat) (b : Z * Z) (written : nat) (rest : io_rest) : Io :=
  r ← write_step o b (Some written) rest; io_then writev_from b rest r.

Definition do_read (fd buf len : Z) : Io :=
  b ← on_user (on_aspace (get_as_mut_slice Z buf len));
  o ← on_table (get_file_like fd);
  r ← read_step o b IoEnd; io_then readv_from b IoEnd r.
Definition do_write (fd buf len : Z) : Io :=
  b ← on_user (on_aspace (get_as_slice Z buf len));
  o ← on_table (get_file_like fd);
  r ← write_step o b None IoEnd; io_then writev_from b IoEnd r.
Definition do_readv (fd iov iocnt : Z) : Io :=
  if negb ((0 <=? iocnt) && (iocnt <=? 1024)) then fail EINVAL
  else iovs ← on_user (on_aspace (get_as_mut_slice iovec iov iocnt)); readv_from fd (Z.to_nat (snd iovs)) (fst iovs) 0.
Definition do_writev (fd iov iocnt : Z) : Io :=
  if negb ((0 <=? iocnt) && (iocnt <=? 1024)) then fail EINVAL
  else iovs ← on_user (on_aspace (get_as_slice iovec iov iocnt)); writev_from fd (Z.to_nat (snd iovs)) (fst iovs) 0.

(** [File::from_fd(fd)?.inner().seek(pos)?]. *)
Definition seek_file (o : nat) (pos : SeekFrom) : LM Z := fun s =>
  let '((f, cw, u), g) := s in
  match h_files (g_handles g) !! o with
  | None => (Panic, s)
  | Some h =>
      let '(r, h) := fops_seek h pos (g_disk g) in
      (ax_ok r, ((arc_drop o f, cw, u),
                 dev_set_fs (g_links g) (g_disk g) (mkHandles (<[o := h]> (h_files (g_handles g))) (h_dirs (g_handles g)))
                   (g_last g) g))
  end.
Definition do_lseek (fd offset whence : Z) : LM Z :=
  pos ← lift (ok_or (seek_from offset whence) EINVAL);
  p ← on_table (File_from_fd fd);
  off ← seek_file (fst p) pos;
  mret (as_isize off).
End Local.

(** ** Every system call *)

(** [linux_raw_sys]'s futex commands and clock ids, and [SI_KERNEL] and [SIGSEGV]. *)
Class KernelConsts : Type := {
  FUTEX_CMD_MASK : Z; FUTEX_WAIT : Z; FUTEX_WAKE : Z; FUTEX_REQUEUE : Z; FUTEX_CMP_REQUEUE : Z;
  CLOCK_REALTIME : Z; CLOCK_MONOTONIC : Z; SI_KERNEL : Z; SIGSEGV : Z
}.

(** The functions of [axprocess], [axtask], [axhal], [axmm] and [axfs] that no
    component has named yet: sessions, groups and the process of a thread; which
    entries of the task tables live; the removal of a waiter whose time is up; the
    registers of a trap frame, with which a task enters user space; the count of
    timer ticks; and the contents of user memory after a change of its address
    space. *)
Class KernelEnv (PS K WQ AS UC TF DK FH DH CON BR : Type) : Type := {
  e_session : PS -> Z -> Z;
  e_group_processes : PS -> Z -> list Z;
  e_process_of : PS -> Z -> Z;
  e_alive : K -> Alive;
  e_cancel : Z -> WQ -> WQ;
  e_tf_arg : TF -> nat -> Z;
  e_tf_set_ip : Z -> TF -> TF;
  e_tf_set_sp : Z -> TF -> TF;
  e_tf_segs : TF -> Segments;
  e_tf_set_segs : Segments -> TF -> TF;
  e_tf_enter : UC -> TF;
  e_ticks : TimeValue -> Z;
  e_seen : AS -> AS -> umem -> umem;
  e_page_fault : Z -> Z -> AS -> bool * AS;
  e_br_read : (nat -> CON -> list Z * CON) -> nat -> BR * CON -> (AxError + list Z) * (BR * CON);
  e_padding : list Z;
  e_read_dir : DK -> DH -> (AxError + option DirEntry) * DH;
  e_read_at : FH -> Z -> list Z -> DK -> (AxError + Z) * list Z * (FH * DK);
  e_seek : FH -> SeekFrom -> DK -> (AxError + Z) * FH;
  e_x86_64 : bool;
  e_child_tid_first : bool;
  e_sysno : Z -> Sysno;
  e_err_code : LinuxError -> Z
}.

Section Exec.
Context {PS T AS WQ SG SA SI CW W UC TF ACT KSA SS DK FH DH CON BR U V ADDR E L X : Type}.
Abbreviation K := (KState PS T AS WQ SG SA CW).
Abbreviation C := (CState PS T AS WQ SG SA CW W UC).
Abbreviation Dev := (Devices DK FH DH CON BR U V).
Abbreviation Y := (Machine PS T AS WQ SG SA CW W UC TF DK FH DH CON BR U V).
Abbreviation YM := (M Y LinuxError).
Abbreviation Local := ((FdState T * CW * UState AS) * Dev)%type.
Context `{AxProcess PS} `{FlattenObjects T nat} `{WaitQueue WQ} `{AxSignal SG SA SI}
  `{ErrorConv, MemoryAddr, MappingFlags} `{AddrSpace AS} `{AddrSpaceClone AS} `{AddrSpaceLoad AS} `{WeakMap W}
  `{UserContext TF UC} `{CloneConsts} `{WaitConsts} `{SignalManager SG SA SI ACT KSA SS TF} `{SignalConsts}
  `{Pod KSA, Pod SS, Pod SI} `{AxFs (DK * CW)} `{AxOpen (DK * CW) FH DH} `{AxFops DK FH} `{Console CON}
  `{AxNet U V ADDR} `{OpenFlags} `{FileModes} `{Pod stat, Pod statx} `{CallConsts} `{DirTypes} `{MmapConsts}
  `{Elf E L X} `{FileStore (DK * CW)} `{LoadConfig} `{KernelConsts} `{KernelEnv PS K WQ AS UC TF DK FH DH CON BR}.

Definition set_c (c : C) (y : Y) : Y := mkMachine c (y_dev y) (y_threads y) (y_wall y) (y_mono y).
Definition set_k (k : K) (y : Y) : Y := set_c (mkC k (c_tables (y_c y)) (c_tasks (y_c y))) y.
Definition set_dev (g : Dev) (y : Y) : Y := mkMachine (y_c y) g (y_threads y) (y_wall y) (y_mono y).
Definition set_threads (l : gmap Z (UThread UC TF)) (y : Y) : Y := mkMachine (y_c y) (y_dev y) l (y_wall y) (y_mono y).
Definition y_k (y : Y) : K := c_k (y_c y).

Definition on_c {A} (m : M C LinuxError A) : YM A := fun y => let '(r, c) := m (y_c y) in (r, set_c c y).
Definition on_kernel {A} (m : M K LinuxError A) : YM A := on_c (on_k m).

(** The resources the namespace of [p] names; a process that runs has them all. *)
Definition local_of (p : Z) (y : Y) : option (ProcessData WQ * T * CW * UState AS) :=
  d ← k_pdata (y_k y) !! p;
  t ← fd_table (k_files (y_k y)) !! ns_fd_table d;
  c ← k_cwds (y_k y) !! ns_cwd d;
  u ← k_spaces (y_k y) !! aspace d;
  Some (d, t, c, u).

Definition put_local (d : ProcessData WQ) (s : Local) (y : Y) : Y :=
  let '((f, cw, u), g) := s in
  let k := y_k y in
  set_dev g (set_k (mkK (k_ps k) (k_pdata k) (k_tdata k) (<[aspace d := u]> (k_spaces k))
                      (unview (ns_fd_table d) (k_files k) f) (<[ns_cwd d := cw]> (k_cwds k)) (k_actions k) (k_sig k)) y).

Definition on_process {A} (p : Z) (m : M Local LinuxError A) : YM A := fun y =>
  match local_of p y with
  | None => (Panic, y)
  | Some (d, t, c, u) =>
      let '(r, s) := m ((view t (k_files (y_k y)), c, u), y_dev y) in (r, put_local d s y)
  end.

(** Updates of the calling thread. *)
Definition upd_thread (t : Z) (f : UThread UC TF -> UThread UC TF) (y : Y) : Y :=
  set_threads (alter f t (y_threads y)) y.
Definition th_set_tf (tf : TF) (h : UThread UC TF) : UThread UC TF :=
  mkThread (th_process h) (th_name h) tf (th_time h) (th_wait h).
Definition th_set_time (x : TimeStat) (h : UThread UC TF) : UThread UC TF :=
  mkThread (th_process h) (th_name h) (th_tf h) x (th_wait h).
Definition th_set_wait (q : option (pending UC)) (h : UThread UC TF) : UThread UC TF :=
  mkThread (th_process h) (th_name h) (th_tf h) (th_time h) q.

(** A handler that does not wait, one that may, and one that ends in a wait. *)
Definition now (m : YM Z) (y : Y) : result UC * Y := let '(r, y) := m y in (Done r, y).
Definition may_wait (m : YM (result UC)) (y : Y) : result UC * Y :=
  match m y with (Ok r, y) => (r, y) | (Err e, y) => (Done (Err e), y) | (Panic, y) => (Done Panic, y) end.
Definition io_result (r : Z + pending UC) : result UC := match r with inl n => Done (Ok n) | inr q => Wait q end.
Definition waits (m : YM unit) (q : pending UC) : Y -> result UC * Y := may_wait (m;; mret (Wait q)).

(** *** Processes and threads *)

(** [do_exit] up to its yield. *)
Definition begin_exit (p t code : Z) (group : bool) : Y -> result UC * Y :=
  waits (on_kernel (exit_clear_tid (fun k => k) p t)) (PExit code group).

(** The word for the status, which was checked before the wait, is still there. *)
Definition status_word (p : Z) (exit_code : option Z) : M K LinuxError unit :=
  match exit_code with
  | None => mret tt
  | Some a => on_space p (fun u => (if touches u a 4 MF_WRITE then Ok tt else Panic, u))
  end.

(** One look at the children of the loop of [waitpid]. *)
Definition wait_turn (p t options : Z) (children : list Z) (exit_code : option Z) : YM (result UC) := fun y =>
  match first_zombie (y_k y) children with
  | Some child => (on_kernel (status_word p exit_code);; r ← on_kernel (report_child p options exit_code child); mret (Done (Ok r))) y
  | None =>
      if contains options WNOHANG then (Ok (Done (Ok 0)), y)
      else (Ok (Wait (PWait children exit_code options)), set_k (join_exit_wq t p (y_k y)) y)
  end.

Definition do_waitpid (p t pid exit_code_ptr options : Z) : YM (result UC) :=
  let options := from_bits_truncate WaitOptions_all options in
  s ← on_kernel (wait_setup p pid exit_code_ptr options);
  wait_turn p t options s.1 s.2.

(** A clone by the thread [t], which is given the number [id]: the new task starts
    with the registers of its context. *)
Definition do_clone (p t id flags stack parent_tid child_tid tls : Z) (h : UThread UC TF) : YM Z :=
  n ← on_c (sys_clone USER_HEAP_BASE e_session e_alive p (th_name h) id (th_tf h) flags stack parent_tid child_tid tls);
  y ← get;
  match last (c_tasks (y_c y)) with
  | None => panic
  | Some task =>
      let process := if contains (from_bits_truncate CloneFlags_all (Z.land flags (as_u32 (Z.lnot FLAG_MASK)))) CLONE_THREAD
                     then p else as_u32 id in
      put (set_threads (<[as_u32 id := mkThread process (task_name task) (e_tf_enter (task_uctx task)) ts_new
                                         (Some (PStart task))]> (y_threads y)) y);;
      mret n
  end.

(** [execve] replaces the contents of the address space, the name of the task, the
    path of the process and the registers. *)
Definition set_exe_path (path : str) (d : ProcessData WQ) : ProcessData WQ :=
  mkPD path (aspace d) (ns_fd_table d) (ns_cwd d) (pd_heap d) (child_exit_wq d) (exit_signal d) (sig_actions d)
    (futex_table d).

Definition do_execve (fuel : nat) (p t path argv envp : Z) (h : UThread UC TF) (y : Y) : option (result UC * Y) :=
  match local_of p y with
  | None => Some (Done Panic, y)
  | Some (d, _, cw, u) =>
      '(r, s) ← sys_execve e_tf_set_ip e_tf_set_sp fuel (g_disk (y_dev y), cw)
                  (Z.of_nat (length (p_threads (k_ps (y_k y)) p))) (us_mem u) path argv envp
                  (mkExec (us_aspace u) (th_name h) (exe_path d) (th_tf h));
      let k := y_k y in
      let u := mkUState (ex_aspace s) (e_seen (us_aspace u) (ex_aspace s) (us_mem u)) in
      let k := set_pdata (alter (set_exe_path (ex_path s)) p (k_pdata k)) (set_spaces (<[aspace d := u]> (k_spaces k)) k) in
      Some (Done r, upd_thread t (fun h => mkThread (th_process h) (ex_name s) (ex_tf s) (th_time h) (th_wait h)) (set_k k y))
  end.

(** [brk] on the heap of the process. *)
Definition set_pd_heap (x : Heap) (d : ProcessData WQ) : ProcessData WQ :=
  mkPD (exe_path d) (aspace d) (ns_fd_table d) (ns_cwd d) x (child_exit_wq d) (exit_signal d) (sig_actions d)
    (futex_table d).
Definition do_brk (p addr : Z) : M K LinuxError Z :=
  d ← process_data p;
  let '(r, x) := sys_brk USER_HEAP_SIZE addr (pd_heap d) in
  modify (fun k => set_pdata (<[p := set_pd_heap x d]> (k_pdata k)) k);; mret r.

(** [arch_prctl] on the segment bases among the registers. *)
Definition do_arch_prctl (p t code addr : Z) (h : UThread UC TF) : YM Z := fun y =>
  let '(r, (segs, y)) :=
    match local_of p y with
    | None => (Panic, (e_tf_segs (th_tf h), y))
    | Some (d, _, _, u) =>
        let '(r, (g, u)) := sys_arch_prctl code addr (e_tf_segs (th_tf h), u) in
        (r, (g, set_k (set_spaces (<[aspace d := u]> (k_spaces (y_k y))) (y_k y)) y))
    end in
  (r, upd_thread t (th_set_tf (e_tf_set_segs segs (th_tf h))) y).

(** *** Futexes, signals and sleep *)

Definition on_futex {A} (p : Z) (m : M (FutexState WQ * UState AS) LinuxError A) : M K LinuxError A :=
  d ← process_data p;
  k ← get;
  u ← lift (unwrap_opt (k_spaces k !! aspace d));
  let '(r, (f, u)) := m (futex_table d, u) in
  put (set_pdata (<[p := set_futex f d]> (k_pdata k)) (set_spaces (<[aspace d := u]> (k_spaces k)) k));; lift r.

Definition do_futex (p t uaddr futex_op value timeout uaddr2 value3 : Z) : YM (result UC) :=
  r ← on_kernel (on_futex p (sys_futex FUTEX_CMD_MASK FUTEX_WAIT FUTEX_WAKE FUTEX_REQUEUE FUTEX_CMP_REQUEUE
                               t uaddr futex_op value timeout uaddr2 value3));
  match r with
  | Returns n => mret (Done (Ok n))
  | Sleeps g timeout => mret (Wait (PFutex g timeout))
  end.

(** A futex wait ends when the thread is out of the queue, or when its time is up,
    which takes it out. *)
Definition futex_turn (p t : Z) (g : WaitQueueGuard) (timeout : option TimeValue) : YM (result UC) := fun y =>
  match k_pdata (y_k y) !! p with
  | None => (Panic, y)
  | Some d =>
      let waiting := match queues (futex_table d) !! Futex.inner g with
                     | Some q => bool_decide (t ∈ wq_waiters (q_wq q))
                     | None => false
                     end in
      if waiting && bool_decide (timeout = None) then (Ok (Wait (PFutex g timeout)), y)
      else
        let f := if waiting then on_queue (Futex.inner g) (e_cancel t) (futex_table d) else futex_table d in
        let '(r, f) := futex_resume g f in
        (Ok (Done (Ok r)), set_k (set_pdata (<[p := set_futex f d]> (k_pdata (y_k y))) (y_k y)) y)
  end.

(** The body of the loop of [sigsuspend]. *)
Definition suspend_turn (p t : Z) (old_blocked : Z) (h : UThread UC TF) (y : Y) : result UC * Y :=
  match on_kernel (due_signal t (th_tf h) (Some old_blocked)) y with
  | (Ok (r, tf), y) =>
      let y := upd_thread t (th_set_tf tf) y in
      match r with
      | None => (Wait (PSuspend old_blocked), y)
      | Some None => (Done (Ok 0), y)
      | Some (Some code) => begin_exit p t code true y
      end
  | (_, y) => (Done Panic, y)
  end.

Definition do_sigsuspend (p t set sigsetsize : Z) (h : UThread UC TF) (y : Y) : result UC * Y :=
  match on_kernel (suspend_setup p t (th_tf h) set sigsetsize) y with
  | (Ok (old_blocked, tf), y) => suspend_turn p t old_blocked (th_set_tf tf h) y
  | (Err e, y) => (Done (Err e), y)
  | (Panic, y) => (Done Panic, y)
  end.

Definition do_sigreturn (t : Z) (h : UThread UC TF) : YM Z :=
  r ← on_kernel (sys_rt_sigreturn t (th_tf h)); modify (upd_thread t (th_set_tf r.2));; mret r.1.

Definition do_nanosleep (p req rem : Z) : YM (result UC) :=
  dur ← on_kernel (on_space p (nanosleep_begin req));
  y ← get; mret (Wait (PSleep dur (y_mono y) rem)).

(** The sleep is over when the clock says so. *)
Definition sleep_turn (p : Z) (dur since : TimeValue) (rem : Z) : YM (result UC) := fun y =>
  if total_nanos (y_mono y) <? total_nanos since + total_nanos dur then (Ok (Wait (PSleep dur since rem)), y)
  else
    (actual ← lift (unwrap_opt (checked_sub (y_mono y) since));
     r ← on_kernel (on_space p (fun u => let '(r, (u, _)) := nanosleep_finish dur actual rem (u, []) in (r, u)));
     mret (Done (Ok r))) y.

(** *** The handlers by call

    [id] is the number that a new task is given; [fuel] bounds the rounds of the
    loader, and [None] says that they were not enough. *)
Definition exec_files (p : Z) (c : call) : option (Y -> result UC * Y) :=
  match run_fs c with
  | Some m => Some (now (on_process p (on_open m)))
  | None =>
      let io m := Some (may_wait (r ← on_process p m; mret (io_result r))) in
      match c with
      | C_getdents64 fd buf len =>
          Some (now (on_process p (on_dirs (fun dk => sys_getdents64 e_padding (e_read_dir dk) fd buf len))))
      | C_mount source target fs_type _ _ =>
          Some (now (on_process p (on_mounts (fun str => sys_mount AT_FDCWD str source target fs_type))))
      | C_umount2 target flags => Some (now (on_process p (on_mounts (fun str => sys_umount2 AT_FDCWD str target flags))))
      | C_mmap addr length prot flags fd offset =>
          Some (now (on_process p (on_map e_seen
                 (sys_mmap map_size (map_read_at e_read_at) addr length prot flags fd offset))))
      | C_munmap addr length => Some (now (on_process p (on_map e_seen (sys_munmap addr length))))
      | C_mprotect addr length prot => Some (now (on_process p (on_map e_seen (sys_mprotect addr length prot))))
      | C_read fd buf len => io (do_read e_br_read UC fd buf len)
      | C_readv fd iov n => io (do_readv e_br_read UC fd iov n)
      | C_write fd buf len => io (do_write UC fd buf len)
      | C_writev fd iov n => io (do_writev UC fd iov n)
      | C_lseek fd offset whence => Some (now (on_process p (do_lseek e_seek fd offset whence)))
      | _ => None
      end
  end.

Definition exec_tasks (fuel : nat) (id p t : Z) (h : UThread UC TF) (c : call) : option (Y -> option (result UC * Y)) :=
  let k m := Some (fun y => Some (now (on_kernel m) y)) in
  let w (m : Y -> result UC * Y) := Some (fun y => Some (m y)) in
  match c with
  | C_brk addr => k (do_brk p addr)
  | C_getpid => k (sys_getpid p)
  | C_getppid => k (sys_getppid p)
  | C_gettid => k (sys_gettid t)
  | C_sched_yield => w (fun y => (Wait PYield, y))
  | C_nanosleep req rem => w (may_wait (do_nanosleep p req rem))
  | C_execve path argv envp => Some (do_execve fuel p t path argv envp h)
  | C_set_tid_address a => k (sys_set_tid_address t a)
  | C_arch_prctl code addr => w (now (do_arch_prctl p t code addr h))
  | C_clone flags stack parent_tid a3 a4 =>
      let '(child_tid, tls) := if e_child_tid_first then (a3, a4) else (a4, a3) in
      w (now (do_clone p t id flags stack parent_tid child_tid tls h))
  | C_fork => w (now (do_clone p t id SIGCHLD 0 0 0 0 h))
  | C_exit code => w (begin_exit p t (as_i32 (Z.shiftl code 8)) false)
  | C_exit_group code => w (begin_exit p t (as_i32 (Z.shiftl code 8)) true)
  | C_waitpid pid ptr options => w (may_wait (do_waitpid p t pid ptr options))
  | C_gettimeofday ts => Some (fun y => Some (now (on_kernel (on_space p (sys_gettimeofday (y_wall y) ts))) y))
  | C_times tms =>
      Some (fun y => Some (now (on_kernel (on_space p (sys_times (th_time h) (e_ticks (y_mono y)) tms))) y))
  | C_clock_gettime clock ts =>
      Some (fun y => Some (now (on_kernel (on_space p
             (sys_clock_gettime CLOCK_REALTIME CLOCK_MONOTONIC (y_wall y) (y_mono y) clock ts))) y))
  | _ => None
  end.

Definition exec_signals (p t : Z) (h : UThread UC TF) (c : call) : option (Y -> result UC * Y) :=
  let k m := Some (now (on_kernel m)) in
  match c with
  | C_rt_sigprocmask how set oldset n => k (sys_rt_sigprocmask p t how set oldset n)
  | C_rt_sigaction signo act oldact n => k (sys_rt_sigaction p signo act oldact n)
  | C_rt_sigpending set n => k (sys_rt_sigpending p t set n)
  | C_rt_sigreturn => Some (now (do_sigreturn t h))
  | C_rt_sigtimedwait set info timeout n => k (sys_rt_sigtimedwait p t set info timeout n)
  | C_rt_sigsuspend set n => Some (do_sigsuspend p t set n h)
  | C_kill pid signo => Some (now (on_c (sys_kill e_alive e_group_processes p pid signo)))
  | C_tkill tid signo => Some (now (on_c (sys_tkill e_alive tid signo)))
  | C_tgkill tgid tid signo => Some (now (on_c (sys_tgkill e_alive e_process_of tgid tid signo)))
  | C_rt_sigqueueinfo tgid signo sig n => Some (now (on_c (sys_rt_sigqueueinfo e_alive p tgid signo sig n)))
  | C_rt_tgsigqueueinfo tgid tid signo sig n =>
      Some (now (on_c (sys_rt_tgsigqueueinfo e_alive e_process_of p tgid tid signo sig n)))
  | C_sigaltstack ss old_ss => k (sys_sigaltstack p t ss old_ss)
  | C_futex uaddr op value timeout uaddr2 value3 => Some (may_wait (do_futex p t uaddr op value timeout uaddr2 value3))
  | _ => None
  end.

(** Every call has its handler: see [exec_total]. *)
Definition exec (fuel : nat) (id t : Z) (c : call) (y : Y) : option (result UC * Y) :=
  match y_threads y !! t with
  | None => Some (Done Panic, y)
  | Some h =>
      let p := th_process h in
      match exec_files p c, exec_signals p t h c, exec_tasks fuel id p t h c with
      | Some m, _, _ => Some (m y)
      | None, Some m, _ => Some (m y)
      | None, None, Some m => m y
      | None, None, None => Some (Done Panic, y)
      end
  end.

(** *** Into the kernel and out of it *)

Definition y_enter (t : Z) (y : Y) : Y :=
  upd_thread t (fun h => th_set_time (time_stat_from_user_to_kernel (total_nanos (y_mono y)) (th_time h)) h) y.
Definition y_leave (t : Z) (y : Y) : Y :=
  upd_thread t (fun h => th_set_time (time_stat_from_kernel_to_user (total_nanos (y_mono y)) (th_time h)) h) y.

(** [post_trap_callback]: on the way back to user code, after every trap of it, a
    signal that is due is handled. *)
Definition post_trap (t : Z) (y : Y) : option Y :=
  h ← y_threads y !! t;
  match on_kernel (due_signal t (th_tf h) None) y with
  | (Ok (r, tf), y) =>
      let y := upd_thread t (th_set_tf tf) y in
      match r with
      | Some (Some code) =>
          match begin_exit (th_process h) t code true y with
          | (Wait q, y) => Some (upd_thread t (th_set_wait (Some q)) y)
          | _ => None
          end
      | _ => Some y
      end
  | _ => None
  end.

(** The trap code stores the answer of a call in the return register. *)
Definition return_to_user (t ans : Z) (y : Y) : option Y :=
  post_trap t (upd_thread t (fun h => th_set_tf (tf_set_retval (as_usize ans) (th_tf h)) (th_set_wait None h)) y).

(** How a thread goes on when its handler has left; [None] is a panic. *)
Definition settle (t : Z) (r : result UC) (y : Y) : option Y :=
  match r with
  | Done r => match answer e_err_code r with Ok ans => return_to_user t ans (y_leave t y) | _ => None end
  | Wait q => Some (upd_thread t (th_set_wait (Some q)) y)
  | Gone => Some (set_threads (delete t (y_threads y)) y)
  end.

(** A trap of the running thread [t] with the system-call number [num]. *)
Definition trap (fuel : nat) (id t num : Z) (y : Y) : option Y :=
  let y := y_enter t y in
  h ← y_threads y !! t;
  match decode e_x86_64 (e_tf_arg (th_tf h)) (e_sysno (as_u32 num)) with
  | Some c => '(r, y) ← exec fuel id t c y; settle t r y
  | None => settle t (Done (Err ENOSYS)) y
  end.

(** A fault of user code: the page is provided, or the thread ends. *)
Definition fault (t vaddr flags : Z) (y : Y) : option Y :=
  h ← y_threads y !! t;
  match on_kernel (resolve_fault e_page_fault (th_process h) vaddr flags) y with
  | (Ok true, y) => post_trap t y
  | (Ok false, y) => let '(r, y) := begin_exit (th_process h) t SIGSEGV true y in settle t r y
  | _ => None
  end.

(** The next turn of a thread that waits in the kernel. *)
Definition turn (t : Z) (h : UThread UC TF) (q : pending UC) : Y -> result UC * Y :=
  let p := th_process h in
  let io m := may_wait (r ← on_process p m; mret (io_result r)) in
  match q with
  | PStart task => fun y => (Wait q, set_k (task_start task (y_k y)) y)
  | PExit code group => may_wait (on_kernel (exit_thread SI_KERNEL p t code group);; mret Gone)
  | PYield => fun y => (Done (Ok 0), y)
  | PSleep dur since rem => may_wait (sleep_turn p dur since rem)
  | PWait children exit_code options => may_wait (fun y =>
      match k_pdata (y_k y) !! p with
      | Some d => if bool_decide (t ∈ wq_waiters (child_exit_wq d)) then (Ok (Wait q), y)
                  else wait_turn p t options children exit_code y
      | None => (Panic, y)
      end)
  | PFutex g timeout => may_wait (futex_turn p t g timeout)
  | PSuspend old_blocked => suspend_turn p t old_blocked h
  | PRead o b rest => io (resume_read e_br_read UC o b rest)
  | PWrite o b n rest => io (resume_write UC o b n rest)
  end.

(** A task that has started is in user space; any other wait goes on or ends. *)
Definition resume (t : Z) (y : Y) : option Y :=
  h ← y_threads y !! t;
  q ← th_wait h;
  let '(r, y) := turn t h q y in
  match q with
  | PStart _ => Some (upd_thread t (th_set_wait None) y)
  | _ => settle t r y
  end.

(** ** Runs *)

(** What user code can do on its own: compute in its registers and in the memory
    of its process. *)
Definition compute (t : Z) (m : umem) (tf : TF) (y : Y) : option Y :=
  h ← y_threads y !! t;
  d ← k_pdata (y_k y) !! th_process h;
  u ← k_spaces (y_k y) !! aspace d;
  Some (upd_thread t (th_set_tf tf)
          (set_k (set_spaces (<[aspace d := mkUState (us_aspace u) m]> (k_spaces (y_k y))) (y_k y)) y)).

Definition in_user (t : Z) (y : Y) : Prop := exists h, y_threads y !! t = Some h /\ th_wait h = None.

(** What happens on its own: the clocks run, keys are pressed, packets come. *)
Definition outside (wall mono : TimeValue) (con : CON) (socks : gmap nat (Socket U V)) (y : Y) : Y :=
  let g := y_dev y in
  mkMachine (y_c y) (mkDev (g_links g) (g_disk g) (g_handles g) (g_last g) (g_mounts g) (g_stdin g) con socks)
    (y_threads y) wall mono.

(** One step of the machine, by the thread [t]; the number that [axtask] gives to a
    new task is that of no thread and no process. *)
Inductive step (t : Z) (y : Y) : Y -> Prop :=
| step_compute m tf y' : in_user t y -> compute t m tf y = Some y' -> step t y y'
| step_trap fuel id num y' :
    in_user t y -> y_threads y !! as_u32 id = None -> k_pdata (y_k y) !! as_u32 id = None ->
    trap fuel id t num y = Some y' -> step t y y'
| step_fault vaddr flags y' : in_user t y -> fault t vaddr flags y = Some y' -> step t y y'
| step_resume y' : resume t y = Some y' -> step t y y'
| step_outside wall mono con socks : step t y (outside wall mono con socks y).

Definition machine_step (y y' : Y) : Prop := exists t, step t y y'.
End Exec.
