(* ===== verification/MachineInv.v ===== *)
(** * What every step of the machine keeps

    Two facts about all the processes together, for every interleaving of their
    system calls.  The strong count of a file object is the number of descriptors
    of all tables that name it and of calls under way that hold it.  And a step
    of one process leaves alone the memory, the descriptor tables and the working
    directories that its namespace does not name. *)

From stdpp Require Import base list gmap option relations.
From Stdlib Require Import ZArith Lia.
From S2P Require Import Prelude Text Bytes AddrSpace Ptr.
From S2P Require Import Pipe TimeStat TimeConv FdTable Path Mount.
From S2P Require Import Dirent Futex Io Mmap Process Clone Signal.
From S2P Require Import Loader Files Open Syscall Entry.
From S2P Require Import Machine.
Import ListNotations.

(** ** Reference counts over all tables *)

Section AllTables.
Context {T : Type} `{FlattenObjectsOk T nat}.

Definition all_refs (tabs : gmap nat T) (o : nat) : nat :=
  map_fold (fun _ t n => (refs (fo_get t) o + n)%nat) 0%nat tabs.

Lemma all_refs_insert tabs i t o :
  tabs !! i = None -> all_refs (<[i := t]> tabs) o = (refs (fo_get t) o + all_refs tabs o)%nat.
Proof. intros Hi. unfold all_refs. rewrite map_fold_insert_L; [done| |done]. intros. lia. Qed.

Lemma all_refs_delete tabs i t o :
  tabs !! i = Some t -> all_refs tabs o = (refs (fo_get t) o + all_refs (delete i tabs) o)%nat.
Proof.
  intros Hi. rewrite <- (insert_delete_id _ _ _ Hi) at 1.
  apply all_refs_insert, lookup_delete_eq.
Qed.

(** The descriptor state of the whole machine: all tables over one heap, with the
    references that calls under way hold in [ext]. *)
Definition files_inv (f : FdState (gmap nat T)) (ext : nat -> nat) : Prop :=
  fd_inv (view fo_new f) (fun o => all_refs (fd_table f) o + ext o)%nat.

(** Only the sum of the counts matters. *)
Lemma fd_inv_recount (s s' : FdState T) ext ext' :
  heap s' = heap s -> rings s' = rings s ->
  (forall o, refs (fo_get (fd_table s)) o + ext o = refs (fo_get (fd_table s')) o + ext' o)%nat ->
  fd_inv s ext -> fd_inv s' ext'.
Proof.
  intros Eh Er E Hi. destruct Hi as [H1 H2 H3 H4]. split; rewrite ?Eh, ?Er; auto. intros o. by rewrite H1, E.
Qed.

Lemma refs_new o : refs (fo_get (fo_new : T)) o = 0%nat.
Proof. apply refs_none. intros. apply fo_get_new. Qed.

(** One table of it, with the references of the others counted from outside. *)
Definition others (f : FdState (gmap nat T)) (i : nat) (ext : nat -> nat) (o : nat) : nat :=
  (all_refs (delete i (fd_table f)) o + ext o)%nat.

Lemma files_view f ext i t :
  fd_table f !! i = Some t -> files_inv f ext -> fd_inv (view t f) (others f i ext).
Proof.
  intros Hi. apply fd_inv_recount; [done..|]. intros o. simpl. unfold others.
  rewrite refs_new, (all_refs_delete _ _ _ _ Hi). lia.
Qed.

Lemma files_unview f ext ext' i s :
  (forall o, others f i ext o = ext' o) -> fd_inv s ext' -> files_inv (unview i f s) ext.
Proof.
  intros E. apply fd_inv_recount; [done..|]. intros o. simpl. rewrite <- E, refs_new. unfold others.
  rewrite <- (insert_delete_eq (fd_table f) i), all_refs_insert by apply lookup_delete_eq. lia.
Qed.

(** A table that takes over references counted outside. *)
Lemma files_new_table f ext i t :
  fd_table f !! i = None -> files_inv f (fun o => refs (fo_get t) o + ext o)%nat ->
  files_inv (mkFd (<[i := t]> (fd_table f)) (heap f) (rings f) (nonblocking f)) ext.
Proof. intros Hi. apply fd_inv_recount; [done..|]. intros o. simpl. rewrite all_refs_insert by done. lia. Qed.

Lemma files_ext f ext ext' : (forall o, ext o = ext' o) -> files_inv f ext -> files_inv f ext'.
Proof. intros E. apply fd_inv_ext. intros o. by rewrite E. Qed.

(** Copying and clearing a table, as the handles of the objects see it. *)
Lemma copy_ids_handles {FH DH} src (hs : Handles FH DH) ids : forall t (s : FdState T),
  handles_ok s hs -> handles_ok (snd (copy_ids ids src t s)) hs.
Proof.
  induction ids as [|id ids IH]; intros t s Hh; simpl; [done|]. destruct (fo_get src id); [|done].
  destruct (fo_add_at t id _); apply IH; [by apply handles_ok_clone|by apply handles_ok_drop, handles_ok_clone].
Qed.
Lemma clear_handles {FH DH} (hs : Handles FH DH) (s : FdState T) : handles_ok s hs -> handles_ok (clear s) hs.
Proof.
  unfold clear. generalize (fo_ids (fd_table s)). intros ids. revert s.
  induction ids as [|id ids IH]; intros s Hh; simpl; [done|]. apply IH. unfold clear_step.
  destruct (fo_remove _ _) as [[o|] t]; [by apply handles_ok_drop|done].
Qed.
End AllTables.

(** ** Calls on the resources of one process *)

(** The references a waiting thread holds. *)
Definition holds {UC} (q : pending UC) (o : nat) : nat :=
  match q with
  | PRead o' _ _ | PWrite o' _ _ _ => if decide (o = o') then 1 else 0
  | _ => 0
  end.

Section LocalInv.
Context {T AS CW DK FH DH CON BR U V ADDR : Type} `{FlattenObjectsOk T nat} `{AxFs (DK * CW)} `{AxOpen (DK * CW) FH DH}
  `{AxFops DK FH} `{Console CON} `{AxNet U V ADDR} `{ErrorConv, MemoryAddr, MappingFlags} `{AddrSpace AS} `{OpenFlags}
  `{DirTypes} `{MmapConsts}.
Context (br_read : (nat -> CON -> list Z * CON) -> nat -> BR * CON -> (AxError + list Z) * (BR * CON))
  (padding : list Z) (read_dir : DK -> DH -> (AxError + option DirEntry) * DH)
  (fops_read_at : FH -> Z -> list Z -> DK -> (AxError + Z) * list Z * (FH * DK))
  (fops_seek : FH -> SeekFrom -> DK -> (AxError + Z) * FH)
  (as_seen : AS -> AS -> umem -> umem) (UC : Type).
Abbreviation Dev := (Devices DK FH DH CON BR U V).
Abbreviation Local := ((FdState T * CW * UState AS) * Dev)%type.
Abbreviation LM := (M Local LinuxError).
Abbreviation FSys := (FdState T * World CON BR U V DK FH)%type.
Abbreviation IoM := (LM (Z + pending UC)).

Definition local_inv (ext : nat -> nat) (s : Local) : Prop :=
  fd_inv s.1.1.1 ext /\ handles_ok s.1.1.1 (g_handles s.2).

(** What a result leaves in the hands of the caller. *)
Definition owed (r : LinuxResult (Z + pending UC)) (ext : nat -> nat) (o : nat) : nat :=
  match r with Ok (inr q) => (holds q o + ext o)%nat | _ => ext o end.

Definition local_keeps {A} (m : LM A) : Prop :=
  forall ext s, local_inv ext s -> fst (m s) <> Panic -> local_inv ext (snd (m s)).
(** The same for a call that may wait, begun with [dir]'s reference in hand. *)
Definition io_keeps (dir : option nat) (m : IoM) : Prop :=
  forall ext s, local_inv (bump_dir dir ext) s -> fst (m s) <> Panic -> local_inv (owed (fst (m s)) ext) (snd (m s)).

Lemma keeps_same {A} (m : LM A) :
  (forall s, (snd (m s)).1.1.1 = s.1.1.1 /\ g_handles (snd (m s)).2 = g_handles s.2) -> local_keeps m.
Proof. intros Hm ext s [Hi Hh] _. destruct (Hm s) as [E1 E2]. split; by rewrite ?E1, ?E2. Qed.

Lemma local_keeps_bind {A B} (m : LM A) (k : A -> LM B) :
  local_keeps m -> (forall a, local_keeps (k a)) -> local_keeps (m ≫= k).
Proof.
  intros Hm Hk ext s Hi. specialize (Hm ext s Hi). unfold_M. destruct (m s) as [[a| |] s1]; simpl in *.
  - apply Hk. by apply Hm.
  - intros _. by apply Hm.
  - done.
Qed.
Lemma local_keeps_mret {A} (a : A) : local_keeps (mret a).
Proof. by apply keeps_same. Qed.
Lemma local_keeps_lift {A} (r : LinuxResult A) : local_keeps (lift r).
Proof. by apply keeps_same. Qed.
Lemma local_keeps_user {A} (m : M (UState AS) LinuxError A) : local_keeps (on_user m).
Proof. apply keeps_same. intros [[[f cw] u] g]. simpl. by destruct (m u). Qed.

Lemma on_open_keeps {A} (m : M ((FdState T * PathState (DK * CW)) * Handles FH DH * UState AS) LinuxError A) :
  preserves m -> local_keeps (on_open m).
Proof.
  intros Hm ext [[[f cw] u] g] [Hi Hh]. unfold on_open.
  specialize (Hm ext (((f, mkPS (g_links g) (g_disk g, cw)), g_handles g), u) (conj Hi Hh)).
  destruct (m _) as [r [[[f' ps] h] u']]. exact Hm.
Qed.

Lemma on_mounts_keeps {A} (m : (Z -> LinuxResult str) -> M ((FdState T * PathState (DK * CW)) * list MountedFs) LinuxError A) :
  (forall str s ext, fd_inv s.1.1 ext -> (snd (m str s)).1.1 = s.1.1) -> local_keeps (on_mounts m).
Proof.
  intros Hm ext [[[f cw] u] g] [Hi Hh] _. unfold on_mounts. set (s := (f, _, _)).
  specialize (Hm (get_as_str (us_aspace u) (us_mem u)) s ext Hi). destruct (m _ s) as [r [[f' ps] l]]. simpl in *. by subst f'.
Qed.

(** *** Mounts *)

Definition mount_fixes {A} (m : M ((FdState T * PathState (DK * CW)) * list MountedFs) LinuxError A) : Prop :=
  forall s ext, fd_inv s.1.1 ext -> (snd (m s)).1.1 = s.1.1.

Lemma mount_bind {A B} (m : M _ LinuxError A) (k : A -> M _ LinuxError B) :
  mount_fixes m -> (forall a, mount_fixes (k a)) -> mount_fixes (m ≫= k).
Proof.
  intros Hm Hk s ext Hi. specialize (Hm s ext Hi). unfold_M. destruct (m s) as [[a| |] s1]; simpl in *; [|done..].
  rewrite <- Hm in Hi |- *. by apply (Hk a s1 ext).
Qed.
Lemma mount_lift {A} (r : LinuxResult A) : mount_fixes (lift r).
Proof. by intros s ext. Qed.
Lemma mount_mret {A} (a : A) : mount_fixes (mret a).
Proof. by intros s ext. Qed.
Lemma mount_guard b e : mount_fixes (guard_or b e).
Proof. by destruct b; intros s ext. Qed.
Lemma mount_require c : mount_fixes (require c).
Proof. intros s ext _. unfold require. by destruct (c s). Qed.
Lemma mount_fat d p : mount_fixes (mount_fat_fs d p).
Proof. intros s ext _. unfold mount_fat_fs. by destruct (exists_ _ _). Qed.
Lemma mount_path dirfd p : mount_fixes (on_fst (handle_file_path AT_FDCWD dirfd p)).
Proof. intros [[f ps] l] ext Hi. unfold on_fst. by rewrite (handle_file_path_eq _ _ _ _ _ Hi). Qed.
Lemma mount_snd {A} (m : M (list MountedFs) LinuxError A) : mount_fixes (on_snd m).
Proof. intros [x l] ext _. unfold on_snd. by destruct (m l). Qed.
#[local] Hint Resolve mount_bind mount_lift mount_mret mount_guard mount_require mount_fat mount_path mount_snd : vegar.

Lemma sys_mount_keeps a b c : local_keeps (on_mounts (fun str => sys_mount AT_FDCWD str a b c)).
Proof. apply on_mounts_keeps. intros str. change (mount_fixes (sys_mount AT_FDCWD str a b c)). unfold sys_mount. auto 24 with vegar. Qed.
Lemma sys_umount2_keeps a b : local_keeps (on_mounts (fun str => sys_umount2 AT_FDCWD str a b)).
Proof. apply on_mounts_keeps. intros str. change (mount_fixes (sys_umount2 AT_FDCWD str a b)). unfold sys_umount2. auto 24 with vegar. Qed.

(** *** Objects found by their descriptor *)

Lemma from_fd_keeps {A} (d : FileKind -> option A) e fd (f : FdState T) ext (hs : Handles FH DH) :
  fd_inv f ext -> handles_ok f hs ->
  match from_fd d e fd f with
  | (Ok (o, a), f') => fd_inv f' (bump o ext) /\ handles_ok f' hs /\
      exists c, heap f !! o = Some c /\ d (cell_kind c) = Some a
  | (_, f') => f' = f
  end.
Proof.
  intros Hi Hh. pose proof (from_fd_spec d f ext e fd Hi) as Hs. destruct (fo_get _ _) as [o|] eqn:Eo; [|by rewrite Hs].
  destruct Hs as (c & Hc & Hs). destruct (d (cell_kind c)) as [a|] eqn:Ed; [|by rewrite Hs].
  destruct Hs as [-> _]. split; [|split; [by apply handles_ok_clone|by exists c]]. apply arc_clone_inv; [by eexists|done].
Qed.

Lemma get_file_keeps fd (f : FdState T) ext (hs : Handles FH DH) :
  fd_inv f ext -> handles_ok f hs ->
  match get_file_like fd f with
  | (Ok o, f') => fd_inv f' (bump o ext) /\ handles_ok f' hs
  | (_, f') => f' = f
  end.
Proof.
  intros Hi Hh. pose proof (get_file_like_inv f ext fd Hi) as Hg. pose proof (keeps_get fd f hs Hh) as Hk.
  destruct (get_file_like fd f) as [[o| |] f']; [done|by destruct Hg..].
Qed.

(** Handles that are only added to or replaced. *)
Lemma handles_grow (f : FdState T) (hs hs' : Handles FH DH) :
  (forall o, is_Some (h_files hs !! o) -> is_Some (h_files hs' !! o)) ->
  (forall o, is_Some (h_dirs hs !! o) -> is_Some (h_dirs hs' !! o)) -> handles_ok f hs -> handles_ok f hs'.
Proof. intros Hf Hd Hh o c Hc. specialize (Hh o c Hc). destruct (cell_kind c); auto. Qed.

Lemma insert_grow {A} (m : gmap nat A) i x o : is_Some (m !! o) -> is_Some (<[i := x]> m !! o).
Proof. intros Ho. destruct (decide (i = o)) as [->|]; [rewrite lookup_insert_eq; eauto|by rewrite lookup_insert_ne]. Qed.

(** *** Transfers *)

(** A new content of a ring. *)
Lemma set_ring_inv (s : FSys) ext r sh sh' :
  fd_inv s.1 ext -> rings s.1 !! r = Some sh -> (ring_wf (ring sh) -> ring_wf (ring sh')) ->
  strong_count sh' = strong_count sh -> fd_inv (set_ring r sh' s).1 ext.
Proof.
  intros [I1 I2 I3 I4] Hr Hw E. split; auto. intros r'. simpl. destruct (decide (r' = r)) as [->|].
  - rewrite lookup_insert_eq. specialize (I3 r). rewrite Hr in I3. unfold ring_inv in *.
    rewrite E. destruct I3 as [Hwf ?]. auto.
  - by rewrite lookup_insert_ne.
Qed.

Lemma read_iter_strong sh buf t sh' : read_iter sh buf = Some (t, sh') -> strong_count sh' = strong_count sh.
Proof.
  unfold read_iter. destruct (_ =? 0)%nat; [destruct (closed sh); by intros [= _ <-]|].
  destruct (read_bytes _ _) as [[bs rb]|]; simpl; [by intros [= _ <-]|done].
Qed.
Lemma write_iter_strong sh buf n t sh' : write_iter sh buf n = Some (t, sh') -> strong_count sh' = strong_count sh.
Proof.
  unfold write_iter. destruct (_ =? 0)%nat; [destruct (closed sh); by intros [= _ <-]|].
  destruct (write_bytes _ _ _ _) as [[x rb]|]; simpl; [by intros [= _ <-]|done].
Qed.

(** The descriptors with their objects fit, and so do the open files. *)
Definition fsys_inv (ext : nat -> nat) (hs : gmap nat DH) (s : FSys) : Prop :=
  fd_inv s.1 ext /\ handles_ok s.1 (mkHandles (w_files s.2) hs).

Lemma read_at_once o buf (s : FSys) r b s' : filelike_read br_read 0 (fun _ s => s) o buf s = Some (r, b, s') ->
  s'.1 = s.1 /\ forall x, is_Some (w_files s.2 !! x) -> is_Some (w_files s'.2 !! x).
Proof.
  unfold filelike_read, File_read, Directory_read, Pipe_read, Stdin_read, Stdout_read, Socket_read, read_blocked, stdin_locked.
  destruct (heap s.1 !! o) as [[k n]|]; [|done]. simpl. destruct k as [p|p|r0 rd| | |]; simpl.
  - destruct (w_files s.2 !! o) as [h|]; [|done]. simpl.
    destruct (fops_read _ _ _) as [[r1 b1] [h1 d1]]. intros [= <- <- <-]. split; [done|]. intros x. apply insert_grow.
  - by intros [= <- <- <-].
  - destruct rd; simpl; [|by intros [= <- <- <-]]. case_bool_decide; [by intros [= <- <- <-]|done].
  - destruct (stdin_read _ _ _) as [[e|bs] bc]; simpl; [by intros [= <- <- <-]|].
    destruct (_ || _); simpl; [by intros [= <- <- <-]|done].
  - by intros [= <- <- <-].
  - destruct (w_socks s.2 !! o) as [k|]; [|done]. simpl. destruct (socket_recv _ _) as [[r1 b1] k1].
    by intros [= <- <- <-].
Qed.

Lemma write_at_once o buf (s : FSys) r s' : filelike_write 0 (fun _ s => s) o buf s = Some (r, s') ->
  s'.1 = s.1 /\ forall x, is_Some (w_files s.2 !! x) -> is_Some (w_files s'.2 !! x).
Proof.
  unfold filelike_write, File_write, Directory_write, Pipe_write, Stdin_write, Stdout_write, Socket_write.
  destruct (heap s.1 !! o) as [[k n]|]; [|done]. simpl. destruct k as [p|p|r0 rd| | |]; simpl.
  - destruct (w_files s.2 !! o) as [h|]; [|done]. simpl.
    destruct (fops_write _ _ _) as [r1 [h1 d1]]. intros [= <- <-]. split; [done|]. intros x. apply insert_grow.
  - by intros [= <- <-].
  - destruct rd; [by intros [= <- <-]|]. destruct (rings s.1 !! r0) as [sh|]; [|done]. simpl.
    destruct (closed sh); [by intros [= <- <-]|]. case_bool_decide; [by intros [= <- <-]|done].
  - by intros [= <- <-].
  - by intros [= <- <-].
  - destruct (w_socks s.2 !! o) as [k|]; [|done]. simpl. destruct (socket_send _ _) as [r1 k1]. by intros [= <- <-].
Qed.

Lemma at_once_inv ext hs (s s' : FSys) : s'.1 = s.1 -> (forall x, is_Some (w_files s.2 !! x) -> is_Some (w_files s'.2 !! x)) ->
  fsys_inv ext hs s -> fsys_inv ext hs s'.
Proof. intros E Hw [Hi Hh]. unfold fsys_inv. rewrite E. split; [done|]. by eapply handles_grow; [| |exact Hh]. Qed.

Lemma read_turn_inv o buf (s : FSys) r s' ext hs :
  read_turn br_read o buf s = Some (r, s') -> fsys_inv ext hs s -> fsys_inv ext hs s'.
Proof.
  unfold read_turn. destruct (heap s.1 !! o) as [[k n]|]; [|done]. simpl. intros E Hi.
  assert (forall x, ('(r, b, s) ← filelike_read br_read 0 (fun _ s => s) o buf s; Some (Some (r, b), s)) = Some x ->
    fsys_inv ext hs x.2) as Hnow.
  { intros x Ex. destruct (filelike_read _ _ _ _ _ _) as [[[r1 b1] s1]|] eqn:Er; simplify_eq/=.
    apply read_at_once in Er as [E1 E2]. by eapply at_once_inv. }
  destruct k as [p|p|r0 rd| | |]; try (by apply (Hnow _ E)).
  - destruct rd; [|by apply (Hnow _ E)]. case_bool_decide; [by apply (Hnow _ E)|].
    destruct (rings s.1 !! r0) as [sh|] eqn:Er; [|done]. simpl in E.
    destruct (read_iter sh buf) as [[t sh']|] eqn:Ei; [|done]. simpl in E. pose proof (read_iter_strong _ _ _ _ Ei) as Es.
    destruct Hi as [Hi Hh].
    pose proof (set_ring_inv s ext r0 sh sh' Hi Er (fun Hw => read_iter_wf _ _ _ _ Hw Ei) Es).
    destruct t as [[n1 b1]|]; simplify_eq/=; by split.
  - unfold stdin_locked in E. destruct (stdin_read _ _ _) as [[e|bs] bc]; simplify_eq/=; [by destruct Hi|].
    destruct (_ || _); simplify_eq/=; by destruct Hi.
Qed.

Lemma write_turn_inv o buf w (s : FSys) r s' ext hs :
  write_turn o buf w s = Some (r, s') -> fsys_inv ext hs s -> fsys_inv ext hs s'.
Proof.
  unfold write_turn. destruct (heap s.1 !! o) as [[k n]|]; [|done]. simpl. intros E Hi.
  assert (forall x, ('(r, s) ← filelike_write 0 (fun _ s => s) o buf s; Some (inl r : LinuxResult Z + nat, s)) = Some x ->
    fsys_inv ext hs x.2) as Hnow.
  { intros x Ex. destruct (filelike_write _ _ _ _ _) as [[r1 s1]|] eqn:Er; simplify_eq/=.
    apply write_at_once in Er as [E1 E2]. by eapply at_once_inv. }
  destruct k as [p|p|r0 rd| | |]; try (by apply (Hnow _ E)). destruct rd; [by apply (Hnow _ E)|].
  destruct (rings s.1 !! r0) as [sh|] eqn:Er; [|done]. simpl in E.
  destruct (_ && _); [by apply (Hnow _ E)|].
  destruct (write_iter sh buf _) as [[t sh']|] eqn:Ei; [|done]. simpl in E. pose proof (write_iter_strong _ _ _ _ _ Ei) as Es.
  destruct Hi as [Hi Hh].
  pose proof (set_ring_inv s ext r0 sh sh' Hi Er (fun Hw => write_iter_wf _ _ _ _ _ Hw Ei) Es).
  destruct t; simplify_eq/=; by split.
Qed.

(** A write that goes on has written no more than its buffer. *)
Lemma write_bytes_bound k buf n rb n' rb' : (n <= length buf)%nat ->
  write_bytes k buf n rb = Some (Pipe.Again n', rb') -> (n' <= length buf)%nat.
Proof.
  revert n rb. induction k as [|k IH]; intros n rb Hn; simpl; [by intros [= <- _]|].
  destruct (Nat.eqb_spec n (length buf)); [done|]. destruct (buf !! n) as [b|]; [|done]. simpl.
  destruct (write_byte rb b) as [rb1|]; [|done]. simpl. apply IH. lia.
Qed.
Lemma write_turn_bound o buf w (s : FSys) n s' : (default 0 w <= length buf)%nat ->
  write_turn o buf w s = Some (inr n, s') -> (n <= length buf)%nat.
Proof.
  intros Hw. unfold write_turn.
  assert (forall x, ('(r, s) ← filelike_write 0 (fun _ s => s) o buf s; Some (inl r : LinuxResult Z + nat, s)) <> Some (inr n, x))
    as Hno by (intros x; by destruct (filelike_write _ _ _ _ _) as [[? ?]|]).
  destruct (heap s.1 !! o) as [[k m]|]; [|done]. simpl.
  destruct k as [p|p|r0 [|]| | |]; try (by intros ?%Hno).
  destruct (rings s.1 !! r0) as [sh|]; [|done]. simpl. destruct (_ && _); [by intros ?%Hno|].
  unfold write_iter. destruct (_ =? 0)%nat; [destruct (closed sh); simpl; [done|by intros [= <- _]]|].
  destruct (write_bytes _ _ _ _) as [[[a|a] rb]|] eqn:E; [done| |done]. simpl. intros [= <- _].
  by eapply write_bytes_bound.
Qed.

Lemma world_fsys (f : FdState T) cw u (g : Dev) ext :
  local_inv ext ((f, cw, u), g) -> fsys_inv ext (h_dirs (g_handles g)) (f, world g).
Proof. intros [Hi Hh]. split; [exact Hi|]. by destruct g as [? ? [] ? ? ? ? ?]. Qed.
Lemma fsys_local (f : FdState T) cw u w (g : Dev) ext :
  fsys_inv ext (h_dirs (g_handles g)) (f, w) -> local_inv ext ((f, cw, u), set_world w g).
Proof. intros [Hi Hh]. by split. Qed.
Lemma local_drop (f : FdState T) cw u (g : Dev) o ext :
  local_inv (bump o ext) ((f, cw, u), g) -> local_inv ext ((arc_drop o f, cw, u), g).
Proof. intros [Hi Hh]. split; [by apply arc_drop_inv|by apply handles_ok_drop]. Qed.
Lemma local_ext (s : Local) ext ext' : (forall o, ext o = ext' o) -> local_inv ext s -> local_inv ext' s.
Proof. intros E [Hi Hh]. split; [|done]. by eapply fd_inv_ext. Qed.

Lemma owed_io (r : LinuxResult Z) ext o : owed (inl <$> r) ext o = ext o.
Proof. by destruct r. Qed.
Lemma bump_holds o ext x : bump o ext x = ((if decide (x = o) then 1 else 0) + ext x)%nat.
Proof. unfold bump. by case_decide. Qed.

Lemma read_step_keeps o b rest : io_keeps (Some o) (read_step br_read UC o b rest).
Proof.
  intros ext [[[f cw] u] g] Hi. unfold read_step.
  destruct (read_turn _ _ _ _) as [[[[r bs]|] [f' w]]|] eqn:E; [| |done];
    (eapply read_turn_inv in E; [|by apply (world_fsys _ cw u)]).
  - destruct (touches _ _ _ _); [intros _|done].
    eapply local_ext; [intros; symmetry; apply owed_io|]. by apply local_drop, fsys_local.
  - intros _. eapply local_ext; [|by apply fsys_local]. intros x. simpl. by rewrite bump_holds.
Qed.
Lemma write_step_keeps o b n rest : io_keeps (Some o) (write_step UC o b n rest).
Proof.
  intros ext [[[f cw] u] g] Hi. unfold write_step.
  destruct (write_turn _ _ _ _) as [[[r|n'] [f' w]]|] eqn:E; [| |done];
    (eapply write_turn_inv in E; [|by apply (world_fsys _ cw u)]); destruct (touches _ _ _ _); [|done| |done]; intros _.
  - eapply local_ext; [intros; symmetry; apply owed_io|]. by apply local_drop, fsys_local.
  - eapply local_ext; [|by apply fsys_local]. intros x. simpl. by rewrite bump_holds.
Qed.
Lemma iov_at_keeps iov : local_keeps (iov_at iov).
Proof. apply local_keeps_user. Qed.

Lemma io_mret n : io_keeps None (mret (inl n)).
Proof. by intros ext s Hi. Qed.
Lemma io_fail e : io_keeps None (fail e).
Proof. by intros ext s Hi. Qed.
Lemma io_bind {A} (m : LM A) (k : A -> IoM) : local_keeps m -> (forall a, io_keeps None (k a)) -> io_keeps None (m ≫= k).
Proof.
  intros Hm Hk ext s Hi. specialize (Hm ext s Hi). unfold_M. destruct (m s) as [[a| |] s1]; simpl in *.
  - apply Hk. by apply Hm.
  - intros _. by apply Hm.
  - done.
Qed.
Lemma io_get fd (k : nat -> IoM) : (forall o, io_keeps (Some o) (k o)) -> io_keeps None (on_table (get_file_like fd) ≫= k).
Proof.
  intros Hk ext [[[f cw] u] g] [Hi Hh]. unfold on_table. unfold_M.
  pose proof (get_file_keeps fd f ext (g_handles g) Hi Hh) as Hg. destruct (get_file_like fd f) as [[o| |] f'].
  - intros Hp. apply (Hk o); [exact Hg|exact Hp].
  - subst f'. by intros _.
  - done.
Qed.
(** After a turn the call goes on, or the reference passes to the waiting thread. *)
Lemma io_after dir (m : IoM) (k : Z + pending UC -> IoM) :
  io_keeps dir m -> (forall n, io_keeps None (k (inl n))) -> (forall q, k (inr q) = mret (inr q)) ->
  io_keeps dir (m ≫= k).
Proof.
  intros Hm Hk Hq ext s Hi. specialize (Hm ext s Hi). unfold_M. destruct (m s) as [[[n|q]| |] s1]; simpl in *.
  - intros Hp. apply Hk; [|done]. by apply Hm.
  - rewrite Hq. intros _. by apply Hm.
  - intros _. by apply Hm.
  - done.
Qed.
#[local] Hint Resolve local_keeps_user iov_at_keeps io_mret io_fail read_step_keeps write_step_keeps : vegar.

Lemma readv_from_keeps fd n : forall iov ret, io_keeps None (readv_from br_read UC fd n iov ret).
Proof.
  induction n as [|n IH]; intros iov ret; simpl; [auto with vegar|].
  apply io_bind; [auto with vegar|]. intros v. destruct (_ =? 0); [apply IH|].
  apply io_bind; [auto with vegar|]. intros b. apply io_get. intros o. apply io_after; [auto with vegar| |done].
  intros k. cbv beta iota. destruct (_ <? _); auto with vegar.
Qed.
Lemma writev_from_keeps fd n : forall iov ret, io_keeps None (writev_from UC fd n iov ret).
Proof.
  induction n as [|n IH]; intros iov ret; simpl; [auto with vegar|].
  apply io_bind; [auto with vegar|]. intros v. destruct (_ =? 0); [apply IH|].
  apply io_bind; [auto with vegar|]. intros b. apply io_get. intros o. apply io_after; [auto with vegar| |done].
  intros k. cbv beta iota. destruct (_ <? _); auto with vegar.
Qed.
Lemma io_then_keeps next b rest :
  (forall fd n iov ret, io_keeps None (next fd n iov ret)) -> forall n, io_keeps None (io_then UC next b rest (inl n)).
Proof. intros Hn n. unfold io_then. destruct rest; [|destruct (_ <? _)]; auto with vegar. Qed.
#[local] Hint Resolve readv_from_keeps writev_from_keeps io_then_keeps : vegar.

Lemma io_then_wait next b rest q : io_then UC next b rest (inr q) = (mret (inr q) : IoM).
Proof. by destruct rest. Qed.
#[local] Hint Resolve io_then_wait : vegar.

Lemma resume_read_keeps o b rest : io_keeps (Some o) (resume_read br_read UC o b rest).
Proof. apply io_after; auto with vegar. Qed.
Lemma resume_write_keeps o b n rest : io_keeps (Some o) (resume_write UC o b n rest).
Proof. apply io_after; auto with vegar. Qed.
Lemma do_read_keeps fd buf len : io_keeps None (do_read br_read UC fd buf len).
Proof. apply io_bind; [auto with vegar|]. intros b. apply io_get. intros o. apply io_after; auto with vegar. Qed.
Lemma do_write_keeps fd buf len : io_keeps None (do_write UC fd buf len).
Proof. apply io_bind; [auto with vegar|]. intros b. apply io_get. intros o. apply io_after; auto with vegar. Qed.
Lemma do_readv_keeps fd iov n : io_keeps None (do_readv br_read UC fd iov n).
Proof. unfold do_readv. destruct (negb _); [auto with vegar|]. apply io_bind; auto with vegar. Qed.
Lemma do_writev_keeps fd iov n : io_keeps None (do_writev UC fd iov n).
Proof. unfold do_writev. destruct (negb _); [auto with vegar|]. apply io_bind; auto with vegar. Qed.

(** *** Directories, positions and mappings *)

Lemma getdents_keeps fd buf len :
  local_keeps (on_dirs (fun dk => sys_getdents64 padding (read_dir dk) fd buf len)).
Proof.
  intros ext [[[f cw] u] g] [Hi Hh]. unfold on_dirs, sys_getdents64. unfold_M.
  assert (forall (last : gmap nat DirEntry) x, is_Some (h_dirs (g_handles g) !! x) ->
    is_Some (map_imap (fun o h => Some (mkDir h (last !! o))) (h_dirs (g_handles g)) !! x)) as Hm.
  { intros last x [h Hx]. rewrite map_lookup_imap, Hx. by eexists. }
  assert (forall (dirs : gmap nat (@DirObj DH)), (forall x, is_Some (h_dirs (g_handles g) !! x) -> is_Some (dirs !! x)) ->
    forall f', handles_ok (f' : FdState T) (g_handles g) -> handles_ok f' (mkHandles (h_files (g_handles g)) (dir_inner <$> dirs))) as Hg.
  { intros dirs Hd f'. apply handles_grow; [done|]. intros o Ho. simpl. rewrite lookup_fmap, fmap_is_Some. auto. }
  destruct (on_aspace _ u) as [[b| |] u1]; simpl; [|intros _; split; [done|by apply Hg; [apply Hm|]]|done].
  pose proof (from_fd_keeps as_directory ENOTDIR fd f ext (g_handles g) Hi Hh) as Hf. unfold Directory_from_fd.
  destruct (from_fd _ _ _ _) as [[[o q]| |] f']; simpl; [|intros _; subst f'; split; [done|by apply Hg; [apply Hm|]]|done].
  destruct Hf as (Hi' & Hh' & _). set (dirs := map_imap _ _). unfold with_dir.
  destruct (dirs !! o) as [dir|]; [|done]. destruct (getdents _ _ _ _) as [[r b'] dir']. simpl. intros _. split; simpl.
  - by apply arc_drop_inv.
  - apply handles_ok_drop, Hg; [|done]. intros x Hx. by apply insert_grow, Hm.
Qed.

Lemma lseek_keeps fd offset whence : local_keeps (do_lseek fops_seek fd offset whence).
Proof.
  intros ext [[[f cw] u] g] [Hi Hh]. unfold do_lseek, on_table, seek_file. unfold_M.
  destruct (ok_or _ _) as [pos| |]; [|done..].
  pose proof (from_fd_keeps as_file EINVAL fd f ext (g_handles g) Hi Hh) as Hf. unfold File_from_fd.
  destruct (from_fd _ _ _ _) as [[[o q]| |] f']; [|subst f'; by intros _|done].
  destruct Hf as (Hi' & Hh' & _). simpl. destruct (h_files (g_handles g) !! o) as [h|]; [|done].
  destruct (fops_seek _ _ _) as [r h']. intros _.
  assert (local_inv ext (arc_drop o f', cw, u, dev_set_fs (g_links g) (g_disk g)
    (mkHandles (<[o := h']> (h_files (g_handles g))) (h_dirs (g_handles g))) (g_last g) g)) as Hl.
  { split; simpl; [by apply arc_drop_inv|]. apply handles_ok_drop. eapply handles_grow; [| |exact Hh']; [|done].
    intros x. apply insert_grow. }
  by destruct (ax_ok r).
Qed.

(** The state of the memory calls: descriptors, disk with open files, address space. *)
Abbreviation MapState := ((FdState T * (DK * gmap nat FH)) * AS)%type.
Definition map_inv (ext : nat -> nat) (hs : gmap nat DH) (s : MapState) : Prop :=
  fd_inv s.1.1 ext /\ handles_ok s.1.1 (mkHandles s.1.2.2 hs).
Definition map_keeps {A} (m : M MapState LinuxError A) : Prop :=
  forall ext hs s, map_inv ext hs s -> fst (m s) <> Panic -> map_inv ext hs (snd (m s)).

Lemma on_map_keeps {A} (m : M MapState LinuxError A) : map_keeps m -> local_keeps (on_map as_seen m).
Proof.
  intros Hm ext [[[f cw] u] g] [Hi Hh]. unfold on_map.
  specialize (Hm ext (h_dirs (g_handles g)) ((f, (g_disk g, h_files (g_handles g))), us_aspace u)).
  destruct (m _) as [r [[f' [dk fl]] a]]. simpl in *. apply Hm. split; [done|]. by destruct (g_handles g).
Qed.
Lemma map_bind {A B} (m : M MapState LinuxError A) (k : A -> M MapState LinuxError B) :
  map_keeps m -> (forall a, map_keeps (k a)) -> map_keeps (m ≫= k).
Proof.
  intros Hm Hk ext hs s Hi. specialize (Hm ext hs s Hi). unfold_M. destruct (m s) as [[a| |] s1]; simpl in *.
  - apply Hk. by apply Hm.
  - intros _. by apply Hm.
  - done.
Qed.
Lemma map_snd {A} (m : M AS LinuxError A) : map_keeps (on_snd m).
Proof. intros ext hs [x a] Hi _. unfold on_snd. by destruct (m a). Qed.
Lemma map_lift {A} (r : LinuxResult A) : map_keeps (lift r).
Proof. by intros ext hs s Hi. Qed.
Lemma map_mret {A} (a : A) : map_keeps (mret a).
Proof. by intros ext hs s Hi. Qed.
Lemma map_fail {A} e : map_keeps (fail e : M MapState LinuxError A).
Proof. by intros ext hs s Hi. Qed.
Lemma map_get : map_keeps get.
Proof. by intros ext hs s Hi. Qed.
#[local] Hint Resolve map_bind map_snd map_lift map_mret map_fail map_get : vegar.

Lemma map_fill o a b c ps : map_keeps (fill_from_file map_size (map_read_at fops_read_at) o a b c ps).
Proof.
  unfold fill_from_file, on_as. apply map_bind; [auto with vegar|]. intros s. apply map_bind; [auto with vegar|]. intros n.
  destruct (_ || _); [auto with vegar|]. apply map_bind; [|auto with vegar].
  intros ext hs [[f [dk fl]] asp] [Hi Hh] _. unfold on_fst, on_snd, map_read_at. simpl.
  destruct (fl !! o) as [h|]; simpl; [|by split]. destruct (fops_read_at _ _ _ _) as [[r b'] [h' dk']]. split; [done|].
  eapply handles_grow; [| |exact Hh]; [|done]. intros x. apply insert_grow.
Qed.

Lemma mmap_keeps a b c d fd off : map_keeps (sys_mmap map_size (map_read_at fops_read_at) a b c d fd off).
Proof.
  unfold sys_mmap, choose_start, on_as. destruct (contains _ _); [auto with vegar|].
  apply map_bind. { destruct (contains _ _); [destruct (_ =? 0); auto with vegar|auto with vegar]. }
  intros start. apply map_bind; [auto with vegar|]. intros _. apply map_bind; [|auto with vegar].
  destruct (if fd =? -1 then _ else _); [|auto with vegar].
  intros ext hs [[f [dk fl]] asp] [Hi Hh]. unfold on_fst, File_from_fd. unfold_M.
  pose proof (from_fd_keeps as_file EINVAL fd f ext (mkHandles fl hs) Hi Hh) as Hf.
  destruct (from_fd _ _ _ _) as [[[o q]| |] f']; [|subst f'; by intros _|done]. destruct Hf as (Hi' & Hh' & _).
  unfold with_file. cbn [fst snd].
  pose proof (map_fill o start b off (page_size_of (from_bits_truncate MmapFlags_all d)) (bump o ext) hs (f', (dk, fl), asp)
    (conj Hi' Hh')) as Hk.
  destruct (fill_from_file _ _ _ _ _ _ _ _) as [r [[f2 [dk2 fl2]] a2]]. cbn [fst snd] in *. intros Hp.
  destruct Hk as [Hi2 Hh2]; [done|]. split; cbn [fst snd] in *; [by apply arc_drop_inv|by apply handles_ok_drop].
Qed.
Lemma munmap_keeps a b : map_keeps (sys_munmap a b).
Proof. unfold sys_munmap, on_as. auto with vegar. Qed.
Lemma mprotect_keeps a b c : map_keeps (sys_mprotect a b c).
Proof. unfold sys_mprotect, on_as. destruct (from_bits _ _); [destruct (contains _ _)|]; auto with vegar. Qed.
End LocalInv.

(** ** The namespaces of the processes *)

(** The names of a process's resources: address space, descriptor table, working
    directory. *)
Definition names {WQ} (d : ProcessData WQ) : nat * nat * nat := (aspace d, ns_fd_table d, ns_cwd d).

Section Namespaces.
Context {PS T AS WQ SG SA CW : Type}.
Abbreviation K := (KState PS T AS WQ SG SA CW).
Abbreviation KM := (M K LinuxError).

Definition names_at (k : K) (p : Z) : option (nat * nat * nat) := names <$> k_pdata k !! p.

(** What a process whose resources are named [n] can have changed, apart from what
    has come into being: its own memory, table and directory. *)
Record isolated (n : nat * nat * nat) (k k' : K) : Prop := {
  iso_names p : is_Some (k_pdata k !! p) -> names_at k' p = names_at k p;
  iso_spaces a : is_Some (k_spaces k !! a) -> a <> n.1.1 -> k_spaces k' !! a = k_spaces k !! a;
  iso_tables i : is_Some (fd_table (k_files k) !! i) -> i <> n.1.2 ->
    fd_table (k_files k') !! i = fd_table (k_files k) !! i;
  iso_cwds c : is_Some (k_cwds k !! c) -> c <> n.2 -> k_cwds k' !! c = k_cwds k !! c;
  iso_alive : (is_Some (k_spaces k !! n.1.1) -> is_Some (k_spaces k' !! n.1.1)) /\
    (is_Some (fd_table (k_files k) !! n.1.2) -> is_Some (fd_table (k_files k') !! n.1.2)) /\
    (is_Some (k_cwds k !! n.2) -> is_Some (k_cwds k' !! n.2))
}.

#[export] Instance isolated_refl n : Reflexive (isolated n).
Proof. by split. Qed.
#[export] Instance isolated_trans n : Transitive (isolated n).
Proof.
  intros k1 k2 k3 [N1 S1 T1 C1 (A1 & B1 & D1)] [N2 S2 T2 C2 (A2 & B2 & D2)]. split.
  - intros p Hp. rewrite <- (N1 p Hp). apply N2. specialize (N1 p Hp). unfold names_at in N1.
    destruct (k_pdata k2 !! p); [done|]. by destruct Hp as [d Hd]; rewrite Hd in N1.
  - intros a Ha Hn. rewrite <- (S1 a Ha Hn). apply S2; [|done]. by rewrite (S1 a Ha Hn).
  - intros i Hi Hn. rewrite <- (T1 i Hi Hn). apply T2; [|done]. by rewrite (T1 i Hi Hn).
  - intros c Hc Hn. rewrite <- (C1 c Hc Hn). apply C2; [|done]. by rewrite (C1 c Hc Hn).
  - tauto.
Qed.

(** A computation of a process stays within its namespace, and leaves the files
    alone. *)
Definition stays (p : Z) (m : K -> K) (k : K) : Prop :=
  forall n, names_at k p = Some n -> isolated n k (m k).
Definition quiet {A} (p : Z) (m : KM A) (k : K) : Prop :=
  k_files (snd (m k)) = k_files k /\ stays p (fun k => snd (m k)) k.

Lemma quiet_bind {A B} p (m : KM A) (f : A -> KM B) k :
  quiet p m k -> (forall a k', m k = (Ok a, k') -> quiet p (f a) k') -> quiet p (m ≫= f) k.
Proof.
  intros [Hf Hs] Hk. unfold quiet, stays in *. unfold_M. destruct (m k) as [[a|e|] k1] eqn:E; simpl in *; [|done..].
  destruct (Hk a k1 eq_refl) as [Hf1 Hs1]. split; [congruence|]. intros n Hn. specialize (Hs n Hn). simpl in Hs.
  rewrite Hs. apply Hs1. rewrite <- Hn. apply Hs. unfold names_at in Hn. by destruct (k_pdata k !! p).
Qed.

(** Steps that change neither files, memory, directories nor names. *)
Lemma quiet_same {A} p (m : KM A) k :
  k_files (snd (m k)) = k_files k -> k_spaces (snd (m k)) = k_spaces k -> k_cwds (snd (m k)) = k_cwds k ->
  (forall q, is_Some (k_pdata k !! q) -> names_at (snd (m k)) q = names_at k q) -> quiet p m k.
Proof. intros Ef Es Ec En. split; [done|]. intros n _. split; rewrite ?Ef, ?Es, ?Ec; done. Qed.

Lemma names_alter (pd : gmap Z (ProcessData WQ)) (f : ProcessData WQ -> ProcessData WQ) p q :
  (forall d, names (f d) = names d) -> names <$> alter f p pd !! q = names <$> pd !! q.
Proof.
  intros Hf. destruct (decide (p = q)) as [->|]; [|by rewrite lookup_alter_ne].
  rewrite lookup_alter_eq. destruct (pd !! q); simpl; [by rewrite Hf|done].
Qed.
Lemma names_insert (pd : gmap Z (ProcessData WQ)) p d d' q :
  pd !! p = Some d -> names d' = names d -> names <$> <[p := d']> pd !! q = names <$> pd !! q.
Proof.
  intros Hd Hn. destruct (decide (p = q)) as [->|]; [|by rewrite lookup_insert_ne].
  rewrite lookup_insert_eq, Hd. simpl. by rewrite Hn.
Qed.

Lemma quiet_lift {A} p (r : LinuxResult A) k : quiet p (lift r) k.
Proof. by apply quiet_same. Qed.
Lemma quiet_mret {A} p (a : A) k : quiet p (mret a) k.
Proof. by apply quiet_same. Qed.
Lemma quiet_fail {A} p e k : quiet p (fail e : KM A) k.
Proof. by apply quiet_same. Qed.
Lemma quiet_get p k : quiet p get k.
Proof. by apply quiet_same. Qed.
Lemma quiet_panic {A} p k : quiet p (panic : KM A) k.
Proof. by apply quiet_same. Qed.
Lemma quiet_process_data p q k : quiet p (process_data q) k.
Proof. by apply quiet_same. Qed.
Lemma quiet_thread_data p t k : quiet p (thread_data t) k.
Proof. by apply quiet_same. Qed.

(** Only the own address space. *)
Lemma stays_space p d u (k : K) :
  k_pdata k !! p = Some d -> stays p (set_spaces (<[aspace d := u]> (k_spaces k))) k.
Proof.
  intros Hd n Hn. unfold names_at in Hn. rewrite Hd in Hn. injection Hn as <-. split; simpl; try done.
  - intros a _ Ha. by rewrite lookup_insert_ne.
  - split; [|done]. intros _. rewrite lookup_insert_eq. eauto.
Qed.
Lemma quiet_space {A} p (m : M (UState AS) LinuxError A) k : quiet p (on_space p m) k.
Proof.
  unfold on_space, process_data. unfold quiet, stays. unfold_M.
  destruct (k_pdata k !! p) as [d|] eqn:Hd; simpl; [|done]. destruct (k_spaces k !! aspace d) as [u|]; simpl; [|done].
  destruct (m u) as [r u']. simpl. split; [done|]. by apply stays_space.
Qed.
End Namespaces.

(** *** Rules for the handlers *)

Section QuietRules.
Context {PS T AS WQ SG SA CW : Type}.
Abbreviation K := (KState PS T AS WQ SG SA CW).
Abbreviation KM := (M K LinuxError).

Lemma quiet_get_bind {A} p (f : K -> KM A) k : quiet p (f k) k -> quiet p (get ≫= f) k.
Proof. intros Hf. apply quiet_bind; [apply quiet_get|]. by intros ? ? [= <- <-]. Qed.
Lemma quiet_lift_bind {A B} p (r : LinuxResult A) (f : A -> KM B) k :
  (forall a, quiet p (f a) k) -> quiet p (lift r ≫= f) k.
Proof. intros Hf. apply quiet_bind; [apply quiet_lift|]. by intros ? ? [= _ <-]. Qed.
Lemma quiet_process_bind {A} p q (f : ProcessData WQ -> KM A) k :
  (forall d, k_pdata k !! q = Some d -> quiet p (f d) k) -> quiet p (process_data q ≫= f) k.
Proof.
  intros Hf. apply quiet_bind; [apply quiet_process_data|]. unfold process_data. unfold_M.
  destruct (k_pdata k !! q) as [d|] eqn:E; simpl; [|done]. intros ? ? [= <- <-]. by apply Hf.
Qed.
Lemma quiet_thread_bind {A} p t (f : ThreadData -> KM A) k :
  (forall d, quiet p (f d) k) -> quiet p (thread_data t ≫= f) k.
Proof.
  intros Hf. apply quiet_bind; [apply quiet_thread_data|]. unfold thread_data. unfold_M.
  destruct (k_tdata k !! t) as [d|]; simpl; [|done]. intros ? ? [= <- <-]. by apply Hf.
Qed.
Lemma quiet_seq {A B} p (m : KM A) (f : A -> KM B) k :
  quiet p m k -> (forall a k', quiet p (f a) k') -> quiet p (m ≫= f) k.
Proof. intros Hm Hf. by apply quiet_bind. Qed.

Lemma quiet_put p (k' k : K) :
  k_files k' = k_files k -> k_spaces k' = k_spaces k -> k_cwds k' = k_cwds k ->
  (forall q, names_at k' q = names_at k q) -> quiet p (put k') k.
Proof. intros. by apply quiet_same. Qed.
Lemma quiet_modify p (f : K -> K) k :
  k_files (f k) = k_files k -> k_spaces (f k) = k_spaces k -> k_cwds (f k) = k_cwds k ->
  (forall q, names_at (f k) q = names_at k q) -> quiet p (modify f) k.
Proof. intros. by apply quiet_same. Qed.
End QuietRules.

(** Follow a handler; what remains are the handlers it calls. *)
Ltac quiet_names :=
  intros; unfold names_at; simpl; first [ done | by apply names_alter | eapply names_insert; [eassumption|done] ].
Ltac quiet_step :=
  lazymatch goal with
  | |- quiet _ (get ≫= _) _ => apply quiet_get_bind
  | |- quiet _ (lift _ ≫= _) _ => apply quiet_lift_bind; intros ?
  | |- quiet _ (process_data _ ≫= _) _ => apply quiet_process_bind; intros ? ?
  | |- quiet _ (thread_data _ ≫= _) _ => apply quiet_thread_bind; intros ?
  | |- quiet _ (_ ≫= _) _ => apply quiet_seq; [|intros ? ?]
  | |- quiet _ (on_space _ _) _ => apply quiet_space
  | |- quiet _ (lift _) _ => apply quiet_lift
  | |- quiet _ (mret _) _ => apply quiet_mret
  | |- quiet _ (fail _) _ => apply quiet_fail
  | |- quiet _ (put _) _ => apply quiet_put; [done..|quiet_names]
  | |- quiet _ (modify _) _ => apply quiet_modify; [done..|quiet_names]
  | _ => solve [auto with vegar]
  end.
Ltac quiet_cases :=
  match goal with
  | |- quiet _ (match ?x with _ => _ end) _ => destruct x eqn:?
  | |- quiet _ (let '_ := ?x in _) _ => destruct x eqn:?
  end.
Ltac solve_quiet := repeat (quiet_step || quiet_cases).

Section QuietHandlers.
Context {PS T AS WQ SG SA SI CW W UC TF ACT KSA SS : Type} `{AxProcess PS} `{FlattenObjects T nat} `{WaitQueue WQ}
  `{AxSignal SG SA SI} `{ErrorConv, MemoryAddr, MappingFlags} `{AddrSpace AS} `{WaitConsts}
  `{SignalManager SG SA SI ACT KSA SS TF} `{SignalConsts} `{Pod KSA, Pod SS, Pod SI}.
Abbreviation K := (KState PS T AS WQ SG SA CW).
Abbreviation KM := (M K LinuxError).

(** *** Processes *)

Lemma quiet_send_thread p t (sig : SI) (k : K) : quiet p (send_signal_thread t sig) k.
Proof. apply quiet_same; unfold send_signal_thread; by destruct (k_tdata k !! t). Qed.
Lemma quiet_send_process p q (sig : SI) (k : K) : quiet p (send_signal_process q sig) k.
Proof. apply quiet_same; unfold send_signal_process; by destruct (k_pdata k !! q). Qed.
Lemma quiet_ignore {A} p (m : KM A) k : quiet p m k -> quiet p (ignore m) k.
Proof. unfold quiet, stays, ignore. by destruct (m k) as [[]]. Qed.
#[local] Hint Resolve quiet_send_thread quiet_send_process quiet_ignore : vegar.

Lemma quiet_send_all p (sig : SI) l : forall k : K, quiet p (send_all sig l) k.
Proof. induction l; intros k; simpl; solve_quiet. Qed.
Lemma quiet_report p options code child (k : K) : quiet p (report_child p options code child) k.
Proof. unfold report_child. solve_quiet. Qed.
Lemma quiet_wait_setup p pid ptr options (k : K) : quiet p (wait_setup p pid ptr options) k.
Proof. unfold wait_setup. solve_quiet. Qed.
Lemma quiet_tell_parent SI_KERNEL p (k : K) : quiet p (tell_parent (SI := SI) SI_KERNEL p) k.
Proof. unfold tell_parent. solve_quiet. Qed.
Lemma quiet_notify p a (k : K) : quiet p (notify_futex p a) k.
Proof. unfold notify_futex. solve_quiet. Qed.
#[local] Hint Resolve quiet_notify : vegar.
#[local] Existing Instance pid_pod.
Lemma quiet_clear_tid p t (k : K) : quiet p (exit_clear_tid (fun k => k) p t) k.
Proof.
  unfold exit_clear_tid. apply quiet_thread_bind. intros td. unfold clear_tid_at, quiet, stays.
  pose proof (quiet_space p (on_aspace (get_as_mut Z (clear_child_tid td))) k) as [Hf Hs]. unfold stays in Hs.
  destruct (on_space p (on_aspace (get_as_mut Z (clear_child_tid td))) k) as [[a| |] k1] eqn:E; simpl in *; [|done..].
  assert (quiet p (on_space p (on_aspace (get_as_mut Z (clear_child_tid td))) ≫=
    fun _ => (on_space p (assign (clear_child_tid td) 0);; notify_futex p (clear_child_tid td);; modify (fun k => k))) k) as [Hf2 Hs2].
  { solve_quiet. }
  unfold stays in Hs2. rewrite (M_bind_ok _ _ _ _ _ E) in Hf2. split; [done|]. intros n Hn. specialize (Hs2 n Hn).
  by rewrite (M_bind_ok _ _ _ _ _ E) in Hs2.
Qed.

Lemma quiet_brk `{LoadConfig} p addr (k : K) : quiet p (do_brk p addr) k.
Proof. unfold do_brk. solve_quiet. Qed.
Lemma quiet_getppid p (k : K) : quiet p (sys_getppid p) k.
Proof. unfold sys_getppid. solve_quiet. Qed.
Lemma quiet_set_tid p t a (k : K) : quiet p (sys_set_tid_address t a) k.
Proof. unfold sys_set_tid_address. solve_quiet. Qed.
Lemma quiet_fault (pf : Z -> Z -> AS -> bool * AS) p v f (k : K) : quiet p (resolve_fault pf p v f) k.
Proof. apply quiet_space. Qed.
Lemma quiet_join t p (k : K) : quiet p (modify (join_exit_wq t p)) k.
Proof. solve_quiet. Qed.
Lemma quiet_exe p path (k : K) : quiet p (modify (fun k => set_pdata (alter (set_exe_path path) p (k_pdata k)) k)) k.
Proof. solve_quiet. Qed.

(** A futex call changes the table of its process and reads its memory. *)
Lemma quiet_futex {A} p (m : M (FutexState WQ * UState AS) LinuxError A) (k : K) : quiet p (on_futex p m) k.
Proof.
  unfold on_futex. apply quiet_process_bind. intros d Hd. apply quiet_get_bind, quiet_lift_bind. intros u.
  destruct (m (futex_table d, u)) as [r [f u']]. apply quiet_seq; [|intros; apply quiet_lift]. split; [done|].
  intros n Hn. etrans; [exact (stays_space p d u' k Hd n Hn)|]. split; simpl; try done.
  intros q _. unfold names_at. simpl. by eapply names_insert.
Qed.

(** *** Signals *)

Lemma quiet_write_nullable {A} `{Pod A} p ptr (x : K -> A) k : quiet p (write_nullable p ptr x) k.
Proof. unfold write_nullable. solve_quiet. Qed.
Lemma quiet_read_nullable A `{Pod A} p ptr (k : K) : quiet p (read_nullable A p ptr) k.
Proof. unfold read_nullable. solve_quiet. Qed.
#[local] Hint Resolve quiet_write_nullable quiet_read_nullable : vegar.

Lemma quiet_sigprocmask p t how set oldset n (k : K) : quiet p (sys_rt_sigprocmask p t how set oldset n) k.
Proof. unfold sys_rt_sigprocmask. solve_quiet. Qed.
Lemma quiet_sigaction p signo act oldact n (k : K) : quiet p (sys_rt_sigaction p signo act oldact n) k.
Proof. unfold sys_rt_sigaction. solve_quiet. Qed.
Lemma quiet_sigpending p t set n (k : K) : quiet p (sys_rt_sigpending p t set n) k.
Proof. unfold sys_rt_sigpending. solve_quiet. Qed.
Lemma quiet_sigtimedwait p t set info timeout n (k : K) : quiet p (sys_rt_sigtimedwait p t set info timeout n) k.
Proof. unfold sys_rt_sigtimedwait. solve_quiet. Qed.
Lemma quiet_sigaltstack p t ss old (k : K) : quiet p (sys_sigaltstack p t ss old) k.
Proof. unfold sys_sigaltstack. solve_quiet. Qed.
Lemma quiet_sigreturn p t tf (k : K) : quiet p (sys_rt_sigreturn t tf) k.
Proof. unfold sys_rt_sigreturn. solve_quiet. Qed.
Lemma quiet_due p t tf r (k : K) : quiet p (due_signal t tf r) k.
Proof. unfold due_signal. solve_quiet. Qed.
Lemma quiet_suspend p t tf set n (k : K) : quiet p (suspend_setup p t tf set n) k.
Proof. unfold suspend_setup. solve_quiet. Qed.
Lemma quiet_queue_info p tgid signo sig (k : K) : quiet p (make_queue_signal_info p tgid signo sig) k.
Proof. unfold make_queue_signal_info. solve_quiet. Qed.
Lemma quiet_kill_all p (sig : SI) l : forall k : K, quiet p (kill_all sig l) k.
Proof. induction l; intros k; simpl; solve_quiet. Qed.
Lemma quiet_send_group p (sig : SI) l : forall k : K, quiet p (send_signal_processes sig l) k.
Proof.
  induction l as [|q l IH]; intros k; simpl; [solve_quiet|]. apply quiet_seq; [|intros; solve_quiet].
  unfold quiet, stays. pose proof (quiet_send_process p q sig k) as [Hf Hs]. unfold stays in Hs.
  by destruct (send_signal_process q sig k) as [[]].
Qed.
End QuietHandlers.

(** *** Signals sent to others, and what is left of the kernel's calls *)

(** Computations over a state that holds the kernel: the kernel alone, or with the
    task tables. *)
Section Over.
Context {PS T AS WQ SG SA CW S FH DH : Type} `{FlattenObjectsOk T nat} (pr : S -> KState PS T AS WQ SG SA CW).
Abbreviation K := (KState PS T AS WQ SG SA CW).
Abbreviation SM := (M S LinuxError).

Definition over_stays {A} (p : Z) (m : SM A) (s : S) : Prop :=
  forall n, names_at (pr s) p = Some n -> isolated n (pr s) (pr (snd (m s))).

(** The descriptors and the handles of their objects fit. *)
Definition kinv (hs : Handles FH DH) (ext : nat -> nat) (k : K) : Prop :=
  files_inv (k_files k) ext /\ handles_ok (view fo_new (k_files k)) hs.
Definition over_keeps {A} (m : SM A) (s : S) : Prop :=
  forall hs ext, kinv hs ext (pr s) -> fst (m s) <> Panic -> kinv hs ext (pr (snd (m s))).

(** Both: what a call of the process [p] may do. *)
Definition tame {A} (p : Z) (m : SM A) (s : S) : Prop := over_keeps m s /\ over_stays p m s.

Lemma over_stays_bind {A B} p (m : SM A) (f : A -> SM B) s :
  over_stays p m s -> (forall a s', m s = (Ok a, s') -> over_stays p (f a) s') -> over_stays p (m ≫= f) s.
Proof.
  intros Hs Hk n Hn. unfold over_stays in *. specialize (Hs n Hn). unfold_M.
  destruct (m s) as [[a|e|] s1] eqn:E; simpl in *; [|done..]. rewrite Hs. apply (Hk a s1 eq_refl).
  rewrite <- Hn. apply Hs. unfold names_at in Hn. by destruct (k_pdata (pr s) !! p).
Qed.
Lemma tame_bind {A B} p (m : SM A) (f : A -> SM B) s :
  tame p m s -> (forall a s', m s = (Ok a, s') -> tame p (f a) s') -> tame p (m ≫= f) s.
Proof.
  intros [Hm Hs] Hf. split; [|apply over_stays_bind; [done|]; intros; by apply Hf].
  intros hs ext Hi. specialize (Hm hs ext Hi). unfold_M. destruct (m s) as [[a| |] s1] eqn:E; simpl in *.
  - apply (Hf a s1 eq_refl). by apply Hm.
  - intros _. by apply Hm.
  - done.
Qed.
Lemma tame_get_bind {A} p (f : S -> SM A) s : tame p (f s) s -> tame p (get ≫= f) s.
Proof. intros [Hk Hs]. split; exact Hk || exact Hs. Qed.
Lemma tame_same {A} p (m : SM A) s : pr (snd (m s)) = pr s -> tame p m s.
Proof. intros E. split; [intros hs ext Hi _; by rewrite E|intros n _; by rewrite E]. Qed.
(** The files untouched, the rest isolated. *)
Lemma tame_files {A} p (m : SM A) s :
  k_files (pr (snd (m s))) = k_files (pr s) -> over_stays p m s -> tame p m s.
Proof. intros E Hs. split; [|done]. intros hs ext Hi _. unfold kinv. by rewrite E. Qed.
End Over.

Section Tables.
Context {PS T AS WQ SG SA SI CW W UC TF ACT KSA SS : Type} `{AxProcess PS} `{FlattenObjectsOk T nat} `{WaitQueue WQ}
  `{AxSignal SG SA SI} `{ErrorConv, MemoryAddr, MappingFlags} `{AddrSpace AS} `{WeakMap W}
  `{SignalManager SG SA SI ACT KSA SS TF} `{SignalConsts} `{Pod SI}.
Context (alive : KState PS T AS WQ SG SA CW -> Alive) (group_processes : PS -> Z -> list Z) (process_of : PS -> Z -> Z).
Abbreviation K := (KState PS T AS WQ SG SA CW).
Abbreviation C := (CState PS T AS WQ SG SA CW W UC).
Abbreviation CM := (M C LinuxError).

(** Handlers that leave the files alone and stay in the namespace of [p]. *)
Definition cquiet {A} (p : Z) (m : CM A) (c : C) : Prop :=
  k_files (c_k (snd (m c))) = k_files (c_k c) /\ over_stays c_k p m c.

Lemma cquiet_seq {A B} p (m : CM A) (f : A -> CM B) c :
  cquiet p m c -> (forall a c', cquiet p (f a) c') -> cquiet p (m ≫= f) c.
Proof.
  intros [Hf Hs] Hk. split; [|apply over_stays_bind; [done|]; intros a c' _; apply Hk].
  unfold_M. destruct (m c) as [[a|e|] c1]; simpl in *; [|done..]. rewrite <- Hf. apply Hk.
Qed.
Lemma cquiet_same {A} p (m : CM A) c : c_k (snd (m c)) = c_k c -> cquiet p m c.
Proof. intros E. split; [by rewrite E|]. intros n _. by rewrite E. Qed.
Lemma cquiet_k {A} p (m : M K LinuxError A) c : quiet p m (c_k c) -> cquiet p (on_k m) c.
Proof. unfold cquiet, quiet, over_stays, stays, on_k. by destruct (m (c_k c)). Qed.
#[local] Hint Resolve quiet_send_thread quiet_send_process quiet_send_all quiet_kill_all quiet_send_group quiet_queue_info
  quiet_get_bind : vegar.

Ltac solve_cquiet := repeat
  lazymatch goal with
  | |- cquiet _ (_ ≫= _) _ => apply cquiet_seq; [|intros ? ?]
  | |- cquiet _ (on_k _) _ => apply cquiet_k; unfold send_signal_process_group; solve [auto with vegar]
  | |- cquiet _ (match ?x with _ => _ end) _ => destruct x
  | _ => solve [by apply cquiet_same]
  end.

Lemma cquiet_kill p pid signo (c : C) : cquiet p (sys_kill alive group_processes p pid signo) c.
Proof. unfold sys_kill, lookup_in. solve_cquiet. Qed.
Lemma cquiet_tkill p tid signo (c : C) : cquiet p (sys_tkill alive tid signo) c.
Proof. unfold sys_tkill, lookup_in. solve_cquiet. Qed.
Lemma cquiet_tgkill p tgid tid signo (c : C) : cquiet p (sys_tgkill alive process_of tgid tid signo) c.
Proof. unfold sys_tgkill, find_thread_in_group, lookup_in. solve_cquiet. Qed.
Lemma cquiet_queue p tgid signo sig n (c : C) : cquiet p (sys_rt_sigqueueinfo alive p tgid signo sig n) c.
Proof. unfold sys_rt_sigqueueinfo, lookup_in. solve_cquiet. Qed.
Lemma cquiet_tgqueue p tgid tid signo sig n (c : C) :
  cquiet p (sys_rt_tgsigqueueinfo alive process_of p tgid tid signo sig n) c.
Proof. unfold sys_rt_tgsigqueueinfo, find_thread_in_group, lookup_in. solve_cquiet. Qed.
End Tables.

(** *** The end of a thread, and clones *)

Section Lifecycle.
Context {PS T AS WQ SG SA SI CW W TF UC FH DH : Type} `{AxProcess PS} `{FlattenObjectsOk T nat} `{WaitQueue WQ}
  `{AxSignal SG SA SI} `{ErrorConv, MemoryAddr, MappingFlags} `{AddrSpace AS} `{AddrSpaceClone AS} `{WeakMap W}
  `{UserContext TF UC} `{CloneConsts}.
Context (SI_KERNEL USER_HEAP_BASE : Z) (p_session : PS -> Z -> Z) (alive : KState PS T AS WQ SG SA CW -> Alive).
Abbreviation K := (KState PS T AS WQ SG SA CW).
Abbreviation KM := (M K LinuxError).
Abbreviation ktame := (tame (FH := FH) (DH := DH) (fun k : K => k)).

Lemma quiet_tame {A} p (m : KM A) k : quiet p m k -> ktame p m k.
Proof. intros [Hf Hs]. by apply tame_files. Qed.

(** A call on the descriptor table of a process. *)
Lemma on_fds_stays {A} p (m : M (FdState T) LinuxError A) (k : K) : over_stays (fun k => k) p (Process.on_fds p m) k.
Proof.
  intros n. unfold Process.on_fds, process_data. unfold_M. unfold names_at.
  destruct (k_pdata k !! p) as [d|]; simpl; [|done]. intros [= <-].
  destruct (fd_table (k_files k) !! ns_fd_table d) as [t|]; simpl; [|done].
  destruct (m _) as [r s']. split; simpl; try done.
  - intros i _ Hi. by rewrite lookup_insert_ne.
  - split_and!; try done. intros _. rewrite lookup_insert_eq. eauto.
Qed.
Lemma on_fds_tame {A} p (m : M (FdState T) LinuxError A) k :
  (forall ext s, fd_inv s ext -> fst (m s) <> Panic -> fd_inv (snd (m s)) ext) ->
  (forall s (hs : Handles FH DH), handles_ok s hs -> handles_ok (snd (m s)) hs) -> ktame p (Process.on_fds p m) k.
Proof.
  intros Hm Hk. split; [|apply on_fds_stays]. intros hs ext [Hi Hh].
  unfold Process.on_fds, process_data. unfold_M. destruct (k_pdata k !! p) as [d|]; simpl; [|done].
  destruct (fd_table (k_files k) !! ns_fd_table d) as [t|] eqn:Ht; simpl; [|done].
  specialize (Hm _ _ (files_view _ ext _ _ Ht Hi)). specialize (Hk (view t (k_files k)) hs Hh).
  destruct (m (view t (k_files k))) as [r s']. simpl in *. intros Hp. split; [|exact Hk].
  by eapply files_unview; [|apply Hm].
Qed.

Lemma exit_process_tame p k : ktame p (exit_process (SI := SI) SI_KERNEL p) k.
Proof.
  unfold exit_process. apply tame_bind; [by apply quiet_tame; solve_quiet|]. intros _ k1 _.
  apply tame_bind; [by apply quiet_tame, quiet_tell_parent|]. intros _ k2 _.
  apply tame_bind; [by apply quiet_tame; solve_quiet|]. intros _ k3 _. apply on_fds_tame.
  - intros ext s Hi _. unfold modify. simpl. by apply clear_steps.
  - intros s hs. apply clear_handles.
Qed.

Lemma exit_thread_tame p t code g k : ktame p (exit_thread (SI := SI) SI_KERNEL p t code g) k.
Proof.
  unfold exit_thread. apply tame_get_bind. destruct (p_thread_exit p t code (k_ps k)) as [last ps].
  apply tame_bind; [by apply quiet_tame; solve_quiet|]. intros _ k1 _.
  apply tame_bind; [destruct last; [apply exit_process_tame|by apply tame_same]|]. intros _ k2 _.
  apply quiet_tame, quiet_get_bind. destruct (_ && _); [|apply quiet_mret].
  apply quiet_seq; [solve_quiet|]. intros. apply quiet_send_all.
Qed.

(** *** Clones: what is new gets a new name *)

(** With the processes themselves unchanged. *)
Definition settled {A} (p : Z) (m : KM A) (k : K) : Prop := ktame p m k /\ k_pdata (snd (m k)) = k_pdata k.

Lemma settled_bind {A B} p (m : KM A) (f : A -> KM B) k :
  settled p m k -> (forall a k', settled p (f a) k') -> settled p (m ≫= f) k.
Proof.
  intros [Hm E] Hf. split; [apply tame_bind; [done|]; intros; by apply Hf|].
  unfold_M. destruct (m k) as [[a|e|] k1]; simpl in *; [|done..]. rewrite <- E. apply Hf.
Qed.
Lemma settled_same {A} p (m : KM A) k : snd (m k) = k -> settled p m k.
Proof. intros E. split; [by apply tame_same|by rewrite E]. Qed.
Lemma settled_space {A} p (m : M (UState AS) LinuxError A) k : settled p (on_space p m) k.
Proof.
  split; [apply quiet_tame, quiet_space|]. unfold on_space, process_data. unfold_M.
  destruct (k_pdata k !! p) as [d|]; simpl; [|done]. destruct (k_spaces k !! aspace d) as [u|]; simpl; [|done]. by destruct (m u).
Qed.

Lemma fresh_ne {A} (m : gmap nat A) i : is_Some (m !! i) -> fresh (dom m) <> i.
Proof. intros Hi <-. apply elem_of_dom in Hi. by apply (is_fresh (dom m)). Qed.
Lemma fresh_insert {A} (m : gmap nat A) x i : is_Some (m !! i) -> <[fresh (dom m) := x]> m !! i = m !! i.
Proof. intros Hi. apply lookup_insert_ne, fresh_ne, Hi. Qed.

Lemma settled_new_space p u k : settled p (new_space u) k.
Proof.
  split; [|done]. apply tame_files; [done|]. intros n _. split; simpl; try done.
  - intros a Ha _. by apply fresh_insert.
  - split; [|done]. intros Ha. by rewrite fresh_insert.
Qed.
Lemma settled_new_cwd p c k : settled p (new_cwd c) k.
Proof.
  split; [|done]. apply tame_files; [done|]. intros n _. split; simpl; try done.
  - intros a Ha _. by apply fresh_insert.
  - split_and!; try done. intros Ha. by rewrite fresh_insert.
Qed.
Lemma settled_new_actions p a k : settled p (new_actions a) k.
Proof. split; [|done]. apply quiet_tame. by apply quiet_same. Qed.
Lemma stays_new_table p t k : over_stays (fun k : K => k) p (new_table t) k.
Proof.
  intros n _. split; simpl; try done.
  - intros i Hi _. by apply fresh_insert.
  - split_and!; try done. intros Ha. by rewrite fresh_insert.
Qed.

Lemma settled_clone_space p k : settled p (clone_space p) k.
Proof.
  unfold clone_space. apply settled_bind; [apply settled_space|]. intros v k1.
  destruct (copy_from_kernel (us_aspace v)) as [r a]. apply settled_bind; [by apply settled_same|].
  intros. apply settled_new_space.
Qed.
Lemma settled_clone_actions p q flags k : settled p (clone_actions q flags) k.
Proof.
  unfold clone_actions. apply settled_bind; [by apply settled_same|]. intros k0 k1.
  destruct (if contains flags CLONE_SIGHAND then _ else _); [by apply settled_same|apply settled_new_actions].
Qed.
Lemma settled_clone_cwd p flags d k : settled p (clone_cwd flags d) k.
Proof.
  unfold clone_cwd. destruct (contains _ _); [by apply settled_same|]. apply settled_bind; [by apply settled_same|].
  intros k0 k1. apply settled_bind; [by apply settled_same|]. intros. apply settled_new_cwd.
Qed.

(** The copy of a table takes a reference to every object it names. *)
Lemma settled_clone_fds p flags d k : settled p (clone_fd_table p flags d) k.
Proof.
  unfold clone_fd_table. destruct (contains _ _); [by apply settled_same|]. split; [split|].
  - intros hs ext [Hi Hh]. unfold Process.on_fds, process_data. unfold_M.
    destruct (k_pdata k !! p) as [d'|]; simpl; [|done].
    destruct (fd_table (k_files k) !! ns_fd_table d') as [t|] eqn:Ht; simpl; [|done].
    destruct (copy_inner_spec _ _ (files_view _ ext _ _ Ht Hi)) as (t' & s' & E & _ & _ & Hi').
    pose proof (copy_ids_handles t hs (fo_ids t) fo_new (view t (k_files k)) Hh) as Hh'.
    change (copy_ids (fo_ids t) t fo_new (view t (k_files k))) with (copy_inner (view t (k_files k))) in Hh'.
    rewrite E in Hh' |- *. simpl in *. intros _. split; [|exact Hh'].
    apply (files_new_table (unview (ns_fd_table d') (k_files k) s')).
    { apply not_elem_of_dom, is_fresh. }
    eapply files_unview; [|exact Hi']. intros o. unfold others. lia.
  - apply over_stays_bind; [apply on_fds_stays|intros; apply stays_new_table].
  - unfold Process.on_fds, process_data. unfold_M. destruct (k_pdata k !! p) as [d'|]; simpl; [|done].
    destruct (fd_table (k_files k) !! ns_fd_table d') as [t|]; simpl; [|done].
    by destruct (copy_inner _) as [[]].
Qed.

Lemma clone_process_tame p tid flags es k :
  k_pdata k !! tid = None -> ktame p (clone_process USER_HEAP_BASE p tid flags es) k.
Proof.
  intros Ht. unfold clone_process. apply tame_get_bind.
  assert (forall A (m : KM A) (f : A -> KM nat) k, k_pdata k !! tid = None -> settled p m k ->
    (forall a k', k_pdata k' !! tid = None -> ktame p (f a) k') -> ktame p (m ≫= f) k) as Hb.
  { intros A m f k0 Hk0 [Hm E] Hf. apply tame_bind; [done|]. intros a k' Em. apply Hf. rewrite Em in E. simpl in E. by rewrite E. }
  apply Hb; [done|destruct (contains _ _); by apply settled_same|]. intros q k1 N1.
  apply Hb; [done|by apply settled_same|]. intros d k2 N2.
  apply Hb; [done|destruct (contains _ _); [by apply settled_same|apply settled_clone_space]|]. intros sp k3 N3.
  apply Hb; [done|apply settled_clone_actions|]. intros ac k4 N4.
  apply Hb; [done|apply settled_clone_fds|]. intros fds k5 N5.
  apply Hb; [done|apply settled_clone_cwd|]. intros cw k6 N6.
  apply tame_bind; [|intros; by apply tame_same]. apply tame_files; [done|]. intros n _. split; simpl; try done.
  intros r [x Hx]. unfold names_at. simpl. rewrite lookup_insert_ne; [done|]. intros <-. congruence.
Qed.

(** *** [sys_clone] *)

Abbreviation C := (CState PS T AS WQ SG SA CW W UC).
Abbreviation ctame := (tame (FH := FH) (DH := DH) (c_k (PS := PS) (T := T) (AS := AS) (WQ := WQ) (SG := SG) (SA := SA) (CW := CW) (W := W) (UC := UC))).

Lemma tame_on_k {A} p (m : KM A) (c : C) : ktame p m (c_k c) -> ctame p (on_k m) c.
Proof. unfold tame, over_keeps, over_stays, on_k. by destruct (m (c_k c)). Qed.

Lemma spawn_thread_tame p q tid flags child task (c : C) :
  ctame p (spawn_thread p_session alive q tid flags child task) c.
Proof.
  unfold spawn_thread. apply tame_bind; [apply tame_on_k, quiet_tame, quiet_process_data|]. intros _ c1 _.
  apply tame_bind; [|intros _ c2 _; by apply tame_same]. apply tame_on_k, quiet_tame. by apply quiet_same.
Qed.

#[local] Existing Instance pid_pod.

(** As long as the number [tid] is no process, and then the step that may use it. *)
Definition before {A} (p tid : Z) (m : M C LinuxError A) : Prop := forall c,
  k_pdata (c_k c) !! tid = None -> ctame p m c /\ k_pdata (c_k (snd (m c))) !! tid = None.
Definition creates {A} (p tid : Z) (m : M C LinuxError A) : Prop := forall c,
  k_pdata (c_k c) !! tid = None -> ctame p m c.

Lemma before_bind {A B} p tid (m : M C LinuxError A) (f : A -> M C LinuxError B) :
  before p tid m -> (forall a, creates p tid (f a)) -> creates p tid (m ≫= f).
Proof.
  intros Hm Hf c Hc. destruct (Hm c Hc) as [Ht Hn]. apply tame_bind; [done|].
  intros a c' E. apply Hf. by rewrite E in Hn.
Qed.
Lemma creates_bind {A B} p tid (m : M C LinuxError A) (f : A -> M C LinuxError B) :
  creates p tid m -> (forall a c, ctame p (f a) c) -> creates p tid (m ≫= f).
Proof. intros Hm Hf c Hc. apply tame_bind; [by apply Hm|]. intros. apply Hf. Qed.
Lemma before_k {A} p tid (m : KM A) : (forall k, settled p m k) -> before p tid (on_k m).
Proof.
  intros Hm c Hc. destruct (Hm (c_k c)) as [Ht E]. split; [by apply tame_on_k|].
  unfold on_k. destruct (m (c_k c)). simpl in *. by rewrite E.
Qed.
Lemma before_same {A} p tid (m : M C LinuxError A) : (forall c, snd (m c) = c) -> before p tid m.
Proof. intros E c Hc. rewrite E. split; [|done]. apply tame_same. by rewrite E. Qed.
Lemma before_then {A B} p tid (m : M C LinuxError A) (g : A -> B) :
  before p tid m -> before p tid (a ← m; mret (g a)).
Proof.
  intros Hm c Hc. destruct (Hm c Hc) as [Ht Hn]. split; [by apply tame_bind; [|intros; apply tame_same]|].
  unfold_M. by destruct (m c) as [[]].
Qed.

Lemma sys_clone_tame p name id tf flags stack parent_tid child_tid tls (c : C) :
  k_pdata (c_k c) !! as_u32 id = None ->
  ctame p (sys_clone USER_HEAP_BASE p_session alive p name id tf flags stack parent_tid child_tid tls) c.
Proof.
  revert c. change (creates p (as_u32 id)
    (sys_clone USER_HEAP_BASE p_session alive p name id tf flags stack parent_tid child_tid tls)).
  unfold sys_clone. destruct (_ && _); [by intros c _; apply tame_same|]. destruct (_ && _); [by intros c _; apply tame_same|].
  apply before_bind.
  { destruct (contains _ _); [|by apply before_same]. apply before_then, before_k. intros. apply settled_space. }
  intros a. apply before_bind.
  { destruct (contains _ _); [|by apply before_same]. apply before_k. intros. apply settled_space. }
  intros _. destruct (contains _ CLONE_THREAD).
  - apply before_bind; [apply before_k; intros; by apply settled_same|]. intros d c _.
    apply tame_bind; [apply spawn_thread_tame|]. intros. by apply tame_same.
  - apply creates_bind; [intros c Hc; by apply tame_on_k, clone_process_tame|]. intros root c.
    apply tame_bind; [apply spawn_thread_tame|]. intros. by apply tame_same.
Qed.
(** The new task runs in the address space of its process. *)
Lemma clone_process_root p tid flags es (k : K) root k' :
  clone_process USER_HEAP_BASE p tid flags es k = (Ok root, k') ->
  exists n, names_at k' tid = Some n /\ root = n.1.1.
Proof.
  unfold clone_process. intros Hm. repeat (apply M_bind_inv in Hm as (? & ? & ? & Hm)).
  unfold modify, mret, M_ret in *. simplify_eq/=. eexists. unfold names_at. simpl. rewrite lookup_insert_eq. by split.
Qed.
Lemma spawn_thread_root q tid flags child task (c : C) c' :
  spawn_thread p_session alive q tid flags child task c = (Ok tt, c') ->
  last (c_tasks c') = Some task /\ k_pdata (c_k c') = k_pdata (c_k c).
Proof.
  unfold spawn_thread. intros Hm. apply M_bind_inv in Hm as (d & c1 & E1 & Hm). apply M_bind_inv in Hm as (u & c2 & E2 & Hm).
  assert (k_pdata (c_k c1) = k_pdata (c_k c)) as E.
  { revert E1. unfold on_k, process_data. unfold_M. destruct (k_pdata (c_k c) !! q); simpl; intros; by simplify_eq/=. }
  unfold on_k, modify in *. simplify_eq/=. by rewrite last_snoc.
Qed.
Lemma sys_clone_root p name id tf flags stack parent_tid child_tid tls (c : C) r c' :
  sys_clone USER_HEAP_BASE p_session alive p name id tf flags stack parent_tid child_tid tls c = (Ok r, c') ->
  let q := if contains (from_bits_truncate CloneFlags_all (Z.land flags (as_u32 (Z.lnot FLAG_MASK)))) CLONE_THREAD
           then p else as_u32 id in
  exists task n, last (c_tasks c') = Some task /\ names_at (c_k c') q = Some n /\ task_root task = n.1.1.
Proof.
  unfold sys_clone. destruct (_ && _); [done|]. destruct (_ && _); [done|]. intros Hm.
  apply M_bind_inv in Hm as (a & c1 & _ & Hm). apply M_bind_inv in Hm as (u & c2 & _ & Hm).
  destruct (contains _ CLONE_THREAD); apply M_bind_inv in Hm as (d & c3 & E3 & Hm);
    apply M_bind_inv in Hm as ([] & c4 & E4 & Hm); apply spawn_thread_root in E4 as [El Ep];
    unfold mret, M_ret in Hm; simplify_eq/=.
  - assert (k_pdata (c_k c3) !! p = Some d) as Hd.
    { revert E3. unfold on_k, process_data. unfold_M. destruct (k_pdata (c_k c2) !! p) eqn:E; simpl; intros; by simplify_eq/=. }
    eexists _, (names d). split; [done|]. unfold names_at. rewrite Ep, Hd. by split.
  - revert E3. unfold on_k. destruct (clone_process _ _ _ _ _ _) as [[root| |] k'] eqn:Ec; intros; simplify_eq/=.
    apply clone_process_root in Ec as (n & Hn & ->). eexists _, n. split; [done|]. unfold names_at in *. by rewrite Ep.
Qed.
End Lifecycle.
