(* ===== verification/MachineRun.v ===== *)
(** * Runs of the machine

    Every step of every thread, in every order, keeps the reference counts of the
    file objects exact, and stays within the namespace of its process. *)

From stdpp Require Import base list gmap option relations.
From Stdlib Require Import ZArith Lia.
From S2P Require Import Prelude Text Bytes AddrSpace Ptr.
From S2P Require Import Pipe TimeStat TimeConv FdTable Path Mount.
From S2P Require Import Dirent Futex Io Mmap Process Clone Signal.
From S2P Require Import Loader Files Open Syscall Entry.
From S2P Require Import Machine MachineInv.
Import ListNotations.

(** The references held by the threads that wait. *)
Definition waits_for {UC TF} (h : UThread UC TF) (o : nat) : nat :=
  match th_wait h with Some q => holds q o | None => 0 end.
Definition held {UC TF} (l : gmap Z (UThread UC TF)) (o : nat) : nat :=
  map_fold (fun _ h n => (waits_for h o + n)%nat) 0%nat l.

Section Held.
Context {UC TF : Type}.
Implicit Types l : gmap Z (UThread UC TF).

Lemma held_insert l t h o : l !! t = None -> held (<[t := h]> l) o = (waits_for h o + held l o)%nat.
Proof. intros Ht. unfold held. rewrite map_fold_insert_L; [done| |done]. intros. lia. Qed.
Lemma held_delete l t h o : l !! t = Some h -> held l o = (waits_for h o + held (delete t l) o)%nat.
Proof. intros Ht. rewrite <- (insert_delete_id _ _ _ Ht) at 1. apply held_insert, lookup_delete_eq. Qed.
End Held.

(** What a thread may wait in once it has begun: of the bytes of a write no more
    are done than there are. *)
Definition sound_wait {UC} (q : pending UC) : Prop :=
  match q with PStart _ => False | PWrite _ b n _ => (n <= Z.to_nat (snd b))%nat | _ => True end.

(** A transfer waits only in a read or a write. *)
Section IoOnly.
Context {T AS CW DK FH DH CON BR U V ADDR UC : Type} `{FlattenObjects T nat} `{AxFs (DK * CW)} `{AxOpen (DK * CW) FH DH}
  `{AxFops DK FH} `{Console CON} `{AxNet U V ADDR} `{ErrorConv, MemoryAddr, MappingFlags} `{AddrSpace AS}.
Context (br_read : (nat -> CON -> list Z * CON) -> nat -> BR * CON -> (AxError + list Z) * (BR * CON)).
Abbreviation IoM := (M ((FdState T * CW * UState AS) * Devices DK FH DH CON BR U V) LinuxError (Z + pending UC)).
Definition io_only (m : IoM) : Prop := forall s q s', m s = (Ok (inr q), s') -> sound_wait q.

Lemma only_bind {A} (m : M _ LinuxError A) (k : A -> IoM) : (forall a, io_only (k a)) -> io_only (m ≫= k).
Proof. intros Hk s q s' Hm. apply M_bind_inv in Hm as (a & s1 & _ & Hm). by eapply Hk. Qed.
Lemma only_after (m : IoM) (k : Z + pending UC -> IoM) :
  io_only m -> (forall n, io_only (k (inl n))) -> (forall q, k (inr q) = mret (inr q)) -> io_only (m ≫= k).
Proof.
  intros Hm Hk Hq s q s' E. apply M_bind_inv in E as ([n|q1] & s1 & E1 & E); [by eapply Hk|].
  rewrite Hq in E. unfold mret, M_ret in E. simplify_eq. by eapply Hm.
Qed.
Lemma only_inl n : io_only (mret (inl n)).
Proof. done. Qed.
Lemma only_fail e : io_only (fail e).
Proof. done. Qed.
Lemma only_read o b rest : io_only (read_step br_read UC o b rest).
Proof.
  intros [[[f cw] u] g] q s'. unfold read_step. destruct (read_turn _ _ _ _) as [[[[r bs]|] [f' w]]|]; [|by intros [= <- _]|done].
  destruct (touches _ _ _ _), r; by intros [=].
Qed.
Lemma only_write o b n rest : (default 0 n <= Z.to_nat (snd b))%nat -> io_only (write_step UC o b n rest).
Proof.
  intros Hn [[[f cw] u] g] q s'. unfold write_step. destruct (write_turn _ _ _ _) as [[[r|n'] [f' w]]|] eqn:E; [| |done].
  - destruct (touches _ _ _ _), r; by intros [=].
  - destruct (touches _ _ _ _); [|by intros [=]]. intros [= <- _]. apply write_turn_bound in E; [|by rewrite mem_read_length]. by rewrite mem_read_length in E.
Qed.
Lemma only_write_new o b rest : io_only (write_step UC o b None rest).
Proof. apply only_write. simpl. lia. Qed.
#[local] Hint Resolve only_inl only_fail only_read only_write only_write_new : vegar.
Lemma only_readv fd n : forall iov ret, io_only (readv_from br_read UC fd n iov ret).
Proof.
  induction n as [|n IH]; intros iov ret; simpl; [auto with vegar|]. apply only_bind. intros v. destruct (_ =? _); [auto|].
  do 2 (apply only_bind; intros ?). apply only_after; [auto with vegar| |done]. intros k. destruct (_ <? _); auto with vegar.
Qed.
Lemma only_writev fd n : forall iov ret, io_only (writev_from UC fd n iov ret).
Proof.
  induction n as [|n IH]; intros iov ret; simpl; [auto with vegar|]. apply only_bind. intros v. destruct (_ =? _); [auto|].
  do 2 (apply only_bind; intros ?). apply only_after; [auto with vegar| |done]. intros k. destruct (_ <? _); auto with vegar.
Qed.
Lemma only_then next b rest (m : IoM) :
  (forall fd n iov ret, io_only (next fd n iov ret)) -> io_only m -> io_only (r ← m; io_then UC next b rest r).
Proof.
  intros Hn Hm. apply only_after; [done| |by destruct rest]. intros n.
  destruct rest; simpl; [auto with vegar|]. destruct (_ <? _); auto with vegar.
Qed.
#[local] Hint Resolve only_readv only_writev only_then : vegar.
Lemma only_resume_read o b rest : io_only (resume_read br_read UC o b rest).
Proof. unfold resume_read. auto with vegar. Qed.
Lemma only_resume_write o b n rest : (n <= Z.to_nat (snd b))%nat -> io_only (resume_write UC o b n rest).
Proof. intros Hn. unfold resume_write. auto with vegar. Qed.
Lemma only_do_read fd buf len : io_only (do_read br_read UC fd buf len).
Proof. unfold do_read. do 2 (apply only_bind; intros ?). auto with vegar. Qed.
Lemma only_do_write fd buf len : io_only (do_write UC fd buf len).
Proof. unfold do_write. do 2 (apply only_bind; intros ?). auto with vegar. Qed.
Lemma only_do_readv fd iov n : io_only (do_readv br_read UC fd iov n).
Proof. unfold do_readv. destruct (negb _); [auto with vegar|]. apply only_bind. auto with vegar. Qed.
Lemma only_do_writev fd iov n : io_only (do_writev UC fd iov n).
Proof. unfold do_writev. destruct (negb _); [auto with vegar|]. apply only_bind. auto with vegar. Qed.
End IoOnly.
#[export] Hint Resolve only_resume_read only_resume_write only_do_read only_do_write only_do_readv only_do_writev : vegar.

Section Run.
Context {PS T AS WQ SG SA SI CW W UC TF ACT KSA SS DK FH DH CON BR U V ADDR E L X : Type}.
Abbreviation K := (KState PS T AS WQ SG SA CW).
Abbreviation C := (CState PS T AS WQ SG SA CW W UC).
Abbreviation Dev := (Devices DK FH DH CON BR U V).
Abbreviation Y := (Machine PS T AS WQ SG SA CW W UC TF DK FH DH CON BR U V).
Abbreviation YM := (M Y LinuxError).
Abbreviation Local := ((FdState T * CW * UState AS) * Dev)%type.
Context `{AxProcess PS} `{FlattenObjectsOk T nat} `{WaitQueue WQ} `{AxSignal SG SA SI}
  `{ErrorConv, MemoryAddr, MappingFlags} `{AddrSpace AS} `{AddrSpaceClone AS} `{AddrSpaceLoad AS} `{WeakMap W}
  `{UserContext TF UC} `{CloneConsts} `{WaitConsts} `{SignalManager SG SA SI ACT KSA SS TF} `{SignalConsts}
  `{Pod KSA, Pod SS, Pod SI} `{AxFs (DK * CW)} `{AxOpen (DK * CW) FH DH} `{AxFops DK FH} `{Console CON}
  `{AxNet U V ADDR} `{OpenFlags} `{FileModes} `{Pod stat, Pod statx} `{CallConsts} `{DirTypes} `{MmapConsts}
  `{Elf E L X} `{FileStore (DK * CW)} `{LoadConfig} `{KernelConsts} `{KernelEnv PS K WQ AS UC TF DK FH DH CON BR}.
Implicit Types (y : Y) (t p : Z).

(** ** The invariant *)

Definition yinv (ext : nat -> nat) (y : Y) : Prop := kinv (g_handles (y_dev y)) ext (y_k y).

Lemma yinv_ext ext ext' y : (forall o, ext o = ext' o) -> yinv ext y -> yinv ext' y.
Proof. intros Eo [Hf Hh]. split; [|done]. by eapply files_ext. Qed.

(** A thread that has not started will run in the address space of its process, and
    what another one waits in is sound. *)
Definition homed (k : K) (h : UThread UC TF) : Prop :=
  exists n, names_at k (th_process h) = Some n /\ forall q, th_wait h = Some q ->
    match q with PStart task => task_root task = n.1.1 | _ => sound_wait q end.
Lemma homed_isolated n k k' h : isolated n k k' -> homed k h -> homed k' h.
Proof.
  intros Hi (m & Hm & Ht). exists m. split; [|done]. rewrite <- Hm. apply Hi. unfold names_at in Hm.
  by destruct (k_pdata k !! th_process h).
Qed.

(** In a machine between two steps, the references outside the tables are those of
    the threads that wait, and every thread has its process. *)
Definition machine_inv (y : Y) : Prop :=
  yinv (held (y_threads y)) y /\ forall q h, y_threads y !! q = Some h -> homed (y_k y) h.

(** What the thread [t] may do in a namespace [n]: change what is there, and start
    new threads, which hold nothing. *)
Record within (t : Z) (n : nat * nat * nat) (y y' : Y) : Prop := {
  wi_iso : isolated n (y_k y) (y_k y');
  wi_held o : held (delete t (y_threads y')) o = held (delete t (y_threads y)) o;
  wi_self : th_process <$> y_threads y' !! t = th_process <$> y_threads y !! t;
  wi_new q h : q <> t -> y_threads y' !! q = Some h -> y_threads y !! q = Some h \/ homed (y_k y') h
}.
#[export] Instance within_refl t n : Reflexive (within t n).
Proof. split; auto. done. Qed.
#[export] Instance within_trans t n : Transitive (within t n).
Proof.
  intros y1 y2 y3 [I1 A1 B1 N1] [I2 A2 B2 N2]. split; [by etrans|intros o; by rewrite A2|by rewrite B2|].
  intros q h Hq Hh. destruct (N2 q h Hq Hh) as [Hh2|]; [|by right].
  destruct (N1 q h Hq Hh2) as [|Hn]; [by left|right]. by eapply homed_isolated.
Qed.

Lemma within_same t n y y' : y_threads y' = y_threads y -> isolated n (y_k y) (y_k y') -> within t n y y'.
Proof. intros Ey Hi. split; rewrite ?Ey; auto. Qed.
Lemma within_upd t n f y : (forall h, th_process (f h) = th_process h) -> within t n y (upd_thread t f y).
Proof.
  intros Hf. split; simpl; [done|intros o; by rewrite delete_alter_eq| |].
  - rewrite lookup_alter_eq. destruct (y_threads y !! t); simpl; [by rewrite Hf|done].
  - intros q h Hq. rewrite lookup_alter_ne by done. by left.
Qed.
Lemma within_names t n y y' p : within t n y y' -> names_at (y_k y) p = Some n -> names_at (y_k y') p = Some n.
Proof. intros [Hi _ _ _] Hn. rewrite <- Hn. apply Hi. unfold names_at in Hn. by destruct (k_pdata (y_k y) !! p). Qed.

(** A computation of the thread [t] of [p] that needs no wait. *)
Record ytame {A} (t p : Z) (m : YM A) (y : Y) : Prop := {
  yt_inv ext : yinv ext y -> fst (m y) <> Panic -> yinv ext (snd (m y));
  yt_within n : names_at (y_k y) p = Some n -> within t n y (snd (m y))
}.

Lemma ytame_bind {A B} t p (m : YM A) (f : A -> YM B) y :
  ytame t p m y -> (forall a y', m y = (Ok a, y') -> ytame t p (f a) y') -> ytame t p (m ≫= f) y.
Proof.
  intros [Hi Hs] Hf. split; unfold_M; destruct (m y) as [[a|e|] y1] eqn:Em; simpl in *; try done.
  - intros ext Hy Hp. apply (Hf a y1 eq_refl); [|done]. by apply Hi.
  - intros ext Hy Hp. by apply Hi.
  - intros n Hn. specialize (Hs n Hn). etrans; [exact Hs|]. apply (Hf a y1 eq_refl). by eapply within_names.
Qed.
Lemma ytame_same {A} t p (m : YM A) y : snd (m y) = y -> ytame t p m y.
Proof. intros Em. split; rewrite Em; done. Qed.
Lemma ytame_agree {A} t p (m m' : YM A) y : m y = m' y -> ytame t p m' y -> ytame t p m y.
Proof. intros Em [A1 A2]. split; rewrite Em; [exact A1|exact A2]. Qed.
(** A step that leaves the files and the devices alone. *)
Lemma ytame_light {A} t p (m : YM A) y :
  y_dev (snd (m y)) = y_dev y -> k_files (y_k (snd (m y))) = k_files (y_k y) ->
  (forall n, names_at (y_k y) p = Some n -> within t n y (snd (m y))) -> ytame t p m y.
Proof. intros Ed Ef Hi. split; [|done]. intros ext Hy _. unfold yinv, kinv. by rewrite Ed, Ef. Qed.
Lemma ytame_upd t p f y : (forall h, th_process (f h) = th_process h) -> ytame t p (modify (upd_thread t f)) y.
Proof. intros Hf. split; [done|]. intros. by apply within_upd. Qed.

Lemma ytame_c {A} t p (m : M C LinuxError A) y : tame (FH := FH) (DH := DH) c_k p m (y_c y) -> ytame t p (on_c m) y.
Proof.
  intros [Hk Hs]. unfold over_keeps, over_stays in *. split; unfold on_c; destruct (m (y_c y)) as [r c]; simpl in *.
  - intros ext. apply Hk.
  - intros n Hn. apply within_same; [done|]. by apply Hs.
Qed.
Lemma ytame_k {A} t p (m : M K LinuxError A) y :
  tame (FH := FH) (DH := DH) (fun k => k) p m (y_k y) -> ytame t p (on_kernel m) y.
Proof. intros Ht. by apply ytame_c, tame_on_k. Qed.
Lemma ytame_quiet {A} t p (m : M K LinuxError A) y : quiet p m (y_k y) -> ytame t p (on_kernel m) y.
Proof. intros Hq. by apply ytame_k, quiet_tame. Qed.
Lemma ytame_cquiet {A} t p (m : M C LinuxError A) y : cquiet p m (y_c y) -> ytame t p (on_c m) y.
Proof. intros [Hf Hs]. by apply ytame_c, tame_files. Qed.

(** ** Calls on the resources of the process *)

Lemma put_local_iso p d tb cw u y (s : Local) n :
  local_of p y = Some (d, tb, cw, u) -> names_at (y_k y) p = Some n -> isolated n (y_k y) (y_k (put_local d s y)).
Proof.
  unfold local_of, names_at. intros Hl Hn. destruct (k_pdata (y_k y) !! p) as [d'|]; [|done]. simpl in *.
  destruct (fd_table _ !! _) as [tc|]; [|done]. simpl in *. destruct (k_cwds _ !! _); [|done]. simpl in *.
  destruct (k_spaces _ !! _); [|done]. simplify_eq/=. destruct s as [[[f c] u'] g]. split; simpl; try done.
  - intros a _ Ha. by rewrite lookup_insert_ne.
  - intros i _ Hi. by rewrite lookup_insert_ne.
  - intros c' _ Hc. by rewrite lookup_insert_ne.
  - rewrite !lookup_insert_eq. eauto.
Qed.

Lemma local_view p d tb cw u y ext : local_of p y = Some (d, tb, cw, u) -> yinv ext y ->
  local_inv (others (k_files (y_k y)) (ns_fd_table d) ext) (view tb (k_files (y_k y)), cw, u, y_dev y).
Proof.
  unfold local_of. intros Hl [Hi Hh]. destruct (k_pdata (y_k y) !! p) as [d'|]; [|done]. simpl in *.
  destruct (fd_table _ !! _) as [tc|] eqn:Ht; [|done]. simpl in *. destruct (k_cwds _ !! _); [|done]. simpl in *.
  destruct (k_spaces _ !! _); [|done]. simplify_eq/=. split; [by apply files_view|exact Hh].
Qed.
Lemma local_put d y (s : Local) ext ext' :
  (forall o, others (k_files (y_k y)) (ns_fd_table d) ext o = ext' o) -> local_inv ext' s -> yinv ext (put_local d s y).
Proof.
  intros Ee [Hi Hh]. destruct s as [[[f c] u'] g]. split; simpl in *; [|exact Hh]. by eapply files_unview.
Qed.

Lemma on_process_tame {A} t p (m : M Local LinuxError A) y : local_keeps m -> ytame t p (on_process p m) y.
Proof.
  intros Hm. split; unfold on_process; destruct (local_of p y) as [[[[d tb] cw] u]|] eqn:El; try done.
  - intros ext Hi. specialize (Hm _ _ (local_view _ _ _ _ _ _ _ El Hi)). destruct (m _) as [r s]. simpl in *.
    intros Hp. eapply local_put; [done|]. by apply Hm.
  - intros n Hn. pose proof (put_local_iso p d tb cw u y) as Hiso. destruct (m _) as [r s]. simpl.
    apply within_same; [by destruct s as [[[f c] u'] g]|by apply Hiso].
Qed.

(** ** Handlers and what they leave in the hands of their thread *)

Definition owes (r : result UC) (ext : nat -> nat) (o : nat) : nat :=
  match r with Wait q => (holds q o + ext o)%nat | _ => ext o end.
Definition none : nat -> nat := fun _ => 0%nat.

Definition sound (r : result UC) : Prop := match r with Wait q => sound_wait q | _ => True end.

(** A handler of the thread [t] of [p], begun with the references [dir] in hand. *)
Record fair (t p : Z) (dir : nat -> nat) (y : Y) (ry : result UC * Y) : Prop := {
  fair_inv ext : yinv (fun o => dir o + ext o)%nat y -> ry.1 <> Done Panic -> yinv (owes ry.1 ext) ry.2;
  fair_within n : names_at (y_k y) p = Some n -> within t n y ry.2;
  fair_wait : sound ry.1
}.

Lemma fair_now t p m y : ytame t p m y -> fair t p none y (now m y).
Proof.
  intros [Hi Hs]. split; unfold now; destruct (m y) as [r y1]; simpl in *; [|done..].
  intros ext Hy Hp. apply Hi; [exact Hy|]. by intros ->.
Qed.
(** Results that leave nothing in hand. *)
Definition plain (r : result UC) : Prop := (forall o, owes r none o = 0%nat) /\ sound r.
Definition empty_handed (m : YM (result UC)) : Prop := forall y r y', m y = (Ok r, y') -> plain r.
Lemma empty_bind {A} (m : YM A) (f : A -> YM (result UC)) : (forall a, empty_handed (f a)) -> empty_handed (m ≫= f).
Proof. intros Hf y r y'. unfold_M. destruct (m y) as [[a|e|] y1]; [|done..]. apply Hf. Qed.
Lemma empty_mret r : plain r -> empty_handed (mret r).
Proof. intros Hr y r' y' [= <- _]. exact Hr. Qed.
Lemma fair_empty t p m y : ytame t p m y -> empty_handed m -> fair t p none y (may_wait m y).
Proof.
  intros [Hi Hs] Hf. specialize (Hf y). split; unfold may_wait; destruct (m y) as [[r|e|] y1]; simpl in *; try done.
  - intros ext Hy _. destruct (Hf r y1 eq_refl) as [Ho _]. eapply yinv_ext; [|by apply Hi]. intros o. specialize (Ho o).
    destruct r; simpl in *; [done| |done]. unfold none in Ho. lia.
  - intros ext Hy _. by apply Hi.
  - by eapply Hf.
Qed.
Lemma fair_waits t p m q y :
  ytame t p m y -> plain (Wait q) -> fair t p none y (waits m q y).
Proof.
  intros Hm Hq. apply fair_empty; [|apply empty_bind; intros; by apply empty_mret].
  apply ytame_bind; [done|]. intros. by apply ytame_same.
Qed.
Lemma fair_done t p r y : fair t p none y (Done r, y).
Proof. by split. Qed.
(** What comes before a handler. *)
Lemma fair_ytame {A} t p (m : YM A) y r y1 ry :
  ytame t p m y -> m y = (r, y1) -> r <> Panic -> fair t p none y1 ry -> fair t p none y ry.
Proof.
  intros [Hi Hs] Em Hr [Fi Fs Fw]. rewrite Em in *. simpl in *. split.
  - intros ext Hy. apply Fi, Hi, Hr. exact Hy.
  - intros n Hn. specialize (Hs n Hn). etrans; [exact Hs|]. apply Fs. by eapply within_names.
  - exact Fw.
Qed.

(** A transfer takes and leaves references as [io_keeps] says. *)
Definition dir_refs (dir : option nat) (o : nat) : nat :=
  match dir with Some x => if decide (o = x) then 1 else 0 | None => 0 end.
Lemma fair_io t p dir (m : M Local LinuxError (Z + pending UC)) y :
  io_keeps UC dir m -> io_only m -> fair t p (dir_refs dir) y (may_wait (r ← on_process p m; mret (io_result r)) y).
Proof.
  intros Hm Ho. split; unfold may_wait; unfold_M; unfold on_process;
    destruct (local_of p y) as [[[[d tb] cw] u]|] eqn:El; simpl; try done.
  - intros ext Hy. pose proof (local_view _ _ _ _ _ _ _ El Hy) as Hv.
    assert (local_inv (bump_dir dir (others (k_files (y_k y)) (ns_fd_table d) ext))
      (view tb (k_files (y_k y)), cw, u, y_dev y)) as Hv'.
    { eapply local_ext; [|exact Hv]. intros o. unfold others, dir_refs. destruct dir; simpl; [|done]. rewrite bump_holds. lia. }
    specialize (Hm _ _ Hv'). destruct (m _) as [[[n|q]|e|] s]; simpl in *; intros Hp.
    + eapply local_put; [|by apply Hm]. done.
    + eapply local_put; [|by apply Hm]. intros o. unfold others. simpl. lia.
    + eapply local_put; [|by apply Hm]. done.
    + done.
  - intros n Hn. pose proof (put_local_iso p d tb cw u y) as Hiso.
    assert (within t n y (put_local d (m (view tb (k_files (y_k y)), cw, u, y_dev y)).2 y)) as Hw.
    { apply within_same; [by destruct ((m _).2) as [[[f c] u'] g]|by apply Hiso]. }
    by destruct (m _) as [[[k|q]|e|] s].
  - specialize (Ho (view tb (k_files (y_k y)), cw, u, y_dev y)). destruct (m _) as [[[k|q]|e|] s]; simpl; try done.
    by eapply Ho.
Qed.

(** ** Every handler *)

Lemma begin_exit_fair t p code g y : fair t p none y (begin_exit p t code g y).
Proof. apply fair_waits; [|done]. by apply ytame_quiet, quiet_clear_tid. Qed.

Lemma exec_files_fair t p c m y : exec_files p c = Some m -> fair t p none y (m y).
Proof.
  unfold exec_files. destruct (run_fs c) as [r|] eqn:Er.
  { intros [= <-]. apply fair_now, on_process_tame, on_open_keeps. by eapply run_fs_preserves. }
  assert (forall m, io_keeps UC None m -> io_only m -> fair t p none y (may_wait (r ← on_process p m; mret (io_result r)) y)) as Hio.
  { intros m'. apply (fair_io t p None). }
  destruct c; simpl; intros Em; try discriminate; injection Em as <-;
    first [ apply Hio; [|by auto with vegar] | apply fair_now, on_process_tame ].
  - apply getdents_keeps.
  - apply do_read_keeps.
  - apply do_readv_keeps.
  - apply do_write_keeps.
  - apply do_writev_keeps.
  - apply lseek_keeps.
  - apply sys_mount_keeps.
  - apply sys_umount2_keeps.
  - apply on_map_keeps, mmap_keeps.
  - apply on_map_keeps, munmap_keeps.
  - apply on_map_keeps, mprotect_keeps.
Qed.

Lemma suspend_turn_fair t p old h y : fair t p none y (suspend_turn p t old h y).
Proof.
  unfold suspend_turn. pose proof (ytame_quiet t p _ y (quiet_due p t (th_tf h) (Some old) (y_k y))) as Hd.
  destruct (on_kernel _ y) as [[[r tf]|e|] y1] eqn:Ed.
  - apply (fair_ytame t p _ y _ _ _ Hd Ed); [done|].
    apply (fair_ytame t p (modify (upd_thread t (th_set_tf tf))) y1 (Ok tt) (upd_thread t (th_set_tf tf) y1));
      [by apply ytame_upd|done..|]. destruct r as [[code|]|]; [apply begin_exit_fair|apply fair_done|by split].
  - apply (fair_ytame t p _ y _ _ _ Hd Ed); [done|apply fair_done].
  - destruct Hd as [_ Hs]. rewrite Ed in *. by split.
Qed.

Lemma sigsuspend_fair t p set n h y : fair t p none y (do_sigsuspend p t set n h y).
Proof.
  unfold do_sigsuspend. pose proof (ytame_quiet t p _ y (quiet_suspend p t (th_tf h) set n (y_k y))) as Hd.
  destruct (on_kernel _ y) as [[[old tf]|e|] y1] eqn:Ed.
  - apply (fair_ytame t p _ y _ _ _ Hd Ed); [done|apply suspend_turn_fair].
  - apply (fair_ytame t p _ y _ _ _ Hd Ed); [done|apply fair_done].
  - destruct Hd as [_ Hs]. rewrite Ed in *. by split.
Qed.

Lemma sigreturn_tame t p h y : ytame t p (do_sigreturn t h) y.
Proof.
  apply ytame_bind; [apply ytame_quiet, quiet_sigreturn|]. intros r y1 _.
  apply ytame_bind; [by apply ytame_upd|]. intros. by apply ytame_same.
Qed.

Lemma futex_fair t p a b c d e f y : fair t p none y (may_wait (do_futex p t a b c d e f) y).
Proof.
  apply fair_empty; [|apply empty_bind; intros [n|g o]; by apply empty_mret].
  apply ytame_bind; [apply ytame_quiet, quiet_futex|]. intros [n|g o] y1 _; by apply ytame_same.
Qed.

Lemma exec_signals_fair t p h c m y : exec_signals p t h c = Some m -> fair t p none y (m y).
Proof.
  destruct c; simpl; intros Em; try discriminate; injection Em as <-;
    first [ apply futex_fair | apply sigsuspend_fair | apply fair_now ].
  - apply ytame_quiet, quiet_sigprocmask.
  - apply ytame_quiet, quiet_sigaction.
  - apply ytame_quiet, quiet_sigpending.
  - apply sigreturn_tame.
  - apply ytame_quiet, quiet_sigtimedwait.
  - apply ytame_cquiet, cquiet_kill.
  - apply ytame_cquiet, cquiet_tkill.
  - apply ytame_cquiet, cquiet_tgkill.
  - apply ytame_cquiet, cquiet_queue.
  - apply ytame_cquiet, cquiet_tgqueue.
  - apply ytame_quiet, quiet_sigaltstack.
Qed.

(** *** Tasks *)

Lemma wait_turn_tame t p o l code y : ytame t p (wait_turn p t o l code) y.
Proof.
  destruct (first_zombie (y_k y) l) as [c|] eqn:Ez.
  - apply (ytame_agree t p _ (on_kernel (status_word p code);; r ← on_kernel (report_child p o code c); mret (Done (Ok r)))).
    { unfold wait_turn. by rewrite Ez. }
    apply ytame_bind.
    { apply ytame_quiet. destruct code; [apply quiet_space|apply quiet_mret]. }
    intros. apply ytame_bind; [apply ytame_quiet, quiet_report|]. intros. by apply ytame_same.
  - destruct (contains o WNOHANG) eqn:Eo; [apply ytame_same; unfold wait_turn; by rewrite Ez, Eo|].
    apply (ytame_agree t p _ (on_kernel (modify (join_exit_wq t p));; mret (Wait (PWait l code o)))).
    { unfold wait_turn. by rewrite Ez, Eo. }
    apply ytame_bind; [apply ytame_quiet, quiet_join|]. intros. by apply ytame_same.
Qed.

Lemma wait_turn_empty p t o l code : empty_handed (wait_turn p t o l code).
Proof.
  intros y r y'. unfold wait_turn. destruct (first_zombie (y_k y) l); [by do 2 (apply empty_bind; intros); apply empty_mret|].
  destruct (contains o WNOHANG); intros; by simplify_eq/=.
Qed.
Lemma waitpid_fair t p pid ptr o y : fair t p none y (may_wait (do_waitpid p t pid ptr o) y).
Proof.
  apply fair_empty; [|apply empty_bind; intros; apply wait_turn_empty].
  apply ytame_bind; [apply ytame_quiet, quiet_wait_setup|]. intros. apply wait_turn_tame.
Qed.
Lemma nanosleep_fair t p req rem y : fair t p none y (may_wait (do_nanosleep p req rem) y).
Proof.
  apply fair_empty; [|by do 2 (apply empty_bind; intros); apply empty_mret].
  apply ytame_bind; [apply ytame_quiet, quiet_space|]. intros. by apply ytame_same.
Qed.
Lemma sleep_turn_fair t p dur since rem y : fair t p none y (may_wait (sleep_turn p dur since rem) y).
Proof.
  apply fair_empty.
  - destruct (total_nanos (y_mono y) <? total_nanos since + total_nanos dur) eqn:El.
    { apply ytame_same. unfold sleep_turn. by rewrite El. }
    eapply ytame_agree; [unfold sleep_turn; by rewrite El|]. apply ytame_bind; [by apply ytame_same|]. intros a y1 _.
    apply ytame_bind; [apply ytame_quiet, quiet_space|]. intros. by apply ytame_same.
  - intros y0 r y'. unfold sleep_turn. destruct (_ <? _); [intros; by simplify_eq/=|].
    by do 2 (apply empty_bind; intros); apply empty_mret.
Qed.
Lemma futex_turn_tame t p g timeout y : ytame t p (futex_turn p t g timeout) y.
Proof.
  destruct (k_pdata (y_k y) !! p) as [d|] eqn:Ed; [|apply ytame_same; unfold futex_turn; by rewrite Ed].
  apply ytame_light; unfold futex_turn; rewrite Ed;
    destruct (_ && _); try done; destruct (futex_resume _ _) as [r f]; simpl; try done.
  intros n _. apply within_same; [done|]. split; simpl; try done. intros q _. unfold names_at. simpl. by eapply names_insert.
Qed.
Lemma futex_turn_fair t p g timeout y : fair t p none y (may_wait (futex_turn p t g timeout) y).
Proof.
  apply fair_empty; [apply futex_turn_tame|]. intros y0 r y'. unfold futex_turn.
  destruct (k_pdata (y_k y0) !! p); [|done]. destruct (_ && _); [intros; by simplify_eq/=|].
  destruct (futex_resume _ _); intros; by simplify_eq/=.
Qed.

Lemma local_of_pdata p y d tb cw u :
  local_of p y = Some (d, tb, cw, u) -> k_pdata (y_k y) !! p = Some d /\ is_Some (k_spaces (y_k y) !! aspace d).
Proof.
  unfold local_of. intros Hl. destruct (k_pdata (y_k y) !! p) as [d'|]; [|done]. simpl in *.
  destruct (fd_table _ !! _); [|done]. simpl in *. destruct (k_cwds _ !! _); [|done]. simpl in *.
  destruct (k_spaces _ !! _) eqn:Es; [|done]. simplify_eq/=. by rewrite Es.
Qed.

Lemma arch_prctl_tame t p code addr h y : ytame t p (do_arch_prctl p t code addr h) y.
Proof.
  apply ytame_light; unfold do_arch_prctl;
    destruct (local_of p y) as [[[[d tb] cw] u]|] eqn:El; try destruct (sys_arch_prctl _ _ _) as [r [g u']]; simpl; try done.
  - intros n Hn. etrans; [|by apply within_upd]. apply within_same; [done|].
    apply (stays_space p); [by apply local_of_pdata in El as []|done].
  - intros n _. by apply within_upd.
Qed.

Lemma execve_fair fuel t p path argv envp h y ry :
  do_execve fuel p t path argv envp h y = Some ry -> fair t p none y ry.
Proof.
  unfold do_execve. destruct (local_of p y) as [[[[d tb] cw] u]|] eqn:El; [|intros [= <-]; apply fair_done].
  destruct (sys_execve _ _ _ _ _ _ _ _ _ _) as [[r s]|]; simpl; [|done]. intros [= <-].
  apply (fair_now t p (fun _ => (r, _))). apply local_of_pdata in El as [Ed _].
  apply ytame_light; simpl; [done..|]. intros n Hn. etrans; [|by apply within_upd]. apply within_same; [done|].
  etrans; [by eapply (stays_space p d)|]. split; simpl; try done.
  intros q _. unfold names_at. simpl. by apply names_alter.
Qed.

(** The new thread is none of the old ones, and holds nothing. *)
Lemma clone_tame t p id flags stack parent_tid child_tid tls h y :
  is_Some (y_threads y !! t) -> y_threads y !! as_u32 id = None -> k_pdata (y_k y) !! as_u32 id = None ->
  ytame t p (do_clone p t id flags stack parent_tid child_tid tls h) y.
Proof.
  intros Ht Hid Hp. unfold do_clone.
  apply ytame_bind; [by apply ytame_c, sys_clone_tame|]. intros n y1 Ey.
  unfold on_c in Ey. destruct (sys_clone _ _ _ _ _ _ _ _ _ _ _ _ (y_c y)) as [r c] eqn:Ec. simplify_eq/=.
  apply sys_clone_root in Ec as (task & n' & El & En & Er).
  apply ytame_bind; [by apply ytame_same|]. intros y2 y3 [= <- <-]. simpl. rewrite El.
  apply ytame_bind; [|intros; by apply ytame_same]. apply ytame_light; simpl; [done..|]. intros m _.
  assert (as_u32 id <> t) as Hne by (intros <-; rewrite Hid in Ht; by destruct Ht). split; simpl; [done|..].
  - intros o. rewrite delete_insert_ne, held_insert; [done| |done]. by rewrite lookup_delete_ne.
  - by rewrite lookup_insert_ne.
  - intros q h' Hq. destruct (decide (q = as_u32 id)) as [->|]; [|rewrite lookup_insert_ne by done; by left].
    rewrite lookup_insert_eq. intros [= <-]. right. exists n'. split; [exact En|]. by intros task' [= <-].
Qed.

Lemma exec_tasks_fair fuel id t p h c m y ry :
  is_Some (y_threads y !! t) -> y_threads y !! as_u32 id = None -> k_pdata (y_k y) !! as_u32 id = None ->
  exec_tasks fuel id p t h c = Some m -> m y = Some ry -> fair t p none y ry.
Proof.
  intros Ht Hid Hp.
  destruct c; simpl; try destruct e_child_tid_first; intros Em; try discriminate; injection Em as <-;
    try (intros [= <-]; apply (fair_now t p), ytame_quiet); try intros [= <-];
    first [ by apply quiet_brk | by apply quiet_same | by apply quiet_getppid | by apply quiet_set_tid | by apply quiet_space
          | by eapply execve_fair | by apply nanosleep_fair | by apply fair_now, arch_prctl_tame
          | by apply fair_now, clone_tame | by apply begin_exit_fair | by apply waitpid_fair | by split ].
Qed.

Lemma exec_fair fuel id t c h y ry :
  y_threads y !! t = Some h -> y_threads y !! as_u32 id = None -> k_pdata (y_k y) !! as_u32 id = None ->
  exec fuel id t c y = Some ry -> fair t (th_process h) none y ry.
Proof.
  intros Ht Hid Hp. unfold exec. rewrite Ht.
  destruct (exec_files _ _) as [m|] eqn:Ef; [intros [= <-]; by eapply exec_files_fair|].
  destruct (exec_signals _ _ _ _) as [m|] eqn:Es; [intros [= <-]; by eapply exec_signals_fair|].
  destruct (exec_tasks _ _ _ _ _ _) as [m|] eqn:Et; [|intros [= <-]; apply fair_done].
  eapply exec_tasks_fair; eauto.
Qed.

(** *** The turns of a thread that waits *)

Lemma turn_fair t h q y : sound_wait q -> fair t (th_process h) (holds q) y (turn t h q y).
Proof.
  intros Hq. destruct q as [task|code g| |dur since rem|l code o|g timeout|old|o b rest|o b n rest]; simpl.
  - by destruct Hq.
  - apply fair_empty; [|apply empty_bind; intros; by apply empty_mret].
    apply ytame_bind; [apply ytame_k, exit_thread_tame|]. intros. by apply ytame_same.
  - apply fair_done.
  - apply sleep_turn_fair.
  - apply fair_empty.
    + destruct (k_pdata (y_k y) !! th_process h) as [d|] eqn:Ed; [|apply ytame_same; by rewrite Ed].
      destruct (bool_decide (t ∈ wq_waiters (child_exit_wq d))) eqn:Ew; [apply ytame_same; by rewrite Ed, Ew|].
      eapply ytame_agree; [by rewrite Ed, Ew|]. apply wait_turn_tame.
    + intros y0 r y'. destruct (k_pdata (y_k y0) !! th_process h); [|done].
      case_bool_decide; [intros; by simplify_eq/=|]. apply wait_turn_empty.
  - apply futex_turn_fair.
  - apply suspend_turn_fair.
  - apply (fair_io t _ (Some o)); [apply resume_read_keeps|auto with vegar].
  - apply (fair_io t _ (Some o)); [apply resume_write_keeps|auto with vegar].
Qed.

(** ** From one step to the next *)

(** The machine while the thread [t] of [p] runs, with [dir] in hand. *)
Record midway (t p : Z) (n : nat * nat * nat) (dir : nat -> nat) (y : Y) : Prop := {
  mw_inv : yinv (fun o => dir o + held (delete t (y_threads y)) o)%nat y;
  mw_others q h : q <> t -> y_threads y !! q = Some h -> homed (y_k y) h;
  mw_self : th_process <$> y_threads y !! t = Some p;
  mw_names : names_at (y_k y) p = Some n
}.

Lemma midway_begin t h n y : y_threads y !! t = Some h -> names_at (y_k y) (th_process h) = Some n ->
  machine_inv y -> midway t (th_process h) n (waits_for h) y.
Proof.
  intros Ht Hn [Hi Hh]. split; [|by intros; eapply Hh|by rewrite Ht|done].
  eapply yinv_ext; [|exact Hi]. intros o. by apply held_delete.
Qed.
Lemma midway_end t p n dir h y : midway t p n dir y -> y_threads y !! t = Some h ->
  (forall o, dir o = waits_for h o) -> (forall q, th_wait h = Some q -> sound_wait q) -> machine_inv y.
Proof.
  intros [Hi Ho Hs Hn] Ht Hd Hw. rewrite Ht in Hs. injection Hs as Hs. split.
  - eapply yinv_ext; [|exact Hi]. intros o. simpl. rewrite Hd. symmetry. by apply held_delete.
  - intros q h' Hq. destruct (decide (q = t)) as [->|]; [|by eapply Ho]. rewrite Ht in Hq. injection Hq as <-.
    exists n. rewrite Hs. split; [done|]. intros q Eq. specialize (Hw q Eq). by destruct q.
Qed.
Lemma midway_within t p n dir dir' y y' : midway t p n dir y -> within t n y y' ->
  yinv (fun o => dir' o + held (delete t (y_threads y)) o)%nat y' -> midway t p n dir' y'.
Proof.
  intros [Hi Ho Hs Hn] Hw Hi'. split.
  - eapply yinv_ext; [|exact Hi']. intros o. simpl. by rewrite (wi_held _ _ _ _ Hw).
  - intros q h Hq Hh. destruct (wi_new _ _ _ _ Hw q h Hq Hh) as [Hh'|]; [|done].
    eapply homed_isolated; [apply Hw|]. by eapply Ho.
  - by rewrite (wi_self _ _ _ _ Hw).
  - by eapply within_names.
Qed.
Lemma midway_fair t p n dir y r y' : midway t p n dir y -> fair t p dir y (r, y') -> r <> Done Panic ->
  midway t p n (owes r none) y' /\ within t n y y'.
Proof.
  intros Hm [Fi Fs Fw] Hr. pose proof (Fs n (mw_names _ _ _ _ _ Hm)) as Hw. split; [|done].
  eapply midway_within; [done..|]. eapply yinv_ext; [|apply Fi; [apply Hm|done]].
  intros o. destruct r; unfold none; simpl; lia.
Qed.
Lemma midway_ytame {A} t p n dir y (m : YM A) : midway t p n dir y -> ytame t p m y -> fst (m y) <> Panic ->
  midway t p n dir (snd (m y)) /\ within t n y (snd (m y)).
Proof.
  intros Hm [Fi Fs] Hr. pose proof (Fs n (mw_names _ _ _ _ _ Hm)) as Hw. split; [|done].
  eapply midway_within; [done..|]. apply Fi; [apply Hm|done].
Qed.
Lemma midway_upd t p n dir y f : midway t p n dir y -> (forall h, th_process (f h) = th_process h) ->
  midway t p n dir (upd_thread t f y) /\ within t n y (upd_thread t f y).
Proof. intros Hm Hf. apply (midway_ytame _ _ _ _ _ (modify (upd_thread t f))); [done|by apply ytame_upd|done]. Qed.

Lemma midway_dir t p n dir dir' y : (forall o, dir o = dir' o) -> midway t p n dir y -> midway t p n dir' y.
Proof. intros Ed [Hi Ho Hs Hn]. split; [|done..]. eapply yinv_ext; [|exact Hi]. intros o. simpl. by rewrite Ed. Qed.
Lemma midway_thread t p n dir y : midway t p n dir y -> exists h, y_threads y !! t = Some h /\ th_process h = p.
Proof. intros Hm. pose proof (mw_self _ _ _ _ _ Hm) as Hs. destruct (y_threads y !! t) as [h|]; [|done]. injection Hs. eauto. Qed.
Lemma park_inv t p n q y : midway t p n (holds q) y -> sound_wait q ->
  machine_inv (upd_thread t (th_set_wait (Some q)) y) /\ isolated n (y_k y) (y_k (upd_thread t (th_set_wait (Some q)) y)).
Proof.
  intros Hm Hq. destruct (midway_upd _ _ _ _ _ (th_set_wait (Some q)) Hm) as [Hm' Hw]; [done|]. split; [|apply Hw].
  destruct (midway_thread _ _ _ _ _ Hm) as (h & Hh & _).
  eapply midway_end; [exact Hm'|simpl; by rewrite lookup_alter_eq, Hh|done|]. by intros q' [= <-].
Qed.

(** The signal that is due when a thread goes back to user code. *)
Lemma post_trap_inv t p n h y y' : midway t p n none y -> y_threads y !! t = Some h -> th_process h = p -> th_wait h = None ->
  post_trap t y = Some y' -> machine_inv y' /\ isolated n (y_k y) (y_k y').
Proof.
  intros Hm Hh Hp Hwait. unfold post_trap. rewrite Hh. simpl.
  pose proof (midway_ytame _ _ _ _ _ _ Hm (ytame_quiet t p _ y (quiet_due p t (th_tf h) None (y_k y)))) as Hd.
  assert (y_threads (snd (on_kernel (due_signal t (th_tf h) None) y)) !! t = Some h) as Hh2.
  { unfold on_kernel, on_c. by destruct (on_k _ _). }
  destruct (on_kernel _ y) as [[[r tf]|e|] y2]; [|done..]. destruct Hd as [Hm2 Hw2]; [done|]. simpl in *.
  destruct (midway_upd _ _ _ _ _ (th_set_tf tf) Hm2) as [Hm3 Hw3]; [done|].
  assert (isolated n (y_k y) (y_k (upd_thread t (th_set_tf tf) y2))) as Hiso by (etrans; [apply Hw2|apply Hw3]).
  assert (machine_inv (upd_thread t (th_set_tf tf) y2)) as Hend.
  { eapply midway_end; [exact Hm3|simpl; by rewrite lookup_alter_eq, Hh2|intros o; unfold waits_for|];
      cbn [th_set_tf th_wait]; by rewrite Hwait. }
  destruct r as [[code|]|]; [|by intros [= <-]..].
  rewrite Hp. pose proof (begin_exit_fair t p code true (upd_thread t (th_set_tf tf) y2)) as Hf.
  destruct (begin_exit _ _ _ _ _) as [[r|q|] y4]; [done| |done]. intros [= <-].
  destruct (midway_fair _ _ _ _ _ _ _ Hm3 Hf) as [Hm4 Hw4]; [done|].
  destruct (park_inv t p n q y4) as [Hi4 Hw5].
  - eapply midway_dir; [|exact Hm4]. intros o. unfold none. simpl. lia.
  - exact (fair_wait _ _ _ _ _ Hf).
  - split; [done|]. etrans; [exact Hiso|]. etrans; [apply Hw4|exact Hw5].
Qed.

(** The answer of a call. *)
Lemma return_inv t p n ans y y' : midway t p n none y -> return_to_user t ans y = Some y' ->
  machine_inv y' /\ isolated n (y_k y) (y_k y').
Proof.
  intros Hm. unfold return_to_user. set (f := fun h => th_set_tf _ _).
  destruct (midway_upd _ _ _ _ _ f Hm) as [Hm1 Hw1]; [done|]. destruct (midway_thread _ _ _ _ _ Hm) as (h0 & Hh0 & Hp0).
  intros Hy. destruct (post_trap_inv t p n (f h0) _ y' Hm1) as [Hi Hs]; [|done..|].
  - simpl. by rewrite lookup_alter_eq, Hh0.
  - split; [done|]. etrans; [apply Hw1|exact Hs].
Qed.

Lemma settle_inv t p n dir r y y1 y' : midway t p n dir y -> fair t p dir y (r, y1) -> settle t r y1 = Some y' ->
  machine_inv y' /\ isolated n (y_k y) (y_k y').
Proof.
  intros Hm Hf. unfold settle. assert (r <> Done Panic -> midway t p n (owes r none) y1 /\ within t n y y1) as Hr.
  { intros. by eapply midway_fair. }
  destruct r as [r|q|].
  - destruct (answer _ r) as [ans|e|] eqn:Ea; [|done..]. destruct Hr as [Hm1 Hw1]; [by intros [= ->]|].
    destruct (midway_upd _ _ _ _ _ (fun h => th_set_time (time_stat_from_kernel_to_user (total_nanos (y_mono y1)) (th_time h)) h) Hm1)
      as [Hm2 Hw2]; [done|].
    intros Hy. destruct (return_inv _ _ _ _ _ _ Hm2 Hy) as [Hi Hs]. split; [done|].
    etrans; [apply Hw1|]. etrans; [apply Hw2|exact Hs].
  - destruct Hr as [Hm1 Hw1]; [done|]. intros [= <-]. destruct (park_inv t p n q y1) as [Hi Hs].
    + eapply midway_dir; [|exact Hm1]. intros o. unfold none. simpl. lia.
    + exact (fair_wait _ _ _ _ _ Hf).
    + split; [done|]. etrans; [apply Hw1|exact Hs].
  - destruct Hr as [Hm1 Hw1]; [done|]. intros [= <-]. split; [|apply Hw1]. destruct Hm1 as [M1 M2 M3 M4]. split; [exact M1|].
    intros q h. simpl. intros [Hq Hh]%lookup_delete_Some. by eapply M2.
Qed.

(** ** One step *)

Lemma compute_inv t m tf y y' h n : y_threads y !! t = Some h -> names_at (y_k y) (th_process h) = Some n -> th_wait h = None ->
  machine_inv y -> compute t m tf y = Some y' -> machine_inv y' /\ isolated n (y_k y) (y_k y').
Proof.
  intros Ht Hn Hw Hi. pose proof (midway_begin _ _ _ _ Ht Hn Hi) as Hm. unfold compute. rewrite Ht. simpl.
  destruct (k_pdata (y_k y) !! th_process h) as [d|] eqn:Ed; [|done]. simpl. destruct (k_spaces _ !! _) as [u|]; [|done].
  intros [= <-]. set (k := set_spaces _ _).
  assert (ytame t (th_process h) (modify (set_k k)) y) as Hy.
  { apply ytame_light; [done..|]. intros n' Hn'. apply within_same; [done|]. by apply (stays_space (th_process h) d). }
  destruct (midway_ytame _ _ _ _ _ _ Hm Hy) as [Hm1 Hw1]; [done|].
  destruct (midway_upd _ _ _ _ _ (th_set_tf tf) Hm1) as [Hm2 Hw2]; [done|]. split.
  - eapply midway_end; [exact Hm2|simpl; by rewrite lookup_alter_eq, Ht|done|]. simpl. by rewrite Hw.
  - etrans; [apply Hw1|apply Hw2].
Qed.

Lemma machine_trap_inv fuel id t num y y' h n : y_threads y !! t = Some h -> names_at (y_k y) (th_process h) = Some n -> th_wait h = None ->
  y_threads y !! as_u32 id = None -> k_pdata (y_k y) !! as_u32 id = None ->
  machine_inv y -> trap fuel id t num y = Some y' -> machine_inv y' /\ isolated n (y_k y) (y_k y').
Proof.
  intros Ht Hn Hw Hid Hpid Hi. pose proof (midway_begin _ _ _ _ Ht Hn Hi) as Hm.
  assert (midway t (th_process h) n none y) as Hm0.
  { eapply midway_dir; [|exact Hm]. intros o. unfold waits_for. by rewrite Hw. }
  unfold trap, y_enter. set (f := fun h => th_set_time _ h). destruct (midway_upd _ _ _ _ _ f Hm0) as [Hm1 Hw1]; [done|].
  assert (y_threads (upd_thread t f y) !! t = Some (f h)) as Ht1 by (simpl; by rewrite lookup_alter_eq, Ht).
  assert (y_threads (upd_thread t f y) !! as_u32 id = None) as Hid1.
  { simpl. rewrite lookup_alter_ne; [done|]. intros ->. congruence. }
  assert (k_pdata (y_k (upd_thread t f y)) !! as_u32 id = None) as Hpid1 by done.
  set (y1 := upd_thread t f y) in *. clearbody y1. rewrite Ht1. simpl.
  assert (forall r y2, fair t (th_process h) none y1 (r, y2) -> settle t r y2 = Some y' ->
    machine_inv y' /\ isolated n (y_k y) (y_k y')) as Hgo.
  { intros r y2 Hf Hy. destruct (settle_inv _ _ _ _ _ _ _ _ Hm1 Hf Hy) as [Hi' Hs]. split; [done|]. etrans; [apply Hw1|exact Hs]. }
  destruct (decode _ _ _) as [c|]; [|apply (Hgo (Done (Err ENOSYS)) y1), fair_done].
  destruct (exec fuel id t c y1) as [[r y2]|] eqn:Ex; [|done]. simpl. apply Hgo.
  by apply (exec_fair _ _ _ _ _ _ _ Ht1 Hid1 Hpid1 Ex).
Qed.

Lemma fault_inv t vaddr flags y y' h n : y_threads y !! t = Some h -> names_at (y_k y) (th_process h) = Some n -> th_wait h = None ->
  machine_inv y -> fault t vaddr flags y = Some y' -> machine_inv y' /\ isolated n (y_k y) (y_k y').
Proof.
  intros Ht Hn Hw Hi. pose proof (midway_begin _ _ _ _ Ht Hn Hi) as Hm. unfold fault. rewrite Ht. simpl.
  pose proof (midway_ytame _ _ _ _ _ _ Hm (ytame_quiet t _ _ y (quiet_fault e_page_fault _ vaddr flags (y_k y)))) as Hd.
  assert (y_threads (snd (on_kernel (resolve_fault e_page_fault (th_process h) vaddr flags) y)) !! t = Some h) as Hh.
  { unfold on_kernel, on_c. by destruct (on_k _ _). }
  destruct (on_kernel _ y) as [[[|]|e|] y1]; [..|done|done]; simpl in *; (destruct Hd as [Hm1 Hw1]; [done|]).
  - intros Hy. destruct (post_trap_inv t (th_process h) n h y1 y') as [Hi' Hs]; [|done..|].
    + eapply midway_dir; [|exact Hm1]. intros o. unfold waits_for. by rewrite Hw.
    + split; [done|]. etrans; [apply Hw1|exact Hs].
  - pose proof (begin_exit_fair t (th_process h) SIGSEGV true y1) as Hf. destruct (begin_exit _ _ _ _ _) as [r y2].
    intros Hy. destruct (settle_inv t (th_process h) n none r y1 y2 y') as [Hi' Hs]; [|done..|].
    + eapply midway_dir; [|exact Hm1]. intros o. unfold waits_for. by rewrite Hw.
    + split; [done|]. etrans; [apply Hw1|exact Hs].
Qed.

Lemma task_start_isolated n (task : Task UC) (k : K) : task_root task = n.1.1 -> isolated n k (task_start task k).
Proof.
  intros Hr. unfold task_start. destruct (task_set_child_tid task) as [a|]; [|done]. split; simpl; try done.
  - intros b _ Hb. by rewrite lookup_alter_ne by congruence.
  - split; [|done]. rewrite Hr, lookup_alter_eq. by destruct (k_spaces k !! n.1.1); intros [x Hx].
Qed.

Lemma resume_inv t y y' h n : y_threads y !! t = Some h -> names_at (y_k y) (th_process h) = Some n ->
  machine_inv y -> resume t y = Some y' -> machine_inv y' /\ isolated n (y_k y) (y_k y').
Proof.
  intros Ht Hn Hi. pose proof (midway_begin _ _ _ _ Ht Hn Hi) as Hm. unfold resume. rewrite Ht. simpl.
  destruct (th_wait h) as [q|] eqn:Ew; [|done]. simpl.
  assert (match q with PStart task => task_root task = n.1.1 | _ => sound_wait q end) as Hsound.
  { destruct Hi as [_ Hh]. destruct (Hh t h Ht) as (n' & Hn' & Hr). specialize (Hr q Ew). by replace n with n' by congruence. }
  assert (midway t (th_process h) n (holds q) y) as Hm0.
  { eapply midway_dir; [|exact Hm]. intros o. unfold waits_for. by rewrite Ew. }
  assert (sound_wait q -> forall r y1, turn t h q y = (r, y1) -> settle t r y1 = Some y' ->
    machine_inv y' /\ isolated n (y_k y) (y_k y')) as Hgo.
  { intros Hq r y1 Eq. eapply settle_inv; [exact Hm0|]. rewrite <- Eq. by apply turn_fair. }
  destruct q as [task| | | | | | | |];
    try (destruct (turn t h _ y) as [r y1]; by apply Hgo).
  simpl. intros [= <-]. assert (ytame t (th_process h) (modify (fun y => set_k (task_start task (y_k y)) y)) y) as Hy.
  { apply ytame_light; [done|by unfold modify, task_start; simpl; destruct (task_set_child_tid task)|].
    intros n' Hn'. apply within_same; [done|]. simpl. apply task_start_isolated. rewrite Hsound. congruence. }
  destruct (midway_ytame _ _ _ _ _ _ Hm0 Hy) as [Hm1 Hw1]; [done|].
  destruct (midway_upd _ _ _ _ _ (th_set_wait None) Hm1) as [Hm2 Hw2]; [done|]. split.
  - eapply midway_end; [exact Hm2|simpl; by rewrite lookup_alter_eq, Ht|done..].
  - etrans; [apply Hw1|apply Hw2].
Qed.

(** Every step keeps the invariant, and stays in the namespace of its thread. *)
Lemma step_inv t y y' : machine_inv y -> step t y y' -> machine_inv y' /\
  forall h n, y_threads y !! t = Some h -> names_at (y_k y) (th_process h) = Some n -> isolated n (y_k y) (y_k y').
Proof.
  intros Hi Hs.
  assert (forall h, y_threads y !! t = Some h ->
    (forall n, names_at (y_k y) (th_process h) = Some n -> machine_inv y' /\ isolated n (y_k y) (y_k y')) ->
    machine_inv y' /\
    forall h n, y_threads y !! t = Some h -> names_at (y_k y) (th_process h) = Some n -> isolated n (y_k y) (y_k y')) as Hgo.
  { intros h Ht Hall. destruct (proj2 Hi t h Ht) as (n & Hn & _). split; [by eapply Hall|].
    intros h' n' Ht' Hn'. rewrite Ht in Ht'. injection Ht' as <-. by apply Hall. }
  destruct Hs as [m tf y' (h & Ht & Hw) Hy|fuel id num y' (h & Ht & Hw) Hid Hp Hy|vaddr flags y' (h & Ht & Hw) Hy|y' Hy|wall mono con socks].
  - apply (Hgo h Ht). intros n Hn. by eapply compute_inv.
  - apply (Hgo h Ht). intros n Hn. by eapply machine_trap_inv.
  - apply (Hgo h Ht). intros n Hn. by eapply fault_inv.
  - destruct (y_threads y !! t) as [h|] eqn:Ht; [|by unfold resume in Hy; rewrite Ht in Hy].
    apply (Hgo h eq_refl). intros n Hn. by eapply resume_inv.
  - split; [exact Hi|]. done.
Qed.

Lemma run_inv y y' : machine_inv y -> rtc machine_step y y' -> machine_inv y'.
Proof. intros Hi Hr. induction Hr as [|y1 y2 y3 [t Hs] _ IH]; [done|]. by apply IH, (step_inv t y1 y2). Qed.

(** ** What runs keep *)

(** The objects of a machine in order: the strong count of each is the number of
    descriptors of all tables that name it and of threads that wait in a transfer
    on it; it is positive; an open file or directory has its handle and a pipe its
    well-formed ring; and what a
    descriptor or a waiting thread names is there. *)
Definition objects_in_order (y : Y) : Prop := forall o,
  let named := (all_refs (fd_table (k_files (y_k y))) o + held (y_threads y) o)%nat in
  match heap (k_files (y_k y)) !! o with
  | Some c => cell_strong c = named /\ (0 < cell_strong c)%nat /\
      match cell_kind c with
      | KFile _ => is_Some (h_files (g_handles (y_dev y)) !! o)
      | KDirectory _ => is_Some (h_dirs (g_handles (y_dev y)) !! o)
      | KPipe r _ => exists sh, rings (k_files (y_k y)) !! r = Some sh /\ ring_wf (ring sh)
      | KSocket => False
      | KStdin | KStdout => True
      end
  | None => named = 0%nat
  end.

Lemma inv_in_order y : machine_inv y -> objects_in_order y.
Proof.
  intros [[Hf Hh] _] o. pose proof (fun c r b => inv_pipe _ _ o c r b Hf) as Hp. destruct Hf as [Hs Hl _ _].
  specialize (Hs o). specialize (Hl o). specialize (Hh o). simpl in *. rewrite refs_new in Hs.
  destruct (heap (k_files (y_k y)) !! o) as [c|]; simpl in *; [|done]. specialize (Hh c eq_refl).
  split_and!; [done|by apply Hl|]. specialize (Hp c). destruct (cell_kind c); eauto.
Qed.

(** C1: through every interleaving of the system calls, faults, waits and exits of
    all threads of all processes, the objects behind the descriptors stay in
    order: no count is lost or left over, so that no object is freed while a
    descriptor or a transfer under way names it, and none outlives the last. *)
Theorem machine_keeps_objects y y' : machine_inv y -> rtc machine_step y y' -> objects_in_order y'.
Proof. intros Hi Hr. by eapply inv_in_order, run_inv. Qed.

(** C2: a step of one thread, whatever it does, leaves alone the memory, the
    descriptor table and the working directory of every process that does not
    share them with the thread's own, and the namespaces of all processes. *)
Theorem syscall_isolation t y y' h d q dq : machine_inv y -> step t y y' ->
  y_threads y !! t = Some h -> k_pdata (y_k y) !! th_process h = Some d -> k_pdata (y_k y) !! q = Some dq ->
  names_at (y_k y') q = Some (names dq) /\
  (forall u, aspace dq <> aspace d -> k_spaces (y_k y) !! aspace dq = Some u -> k_spaces (y_k y') !! aspace dq = Some u) /\
  (forall tb, ns_fd_table dq <> ns_fd_table d -> fd_table (k_files (y_k y)) !! ns_fd_table dq = Some tb ->
     fd_table (k_files (y_k y')) !! ns_fd_table dq = Some tb) /\
  (forall cw, ns_cwd dq <> ns_cwd d -> k_cwds (y_k y) !! ns_cwd dq = Some cw -> k_cwds (y_k y') !! ns_cwd dq = Some cw).
Proof.
  intros Hi Hs Ht Hd Hq. destruct (step_inv t y y' Hi Hs) as [_ Hiso].
  destruct (Hiso h (names d) Ht) as [Hn Hsp Htb Hcw _]; [unfold names_at; by rewrite Hd|]. split_and!.
  - rewrite Hn by eauto. unfold names_at. by rewrite Hq.
  - intros u Hne Hu. rewrite Hsp; eauto.
  - intros tb Hne Hu. rewrite Htb; eauto.
  - intros cw Hne Hu. rewrite Hcw; eauto.
Qed.

(** A step by a thread that has no business with the resources [n]. *)
Definition foreign (n : nat * nat * nat) (y y' : Y) : Prop := exists t h d,
  step t y y' /\ y_threads y !! t = Some h /\ k_pdata (y_k y) !! th_process h = Some d /\
  aspace d <> n.1.1 /\ ns_fd_table d <> n.1.2 /\ ns_cwd d <> n.2.

(** C3: however long other processes run, a process finds its memory, its
    descriptors and its directory as it left them, unless it shares them. *)
Theorem private_process y y' q d u tb cw : machine_inv y -> k_pdata (y_k y) !! q = Some d ->
  k_spaces (y_k y) !! aspace d = Some u -> fd_table (k_files (y_k y)) !! ns_fd_table d = Some tb ->
  k_cwds (y_k y) !! ns_cwd d = Some cw -> rtc (foreign (names d)) y y' ->
  machine_inv y' /\ names_at (y_k y') q = Some (names d) /\ k_spaces (y_k y') !! aspace d = Some u /\
  fd_table (k_files (y_k y')) !! ns_fd_table d = Some tb /\ k_cwds (y_k y') !! ns_cwd d = Some cw.
Proof.
  intros Hi Hd Hu Ht Hc Hr.
  assert (names_at (y_k y) q = Some (names d)) as Hn by (unfold names_at; by rewrite Hd). clear Hd.
  induction Hr as [|y1 y2 y3 (t & h & dt & Hs & Hh & Hdt & Ha & Hb & Hw) _ IH]; [done|].
  destruct (step_inv t y1 y2 Hi Hs) as [Hi2 Hiso].
  destruct (Hiso h (names dt) Hh) as [Hnm Hsp Htb Hcw _]; [unfold names_at; by rewrite Hdt|]. simpl in *.
  apply IH; [done|rewrite Hsp; eauto|rewrite Htb; eauto|rewrite Hcw; eauto|rewrite Hnm; [done|]].
  unfold names_at in Hn. by destruct (k_pdata (y_k y1) !! q).
Qed.

(** Every call has its handler. *)
Lemma exec_total fuel id p t h c :
  (exists m : Y -> result UC * Y, exec_files p c = Some m) \/ (exists m : Y -> result UC * Y, exec_signals p t h c = Some m) \/
  (exists m : Y -> option (result UC * Y), exec_tasks fuel id p t h c = Some m).
Proof.
  unfold exec_files. destruct (run_fs c) eqn:Er; [left; eauto|].
  destruct c; try discriminate; simpl; try destruct e_child_tid_first; eauto.
Qed.
End Run.
