(* ===== verification/MachineIo.v ===== *)
(** * When a transfer brings the kernel down

    Reading and writing on the machine: the lookups, the indexing of the ring buffer
    and the downcasts of [api/src/file] never fail, whatever descriptor a program
    passes and however its transfers are interleaved with those of others.  What is
    left is the check of the user's slice, and the user's memory after a wait. *)

From stdpp Require Import base list gmap option relations.
From Stdlib Require Import ZArith Lia.
From S2P Require Import Prelude Text Bytes AddrSpace Ptr.
From S2P Require Import Pipe TimeStat TimeConv FdTable Path Mount.
From S2P Require Import Dirent Futex Io Mmap Process Clone Signal.
From S2P Require Import Loader Files Open Syscall Entry.
From S2P Require Import Machine MachineInv MachineRun.
Import ListNotations.

#[local] Existing Instance u8_pod.

(** ** One turn *)

Section Turns.
Context {T AS CW DK FH DH CON BR U V ADDR : Type} `{FlattenObjectsOk T nat} `{AxFs (DK * CW)} `{AxOpen (DK * CW) FH DH}
  `{AxFops DK FH} `{Console CON} `{AxNet U V ADDR} `{ErrorConv, MemoryAddrOk, MappingFlags} `{AddrSpaceOk AS} `{!AddrSpaceMapped AS} `{OpenFlags}.
Context (br_read : (nat -> CON -> list Z * CON) -> nat -> BR * CON -> (AxError + list Z) * (BR * CON)) (UC : Type).
Abbreviation Dev := (Devices DK FH DH CON BR U V).
Abbreviation Local := ((FdState T * CW * UState AS) * Dev)%type.
Abbreviation FSys := (FdState T * World CON BR U V DK FH)%type.
Abbreviation IoM := (M Local LinuxError (Z + pending UC)).

Lemma ax_ok_answers {A} (r : AxError + A) : ax_ok r <> Panic.
Proof. by destruct r. Qed.
#[local] Hint Resolve ax_ok_answers : vegar.

(** An object that has its handle or its ring answers. *)
Lemma read_turn_answers o buf (s : FSys) ext (hs : gmap nat DH) :
  fsys_inv ext hs s -> heap s.1 !! o <> None ->
  exists a s', read_turn br_read o buf s = Some (a, s') /\ forall r b, a = Some (r, b) -> r <> Panic.
Proof.
  intros [Hi Hh] Ho. unfold read_turn, filelike_read, File_read, Directory_read, Pipe_read, Stdout_read.
  destruct (heap s.1 !! o) as [[k n]|] eqn:Ec; [|done]. clear Ho. specialize (Hh o _ Ec).
  pose proof (fun r b => inv_pipe _ _ o _ r b Hi Ec) as Hp. simpl in *. destruct k as [p|p|r [|]| | |]; simpl in *.
  - destruct Hh as [h ->]. simpl. destruct (fops_read _ _ _) as [[r1 b1] [h1 d1]]. do 2 eexists. split; [done|].
    intros r b [= <- _]. auto with vegar.
  - do 2 eexists. split; [done|]. by intros r b [= <- _].
  - case_bool_decide as Hb; [do 2 eexists; split; [done|]; by intros ? ? [= <- _]|].
    destruct (Hp r true eq_refl) as (sh & -> & Hw). simpl. destruct (read_iter_refines sh buf Hw) as (sh' & -> & _). simpl.
    destruct (fst (spec_read _ _ _)) as [[m b]|]; do 2 eexists; (split; [done|]); [by intros ? ? [= <- _]|done].
  - do 2 eexists. split; [done|]. by intros ? ? [= <- _].
  - destruct (stdin_locked _ _ _) as [[e|bs] s1]; [do 2 eexists; split; [done|]; by intros ? ? [= <- _]|].
    destruct (_ || _); do 2 eexists; (split; [done|]); [by intros ? ? [= <- _]|done].
  - do 2 eexists. split; [done|]. by intros r b [= <- _].
  - done.
Qed.

Lemma write_turn_answers o buf w (s : FSys) ext (hs : gmap nat DH) :
  fsys_inv ext hs s -> heap s.1 !! o <> None -> (default 0 w <= length buf)%nat ->
  exists a s', write_turn o buf w s = Some (a, s') /\ a <> inl Panic.
Proof.
  intros [Hi Hh] Ho Hw. unfold write_turn, filelike_write, File_write, Directory_write, Pipe_write, Stdin_write, Stdout_write.
  destruct (heap s.1 !! o) as [[k n]|] eqn:Ec; [|done]. clear Ho. specialize (Hh o _ Ec).
  pose proof (fun r b => inv_pipe _ _ o _ r b Hi Ec) as Hp. simpl in *. destruct k as [p|p|r [|]| | |]; simpl in *.
  - destruct Hh as [h ->]. simpl. destruct (fops_write _ _ _) as [r1 [h1 d1]]. do 2 eexists. split; [done|].
    intros [= E]. by apply ax_ok_answers in E.
  - by do 2 eexists.
  - by do 2 eexists.
  - destruct (Hp r false eq_refl) as (sh & -> & Hwf). simpl.
    destruct (write_iter_refines sh buf (default 0%nat w) Hwf Hw) as (sh' & -> & _). simpl.
    case_bool_decide as Hn; simpl; [|by destruct (fst (spec_write _ _ _ _)); do 2 eexists].
    destruct (closed sh); simpl; [by do 2 eexists|]. case_bool_decide; simpl; [by do 2 eexists|].
    by destruct (fst (spec_write _ _ _ _)); do 2 eexists.
  - by do 2 eexists.
  - by do 2 eexists.
  - done.
Qed.

(** What a turn would access but the page tables do not have: the bytes that a read
    has for its caller, and those that a write takes from it. *)
Definition read_unmapped (o : nat) (b : Z * Z) (u : UState AS) (s : FSys) : Prop :=
  exists n bs s', read_turn br_read o (mem_read (us_mem u) b.1 (Z.to_nat b.2)) s = Some (Some (Ok n, bs), s') /\
    touches u b.1 (Z.min n b.2) MF_WRITE = false.
Definition write_unmapped (o : nat) (b : Z * Z) (w : option nat) (u : UState AS) (s : FSys) : Prop :=
  let from := Z.of_nat (default 0%nat w) in
  exists a s' n, write_turn o (mem_read (us_mem u) b.1 (Z.to_nat b.2)) w s = Some (a, s') /\
    (a = inr n \/ exists m, a = inl (Ok m) /\ Z.of_nat n = Z.max 0 (Z.min m b.2)) /\
    touches u (b.1 + from) (Z.of_nat n - from) MF_READ = false.

Lemma touches_max u a m from : 0 <= from -> touches u a (Z.max 0 m - from) MF_READ = touches u a (m - from) MF_READ.
Proof.
  intros. unfold touches. destruct (Z.max_spec 0 m) as [[? ->]|[? ->]]; [done|].
  destruct (Z.leb_spec (0 - from) 0); [|lia]. destruct (Z.leb_spec (m - from) 0); [done|lia].
Qed.

(** A turn panics exactly on such bytes. *)
Lemma read_step_panics o b rest (s : Local) ext :
  local_inv (bump o ext) s ->
  fst (read_step br_read UC o b rest s) = Panic <-> read_unmapped o b s.1.2 (s.1.1.1, world s.2).
Proof.
  destruct s as [[[f cw] u] g]. intros Hl. pose proof (held_alive f o ext (proj1 Hl)) as Ho.
  unfold read_step, read_unmapped. cbn [fst snd].
  destruct (read_turn_answers o (mem_read (us_mem u) b.1 (Z.to_nat b.2)) _ _ _ (world_fsys f cw u g _ Hl) Ho)
    as (a & [f' w] & -> & Ha). destruct a as [[r bs]|]; [|split; [done|by intros (? & ? & ? & [=] & _)]].
  specialize (Ha r bs eq_refl). destruct r as [n|e|]; [|split; [done|by intros (? & ? & ? & [=] & _)]|done].
  destruct (touches u b.1 (Z.min n b.2) MF_WRITE) eqn:E.
  - split; [done|]. intros (? & ? & ? & Hq & Ht). simplify_eq. congruence.
  - split; [eauto 6|done].
Qed.
Lemma write_step_panics o b w rest (s : Local) ext :
  local_inv (bump o ext) s -> (default 0 w <= Z.to_nat b.2)%nat ->
  fst (write_step UC o b w rest s) = Panic <-> write_unmapped o b w s.1.2 (s.1.1.1, world s.2).
Proof.
  destruct s as [[[f cw] u] g]. intros Hl Hn. pose proof (held_alive f o ext (proj1 Hl)) as Ho.
  unfold write_step, write_unmapped. cbn [fst snd].
  destruct (write_turn_answers o (mem_read (us_mem u) b.1 (Z.to_nat b.2)) w _ _ _ (world_fsys f cw u g _ Hl) Ho)
    as (a & [f' x] & -> & Ha); [by rewrite mem_read_length|]. destruct a as [r|k].
  - destruct r as [m|e|]; [| |done].
    2: { split; [done|]. by intros (? & ? & ? & [= <- <-] & [[=]|(? & [=] & _)] & _). }
    rewrite <- touches_max by lia.
    assert (exists k, Z.of_nat k = Z.max 0 (Z.min m b.2)) as [k Hk] by (exists (Z.to_nat (Z.max 0 (Z.min m b.2))); lia).
    destruct (touches _ _ _ _) eqn:E; split; try done.
    + intros (? & ? & n & [= <- <-] & [[=]|(? & [= <-] & Hn')] & Ht). rewrite Hn' in Ht. congruence.
    + intros _. eexists _, _, k. split; [reflexivity|]. split; [right; by eexists|]. by rewrite Hk.
  - destruct (touches _ _ _ _) eqn:E; split; try done.
    + intros (? & ? & n & [= <- <-] & [[= <-]|(? & [=] & _)] & Ht). congruence.
    + intros _. eexists _, _, k. split; [reflexivity|]. by split; [left|].
Qed.

(** On a slice that is mapped no turn finds such bytes. *)
Lemma read_mapped o b (u : UState AS) (s : FSys) :
  (forall a n, b.1 <= a -> 0 < n -> a + n <= b.1 + b.2 -> as_present (us_aspace u) (a, a + n) MF_WRITE = true) ->
  ~ read_unmapped o b u s.
Proof.
  intros Hp (n & bs & s' & _ & Ht). unfold touches in Ht. apply orb_false_iff in Ht as [E1%Z.leb_gt E2].
  rewrite Hp in E2; [done|lia..].
Qed.
Lemma write_mapped o b w (u : UState AS) (s : FSys) :
  (default 0 w <= Z.to_nat b.2)%nat ->
  (forall a n, b.1 <= a -> 0 < n -> a + n <= b.1 + b.2 -> as_present (us_aspace u) (a, a + n) MF_READ = true) ->
  ~ write_unmapped o b w u s.
Proof.
  intros Hw Hp (x & s' & n & Ex & Hx & Ht). unfold touches in Ht. apply orb_false_iff in Ht as [E1%Z.leb_gt E2].
  rewrite Hp in E2; [done|lia..|]. destruct Hx as [->|(m & -> & Hm)]; [|lia].
  apply write_turn_bound in Ex; rewrite mem_read_length in *; lia.
Qed.

(** *** Whole calls *)

Lemma then_answers next b (m : IoM) s : fst ((r ← m; io_then UC next b IoEnd r) s) = Panic <-> fst (m s) = Panic.
Proof. unfold_M. by destruct (m s) as [[[n|q]|e|] s1]. Qed.

(** The descriptor is looked up, and the object is held; nothing else changes. *)
Lemma lookup_answers fd (k : nat -> IoM) (f : FdState T) (cw : CW) (u : UState AS) (g : Dev) ext :
  local_inv ext ((f, cw, u), g) ->
  (forall o f', local_inv (bump o ext) ((f', cw, u), g) -> fst (k o ((f', cw, u), g)) <> Panic) ->
  fst ((o ← on_table (get_file_like fd); k o) ((f, cw, u), g)) <> Panic.
Proof.
  intros [Hi Hh] Hk. unfold on_table. unfold_M.
  pose proof (get_file_keeps fd f ext (g_handles g) Hi Hh) as Hg. unfold get_file_like in *.
  destruct (fo_get _ _) as [o|]; [|done]. by apply Hk.
Qed.

(** After a successful check of the slice, a transfer answers. *)
Lemma slice_then (sl : M AS LinuxError (Z * Z)) (k : Z * Z -> IoM) (f : FdState T) (cw : CW) (u : UState AS) (g : Dev) :
  (forall b a', sl (us_aspace u) = (Ok b, a') -> fst (k b ((f, cw, mkUState a' (us_mem u)), g)) <> Panic) ->
  fst ((b ← on_user (on_aspace sl); k b) ((f, cw, u), g)) = Panic <-> fst (sl (us_aspace u)) = Panic.
Proof.
  intros Hk. unfold on_user, on_aspace. unfold_M. destruct (sl (us_aspace u)) as [[b|e|] a'] eqn:E; simpl; [|done..].
  split; [|done]. intros E'. exfalso. by eapply Hk in E'.
Qed.

Lemma do_read_panics fd buf len (s : Local) ext : is_usize buf -> local_inv ext s ->
  fst (do_read br_read UC fd buf len s) = Panic <-> fst (get_as_mut_slice Z buf len (us_aspace s.1.2)) = Panic.
Proof.
  destruct s as [[[f cw] u] g]. intros Hb Hl. apply slice_then. intros b a' Es.
  destruct (mut_slice_present buf len _ a' b Hb Es) as [-> Hp]. eapply lookup_answers; [exact Hl|].
  intros o f' Hx E. apply then_answers in E. apply (read_step_panics o (buf, len) IoEnd _ ext Hx) in E.
  by apply read_mapped in E.
Qed.
Lemma do_write_panics fd buf len (s : Local) ext : is_usize buf -> local_inv ext s ->
  fst (do_write UC fd buf len s) = Panic <-> fst (get_as_slice Z buf len (us_aspace s.1.2)) = Panic.
Proof.
  destruct s as [[[f cw] u] g]. intros Hb Hl. apply slice_then. intros b a' Es.
  destruct (slice_present buf len _ a' b Hb Es) as [-> Hp]. eapply lookup_answers; [exact Hl|].
  intros o f' Hx E. apply then_answers in E.
  apply (write_step_panics o (buf, len) None IoEnd _ ext Hx) in E; [|simpl; lia]. apply write_mapped in E; [done|simpl; lia|exact Hp].
Qed.
Lemma resume_read_panics o b (s : Local) ext : local_inv (bump o ext) s ->
  fst (resume_read br_read UC o b IoEnd s) = Panic <-> read_unmapped o b s.1.2 (s.1.1.1, world s.2).
Proof. intros Hl. unfold resume_read. rewrite then_answers. by eapply read_step_panics. Qed.
Lemma resume_write_panics o b n (s : Local) ext : local_inv (bump o ext) s -> (n <= Z.to_nat b.2)%nat ->
  fst (resume_write UC o b n IoEnd s) = Panic <-> write_unmapped o b (Some n) s.1.2 (s.1.1.1, world s.2).
Proof. intros Hl Hn. unfold resume_write. rewrite then_answers. by eapply write_step_panics. Qed.
End Turns.

(** ** On the machine *)

Section OnMachine.
Context {PS T AS WQ SG SA SI CW W UC TF ACT KSA SS DK FH DH CON BR U V ADDR E L X : Type}.
Abbreviation K := (KState PS T AS WQ SG SA CW).
Abbreviation Y := (Machine PS T AS WQ SG SA CW W UC TF DK FH DH CON BR U V).
Context `{AxProcess PS} `{FlattenObjectsOk T nat} `{WaitQueue WQ} `{AxSignal SG SA SI}
  `{ErrorConv, MemoryAddrOk, MappingFlags} `{AddrSpaceOk AS} `{!AddrSpaceMapped AS} `{AddrSpaceClone AS} `{AddrSpaceLoad AS} `{WeakMap W}
  `{UserContext TF UC} `{CloneConsts} `{WaitConsts} `{SignalManager SG SA SI ACT KSA SS TF} `{SignalConsts}
  `{Pod KSA, Pod SS, Pod SI} `{AxFs (DK * CW)} `{AxOpen (DK * CW) FH DH} `{AxFops DK FH} `{Console CON}
  `{AxNet U V ADDR} `{OpenFlags} `{FileModes} `{Pod stat, Pod statx} `{CallConsts} `{DirTypes} `{MmapConsts}
  `{Elf E L X} `{FileStore (DK * CW)} `{LoadConfig} `{KernelConsts} `{KernelEnv PS K WQ AS UC TF DK FH DH CON BR}.
Implicit Types (y : Y) (t p : Z).

(** The panic of a transfer is that of the handler on the caller's resources. *)
Lemma io_panics p d tb cw u y (m : M ((FdState T * CW * UState AS) * Devices DK FH DH CON BR U V) LinuxError (Z + pending UC)) :
  local_of p y = Some (d, tb, cw, u) ->
  (may_wait (r ← on_process p m; mret (io_result r)) y).1 = Done Panic <->
  fst (m (view tb (k_files (y_k y)), cw, u, y_dev y)) = Panic.
Proof.
  intros Hl. unfold may_wait. unfold_M. unfold on_process. rewrite Hl.
  by destruct (m _) as [[[n|q]|e|] s].
Qed.

Lemma holder_view t h p d tb cw u y o :
  machine_inv y -> y_threads y !! t = Some h -> local_of p y = Some (d, tb, cw, u) ->
  (forall x, waits_for h x = if decide (x = o) then 1 else 0)%nat ->
  exists ext, local_inv (bump o ext) (view tb (k_files (y_k y)), cw, u, y_dev y).
Proof.
  intros [Hi _] Ht Hl Hw. pose proof (local_view _ _ _ _ _ _ _ Hl Hi) as Hv.
  exists (others (k_files (y_k y)) (ns_fd_table d) (held (delete t (y_threads y)))).
  eapply local_ext; [|exact Hv]. intros x. unfold others. rewrite bump_holds, (held_delete _ _ _ _ Ht), Hw. lia.
Qed.

(** C4: when a transfer panics the kernel.  A call of [read] or [write], whatever
    its descriptor, address and length, panics exactly when the check of the user's
    slice does (a length above [isize::MAX], or a slice beyond the end of the address
    space).  A transfer that had to wait in a pipe or at the console, in every state
    that a run can reach and whatever others did to the object meanwhile, panics when it
    goes on exactly if it has bytes to move at that moment and these are not in the
    page tables any more: a thread or process that shares the memory can unmap them
    during the wait, and a fault of the kernel is not served.  Nothing else panics:
    no object that a descriptor or a waiting transfer names is missing its file, its
    ring or its handle, and the ring buffer is never indexed out of range. *)
Theorem transfers_panic_exactly fuel id t h d tb cw u fd buf len y :
  machine_inv y -> y_threads y !! t = Some h -> local_of (th_process h) y = Some (d, tb, cw, u) -> is_usize buf ->
  (fst <$> exec fuel id t (C_read fd buf len) y = Some (Done Panic) <->
   fst (get_as_mut_slice Z buf len (us_aspace u)) = Panic) /\
  (fst <$> exec fuel id t (C_write fd buf len) y = Some (Done Panic) <->
   fst (get_as_slice Z buf len (us_aspace u)) = Panic) /\
  (forall o b, th_wait h = Some (PRead o b IoEnd) ->
   (turn t h (PRead o b IoEnd) y).1 = Done Panic <->
   read_unmapped e_br_read o b u (view tb (k_files (y_k y)), world (y_dev y))) /\
  (forall o b n, th_wait h = Some (PWrite o b n IoEnd) ->
   (turn t h (PWrite o b n IoEnd) y).1 = Done Panic <->
   write_unmapped o b (Some n) u (view tb (k_files (y_k y)), world (y_dev y))).
Proof.
  intros Hi Ht Hl Hb. pose proof (local_view _ _ _ _ _ _ _ Hl (proj1 Hi)) as Hv. split_and!.
  - unfold exec. rewrite Ht. cbn [exec_files run_fs fmap option_fmap option_map].
    rewrite <- (do_read_panics e_br_read UC fd buf len _ _ Hb Hv), <- (io_panics _ _ _ _ _ _ _ Hl). split; congruence.
  - unfold exec. rewrite Ht. cbn [exec_files run_fs fmap option_fmap option_map].
    rewrite <- (do_write_panics UC fd buf len _ _ Hb Hv), <- (io_panics _ _ _ _ _ _ _ Hl). split; congruence.
  - intros o b Hw. destruct (holder_view t h _ _ _ _ _ y o Hi Ht Hl) as [ext Hx]; [intros x; unfold waits_for; by rewrite Hw|].
    cbn [turn]. rewrite (io_panics _ _ _ _ _ _ _ Hl). by eapply resume_read_panics.
  - intros o b n Hw. destruct (holder_view t h _ _ _ _ _ y o Hi Ht Hl) as [ext Hx]; [intros x; unfold waits_for; by rewrite Hw|].
    destruct Hi as [_ Hh]. destruct (Hh t h Ht) as (m & _ & Hs). specialize (Hs _ Hw).
    cbn [turn]. rewrite (io_panics _ _ _ _ _ _ _ Hl). by eapply resume_write_panics.
Qed.
End OnMachine.
