(* ===== verification/MachinePipe.v ===== *)
(** * A pipe between two processes

    The components on one path: the descriptor table of the writer, the ring buffer,
    the wait of the reader inside its call, and the memory of both processes.  What
    one process writes, another that waits at the other end of the pipe finds in its
    memory when it runs again. *)

From stdpp Require Import base list gmap option relations.
From Stdlib Require Import ZArith Lia.
From S2P Require Import Prelude Text Bytes AddrSpace Ptr.
From S2P Require Import Pipe TimeStat TimeConv FdTable Path Mount.
From S2P Require Import Dirent Futex Io Mmap Process Clone Signal.
From S2P Require Import Loader Files Open Syscall Entry.
From S2P Require Import Machine MachineInv MachineRun MachineIo.
Import ListNotations.

#[local] Existing Instance u8_pod.

Section Steps.
Context {T AS CW DK FH DH CON BR U V ADDR : Type} `{FlattenObjectsOk T nat} `{AxFs (DK * CW)} `{AxOpen (DK * CW) FH DH}
  `{AxFops DK FH} `{Console CON} `{AxNet U V ADDR} `{ErrorConv, MemoryAddrOk, MappingFlags} `{AddrSpaceOk AS} `{!AddrSpaceMapped AS} `{OpenFlags}.
Context (br_read : (nat -> CON -> list Z * CON) -> nat -> BR * CON -> (AxError + list Z) * (BR * CON)) (UC : Type).
Abbreviation Dev := (Devices DK FH DH CON BR U V).
Implicit Types (f : FdState T) (cw : CW) (u : UState AS) (g : Dev).

Definition with_ring (r : nat) (sh : SharedRing) f : FdState T :=
  mkFd (fd_table f) (heap f) (<[r := sh]> (rings f)) (nonblocking f).

Lemma same_world g : set_world (world g) g = g.
Proof. by destruct g as [l dk [hf hd] la m i c k]. Qed.

(** A write that fits is done in one turn. *)
Lemma write_step_pipe o b rest f cw u g r n sh :
  heap f !! o = Some (mkCell (KPipe r false) n) -> rings f !! r = Some sh -> ring_wf (ring sh) -> closed sh = false ->
  (0 < Z.to_nat b.2)%nat -> (length (contents (ring sh)) + Z.to_nat b.2 < RING_BUFFER_SIZE)%nat ->
  as_present (us_aspace u) (b.1, b.1 + b.2) MF_READ = true ->
  exists sh', write_step UC o b None rest ((f, cw, u), g) =
      (Ok (inl (Z.of_nat (Z.to_nat b.2))), ((arc_drop o (with_ring r sh' f), cw, u), g)) /\
    ring_wf (ring sh') /\ strong_count sh' = strong_count sh /\
    contents (ring sh') = contents (ring sh) ++ mem_read (us_mem u) b.1 (Z.to_nat b.2).
Proof.
  intros Ho Hr Hw Hc Hb Hl Hp. set (bs := mem_read (us_mem u) b.1 (Z.to_nat b.2)).
  assert (length bs = Z.to_nat b.2) as Hbs by apply mem_read_length.
  destruct (write_iter_refines sh bs 0 Hw ltac:(lia)) as (sh' & E & Hw' & Hs & Hq). unfold spec_write in E, Hq.
  destruct (Nat.eqb_spec (RING_BUFFER_SIZE - length (contents (ring sh))) 0); [lia|].
  rewrite Nat.sub_0_r in E. rewrite drop_0 in Hq.
  destruct (Nat.ltb_spec (length bs) (RING_BUFFER_SIZE - length (contents (ring sh)))); [|lia].
  exists sh'. split; [|split_and!; [done..|]; cbn [snd] in Hq; by rewrite take_ge in Hq by lia].
  unfold write_step, write_turn. fold bs. cbn [fst snd]. rewrite Ho. cbn [mbind option_bind cell_kind]. rewrite Hr.
  cbn [mbind option_bind]. rewrite Hc. rewrite (bool_decide_eq_false_2 (bs = [])) by (intros ->; simpl in Hbs; lia).
  rewrite andb_false_r. cbn [default]. rewrite E. cbn -[touches Z.of_nat Z.min Z.sub Z.add]. unfold touches.
  replace (Z.min (Z.of_nat (length bs)) b.2 - Z.of_nat 0) with b.2 by lia. rewrite Z.add_0_r, Hp, orb_true_r. by rewrite same_world, Hbs.
Qed.

(** A read from a ring that is not empty returns what there is room for. *)
Lemma read_step_pipe o b rest f cw u g r n sh :
  heap f !! o = Some (mkCell (KPipe r true) n) -> rings f !! r = Some sh -> ring_wf (ring sh) ->
  (0 < Z.to_nat b.2)%nat -> contents (ring sh) <> [] ->
  let k := Nat.min (length (contents (ring sh))) (Z.to_nat b.2) in
  as_present (us_aspace u) (b.1, b.1 + Z.of_nat k) MF_WRITE = true ->
  exists sh', read_step br_read UC o b rest ((f, cw, u), g) =
    (Ok (inl (Z.of_nat k)),
     ((arc_drop o (with_ring r sh' f), cw,
       mkUState (us_aspace u) (mem_write (us_mem u) b.1
         (take k (contents (ring sh)) ++ drop k (mem_read (us_mem u) b.1 (Z.to_nat b.2))))), g)).
Proof.
  intros Ho Hr Hw Hb Hq k Hp. set (bs := mem_read (us_mem u) b.1 (Z.to_nat b.2)).
  assert (length bs = Z.to_nat b.2) as Hbs by apply mem_read_length.
  assert (0 < length (contents (ring sh)))%nat as Hq' by (destruct (contents (ring sh)); [done|simpl; lia]).
  destruct (read_iter_refines sh bs Hw) as (sh' & E & _). unfold spec_read in E. rewrite Hbs in E. fold k in E.
  destruct (Nat.eqb_spec k 0); [lia|]. exists sh'.
  unfold read_step, read_turn. fold bs. cbn [fst snd]. rewrite Ho. cbn [mbind option_bind cell_kind].
  rewrite (bool_decide_eq_false_2 (bs = [])) by (intros Eb; rewrite Eb in Hbs; simpl in Hbs; lia).
  rewrite Hr. cbn [mbind option_bind]. rewrite E. cbn -[touches Z.of_nat Z.min]. unfold touches.
  rewrite Z.min_l, Hp, orb_true_r by lia. by rewrite same_world.
Qed.

(** A reference that is taken and given back. *)
Lemma drop_clone o r sh f c : heap f !! o = Some c -> (0 < cell_strong c)%nat ->
  arc_drop o (with_ring r sh (arc_clone o f)) = with_ring r sh f.
Proof.
  intros Ho Hn. unfold arc_drop, arc_clone, with_ring, set_heap. cbn [heap fd_table rings nonblocking].
  rewrite lookup_alter_eq, Ho. cbn [fmap option_fmap option_map cell_strong cell_kind].
  destruct (Nat.eqb_spec (S (cell_strong c)) 1); [lia|]. f_equal. apply map_eq. intros x. destruct (decide (x = o)) as [->|].
  - rewrite lookup_insert_eq, Ho. destruct c. simpl. do 2 f_equal. lia.
  - by rewrite lookup_insert_ne, lookup_alter_ne.
Qed.

Lemma do_write_pipe fd a len as' o f cw u g r n sh :
  fo_get (fd_table f) (as_usize fd) = Some o -> heap f !! o = Some (mkCell (KPipe r false) n) -> (0 < n)%nat ->
  rings f !! r = Some sh -> ring_wf (ring sh) -> closed sh = false ->
  0 < len -> Z.of_nat (length (contents (ring sh))) + len < Z.of_nat RING_BUFFER_SIZE ->
  is_usize a -> get_as_slice Z a len (us_aspace u) = (Ok (a, len), as') ->
  exists sh', do_write UC fd a len ((f, cw, u), g) =
      (Ok (inl len), ((with_ring r sh' f, cw, mkUState as' (us_mem u)), g)) /\
    ring_wf (ring sh') /\ strong_count sh' = strong_count sh /\
    contents (ring sh') = contents (ring sh) ++ mem_read (us_mem u) a (Z.to_nat len).
Proof.
  intros Ho Hc Hn Hr Hw Hcl Hlen Hroom Ha Hs. destruct (slice_present a len _ as' _ Ha Hs) as [_ Hp].
  destruct (write_step_pipe o (a, len) IoEnd (arc_clone o f) cw (mkUState as' (us_mem u)) g r (S n) sh) as (sh' & E & Hsh);
    [|done..|cbn [snd]; lia|cbn [snd]; lia|apply Hp; cbn [fst snd]; lia|].
  { unfold arc_clone, set_heap. cbn [heap]. by rewrite lookup_alter_eq, Hc. }
  exists sh'. split; [|exact Hsh]. unfold do_write. erewrite M_bind_ok; [|unfold on_user, on_aspace; by rewrite Hs].
  erewrite M_bind_ok; [|unfold on_table, get_file_like; by rewrite Ho]. erewrite M_bind_ok; [|exact E].
  cbn [io_then fst snd]. rewrite (drop_clone o r sh' f _ Hc Hn), Z2Nat.id by lia. unfold mret, M_ret. do 3 f_equal.
  unfold RING_BUFFER_SIZE in Hroom. apply (swrap_small 64); lia.
Qed.

Lemma resume_read_pipe o b m f cw u g r n sh :
  heap f !! o = Some (mkCell (KPipe r true) n) -> rings f !! r = Some sh -> ring_wf (ring sh) ->
  0 < m < 2 ^ 63 -> contents (ring sh) <> [] ->
  let k := Nat.min (length (contents (ring sh))) (Z.to_nat m) in
  as_present (us_aspace u) (b, b + Z.of_nat k) MF_WRITE = true ->
  exists f', resume_read br_read UC o (b, m) IoEnd ((f, cw, u), g) =
    (Ok (inl (Z.of_nat k)),
     ((f', cw, mkUState (us_aspace u) (mem_write (us_mem u) b
         (take k (contents (ring sh)) ++ drop k (mem_read (us_mem u) b (Z.to_nat m))))), g)).
Proof.
  intros Ho Hr Hw Hm Hq k Hp.
  destruct (read_step_pipe o (b, m) IoEnd f cw u g r n sh Ho Hr Hw ltac:(cbn [snd]; lia) Hq Hp) as (sh' & E).
  eexists. unfold resume_read. erewrite M_bind_ok; [|exact E]. cbn [io_then fst snd]. fold k. unfold mret, M_ret. do 3 f_equal.
  apply (swrap_small 64); lia.
Qed.

Lemma resume_read_end o b m f cw u g r n sh :
  heap f !! o = Some (mkCell (KPipe r true) n) -> rings f !! r = Some sh -> ring_wf (ring sh) ->
  closed sh = true -> contents (ring sh) = [] -> 0 < m ->
  exists f', resume_read br_read UC o (b, m) IoEnd ((f, cw, u), g) =
    (Ok (inl 0),
     ((f', cw, mkUState (us_aspace u) (mem_write (us_mem u) b (mem_read (us_mem u) b (Z.to_nat m)))), g)).
Proof.
  intros Ho Hr Hw Hc Hq Hm. set (bs := mem_read (us_mem u) b (Z.to_nat m)).
  assert (length bs = Z.to_nat m) as Hbs by apply mem_read_length.
  destruct (read_iter_refines sh bs Hw) as (sh' & E & _). unfold spec_read in E. rewrite Hq, Hc in E. cbn in E.
  assert (bs <> []) as Hne by (intros Eb; rewrite Eb in Hbs; simpl in Hbs; lia).
  assert (read_step br_read UC o (b, m) IoEnd ((f, cw, u), g) =
    (Ok (inl 0), ((arc_drop o (with_ring r sh' f), cw, mkUState (us_aspace u) (mem_write (us_mem u) b bs)), g))) as Es.
  { unfold read_step, read_turn. cbn [fst snd]. fold bs. rewrite Ho. cbn [mbind option_bind cell_kind].
    rewrite (bool_decide_eq_false_2 (bs = [])) by done.
    rewrite Hr. cbn [mbind option_bind]. rewrite E. cbn -[touches Z.min]. unfold touches. rewrite Z.min_l by lia.
    by rewrite same_world. }
  eexists. unfold resume_read. erewrite M_bind_ok; [|exact Es]. reflexivity.
Qed.
End Steps.

(** ** On the machine *)

Section OnMachine.
Context {PS T AS WQ SG SA SI CW W UC TF ACT KSA SS DK FH DH CON BR U V ADDR E L X : Type}.
Abbreviation K := (KState PS T AS WQ SG SA CW).
Abbreviation Y := (Machine PS T AS WQ SG SA CW W UC TF DK FH DH CON BR U V).
Context `{AxProcess PS} `{FlattenObjectsOk T nat} `{WaitQueue WQ} `{AxSignal SG SA SI}
  `{ErrorConv, MemoryAddrOk, MappingFlags} `{AddrSpaceOk AS} `{!AddrSpaceMapped AS} `{AddrSpaceClone AS} `{AddrSpaceLoad AS} `{WeakMap W}
  `{UserContext TF UC} `{CloneConsts} `{WaitConsts} `{SignalManager SG SA SI ACT KSA SS TF} `{SignalConsts}
  `{Pod KSA, Pod SS, Pod SI} `{AxFs (DK * CW)} `{AxOpen (DK * CW) FH DH} `{AxFops DK FH} `{Console CON}
  `{AxNet U V ADDR} `{OpenFlags} `{FileModes} `{Pod stat, Pod statx} `{CallConsts} `{DirTypes} `{MmapConsts}
  `{Elf E L X} `{FileStore (DK * CW)} `{LoadConfig} `{KernelConsts} `{KernelEnv PS K WQ AS UC TF DK FH DH CON BR}.
Implicit Types (y : Y) (t p : Z).

(** In a machine with both ends of a pipe the ring is there, in order and open. *)
Lemma both_ends_open y o1 o2 r n1 n2 :
  machine_inv y -> heap (k_files (y_k y)) !! o1 = Some (mkCell (KPipe r false) n1) ->
  heap (k_files (y_k y)) !! o2 = Some (mkCell (KPipe r true) n2) ->
  exists sh, rings (k_files (y_k y)) !! r = Some sh /\ ring_wf (ring sh) /\ closed sh = false /\ (0 < n1)%nat.
Proof.
  intros [[Hf _] _] E1 E2. pose proof (inv_live _ _ Hf o1 _ E1) as Hn. pose proof (inv_ring _ _ Hf r) as Hr. simpl in *.
  assert (end_alive (heap (k_files (y_k y))) r false) as Af by (eexists o1, _; split; [exact E1|done]).
  assert (end_alive (heap (k_files (y_k y))) r true) as At by (eexists o2, _; split; [exact E2|done]).
  destruct (rings (k_files (y_k y)) !! r) as [sh|]; [|by destruct Hr]. exists sh. destruct Hr as [Hw [(Hs & _)|(_ & b & _ & Hb)]].
  - split_and!; [done..| |done]. unfold closed. by rewrite Hs.
  - by destruct b.
Qed.

(** What the other process finds after the writer has stored its resources. *)
Lemma local_of_put p d1 s y d2 tb2 cw2 u2 :
  local_of p y = Some (d2, tb2, cw2, u2) -> aspace d1 <> aspace d2 ->
  exists tb cw, local_of p (put_local d1 s y) = Some (d2, tb, cw, u2).
Proof.
  destruct s as [[[f cw] u] g]. unfold local_of. set (y' := put_local _ _ _). intros Hl Ha.
  change (k_pdata (y_k y')) with (k_pdata (y_k y)).
  change (fd_table (k_files (y_k y'))) with (<[ns_fd_table d1 := fd_table f]> (fd_table (k_files (y_k y)))).
  change (k_cwds (y_k y')) with (<[ns_cwd d1 := cw]> (k_cwds (y_k y))).
  change (k_spaces (y_k y')) with (<[aspace d1 := u]> (k_spaces (y_k y))).
  destruct (k_pdata (y_k y) !! p) as [d|]; [|done]. cbn [mbind option_bind] in *.
  destruct (fd_table (k_files (y_k y)) !! ns_fd_table d) as [tb|] eqn:Et; [|done]. cbn [mbind option_bind] in *.
  destruct (k_cwds (y_k y) !! ns_cwd d) as [c|] eqn:Ec; [|done]. cbn [mbind option_bind] in *.
  destruct (k_spaces (y_k y) !! aspace d) as [v|] eqn:Es; [|done]. cbn [mbind option_bind] in *. injection Hl as -> -> -> ->.
  destruct (insert_grow (fd_table (k_files (y_k y))) (ns_fd_table d1) (fd_table f) (ns_fd_table d2)) as [tb' ->]; [by eexists|].
  destruct (insert_grow (k_cwds (y_k y)) (ns_cwd d1) cw (ns_cwd d2)) as [c' ->]; [by eexists|]. cbn [mbind option_bind].
  rewrite lookup_insert_ne by done. rewrite Es. by do 2 eexists.
Qed.

(** C5: a pipe connects two processes.  A process that waits in a read at one end of a
    pipe, whatever else is in the ring, and a process that writes [len] bytes which
    fit at the other end: the write answers [len] at once, and when the reader runs
    again, with the part of its buffer that is filled still mapped, its read answers a
    count, and its memory then holds, from the start of its buffer, the bytes that were
    in the ring and those of the writer's memory, in order, as far as there is room;
    the rest of the buffer is as it was. *)
Theorem pipe_connects_processes fuel id t1 t2 h1 h2 fd a len b m o1 o2 r n1 n2 sh d1 tb1 cw1 u1 as1 d2 tb2 cw2 u2 y :
  machine_inv y ->
  y_threads y !! t1 = Some h1 -> local_of (th_process h1) y = Some (d1, tb1, cw1, u1) ->
  y_threads y !! t2 = Some h2 -> th_wait h2 = Some (PRead o2 (b, m) IoEnd) ->
  local_of (th_process h2) y = Some (d2, tb2, cw2, u2) -> aspace d1 <> aspace d2 ->
  fo_get tb1 (as_usize fd) = Some o1 ->
  heap (k_files (y_k y)) !! o1 = Some (mkCell (KPipe r false) n1) ->
  heap (k_files (y_k y)) !! o2 = Some (mkCell (KPipe r true) n2) ->
  rings (k_files (y_k y)) !! r = Some sh ->
  0 < len -> Z.of_nat (length (contents (ring sh))) + len < Z.of_nat RING_BUFFER_SIZE -> 0 < m < 2 ^ 63 ->
  is_usize a -> get_as_slice Z a len (us_aspace u1) = (Ok (a, len), as1) ->
  let sent := contents (ring sh) ++ mem_read (us_mem u1) a (Z.to_nat len) in
  let k := Nat.min (length sent) (Z.to_nat m) in
  as_present (us_aspace u2) (b, b + Z.of_nat k) MF_WRITE = true ->
  exists y1 y2 v, exec fuel id t1 (C_write fd a len) y = Some (Done (Ok len), y1) /\
    resume t2 y1 = settle t2 (Done (Ok (Z.of_nat k))) y2 /\
    k_spaces (y_k y2) !! aspace d2 = Some v /\
    mem_read (us_mem v) b (Z.to_nat m) = take k sent ++ drop k (mem_read (us_mem u2) b (Z.to_nat m)).
Proof.
  intros Hi Ht1 Hl1 Ht2 Hwait Hl2 Ha Ho E1 E2 Er Hlen Hroom Hm Hua Hs sent k Hpres.
  destruct (both_ends_open y o1 o2 r n1 n2 Hi E1 E2) as (sh0 & Er0 & Hw & Hc & Hn). rewrite Er in Er0. injection Er0 as <-.
  destruct (do_write_pipe UC fd a len as1 o1 (view tb1 (k_files (y_k y))) cw1 u1 (y_dev y) r n1 sh Ho E1 Hn Er Hw Hc Hlen Hroom Hua Hs)
    as (sh' & Ew & Hw' & _ & Hq). fold sent in Hq.
  set (s1 := (with_ring r sh' (view tb1 (k_files (y_k y))), cw1, mkUState as1 (us_mem u1), y_dev y)) in *.
  destruct (local_of_put (th_process h2) d1 s1 y d2 tb2 cw2 u2 Hl2 Ha) as (tb & cw & Hl2').
  assert (sent <> []) as Hne.
  { intros E0. apply (f_equal length) in E0. unfold sent in E0. rewrite length_app, mem_read_length in E0. simpl in E0. lia. }
  destruct (resume_read_pipe e_br_read UC o2 b m (view tb (k_files (y_k (put_local d1 s1 y)))) cw u2 (y_dev (put_local d1 s1 y)) r n2 sh')
    as (f' & Et); [exact E2|apply lookup_insert_eq|done..|by rewrite Hq|by rewrite Hq|]. rewrite Hq in Et. fold k in Et.
  eexists _, _, _. split_and!.
  - unfold exec. rewrite Ht1. cbn [exec_files run_fs]. unfold may_wait.
    erewrite M_bind_ok; [|unfold on_process; rewrite Hl1, Ew; reflexivity]. reflexivity.
  - unfold resume. fold s1. change (y_threads (put_local d1 s1 y)) with (y_threads y). rewrite Ht2. cbn [mbind option_bind].
    rewrite Hwait. cbn [mbind option_bind turn]. unfold may_wait.
    erewrite M_bind_ok; [|unfold on_process; rewrite Hl2', Et; reflexivity]. reflexivity.
  - apply lookup_insert_eq.
  - cbn [us_mem]. match goal with |- mem_read (mem_write _ _ ?bs) _ _ = _ => rewrite <- (mem_read_write (us_mem u2) b bs) at 2; f_equal end.
    rewrite length_app, length_take, length_drop, mem_read_length. lia.
Qed.

(** A process that waits at an empty pipe is let go once no writer is left: its read
    answers 0, and its memory is as it was. *)
Theorem pipe_reader_sees_end t h b m o r n sh d tb cw u y :
  machine_inv y -> y_threads y !! t = Some h -> th_wait h = Some (PRead o (b, m) IoEnd) ->
  local_of (th_process h) y = Some (d, tb, cw, u) ->
  heap (k_files (y_k y)) !! o = Some (mkCell (KPipe r true) n) ->
  (forall x c, heap (k_files (y_k y)) !! x = Some c -> cell_kind c <> KPipe r false) ->
  rings (k_files (y_k y)) !! r = Some sh -> contents (ring sh) = [] -> 0 < m ->
  exists y' v, resume t y = settle t (Done (Ok 0)) y' /\ k_spaces (y_k y') !! aspace d = Some v /\
    mem_read (us_mem v) b (Z.to_nat m) = mem_read (us_mem u) b (Z.to_nat m).
Proof.
  intros [[Hf _] _] Ht Hwait Hl Ho Hno Er Hq Hm. pose proof (inv_ring _ _ Hf r) as Hr. simpl in Hr. rewrite Er in Hr.
  destruct Hr as [Hw Hr]. assert (closed sh = true) as Hc.
  { unfold closed. destruct Hr as [(_ & _ & x & c & Hx & Hk)|(-> & _)]; [by destruct (Hno x c Hx)|done]. }
  destruct (resume_read_end e_br_read UC o b m (view tb (k_files (y_k y))) cw u (y_dev y) r n sh Ho Er Hw Hc Hq Hm) as (f' & Et).
  eexists _, _. split_and!.
  - unfold resume. rewrite Ht. cbn [mbind option_bind]. rewrite Hwait. cbn [mbind option_bind turn]. unfold may_wait.
    erewrite M_bind_ok; [|unfold on_process; rewrite Hl, Et; reflexivity]. reflexivity.
  - apply lookup_insert_eq.
  - cbn [us_mem]. pose proof (mem_read_write (us_mem u) b (mem_read (us_mem u) b (Z.to_nat m))) as Hm'.
    by rewrite mem_read_length in Hm'.
Qed.
End OnMachine.
