(* ===== verification/MachineSample.v ===== *)
(** * A machine that runs

    Instances of everything that the kernel is given from outside, and a short run
    of two processes, at which the theorems about runs are applied. *)

From stdpp Require Import base list gmap option relations.
From Stdlib Require Import ZArith Lia.
From S2P Require Import Prelude Text Bytes AddrSpace Ptr.
From S2P Require Import Pipe TimeStat TimeConv FdTable Path Mount.
From S2P Require Import Dirent Futex Io Mmap Process Clone Signal.
From S2P Require Import Loader Files Open Syscall Entry.
From S2P Require Import Machine MachineInv MachineRun MachineIo MachinePipe.
Import ListNotations.

Module MachineSample.
Import SimpleMem FutexSample FdTable.Sample ProcessSample CloneSample SignalSample LoaderSample PathSample OpenSample
  FilesSample SyscallSample.
#[local] Existing Instances Ptr.Sample.sample_conv SyscallSample.statx_pod MmapSample.linux_mmap DirSample.linux_types
  masked_signal masked_manager Signal.set_pod.

Abbreviation disk := PathSample.files.

(** The files of the samples, seen from a directory. *)
Definition keep {A} (cw : str) (r : A * disk) : A * (disk * str) := (r.1, (r.2, cw)).
#[local] Instance rooted_fs : AxFs (disk * str) := {|
  canonicalize f := canonicalize f.1;
  absolute_path_exists f := absolute_path_exists f.1;
  remove_file f p := keep f.2 (remove_file f.1 p);
  create_dir f p := keep f.2 (create_dir f.1 p);
  remove_dir f p := keep f.2 (remove_dir f.1 p);
  set_current_dir f p := (inr tt, (f.1, p));
  current_dir f := inr f.2;
  metadata_is_dir f := metadata_is_dir f.1
|}.
#[local] Instance rooted_open : AxOpen (disk * str) str str := {|
  file_open p o f := keep f.2 (file_open p o f.1);
  open_file_at d p o f := keep f.2 (open_file_at d p o f.1);
  dir_open p o f := keep f.2 (dir_open p o f.1);
  open_dir_at d p o f := keep f.2 (open_dir_at d p o f.1);
  get_attr h f := get_attr h f.1
|}.
#[local] Instance rooted_fops : AxFops disk str := {|
  fops_read h b f := (inr 0, b, (h, f)); fops_write h b f := (inr (Z.of_nat (length b)), (h, f));
  fops_get_attr h f := get_attr h f
|}.
#[local] Instance rooted_store : FileStore (disk * str) := {
  fs_read f p := Err AxNotFound; fs_canonicalize _ p := Ok p
}.

#[local] Instance linux_kernel : KernelConsts := {|
  FUTEX_CMD_MASK := 127; FUTEX_WAIT := 0; FUTEX_WAKE := 1; FUTEX_REQUEUE := 3; FUTEX_CMP_REQUEUE := 4;
  CLOCK_REALTIME := 0; CLOCK_MONOTONIC := 1; SI_KERNEL := 128; SIGSEGV := 11
|}.

(** A terminal: what is typed, and what is shown. *)
Definition terminal : Type := list Z * list Z.
#[local] Instance screen : Console terminal := {|
  con_read n c := (take (Nat.min n 3) c.1, (drop (Nat.min n 3) c.1, c.2));
  con_write bs c := (c.1, c.2 ++ bs)
|}.
Definition plain_reader (rd : nat -> terminal -> list Z * terminal) (n : nat) (s : unit * terminal)
  : (AxError + list Z) * (unit * terminal) := let '(b, c) := rd n s.2 in (inr b, (tt, c)).

Abbreviation KS := (KState tree table simple_aspace (list Z) signals Z str).
Abbreviation YS := (Machine tree table simple_aspace (list Z) signals Z str (gmap Z Z) (list Z) Z disk str str terminal
                      unit unit unit).

(** Calls of x86-64; the arguments are packed in one register, 64 bits each. *)
Definition calls (n : Z) : Sysno :=
  default (No_other n) (list_to_map (M := gmap Z Sysno)
    [(0, No_read); (1, No_write); (3, No_close); (10, No_mprotect); (24, No_sched_yield); (39, No_getpid); (56, No_clone); (57, No_fork);
     (59, No_execve); (60, No_exit); (61, No_wait4); (228, No_clock_gettime); (293, No_pipe2)] !! n).
#[local] Instance sample_env : KernelEnv tree KS (list Z) simple_aspace (list Z) Z disk str str terminal unit := {|
  e_session _ g := g;
  e_group_processes _ g := [g];
  e_process_of _ t := t;
  e_alive _ := all_alive;
  e_cancel t q := filter (fun x => x <> t) q;
  e_tf_arg tf i := Z.land (Z.shiftr tf (64 * Z.of_nat i)) (2 ^ 64 - 1);
  e_tf_set_ip x _ := x;
  e_tf_set_sp _ tf := tf;
  e_tf_segs _ := mkSegs 0 0;
  e_tf_set_segs _ tf := tf;
  e_tf_enter u := hd 0 u;
  e_ticks _ := 0;
  e_seen _ _ m := m;
  e_page_fault _ _ a := (false, a);
  e_br_read := plain_reader;
  e_padding := [];
  e_read_dir _ d := (inr None, d);
  e_read_at h _ b f := (inr 0, b, (h, f));
  e_seek h _ _ := (inr 0, h);
  e_x86_64 := true;
  e_child_tid_first := false;
  e_sysno := calls;
  e_err_code := code
|}.

(** One process, with one thread and a page of memory that ends in zeros, and
    nothing typed yet. *)
Definition first_space : UState simple_aspace := mkUState (mkSimple 4096 8192 3) (mem_write ∅ 8064 (replicate 64 0)).
Definition boot_k : KS :=
  mkK {[1 := mkProc None 1 [1] false 0 false; 2 := mkProc None 2 [2] false 0 false]}
    {[2 := data 0 []]} {[2 := mkTD 0]} {[0%nat := first_space]}
    (mkFd {[0%nat := fd_table booted]} (heap booted) (rings booted) (nonblocking booted))
    {[0%nat := []]} {[0%nat := 0]} (mkSignals ∅ []).
Definition boot : YS :=
  mkMachine (mkC boot_k (add_thread_to_table all_alive 2 2 2 1 (mkTables ∅ ∅ ∅ ∅)) [])
    (mkDev hardlink_new ∅ no_handles ∅ [] tt ([], []) ∅) {[2 := mkThread 2 [] 0 ts_new None]} (mkDuration 0 0) (mkDuration 0 0).

Lemma boot_in_order : machine_inv boot.
Proof.
  split; [split|].
  - pose proof (booted_inv) as Hb. revert Hb. unfold files_inv. apply fd_inv_recount; [done..|]. intros o.
    cbn [view fd_table y_k y_c y_threads boot boot_k c_k k_files]. rewrite refs_new. unfold all_refs, held, no_ext.
    rewrite !map_fold_singleton. unfold waits_for. simpl. lia.
  - intros o c Hc. apply (booted_handles o c). exact Hc.
  - intros q h Hh. change (y_threads boot) with ({[2 := mkThread 2 [] 0 ts_new None]} : gmap Z (UThread (list Z) Z)) in Hh.
    apply lookup_singleton_Some in Hh as [<- <-]. exists (0, 0, 0)%nat. by split.
Qed.

(** The thread [t] makes the call [num] with the packed arguments [args]. *)
Definition call_of (t num args id : Z) (y : YS) : YS :=
  let y1 := default y (compute t ∅ args y) in default y1 (trap 0 id t num y1).
Definition wake (t : Z) (y : YS) : YS := default y (resume t y).

(** Process 2 forks process 3 and reads the console, where it has to wait; process
    3 starts and closes its standard input. *)
Definition forked : YS := call_of 2 57 0 3 boot.
Definition reading : YS := call_of 2 0 (Z.shiftl 4096 64 + Z.shiftl 4 128) 9 forked.
Definition started : YS := wake 3 reading.
Definition closed_there : YS := call_of 3 3 0 9 started.

Definition typed_in : YS := outside (mkDuration 5 0) (mkDuration 5 0) ([104; 105; 13], []) ∅ closed_there.
Definition answered : YS := wake 2 typed_in.

(** A step that a computation made. *)
Lemma compute_steps t m args y y' : in_user t y -> compute t m args y = Some y' -> machine_step y y'.
Proof. intros. exists t. by eapply step_compute. Qed.
Ltac in_user := eexists; split; [by vm_compute|by vm_compute].

Lemma forked_run : rtc machine_step boot forked.
Proof.
  eapply rtc_l; [apply (compute_steps 2 ∅ 0); [in_user|by vm_compute]|].
  apply rtc_once. exists 2. eapply (step_trap _ _ 0 3 57); [in_user|by vm_compute..].
Qed.
Lemma reading_run : rtc machine_step forked reading.
Proof.
  eapply rtc_l; [apply (compute_steps 2 ∅ (Z.shiftl 4096 64 + Z.shiftl 4 128)); [in_user|by vm_compute]|].
  apply rtc_once. exists 2. eapply (step_trap _ _ 0 9 0); [in_user|by vm_compute..].
Qed.
Lemma closed_run : rtc machine_step reading closed_there.
Proof.
  apply (rtc_l _ _ started); [exists 3; apply step_resume; by vm_compute|].
  eapply rtc_l; [apply (compute_steps 3 ∅ 0); [in_user|by vm_compute]|].
  apply rtc_once. exists 3. eapply (step_trap _ _ 0 9 3); [in_user|by vm_compute..].
Qed.
Lemma answered_run : rtc machine_step closed_there answered.
Proof.
  apply (rtc_l _ _ typed_in); [exists 2; apply step_outside|]. apply rtc_once. exists 2. apply step_resume. by vm_compute.
Qed.

(** While process 2 waits, its transfer and its descriptor count for the console;
    the descriptor of process 3 is gone. *)
Lemma machine_keeps_objects_witness :
  objects_in_order closed_there /\
  heap (k_files (y_k closed_there)) !! 0%nat = Some (mkCell KStdin 2) /\
  all_refs (fd_table (k_files (y_k closed_there))) 0 = 1%nat /\ held (y_threads closed_there) 0 = 1%nat /\
  objects_in_order answered /\ heap (k_files (y_k answered)) !! 0%nat = Some (mkCell KStdin 1).
Proof.
  assert (rtc machine_step boot closed_there) as Hr.
  { etrans; [exact forked_run|]. etrans; [exact reading_run|exact closed_run]. }
  split; [apply (machine_keeps_objects boot); [exact boot_in_order|exact Hr]|].
  split_and!; [by vm_compute..| |by vm_compute].
  apply (machine_keeps_objects boot); [exact boot_in_order|]. etrans; [exact Hr|exact answered_run].
Defined.

(** Process 3 about to close its standard input. *)
Definition closing : YS := default started (compute 3 ∅ 0 started).
Lemma closing_run : rtc machine_step boot closing.
Proof.
  etrans; [exact forked_run|]. etrans; [exact reading_run|].
  apply (rtc_l _ _ started); [exists 3; apply step_resume; by vm_compute|].
  apply rtc_once. apply (compute_steps 3 ∅ 0); [in_user|by vm_compute].
Qed.
Lemma closing_step : step 3 closing closed_there.
Proof. eapply (step_trap _ _ 0 9 3); [in_user|by vm_compute..]. Qed.

Lemma syscall_isolation_witness :
  fd_table (k_files (y_k closed_there)) !! 0%nat = Some (fd_table booted) /\
  (fun tb => fo_get tb 0) <$> fd_table (k_files (y_k closed_there)) !! 1%nat = Some None.
Proof.
  split; [|by vm_compute].
  assert (exists h d dq, y_threads closing !! 3 = Some h /\ k_pdata (y_k closing) !! th_process h = Some d /\
    k_pdata (y_k closing) !! 2 = Some dq /\ ns_fd_table dq = 0%nat /\ ns_fd_table d = 1%nat) as (h & d & dq & Hh & Hd & Hq & Eq & Ed).
  { do 3 eexists. by split_and!; [vm_compute..]. }
  destruct (syscall_isolation 3 closing closed_there h d 2 dq) as (_ & _ & Ht & _); [..|exact Hh|exact Hd|exact Hq|].
  - apply (run_inv boot); [exact boot_in_order|exact closing_run].
  - exact closing_step.
  - rewrite Eq, Ed in Ht. apply Ht; [done|by vm_compute].
Defined.

(** All the while that process 3 runs, the memory of process 2 is its own. *)
Lemma private_process_witness :
  machine_inv closed_there /\ k_spaces (y_k closed_there) !! 0%nat = Some (mkUState (mkSimple 4096 8192 3) ∅).
Proof.
  assert (exists d, k_pdata (y_k closing) !! 2 = Some d /\ names d = (0, 0, 0)%nat) as (d & Hd & En) by (eexists; by split; vm_compute).
  destruct (private_process closing closed_there 2 d (mkUState (mkSimple 4096 8192 3) ∅) (fd_table booted) []) as (Hi & _ & Hs & _).
  - apply (run_inv boot); [exact boot_in_order|exact closing_run].
  - exact Hd.
  - injection En as -> _ _. by vm_compute.
  - injection En as _ -> _. by vm_compute.
  - injection En as _ _ ->. by vm_compute.
  - apply rtc_once. rewrite En. exists 3. do 2 eexists. split; [exact closing_step|]. by split_and!; vm_compute.
  - split; [exact Hi|]. injection En as Ea _ _. by rewrite Ea in Hs.
Defined.

(** Process 3, made with [CLONE_VM], takes away the right to write from the memory that
    it shares with process 2, while that waits at the console; then keys are pressed. *)
Definition sharer : YS := call_of 2 56 273 3 boot.
Definition shared_reading : YS := call_of 2 0 (Z.shiftl 4096 64 + Z.shiftl 4 128) 9 sharer.
Definition sharer_started : YS := wake 3 shared_reading.
Definition protected : YS := call_of 3 10 (4096 + Z.shiftl 4096 64 + Z.shiftl 1 128) 9 sharer_started.
Definition protected_typed : YS := outside (mkDuration 5 0) (mkDuration 5 0) ([104; 105; 13], []) ∅ protected.
Lemma protected_run : rtc machine_step boot protected_typed.
Proof.
  eapply rtc_l; [apply (compute_steps 2 ∅ 273); [in_user|by vm_compute]|].
  apply (rtc_l _ _ sharer); [exists 2; eapply (step_trap _ _ 0 3 56); [in_user|by vm_compute..]|].
  eapply rtc_l; [apply (compute_steps 2 ∅ (Z.shiftl 4096 64 + Z.shiftl 4 128)); [in_user|by vm_compute]|].
  apply (rtc_l _ _ shared_reading); [exists 2; eapply (step_trap _ _ 0 9 0); [in_user|by vm_compute..]|].
  apply (rtc_l _ _ sharer_started); [exists 3; apply step_resume; by vm_compute|].
  eapply rtc_l; [apply (compute_steps 3 ∅ (4096 + Z.shiftl 4096 64 + Z.shiftl 1 128)); [in_user|by vm_compute]|].
  apply (rtc_l _ _ protected); [exists 3; eapply (step_trap _ _ 0 9 10); [in_user|by vm_compute..]|].
  apply rtc_once. exists 2. apply step_outside.
Qed.

(** Process 2 reads while it waits in a read: a slice of its own memory is no danger,
    and one of half the address space is; and so is what the sharer did. *)
Lemma transfers_panic_exactly_witness :
  fst <$> exec 0 9 2 (C_read 0 4096 4) reading <> Some (Done Panic) /\
  fst <$> exec 0 9 2 (C_write 1 4096 (2 ^ 63)) reading = Some (Done Panic) /\
  (exists h o b, y_threads reading !! 2 = Some h /\ th_wait h = Some (PRead o b IoEnd) /\
    (turn 2 h (PRead o b IoEnd) reading).1 <> Done Panic) /\
  (exists h o b, y_threads protected_typed !! 2 = Some h /\ th_wait h = Some (PRead o b IoEnd) /\
    (turn 2 h (PRead o b IoEnd) protected_typed).1 = Done Panic).
Proof.
  assert (machine_inv reading) as Hi.
  { apply (run_inv boot); [exact boot_in_order|]. etrans; [exact forked_run|exact reading_run]. }
  assert (machine_inv protected_typed) as Hi' by (apply (run_inv boot); [exact boot_in_order|exact protected_run]).
  assert (is_usize 4096) as Hu by (unfold is_usize; lia).
  assert (exists h d tb cw u o b, y_threads reading !! 2 = Some h /\ local_of (th_process h) reading = Some (d, tb, cw, u) /\
    us_aspace u = mkSimple 4096 8192 3 /\ th_wait h = Some (PRead o b IoEnd) /\ b = (4096, 4))
    as (h & d & tb & cw & u & o & b & Ht & Hl & Ea & Hw & Hb).
  { do 7 eexists. by split_and!; vm_compute. }
  destruct (transfers_panic_exactly 0 9 2 h d tb cw u 0 4096 4 reading Hi Ht Hl Hu) as (Hr & _ & Hp & _).
  destruct (transfers_panic_exactly 0 9 2 h d tb cw u 1 4096 (2 ^ 63) reading Hi Ht Hl Hu) as (_ & Hq & _).
  split_and!.
  - rewrite Hr, Ea. by vm_compute.
  - apply Hq. rewrite Ea. by vm_compute.
  - exists h, o, b. split_and!; [exact Ht|exact Hw|]. rewrite (Hp o b Hw). apply read_mapped. subst b. rewrite Ea.
    intros a n. simpl. intros. rewrite !andb_true_iff, !Z.leb_le. by split; [lia|].
  - clear h d tb cw u o b Ht Hl Ea Hw Hb Hr Hp Hq.
    assert (exists h d tb cw u o b n bs s', y_threads protected_typed !! 2 = Some h /\
      local_of (th_process h) protected_typed = Some (d, tb, cw, u) /\ th_wait h = Some (PRead o b IoEnd) /\
      read_turn e_br_read o (mem_read (us_mem u) b.1 (Z.to_nat b.2))
        (view tb (k_files (y_k protected_typed)), world (y_dev protected_typed)) = Some (Some (Ok n, bs), s') /\
      touches u b.1 (Z.min n b.2) MF_WRITE = false) as (h & d & tb & cw & u & o & b & n & bs & s' & Ht & Hl & Hw & Hn & Hx).
    { do 10 eexists. split_and!; [vm_compute; reflexivity..]. }
    exists h, o, b. split_and!; [exact Ht|exact Hw|].
    destruct (transfers_panic_exactly 0 9 2 h d tb cw u 0 4096 4 protected_typed Hi' Ht Hl Hu) as (_ & _ & Hp & _).
    apply (Hp o b Hw). exists n, bs, s'. split; [exact Hn|exact Hx].
Defined.

(** Process 2 makes a pipe, forks process 3 and reads from the pipe, where it has to
    wait; process 3 starts, and has something to say. *)
Definition piped : YS := call_of 2 293 4096 9 boot.
Definition piped_fork : YS := call_of 2 57 0 3 piped.
Definition pipe_reading : YS := call_of 2 0 (3 + Z.shiftl 5000 64 + Z.shiftl 16 128) 9 piped_fork.
Definition pipe_started : YS := wake 3 pipe_reading.
Definition pipe_ready : YS := default pipe_started (compute 3 (mem_write ∅ 4096 [104; 105]) 0 pipe_started).
Lemma pipe_run : rtc machine_step boot pipe_ready.
Proof.
  eapply rtc_l; [apply (compute_steps 2 ∅ 4096); [in_user|by vm_compute]|].
  apply (rtc_l _ _ piped); [exists 2; eapply (step_trap _ _ 0 9 293); [in_user|by vm_compute..]|].
  eapply rtc_l; [apply (compute_steps 2 ∅ 0); [in_user|by vm_compute]|].
  apply (rtc_l _ _ piped_fork); [exists 2; eapply (step_trap _ _ 0 3 57); [in_user|by vm_compute..]|].
  eapply rtc_l; [apply (compute_steps 2 ∅ (3 + Z.shiftl 5000 64 + Z.shiftl 16 128)); [in_user|by vm_compute]|].
  apply (rtc_l _ _ pipe_reading); [exists 2; eapply (step_trap _ _ 0 9 0); [in_user|by vm_compute..]|].
  apply (rtc_l _ _ pipe_started); [exists 3; apply step_resume; by vm_compute|].
  apply rtc_once. apply (compute_steps 3 (mem_write ∅ 4096 [104; 105]) 0); [in_user|by vm_compute].
Qed.

Lemma pipe_connects_processes_witness :
  exists y1 y2 v, exec 0 9 3 (C_write 4 4096 2) pipe_ready = Some (Done (Ok 2), y1) /\
    resume 2 y1 = settle 2 (Done (Ok 2)) y2 /\ k_spaces (y_k y2) !! 0%nat = Some v /\
    take 2 (mem_read (us_mem v) 5000 16) = [104; 105].
Proof.
  assert (machine_inv pipe_ready) as Hi by (apply (run_inv boot); [exact boot_in_order|exact pipe_run]).
  assert (exists h1 h2 d1 tb1 cw1 u1 d2 tb2 cw2 u2 o1 o2 r n1 n2 sh,
    y_threads pipe_ready !! 3 = Some h1 /\ local_of (th_process h1) pipe_ready = Some (d1, tb1, cw1, u1) /\
    y_threads pipe_ready !! 2 = Some h2 /\ th_wait h2 = Some (PRead o2 (5000, 16) IoEnd) /\
    local_of (th_process h2) pipe_ready = Some (d2, tb2, cw2, u2) /\ aspace d1 = 1%nat /\ aspace d2 = 0%nat /\
    fo_get tb1 (as_usize 4) = Some o1 /\ heap (k_files (y_k pipe_ready)) !! o1 = Some (mkCell (KPipe r false) n1) /\
    heap (k_files (y_k pipe_ready)) !! o2 = Some (mkCell (KPipe r true) n2) /\
    rings (k_files (y_k pipe_ready)) !! r = Some sh /\ contents (ring sh) = [] /\
    us_mem u1 = mem_write ∅ 4096 [104; 105] /\ us_mem u2 = ∅ /\ us_aspace u1 = mkSimple 4096 8192 3 /\
    us_aspace u2 = mkSimple 4096 8192 3)
    as (h1 & h2 & d1 & tb1 & cw1 & u1 & d2 & tb2 & cw2 & u2 & o1 & o2 & r & n1 & n2 & sh & Ht1 & Hl1 & Ht2 & Hw & Hl2 & A1 & A2
        & Ho & E1 & E2 & Er & Hq & M1 & M2 & As & As2).
  { do 16 eexists. by split_and!; vm_compute. }
  set (y0 := pipe_ready) in *. clearbody y0.
  assert (@get_as_slice _ _ _ _ _ Z u8_pod 4096 2 (us_aspace u1) = (Ok (4096, 2), mkSimple 4096 8192 3)) as Hs by (rewrite As; by vm_compute).
  assert (is_usize 4096) as Hua by (unfold is_usize; lia).
  assert (aspace d1 <> aspace d2) as Ha by by rewrite A1, A2.
  assert (Z.of_nat (length (contents (ring sh))) + 2 < Z.of_nat RING_BUFFER_SIZE) as Hroom by (rewrite Hq; by vm_compute).
  destruct (pipe_connects_processes 0 9 3 2 h1 h2 4 4096 2 5000 16 o1 o2 r n1 n2 sh d1 tb1 cw1 u1 (mkSimple 4096 8192 3)
    d2 tb2 cw2 u2 y0 Hi Ht1 Hl1 Ht2 Hw Hl2 Ha Ho E1 E2 Er ltac:(lia) Hroom ltac:(lia) Hua Hs) as (y1 & y2 & v & X1 & X2 & X3 & X4);
    [rewrite Hq, M1, As2; by vm_compute|].
  exists y1, y2, v. rewrite Hq, M1 in X2, X4. rewrite M2 in X4. rewrite A2 in X3. split_and!; [exact X1|exact X2|exact X3|].
  change 16%nat with (Z.to_nat 16). rewrite X4. by vm_compute.
Defined.
End MachineSample.
