(* ===== verification/UserLib.v ===== *)
(** * The user library

    [user_lib] of the programs under [apps/nimbos/rust]: the system-call stubs of
    every architecture, the wrappers, the console, the clock and the panic
    handler.

    A program is an interaction tree over what it does to its machine: it traps
    into the kernel, and it places, loads and stores bytes of its memory.  The
    compiler decides where a variable or a constant lives, so its address is the
    answer of an event.  A function that does not return has the result type
    [void].  The programs are built with the debug profile, where the arithmetic
    operators panic on overflow. *)

From stdpp Require Import base list option strings.
From Stdlib Require Import ZArith Lia.
From ITree Require Import ITree.
From S2P Require Import Prelude Text Bytes.
Import ListNotations.
#[local] Open Scope Z_scope.

(** ** Programs *)

(** The statics that programs share between their threads. *)
Inductive var : Type := THREAD_COUNT | THREAD_STACKS | GLOBAL_VAR.

(** A trap with the system-call number and three argument registers, answered by
    the return register as an [isize]; a variable or constant with its bytes,
    answered by its address; loads and stores; the address of a static and
    [fetch_add] on one; the stack pointer; the function at a code address, called
    with an argument; and running past the end of a function. *)
Inductive userE : Type -> Type :=
| Trap (id a0 a1 a2 : Z) : userE Z
| Data (bs : list Z) : userE Z
| Load (a : Z) (n : nat) : userE (list Z)
| Store (a : Z) (bs : list Z) : userE unit
| Static (v : var) : userE Z
| Fetch_add (v : var) (n : Z) : userE Z
| Get_sp : userE Z
| Beyond : userE void.

Abbreviation prog := (itree userE).

#[export] Instance prog_ret : MRet prog := fun A a => Ret a.
#[export] Instance prog_bind : MBind prog := fun A B f m => ITree.bind m f.

Definition never {A} (v : void) : A := match v with end.

(** ** Formatting

    [core::fmt] hands the pieces of a format string and its arguments one by one
    to [write_str]: a literal piece unless it is empty, a string as it is, a
    character as UTF-8, a number as its sign, if it is negative, and its digits, a
    number in hexadecimal with its prefix, and the pieces of the message of a
    panic. *)
Inductive frag : Type :=
| P (s : str) | Str (s : str) | Char (c : Z) | Int (n : Z) | Hex (n : Z) | Debug (pieces : list str).

Definition pieces_of (f : frag) : list str :=
  match f with
  | P s => if bool_decide (s = []) then [] else [s]
  | Str s => [s]
  | Char c => [[c]]
  | Int n => (if n <? 0 then [lit "-"] else []) ++ [digits 10 (Z.abs n)]
  | Hex n => [lit "0x"; digits 16 n]
  | Debug l => l
  end.
Definition fmt (l : list frag) : list str := concat (map pieces_of l).

Section UserLib.
(** The architecture: [x86_64] selects the system-call numbers. *)
Inductive Arch : Type := X86_64 | AArch64 | RiscV | LoongArch64.
Variable arch : Arch.
Definition x86_64 : bool := match arch with X86_64 => true | _ => false end.

(** ** System-call numbers *)

Definition SYSCALL_READ : Z := if x86_64 then 0 else 63.
Definition SYSCALL_WRITE : Z := if x86_64 then 1 else 64.
Definition SYSCALL_YIELD : Z := if x86_64 then 24 else 124.
Definition SYSCALL_GETPID : Z := if x86_64 then 39 else 172.
Definition SYSCALL_CLONE : Z := if x86_64 then 56 else 220.
Definition SYSCALL_FORK : Z := if x86_64 then 57 else 220.
Definition SYSCALL_EXEC : Z := if x86_64 then 59 else 221.
Definition SYSCALL_EXIT : Z := if x86_64 then 60 else 93.
Definition SYSCALL_WAITPID : Z := if x86_64 then 61 else 260.
Definition SYSCALL_CLOCK_GETTIME : Z := if x86_64 then 228 else 403.
Definition SYSCALL_CLOCK_NANOSLEEP : Z := if x86_64 then 230 else 407.

(** ** Stubs *)

(** [arch::syscall]: the number and three arguments in the registers of the
    architecture. *)
Definition syscall (id a0 a1 a2 : Z) : prog Z := ITree.trigger (Trap id a0 a1 a2).

(** A slice is its address and length. *)
Abbreviation slice := (Z * Z)%type.
Definition sys_read (fd : Z) (buffer : slice) : prog Z := syscall SYSCALL_READ fd buffer.1 buffer.2.
Definition sys_write (fd : Z) (buffer : slice) : prog Z := syscall SYSCALL_WRITE fd buffer.1 buffer.2.
Definition sys_yield : prog Z := syscall SYSCALL_YIELD 0 0 0.
Definition sys_getpid : prog Z := syscall SYSCALL_GETPID 0 0 0.
Definition sys_fork : prog Z := syscall SYSCALL_FORK 0 0 0.
Definition sys_exec (path : slice) : prog Z := syscall SYSCALL_EXEC path.1 0 0.
Definition sys_waitpid (pid exit_code options : Z) : prog Z :=
  syscall SYSCALL_WAITPID (as_usize pid) exit_code options.
Definition sys_clock_gettime (clk req : Z) : prog Z := syscall SYSCALL_CLOCK_GETTIME clk req 0.
Definition sys_clock_nanosleep (clk flags req : Z) : prog Z := syscall SYSCALL_CLOCK_NANOSLEEP clk flags req.

(** ** The console *)

Definition STDIN : Z := 0.
Definition STDOUT : Z := 1.

(** The bytes of a value, somewhere in memory. *)
Definition place (bs : list Z) : prog slice := a ← ITree.trigger (Data bs); mret (a, Z.of_nat (length bs)).

Definition read (fd : Z) (buf : slice) : prog Z := sys_read fd buf.
Definition write (fd : Z) (buf : slice) : prog Z := sys_write fd buf.

Definition write_str (s : str) : prog unit := b ← place (encode_utf8 s); write STDOUT b;; mret tt.
(** [Stdout.write_fmt(args).unwrap()]: [write_str] always answers [Ok]. *)
Fixpoint write_all (l : list str) : prog unit :=
  match l with [] => mret tt | s :: l => write_str s;; write_all l end.
Definition print (args : list frag) : prog unit := write_all (fmt args).
(** [println!] appends the newline to the format string, so to its last piece. *)
Fixpoint ln (args : list frag) : list frag :=
  match args with
  | [] => [P [10]]
  | [P s] => [P (s ++ [10])]
  | f :: args => f :: ln args
  end.
Definition println (args : list frag) : prog unit := print (ln args).

Definition getchar : prog Z :=
  c ← place [0]; read STDIN c;; bs ← ITree.trigger (Load c.1 1); mret (hd 0 bs).

(** ** The end of a program *)

Definition panic_message (file : str) (line : Z) (msg : list frag) : list frag :=
  [P (lit "Panicked at "); Str file; P (lit ":"); Int line; P (lit ", ")] ++ msg ++ [P [10]].

(** [sys_exit] panics when its trap returns, and the panic handler prints the
    message and exits with the code 1: a loop, as long as the trap returns. *)
Definition sys_exit (exit_code : Z) : prog void :=
  ITree.iter (fun code =>
    syscall SYSCALL_EXIT (as_usize code) 0 0;;
    print (panic_message (lit "src/syscall.rs") 50 [Str (lit "sys_exit never returns!")]);;
    mret (inl 1)) exit_code.
Definition exit (exit_code : Z) : prog void := sys_exit exit_code.

Definition panic_handler (file : str) (line : Z) (msg : list frag) : prog void :=
  print (panic_message file line msg);; exit 1.
Definition panic_at {A} (file : str) (line : Z) (msg : list frag) : prog A :=
  v ← panic_handler file line msg; mret (never v).

(** A checked arithmetic result. *)
Definition checked_usize (file : str) (line : Z) (op : str) (x : Z) : prog Z :=
  if (0 <=? x) && (x <? 2 ^ 64) then mret x else panic_at file line [Str (lit "attempt to " ++ op ++ lit " with overflow")].
Definition checked_isize (file : str) (line : Z) (op : str) (x : Z) : prog Z :=
  if (- 2 ^ 63 <=? x) && (x <? 2 ^ 63) then mret x else panic_at file line [Str (lit "attempt to " ++ op ++ lit " with overflow")].

(** [_start] runs [main] and exits with its result; a program without [main] has
    that of the library. *)
Definition start (main : prog Z) : prog void := code ← main; exit code.
Definition weak_main : prog Z := panic_at (lit "src/lib.rs") 23 [Str (lit "Cannot find main!")].

(** ** Processes *)

Definition sched_yield : prog Z := sys_yield.
Definition getpid : prog Z := sys_getpid.
Definition fork : prog Z := sys_fork.
Definition exec (path : slice) : prog Z := sys_exec path.
Definition waitpid (pid : Z) (exit_code : option Z) (options : Z) : prog Z :=
  sys_waitpid pid (default 0 exit_code) options.
Definition wait (exit_code : option Z) : prog Z := waitpid (-1) exit_code 0.

(** A call with [Some(&mut x)] for an [i32] variable [x]: its new value comes with
    the answer. *)
Definition with_i32 (x : Z) (f : option Z -> prog Z) : prog (Z * Z) :=
  v ← place (le_enc 4 x);
  r ← f (Some v.1);
  bs ← ITree.trigger (Load v.1 4);
  mret (r, as_i32 (le_dec bs)).

(** ** The clock *)

Record TimeSpec : Type := mkTimeSpec { sec : Z; nsec : Z }.
Definition timespec_bytes (t : TimeSpec) : list Z := le_enc 8 (sec t) ++ le_enc 8 (nsec t).
Definition CLOCK_REALTIME : Z := 0.
Definition CLOCK_MONOTONIC : Z := 1.
Definition TIMER_ABSTIME : Z := 1.

Definition clock_gettime (clk req : Z) : prog Z := sys_clock_gettime clk req.
Definition get_time_us : prog Z :=
  req ← place (timespec_bytes (mkTimeSpec 0 0));
  ret ← clock_gettime CLOCK_REALTIME req.1;
  if ret <? 0 then mret ret
  else
    bs ← ITree.trigger (Load req.1 16);
    let t := mkTimeSpec (le_dec (take 8 bs)) (le_dec (drop 8 bs)) in
    us ← checked_usize (lit "src/time.rs") 29 (lit "multiply") (sec t * 1000000);
    us ← checked_usize (lit "src/time.rs") 29 (lit "add") (us + nsec t / 1000);
    mret (as_isize us).

Definition clock_nanosleep (clk flags req : Z) : prog Z := sys_clock_nanosleep clk flags req.
Definition nanosleep (t : TimeSpec) : prog Z :=
  req ← place (timespec_bytes t); clock_nanosleep CLOCK_REALTIME 0 req.1.
Definition usleep (useconds : Z) : prog Z :=
  nanosleep (mkTimeSpec (useconds / 1000000) (useconds mod 1000000 * 1000)).
Definition sleep (seconds : Z) : prog Z :=
  r ← nanosleep (mkTimeSpec seconds 0);
  mret (if negb (r =? 0) then as_isize seconds else 0).

(** ** Threads *)

(** The function at a code address. *)
Variable fn_at : Z -> Z -> prog Z.

(** The end of the child in the assembly stub: the function is called, and its
    result is the exit code; the registers that [exit] does not read are left out. *)
Definition child_runs (entry arg : Z) : prog Z :=
  ret ← fn_at entry arg;
  syscall SYSCALL_EXIT (as_usize ret) 0 0;;
  v ← ITree.trigger Beyond; mret (never v).

(** The stub aligns the new stack, saves what the child needs there, and traps with
    the new stack pointer in the first argument register; the second still holds
    [arg], and the third the stack pointer. *)
Definition sys_clone_x86_64 (entry arg newsp : Z) : prog Z :=
  let rdx := as_usize (Z.land newsp (-16) - 8) in
  ITree.trigger (Store rdx (le_enc 8 arg));;
  rax ← syscall SYSCALL_CLONE rdx arg rdx;
  if rax =? 0 then
    sp ← ITree.trigger Get_sp;
    rdi ← ITree.trigger (Load sp 8);
    child_runs entry (le_dec rdi)
  else mret rax.
Definition sys_clone_aarch64 (entry arg newsp : Z) : prog Z :=
  let x2 := as_usize (Z.land newsp (-16) - 16) in
  ITree.trigger (Store x2 (le_enc 8 entry ++ le_enc 8 arg));;
  x0 ← syscall SYSCALL_CLONE x2 arg x2;
  if x0 =? 0 then
    sp ← ITree.trigger Get_sp;
    saved ← ITree.trigger (Load sp 16);
    child_runs (le_dec (take 8 saved)) (le_dec (drop 8 saved))
  else mret x0.
Definition sys_clone_riscv (entry arg newsp : Z) : prog Z :=
  let a2 := as_usize (as_usize (Z.land newsp (-16)) - 16) in
  ITree.trigger (Store a2 (le_enc 8 entry));;
  ITree.trigger (Store (as_usize (a2 + 8)) (le_enc 8 arg));;
  a0 ← syscall SYSCALL_CLONE a2 arg a2;
  if a0 =? 0 then
    sp ← ITree.trigger Get_sp;
    a0 ← ITree.trigger (Load (as_usize (sp + 8)) 8);
    a1 ← ITree.trigger (Load sp 8);
    child_runs (le_dec a1) (le_dec a0)
  else mret a0.
Definition sys_clone_loongarch64 (entry arg newsp : Z) : prog Z :=
  panic_at (lit "src/arch/loongarch64.rs") 23 [Str (lit "not implemented")].
Definition sys_clone (entry arg newsp : Z) : prog Z :=
  match arch with
  | X86_64 => sys_clone_x86_64 entry arg newsp
  | AArch64 => sys_clone_aarch64 entry arg newsp
  | RiscV => sys_clone_riscv entry arg newsp
  | LoongArch64 => sys_clone_loongarch64 entry arg newsp
  end.

Definition MAX_THREADS : Z := 16.
Definition THREAD_STACK_SIZE : Z := 4096 * 4.
Definition thread_spawn (entry arg : Z) : prog Z :=
  thread_id ← ITree.trigger (Fetch_add THREAD_COUNT 1);
  (if thread_id <? MAX_THREADS then mret tt
   else panic_at (lit "src/lib.rs") 74
          [P (lit "index out of bounds: the len is "); Int MAX_THREADS; P (lit " but the index is "); Int thread_id]);;
  stacks ← ITree.trigger (Static THREAD_STACKS);
  sys_clone entry arg (stacks + (thread_id + 1) * THREAD_STACK_SIZE).
End UserLib.
