(* ===== verification/UserApps.v ===== *)
(** * The user programs

    The [main] of every program under [apps/nimbos/rust/src/bin], as a program of
    the user library. *)

From stdpp Require Import base list option strings.
From Stdlib Require Import ZArith Lia.
From ITree Require Import ITree.
From S2P Require Import Prelude Text Bytes UserLib.
Import ListNotations.
#[local] Open Scope Z_scope.

(** ** Loops and assertions *)

(** [for x in l]. *)
Fixpoint for_each {A} (l : list A) (body : A -> prog unit) : prog unit :=
  match l with [] => mret tt | x :: l => body x;; for_each l body end.
(** [for _ in 0..n] and [for i in a..b]. *)
Definition range (a b : Z) : list Z := map (fun i => a + Z.of_nat i) (seq 0 (Z.to_nat (b - a))).

Section Apps.
Variable arch : Arch.
Variable fn_at : Z -> Z -> prog Z.
(** The pieces of the [Debug] output of a string in [core]. *)
Variable debug_str : str -> list str.
Abbreviation print := (print arch).
Abbreviation println := (println arch).
Abbreviation panic_at := (panic_at arch).
Abbreviation fork := (fork arch).
Abbreviation getpid := (getpid arch).
Abbreviation sched_yield := (sched_yield arch).
Abbreviation wait := (wait arch).
Abbreviation waitpid := (waitpid arch).
Abbreviation get_time_us := (get_time_us arch).

(** [exit(code)] where the compiler knows that it does not return. *)
Definition exits {A} (code : Z) : prog A := v ← exit arch code; mret (never v).

Definition assert_that (file : str) (line : Z) (text : str) (b : bool) : prog unit :=
  if b then mret tt else panic_at file line [Str (lit "assertion failed: " ++ text)].
Definition assert_equal (file : str) (line left right : Z) : prog unit :=
  if left =? right then mret tt
  else panic_at file line [P (lit "assertion `left "); Str (lit "=="); P (lit " right` failed" ++ 10 :: lit "  left: "); Int left;
         P (10 :: lit " right: "); Int right].

(** ** hello_world, yield *)

Definition hello_world_main : prog Z := println [P (lit "Hello world from user mode program!")];; mret 0.

Definition yield_main : prog Z :=
  pid ← getpid; println [P (lit "Hello, I am process "); Int pid; P (lit ".")];;
  for_each (range 0 5) (fun i =>
    sched_yield;;
    pid ← getpid; println [P (lit "Back in process "); Int pid; P (lit ", iteration "); Int i; P (lit ".")]);;
  println [P (lit "yield passed!")];; mret 0.

(** ** exit *)

Definition MAGIC : Z := - 66436.
Definition exit_main : prog Z :=
  let file := lit "src/bin/exit.rs" in
  println [P (lit "I am the parent. Forking the child...")];;
  pid ← fork;
  (if pid =? 0 then
     println [P (lit "I am the child.")];;
     for_each (range 0 7) (fun _ => sched_yield;; mret tt);;
     exits MAGIC
   else println [P (lit "I am the parent, fork a child pid "); Int pid]);;
  println [P (lit "I am the parent, waiting now..")];;
  '(r, xstate) ← with_i32 0 (fun p => waitpid pid p 0);
  assert_that file 25 (lit "waitpid(pid, Some(&mut xstate), 0) == pid") (r =? pid);;
  assert_that file 26 (lit "xstate == MAGIC") (xstate =? MAGIC);;
  r ← waitpid pid None 0;
  assert_that file 27 (lit "waitpid(pid, None, 0) < 0") (r <? 0);;
  r ← wait None;
  assert_that file 28 (lit "wait(None) <= 0") (r <=? 0);;
  println [P (lit "waitpid "); Int pid; P (lit " ok.")];;
  println [P (lit "exit passed!")];; mret 0.

(** ** forktest, forktest2, forktest_simple *)

Definition MAX_CHILD : Z := 30.
Definition forktest_main : prog Z :=
  let file := lit "src/bin/forktest.rs" in
  for_each (range 0 MAX_CHILD) (fun i =>
    pid ← fork;
    (if pid =? 0 then println [P (lit "I am child "); Int i];; exits 0
     else println [P (lit "forked child pid = "); Int pid]);;
    assert_that file 21 (lit "pid > 0") (0 <? pid));;
  for_each (range 0 MAX_CHILD) (fun _ =>
    r ← wait None; if r <=? 0 then panic_at file 25 [Str (lit "wait stopped early")] else mret tt);;
  r ← wait None;
  (if 0 <? r then panic_at file 29 [Str (lit "wait got too many")] else mret tt);;
  println [P (lit "forktest passed!")];; mret 0.

(** [(t as i32 as isize) * (t as i32 as isize)], which fits an [isize]. *)
Definition square_i32 (t : Z) : Z := as_i32 t * as_i32 t.

Definition NUM : Z := 30.
Definition forktest2_main : prog Z :=
  let file := lit "src/bin/forktest2.rs" in
  for_each (range 0 NUM) (fun _ =>
    pid ← fork;
    if pid =? 0 then
      current_time ← get_time_us;
      let sleep_length := Z.rem (square_i32 current_time) 1000000 + 1000000 in
      pid ← getpid;
      println [P (lit "pid "); Int pid; P (lit " sleep for "); Int (Z.quot sleep_length 1000); P (lit " ms")];;
      usleep arch sleep_length;;
      pid ← getpid;
      now ← get_time_us;
      actual ← checked_isize arch file 25 (lit "subtract") (now - current_time);
      println [P (lit "pid "); Int pid; P (lit " OK! expect sleep "); Int (Z.quot sleep_length 1000);
               P (lit " ms, actual sleep "); Int (Z.quot actual 1000); P (lit " ms")];;
      exits 0
    else mret tt);;
  for_each (range 0 NUM) (fun _ =>
    '(r, exit_code) ← with_i32 0 wait;
    assert_that file 33 (lit "wait(Some(&mut exit_code)) > 0") (0 <? r);;
    assert_equal file 34 exit_code 0);;
  r ← wait None;
  assert_that file 36 (lit "wait(None) < 0") (r <? 0);;
  println [P (lit "forktest2 test passed!")];; mret 0.

Definition forktest_simple_main : prog Z :=
  pid ← getpid; println [P (lit "parent start, pid = "); Int pid; P (lit "!")];;
  pid ← fork;
  if pid =? 0 then
    me ← getpid; println [P (lit "hello child process, child pid = "); Int me; P (lit "!")];; mret 100
  else
    me ← getpid;
    println [P (lit "hello parent process, parent pid = "); Int me; P (lit ", child pid = "); Int pid; P (lit "!")];; mret 0.

(** ** forktree *)

Definition DEPTH : nat := 4.
(** [fork_tree] and [fork_child] call each other; a child's string is longer by
    one, and at the depth there are no children, so that [DEPTH] calls are enough. *)
Fixpoint fork_tree (fuel : nat) (cur : str) : prog unit :=
  pid ← getpid; println [P (lit "pid"); Int pid; P (lit ": "); Str cur];;
  let fork_child branch :=
    if (DEPTH <=? length cur)%nat then mret tt
    else
      pid ← fork;
      if pid =? 0 then
        match fuel with O => mret tt | S fuel => fork_tree fuel (cur ++ [branch]) end;; sched_yield;; exits 0
      else mret tt in
  fork_child 48;; fork_child 49.
Definition forktree_main : prog Z :=
  fork_tree DEPTH [];; sleep arch 3;; println [P (lit "forktree passed!")];; mret 0.

(** ** sleep, sleep_simple, stack_overflow *)

Definition sleepy : prog unit :=
  let time := 1 in
  for_each (range 0 5) (fun i =>
    sleep arch 1;; println [P (lit "sleep "); Int (i + 1); P (lit " x "); Int time; P (lit " seconds.")]);;
  exits 0.
Definition sleep_main : prog Z :=
  let file := lit "src/bin/sleep.rs" in
  current_time ← get_time_us;
  pid ← fork;
  (if pid =? 0 then sleepy else mret tt);;
  '(r, exit_code) ← with_i32 0 (fun p => waitpid pid p 0);
  assert_that file 26 (lit "waitpid(pid, Some(&mut exit_code), 0) == pid && exit_code == 0")
    ((r =? pid) && (exit_code =? 0));;
  now ← get_time_us;
  used ← checked_isize arch file 27 (lit "subtract") (now - current_time);
  println [P (lit "use "); Int used; P (lit " usecs.")];;
  println [P (lit "sleep passed!")];; mret 0.

Definition sleep_simple_main : prog Z :=
  let file := lit "src/bin/sleep_simple.rs" in
  println [P (lit "into sleep test!")];;
  start ← get_time_us;
  println [P (lit "current time_usec = "); Int start];;
  sleep arch 1;;
  stop ← get_time_us;
  delta ← checked_isize arch file 19 (lit "subtract") (stop - start);
  delta ← checked_isize arch file 19 (lit "subtract") (delta - 1000000);
  println [P (lit "time_msec = "); Int stop; P (lit " after sleeping 1 seconds, delta = "); Int delta; P (lit "us!")];;
  println [P (lit "simple_sleep passed!")];; mret 0.

(** The calls of [f] never return, so that they are a loop; each takes stack. *)
Definition stack_overflow_main : prog Z :=
  println [P (lit "It should trigger segmentation fault!")];;
  ITree.iter (fun d =>
    println [P (lit "d = "); Int d];;
    d ← checked_usize arch (lit "src/bin/stack_overflow.rs") 10 (lit "add") (d + 1);
    mret (inl d)) 0.

(** ** thread_simple *)

(** The body of the threads: the closure at the address [entry]. *)
Definition test_user_thread (arg : Z) : prog Z :=
  for_each (range 0 100) (fun _ =>
    value ← ITree.trigger (Fetch_add GLOBAL_VAR 100);
    pid ← getpid;
    sp ← ITree.trigger Get_sp;
    println [P (lit "test user thread: pid = "); Int pid; P (lit ", arg = "); Hex arg; P (lit ", sp = "); Hex sp;
             P (lit ", global_var = "); Int value]);;
  pid ← getpid; mret (as_i32 (- pid)).
Definition thread_simple_main (entry : Z) : prog Z :=
  t0 ← thread_spawn arch fn_at entry 57005;
  t1 ← thread_spawn arch fn_at entry 48879;
  '(_, exit_code) ← with_i32 0 (fun p => waitpid t0 p 0);
  println [P (lit "thread "); Int t0; P (lit " exited with "); Int exit_code; P (lit ".")];;
  '(_, exit_code) ← with_i32 exit_code (fun p => waitpid t1 p 0);
  println [P (lit "thread "); Int t1; P (lit " exited with "); Int exit_code; P (lit ".")];;
  println [P (lit "main thread exited.")];; mret 0.

(** ** fantastic_text *)

Definition ESC : Z := 27.
Definition color_text (text : str) (color : Z) : list frag :=
  [P (ESC :: lit "["); Int color; P (lit "m"); Str text; P (ESC :: lit "[0m")].
Definition fantastic : str :=
  lit "regular " ++ ESC :: lit "[4munderline" ++ ESC :: lit "[24m " ++ ESC :: lit "[7mreverse" ++ ESC :: lit "[27m "
  ++ ESC :: lit "[9mstrikethrough" ++ ESC :: lit "[29m".
Definition fantastic_text_main : prog Z :=
  println (color_text (lit "H") 31 ++ color_text (lit "e") 32 ++ color_text (lit "l") 33 ++ color_text (lit "l") 34
    ++ color_text (lit "o") 35 ++ color_text (lit ",") 36 ++ [P (lit " ")] ++ color_text (lit "R") 37
    ++ color_text (lit "u") 90 ++ color_text (lit "s") 91 ++ color_text (lit "t") 92 ++ [P (lit " ")]
    ++ color_text (lit "O") 93 ++ color_text (lit "S") 94 ++ color_text (lit "e") 95 ++ color_text (lit "s") 96
    ++ color_text (lit "!") 97);;
  println ([P (ESC :: lit "[47m")] ++ color_text fantastic 30 ++ [P (ESC :: lit "[0m")]);;
  for_each (range 31 38) (fun i => println (color_text fantastic i));;
  for_each (range 90 98) (fun i => println (color_text fantastic i));;
  mret 0.

(** ** usertests *)

Definition TESTS : list str := map (fun n => n ++ [0])
  [lit "exit"; lit "fantastic_text"; lit "forktest"; lit "forktest2"; lit "forktest_simple"; lit "hello_world"; lit "matrix";
   lit "sleep"; lit "sleep_simple"; lit "stack_overflow"; lit "yield"; lit "thread_simple"; lit "cyclictest"].
Definition usertests_main : prog Z :=
  let file := lit "src/bin/usertests.rs" in
  for_each TESTS (fun test =>
    println [P (lit "Usertests: Running '"); Str test; P (lit "':")];;
    pid ← fork;
    if pid =? 0 then
      path ← place (encode_utf8 test);
      r ← exec arch path;
      if r =? -1 then panic_at file 32 [P (lit "usertest '"); Str test; P (lit "' not found!")]
      else panic_at file 34 [Str (lit "unreachable!")]
    else
      '(wait_pid, exit_code) ← with_i32 0 (fun p => waitpid pid p 0);
      assert_equal file 39 pid wait_pid;;
      let color := if exit_code =? 0 then 32 else 31 in
      println [P (ESC :: lit "["); Int color; P (lit "mUsertests: Test '"); Str test; P (lit "' in Process "); Int pid;
               P (lit " exited with code "); Int exit_code; P (lit "." ++ ESC :: lit "[0m")]);;
  println [P (lit "usertests passed!")];; mret 0.
End Apps.
