(* ===== verification/UserMatrix.v ===== *)
(** * The matrix program

    [apps/nimbos/rust/src/bin/matrix.rs]: thirty children square a matrix of ones
    modulo a prime, each a number of times that depends on the clock.  An [i32]
    operation that overflows panics, so a round has an outcome. *)

From stdpp Require Import base list option strings sets.
From Stdlib Require Import ZArith Lia Zdiv.
From ITree Require Import ITree.
From S2P Require Import Prelude Text Bytes UserLib UserApps.
Import ListNotations.
#[local] Open Scope Z_scope.

Definition N : Z := 10.
Definition modulus : Z := 10007.
Definition Arr : Type := list (list Z).
Definition at_ (a : Arr) (i j : Z) : Z := nth (Z.to_nat j) (nth (Z.to_nat i) a []) 0.
Definition constant (x : Z) : Arr := replicate (Z.to_nat N) (replicate (Z.to_nat N) x).

(** An [i32] result; [Err] names the operation that overflows. *)
Definition in_i32 (op : str) (x : Z) : outcome str Z :=
  if (- 2 ^ 31 <=? x) && (x <? 2 ^ 31) then Ok x else Err op.

(** [c[i][j] = (c[i][j] + a[i][k] * b[k][j]) % P] for [k] from 0, with [c[i][j]]
    zero at first. *)
Definition mac (a b : Arr) (i j c k : Z) : outcome str Z :=
  p ← in_i32 (lit "multiply") (at_ a i k * at_ b k j);
  s ← in_i32 (lit "add") (c + p);
  mret (Z.rem s modulus).
Fixpoint fold_out (f : Z -> Z -> outcome str Z) (l : list Z) (c : Z) : outcome str Z :=
  match l with [] => mret c | k :: l => c ← f c k; fold_out f l c end.
Definition cell (a b : Arr) (i j : Z) : outcome str Z := fold_out (mac a b i j) (range 0 N) 0.
(** One round: [c] is computed, then [a] and [b] are overwritten with it. *)
Definition round (a b : Arr) : outcome str Arr :=
  mapM (fun i => mapM (cell a b i) (range 0 N)) (range 0 N).
Fixpoint rounds (times : nat) (a b : Arr) : outcome str Arr :=
  match times with O => mret a | S n => c ← round a b; rounds n c c end.

Section Work.
Variable arch : Arch.

Definition work (times : Z) : prog unit :=
  sched_yield arch;;
  pid ← getpid arch;
  println arch [P (lit "pid "); Int pid; P (lit " is running ("); Int times; P (lit " times)!.")];;
  (match rounds (Z.to_nat times) (constant 1) (constant 1) with
   | Ok _ => mret tt
   | Err op => panic_at arch (lit "src/bin/matrix.rs") 33 [Str (lit "attempt to " ++ op ++ lit " with overflow")]
   | Panic => mret tt
   end);;
  pid ← getpid arch;
  println arch [P (lit "pid "); Int pid; P (lit " done!.")];;
  exits arch 0.

Definition matrix_main : prog Z :=
  let file := lit "src/bin/matrix.rs" in
  for_each (range 0 NUM) (fun _ =>
    pid ← fork arch;
    if pid =? 0 then
      current_time ← get_time_us arch;
      let times := Z.rem (square_i32 current_time) 1000 in
      work (times * 10)
    else mret tt);;
  println arch [P (lit "fork ok.")];;
  for_each (range 0 NUM) (fun _ =>
    r ← wait arch None; if r <? 0 then panic_at arch file 63 [Str (lit "wait failed.")] else mret tt);;
  r ← wait arch None;
  assert_that arch file 66 (lit "wait(None) < 0") (r <? 0);;
  println arch [P (lit "matrix passed!")];; mret 0.
End Work.

(** ** Theorems *)

Lemma at_constant x i j : 0 <= i < N -> 0 <= j < N -> at_ (constant x) i j = x.
Proof.
  intros Hi Hj. unfold at_, constant, N in *. rewrite (nth_lookup_Some _ _ _ (replicate (Z.to_nat 10) x)).
  - rewrite (nth_lookup_Some _ _ _ x); [done|]. apply lookup_replicate. split; [done|lia].
  - apply lookup_replicate. split; [done|lia].
Qed.

Lemma range_elem i : i ∈ range 0 N -> 0 <= i < N.
Proof. unfold range. rewrite list_elem_of_fmap. intros (k & -> & Hk). apply elem_of_seq in Hk. unfold N in *. lia. Qed.

Lemma mac_constant x c i j k : 0 <= x < modulus -> 0 <= c < modulus -> 0 <= i < N -> 0 <= j < N -> 0 <= k < N ->
  mac (constant x) (constant x) i j c k = Ok ((c + x * x) mod modulus).
Proof.
  intros Hx Hc Hi Hj Hk. unfold mac. rewrite !at_constant by done. unfold in_i32, modulus in *.
  assert (0 <= x * x <= 10006 * 10006) by nia.
  replace (_ && _) with true by (symmetry; apply andb_true_intro; split; [apply Z.leb_le|apply Z.ltb_lt]; lia). simpl.
  replace (_ && _) with true by (symmetry; apply andb_true_intro; split; [apply Z.leb_le|apply Z.ltb_lt]; lia). simpl.
  by rewrite Z.rem_mod_nonneg by lia.
Qed.

Lemma fold_constant x i j : 0 <= x < modulus -> 0 <= i < N -> 0 <= j < N ->
  forall l c, 0 <= c < modulus -> Forall (fun k => 0 <= k < N) l ->
  fold_out (mac (constant x) (constant x) i j) l c = Ok ((c + Z.of_nat (length l) * (x * x)) mod modulus).
Proof.
  intros Hx Hi Hj l. induction l as [|k l IH]; intros c Hc Hl; simpl.
  - unfold mret, outcome_ret. f_equal. rewrite Z.add_0_r. symmetry. by apply Z.mod_small.
  - inversion Hl; subst. rewrite mac_constant by done. simpl. rewrite IH; [|apply Z.mod_pos_bound; done|done].
    f_equal. rewrite Zplus_mod_idemp_l. f_equal. lia.
Qed.

Lemma mapM_constant {A B} (f : A -> outcome str B) (b : B) l : (forall x, x ∈ l -> f x = Ok b) -> mapM f l = Ok (replicate (length l) b).
Proof.
  induction l as [|x l IH]; intros Hf; simpl; [done|]. rewrite Hf by set_solver. simpl. rewrite IH; [done|]. set_solver.
Qed.

Lemma round_constant x : 0 <= x < modulus -> round (constant x) (constant x) = Ok (constant ((N * (x * x)) mod modulus)).
Proof.
  intros Hx. unfold round. rewrite (mapM_constant _ (replicate (Z.to_nat N) ((N * (x * x)) mod modulus))); [done|].
  intros i Hi%range_elem. rewrite (mapM_constant _ ((N * (x * x)) mod modulus)); [done|].
  intros j Hj%range_elem. unfold cell. rewrite (fold_constant x i j); [done..|].
  apply Forall_forall. intros k Hk. by apply range_elem.
Qed.

(** C39: however many rounds a child is told to make, no operation overflows, and
    the matrix is constant: after [n] rounds every entry is [10 ^ (2 ^ n - 1)]
    modulo 10007. *)
Theorem matrix_rounds n :
  rounds n (constant 1) (constant 1) = Ok (constant (10 ^ (2 ^ Z.of_nat n - 1) mod modulus)).
Proof.
  assert (forall n e, 0 <= e -> rounds n (constant (10 ^ e mod modulus)) (constant (10 ^ e mod modulus)) =
    Ok (constant (10 ^ ((e + 1) * 2 ^ Z.of_nat n - 1) mod modulus))) as Hr.
  { clear n. induction n as [|n IH]; intros e He; simpl.
    - unfold mret, outcome_ret. do 4 f_equal. lia.
    - rewrite round_constant by (apply Z.mod_pos_bound; done). simpl.
      replace ((N * (10 ^ e mod modulus * (10 ^ e mod modulus))) mod modulus) with (10 ^ (2 * e + 1) mod modulus).
      + rewrite IH by lia. do 4 f_equal. change (Z.pos (Pos.of_succ_nat n)) with (Z.of_nat (S n)).
        rewrite Nat2Z.inj_succ, Z.pow_succ_r by lia. lia.
      + symmetry. rewrite <- (Zmult_mod_idemp_r (_ * _)), <- Zmult_mod, Zmult_mod_idemp_r. unfold N. f_equal.
        rewrite Z.pow_add_r, Z.mul_comm, Z.pow_1_r by lia. f_equal. rewrite <- Z.pow_add_r by lia. f_equal. lia. }
  specialize (Hr n 0 (Z.le_refl 0)). rewrite Z.pow_0_r, Z.mod_small in Hr by done. rewrite Hr. do 4 f_equal. lia.
Qed.
