(* ===== verification/UserShell.v ===== *)
(** * The shell

    [apps/nimbos/rust/src/bin/user_shell.rs]: a line editor that runs each line as
    a program.  The loop does not end by itself, so it is an iteration over the
    line and the cursor. *)

From stdpp Require Import base list gmap option strings sets.
From Stdlib Require Import ZArith Lia Morphisms.
From ITree Require Import ITree ITreeFacts Events.State Events.StateFacts.
From S2P Require Import Prelude Text Bytes AddrSpace Ptr UserLib UserApps.
Import ListNotations.
#[local] Open Scope Z_scope.

Definition LF : Z := 10.
Definition CR : Z := 13.
Definition DL : Z := 127.
Definition BS : Z := 8.
Definition MAX_CMD_LEN : nat := 256.

Section Shell.
Variable arch : Arch.
(** The pieces of [core]'s [Debug] output of a string and of a [Utf8Error]. *)
Variable debug_str : str -> list str.
Variable utf8_error : list Z -> list str.
Abbreviation file := (lit "src/bin/user_shell.rs").
Abbreviation print := (print arch).
Abbreviation println := (println arch).
Abbreviation panic_at := (panic_at arch).

(** [line[i] = c]. *)
Definition set_at (src_line : Z) (line : list Z) (i : nat) (c : Z) : prog (list Z) :=
  if (i <? MAX_CMD_LEN)%nat then mret (<[i := c]> line)
  else panic_at file src_line
         [P (lit "index out of bounds: the len is "); Int (Z.of_nat MAX_CMD_LEN); P (lit " but the index is "); Int (Z.of_nat i)].

(** The child: [Some] code to return from [main]. *)
Definition run_command (line : list Z) (cursor : nat) : prog Z :=
  path ← match decode_utf8 (take cursor line) with
         | Some path => mret path
         | None => panic_at file 33 [P (lit "called `Result::unwrap()` on an `Err` value: "); Debug (utf8_error (take cursor line))]
         end;
  p ← place line;
  r ← exec arch (p.1, Z.of_nat cursor);
  if r <? 0 then println [P (lit "command not found: "); Debug (debug_str path)];; mret (-4)
  else panic_at file 38 [Str (lit "internal error: entered unreachable code")].

(** One key: the next line and cursor, or the result of [main]. *)
Definition shell_key (line : list Z) (cursor : nat) (c : Z) : prog ((list Z * nat) + Z) :=
  if (c =? LF) || (c =? CR) then
    println [];;
    if (0 <? cursor)%nat then
      line ← set_at 29 line cursor 0;
      pid ← fork arch;
      if pid =? 0 then code ← run_command line cursor; mret (inr code)
      else
        '(exit_pid, exit_code) ← with_i32 0 (fun p => waitpid arch pid p 0);
        assert_equal arch file 42 pid exit_pid;;
        println [P (lit "Shell: Process "); Int pid; P (lit " exited with code "); Int exit_code];;
        print [P (lit ">> ")];; mret (inl (line, 0%nat))
    else print [P (lit ">> ")];; mret (inl (line, cursor))
  else if (c =? BS) || (c =? DL) then
    if (0 <? cursor)%nat then
      print [Char BS];; print [P (lit " ")];; print [Char BS];; mret (inl (line, (cursor - 1)%nat))
    else mret (inl (line, cursor))
  else
    print [Char c];;
    line ← set_at 59 line cursor c;
    mret (inl (line, S cursor)).

Definition shell_loop : list Z * nat -> prog Z :=
  ITree.iter (fun s => c ← getchar arch; shell_key s.1 s.2 c).
Definition user_shell_main : prog Z :=
  println [P (lit "Rust user shell")];;
  print [P (lit ">> ")];;
  shell_loop (replicate MAX_CMD_LEN 0, 0%nat).
End Shell.

(** ** What the shell asks of the kernel

    The shell is run with any answers of the kernel: a read of one byte gets the next
    key that is typed, a write is shown, and [fork], [waitpid] and [exec] are answered
    by whatever the lists say, [waitpid] storing the status where it is told.  What the
    shell asked for is recorded: the processes it waited for, and the strings, up to
    their zero bytes, that it wanted to run.  A kernel that does not answer, or a call
    that the shell does not make, is a program that does not go on. *)
Record kernel : Type := mkKernel {
  k_forks : list Z; k_exits : list (Z * Z); k_found : Z; k_waits : list Z; k_execs : list (list Z)
}.
Record world : Type := mkWorld { w_mem : umem; w_next : Z; w_keys : list Z; w_screen : list Z; w_k : kernel }.

Fixpoint cstr (bs : list Z) : list Z :=
  match bs with [] => [] | b :: bs => if b =? 0 then [] else b :: cstr bs end.

Section World.
Variable arch : Arch.

Definition set_mem (m : umem) (w : world) : world := mkWorld m (w_next w) (w_keys w) (w_screen w) (w_k w).
Definition set_kernel (k : kernel) (w : world) : world := mkWorld (w_mem w) (w_next w) (w_keys w) (w_screen w) k.

Definition answered (id a0 a1 a2 : Z) (w : world) : itree void1 (world * Z) :=
  let k := w_k w in
  if id =? SYSCALL_READ arch then
    match w_keys w with
    | c :: keys => Ret (mkWorld (mem_write (w_mem w) a1 [c]) (w_next w) keys (w_screen w) k, 1)
    | [] => ITree.spin
    end
  else if id =? SYSCALL_WRITE arch then
    Ret (mkWorld (w_mem w) (w_next w) (w_keys w) (w_screen w ++ mem_read (w_mem w) a1 (Z.to_nat a2)) k, a2)
  else if id =? SYSCALL_WAITPID arch then
    match k_exits k with
    | (pid, status) :: l =>
        Ret (set_mem (mem_write (w_mem w) a1 (le_enc 4 (as_u32 status)))
               (set_kernel (mkKernel (k_forks k) l (k_found k) (k_waits k ++ [as_isize a0]) (k_execs k)) w), pid)
    | [] => ITree.spin
    end
  else if id =? SYSCALL_EXEC arch then
    Ret (set_kernel (mkKernel (k_forks k) (k_exits k) (k_found k) (k_waits k)
                       (k_execs k ++ [cstr (mem_read (w_mem w) a0 MAX_CMD_LEN)])) w, k_found k)
  else if id =? SYSCALL_FORK arch then
    match k_forks k with
    | pid :: l => Ret (set_kernel (mkKernel l (k_exits k) (k_found k) (k_waits k) (k_execs k)) w, pid)
    | [] => ITree.spin
    end
  else ITree.spin.

Definition handle (R : Type) (e : userE R) : Monads.stateT world (itree void1) R :=
  match e in userE R return Monads.stateT world (itree void1) R with
  | Trap id a0 a1 a2 => answered id a0 a1 a2
  | Data bs => fun w =>
      Ret (mkWorld (mem_write (w_mem w) (w_next w) bs) (w_next w + Z.of_nat (length bs)) (w_keys w) (w_screen w) (w_k w), w_next w)
  | Load a n => fun w => Ret (w, mem_read (w_mem w) a n)
  | Store a bs => fun w => Ret (set_mem (mem_write (w_mem w) a bs) w, tt)
  | _ => fun _ => ITree.spin
  end.

(** [p] ends in [w'] with the result [r]. *)
Definition ends {R} (p : prog R) (w : world) (r : R) (w' : world) : Prop :=
  eutt eq (interp_state handle p w) (Ret (w', r)).

Lemma ends_ret {R} (r : R) w : ends (mret r) w r w.
Proof. unfold ends, mret, prog_ret. rewrite interp_state_ret. reflexivity. Qed.
Lemma ends_bind {A B} (m : prog A) (f : A -> prog B) w a w1 b w2 :
  ends m w a w1 -> ends (f a) w1 b w2 -> ends (m ≫= f) w b w2.
Proof.
  unfold ends, mbind, prog_bind. intros Hm Hf. rewrite interp_state_bind, Hm, bind_ret_l. exact Hf.
Qed.
Lemma ends_event {R} (e : userE R) w r w' : handle R e w = Ret (w', r) -> ends (ITree.trigger e) w r w'.
Proof. unfold ends. intros He. rewrite interp_state_trigger, He. reflexivity. Qed.
Lemma ends_again {A B} (body : A -> prog (A + B)) a a' w w1 b w2 :
  ends (body a) w (inl a') w1 -> ends (ITree.iter body a') w1 b w2 -> ends (ITree.iter body a) w b w2.
Proof.
  unfold ends. intros Hb Hi. rewrite unfold_iter, interp_state_bind, Hb, bind_ret_l. simpl.
  rewrite interp_state_tau, tau_eutt. exact Hi.
Qed.
Lemma ends_stop {A B} (body : A -> prog (A + B)) a w b w1 :
  ends (body a) w (inr b) w1 -> ends (ITree.iter body a) w b w1.
Proof. unfold ends. intros Hb. rewrite unfold_iter, interp_state_bind, Hb, bind_ret_l. simpl. by rewrite interp_state_ret. Qed.

(** *** The calls of the shell *)

Definition shows (w w' : world) (bs : list Z) : Prop :=
  w_screen w' = w_screen w ++ bs /\ w_keys w' = w_keys w /\ w_k w' = w_k w.

Lemma place_ends bs w : exists w' a, ends (place bs) w (a, Z.of_nat (length bs)) w' /\ shows w w' [] /\
  mem_read (w_mem w') a (length bs) = bs.
Proof.
  eexists _, _. split; [|split].
  - eapply ends_bind; [by apply ends_event|apply ends_ret].
  - split_and!; [|done..]. simpl. by rewrite app_nil_r.
  - simpl. apply mem_read_write.
Qed.
Lemma write_ends fd a n w : exists w', ends (write arch fd (a, n)) w n w' /\ shows w w' (mem_read (w_mem w) a (Z.to_nat n)).
Proof. eexists. split; [apply ends_event; simpl; unfold answered; by destruct arch|done]. Qed.
Lemma write_str_ends s w : exists w', ends (write_str arch s) w tt w' /\ shows w w' (encode_utf8 s).
Proof.
  destruct (place_ends (encode_utf8 s) w) as (w1 & a & E1 & (S1 & K1 & X1) & M1).
  destruct (write_ends STDOUT a (Z.of_nat (length (encode_utf8 s))) w1) as (w2 & E2 & S2 & K2 & X2).
  exists w2. split; [by repeat (eapply ends_bind; [eassumption|]); apply ends_ret|].
  rewrite Nat2Z.id, M1 in S2. rewrite app_nil_r in S1. split_and!; congruence.
Qed.
(** What a format puts on the screen. *)
Definition text (l : list frag) : list Z := List.concat (List.map encode_utf8 (fmt l)).
Lemma print_ends l w : exists w', ends (print arch l) w tt w' /\ shows w w' (text l).
Proof.
  unfold print, text. generalize (fmt l). clear l. intros l. revert w. induction l as [|s l IH]; intros w; simpl.
  - exists w. split; [apply ends_ret|]. split_and!; [by rewrite app_nil_r|done..].
  - destruct (write_str_ends s w) as (w1 & E1 & S1 & K1 & X1). destruct (IH w1) as (w2 & E2 & S2 & K2 & X2).
    exists w2. split; [by eapply ends_bind|]. split_and!; [by rewrite S2, S1, <- app_assoc|congruence..].
Qed.
Lemma getchar_ends w c keys : w_keys w = c :: keys -> exists w', ends (getchar arch) w c w' /\
  w_keys w' = keys /\ w_screen w' = w_screen w /\ w_k w' = w_k w.
Proof.
  intros Hk. destruct (place_ends [0] w) as (w1 & a & E1 & (S1 & K1 & X1) & _). rewrite Hk in K1. rewrite app_nil_r in S1.
  eexists. split.
  - eapply ends_bind; [exact E1|]. eapply ends_bind.
    { apply ends_event. simpl. unfold answered. rewrite K1. by destruct arch. }
    eapply ends_bind; [by apply ends_event|]. cbn [w_mem fst]. change 1%nat with (length [c]).
    rewrite mem_read_write. apply ends_ret.
  - simpl. split_and!; [done|exact S1|exact X1].
Qed.
Lemma fork_ends w pid l : k_forks (w_k w) = pid :: l -> exists w', ends (fork arch) w pid w' /\
  w_keys w' = w_keys w /\ w_screen w' = w_screen w /\
  w_k w' = mkKernel l (k_exits (w_k w)) (k_found (w_k w)) (k_waits (w_k w)) (k_execs (w_k w)).
Proof.
  intros Hf. eexists. split; [apply ends_event; simpl; unfold answered; rewrite Hf; by destruct arch|done].
Qed.
(** The status that the kernel stores is what the caller of [waitpid] finds. *)
Lemma waitpid_ends w x pid r status l : is_i64 x -> is_i32 status -> k_exits (w_k w) = (r, status) :: l ->
  exists w', ends (with_i32 pid (fun p => waitpid arch x p 0)) w (r, status) w' /\
  w_keys w' = w_keys w /\ w_screen w' = w_screen w /\
  w_k w' = mkKernel (k_forks (w_k w)) l (k_found (w_k w)) (k_waits (w_k w) ++ [x]) (k_execs (w_k w)).
Proof.
  intros Hx Hs Hk. destruct (place_ends (le_enc 4 pid) w) as (w1 & a & E1 & (S1 & K1 & X1) & _). rewrite app_nil_r in S1.
  assert (as_isize (as_usize x) = x) as Ex.
  { unfold as_isize, as_usize, swrap, wrap, is_i64 in *. change (64 - 1) with 63.
    rewrite Zplus_mod_idemp_l, Z.mod_small by lia. lia. }
  assert (as_i32 (le_dec (le_enc 4 (as_u32 status))) = status) as Es.
  { rewrite le_dec_enc_small by (unfold as_u32, wrap; apply Z.mod_pos_bound; lia).
    unfold as_i32, as_u32, swrap, wrap, is_i32 in *. change (32 - 1) with 31. rewrite Zplus_mod_idemp_l, Z.mod_small by lia. lia. }
  eexists. split.
  - unfold with_i32. eapply ends_bind; [exact E1|]. eapply ends_bind.
    { apply ends_event. simpl. unfold answered. rewrite X1, Hk. by destruct arch. }
    eapply ends_bind; [by apply ends_event|]. cbn [w_mem fst snd set_mem set_kernel].
    pose proof (mem_read_write (w_mem w1) a (le_enc 4 (as_u32 status))) as Hm. rewrite le_enc_length in Hm.
    rewrite Hm, Es. apply ends_ret.
  - cbn [w_keys w_screen w_k set_mem set_kernel]. rewrite Ex. by split_and!.
Qed.

(** ** What the shell does with a line *)

(** A terminal line: a key is appended, and backspace takes the last one away. *)
Definition edit (l : list Z) (c : Z) : list Z := if (c =? BS) || (c =? DL) then removelast l else l ++ [c].
Definition typed (ks : list Z) : list Z := fold_left edit ks [].
Definition echo (l : list Z) (c : Z) : list Z :=
  if (c =? BS) || (c =? DL) then (if bool_decide (l = []) then [] else [BS; 32; BS]) else encode_char c.
Fixpoint echoes (l ks : list Z) : list Z :=
  match ks with [] => [] | c :: ks => echo l c ++ echoes (edit l c) ks end.

Variable debug_str : str -> list str.
Variable utf8_error : list Z -> list str.
Abbreviation shell_key := (shell_key arch debug_str utf8_error).
Abbreviation shell_loop := (shell_loop arch debug_str utf8_error).

(** The line of the shell that stands for [l]. *)
Definition holds_line (line : list Z) (cursor : nat) (l : list Z) : Prop :=
  length line = MAX_CMD_LEN /\ cursor = length l /\ take cursor line = l.

Lemma take_insert_snoc (line : list Z) i c : (i < length line)%nat -> take (S i) (<[i := c]> line) = take i line ++ [c].
Proof.
  intros Hi. rewrite (take_S_r _ _ c) by (by apply list_lookup_insert_eq). by rewrite take_insert_ge.
Qed.

Lemma key_ends line cursor l c w : holds_line line cursor l -> c <> LF -> c <> CR -> (length l < MAX_CMD_LEN)%nat ->
  exists line' cursor' w', ends (shell_key line cursor c) w (inl (line', cursor')) w' /\ holds_line line' cursor' (edit l c) /\
    shows w w' (echo l c).
Proof.
  intros (Hlen & -> & Ht) Hlf Hcr Hmax. unfold UserShell.shell_key, edit, echo.
  rewrite (proj2 (Z.eqb_neq c LF)), (proj2 (Z.eqb_neq c CR)) by done. simpl.
  destruct ((c =? BS) || (c =? DL)) eqn:Eb.
  - destruct (Nat.ltb_spec 0 (length l)) as [Hl|Hl].
    + destruct (print_ends [Char BS] w) as (w1 & E1 & S1 & K1 & X1).
      destruct (print_ends [P (lit " ")] w1) as (w2 & E2 & S2 & K2 & X2).
      destruct (print_ends [Char BS] w2) as (w3 & E3 & S3 & K3 & X3).
      eexists _, _, w3. split; [by repeat (eapply ends_bind; [eassumption|]); apply ends_ret|]. split.
      * split_and!; [done| |].
        -- destruct l as [|x l] using rev_ind; [simpl in Hl; lia|]. rewrite removelast_last, length_app. simpl. lia.
        -- rewrite removelast_firstn_len. transitivity (take (pred (length l)) (take (length l) line)); [|by rewrite Ht].
           rewrite take_take. f_equal. lia.
      * rewrite bool_decide_eq_false_2 by (intros ->; simpl in Hl; lia). split_and!; [|congruence..].
        rewrite S3, S2, S1, <- !app_assoc. done.
    + destruct l; [|simpl in Hl; lia]. eexists _, _, w. split; [apply ends_ret|]. split; [done|].
      split_and!; [by rewrite app_nil_r|done..].
  - destruct (print_ends [Char c] w) as (w1 & E1 & S1 & K1 & X1).
    eexists _, _, w1. split; [|split].
    + eapply ends_bind; [exact E1|]. unfold set_at. rewrite (proj2 (Nat.ltb_lt _ _)) by done.
      eapply ends_bind; [apply ends_ret|]. apply ends_ret.
    + split_and!; [by rewrite length_insert|rewrite length_app; simpl; lia|].
      rewrite take_insert_snoc by lia. by rewrite Ht.
    + split_and!; [|done..]. rewrite S1. f_equal. unfold text. simpl. unfold encode_utf8. simpl. by rewrite !app_nil_r.
Qed.

Lemma keys_end rest ks : forall line cursor l w, holds_line line cursor l -> LF ∉ ks -> CR ∉ ks ->
  (forall n, length (fold_left edit (take n ks) l) < MAX_CMD_LEN)%nat -> w_keys w = ks ++ rest ->
  exists line' cursor' w', holds_line line' cursor' (fold_left edit ks l) /\ w_keys w' = rest /\
    w_screen w' = w_screen w ++ echoes l ks /\ w_k w' = w_k w /\
    forall r w2, ends (shell_loop (line', cursor')) w' r w2 -> ends (shell_loop (line, cursor)) w r w2.
Proof.
  induction ks as [|c ks IH]; intros line cursor l w Hl Hlf Hcr Hn Hk; simpl.
  - eexists _, _, w. split_and!; [exact Hl|done|by rewrite app_nil_r|done|auto].
  - destruct (getchar_ends w c (ks ++ rest) Hk) as (w1 & E1 & K1 & S1 & X1).
    destruct (key_ends line cursor l c w1 Hl) as (line1 & cursor1 & w2 & E2 & Hl2 & S2 & K2 & X2); [set_solver..|exact (Hn 0%nat)|].
    destruct (IH line1 cursor1 (edit l c) w2) as (line3 & cursor3 & w3 & Hl3 & K3 & S3 & X3 & Hgo); [done|set_solver..| |congruence|].
    + intros n. exact (Hn (S n)).
    + exists line3, cursor3, w3. split_and!; [done|done|by rewrite S3, S2, S1, <- app_assoc|congruence|].
      intros r w4 He. eapply ends_again; [|by apply Hgo]. by eapply ends_bind.
Qed.

Lemma cstr_app l rest : 0 ∉ l -> cstr (l ++ 0 :: rest) = l.
Proof.
  induction l as [|b l IH]; simpl; [done|]. intros Hb. rewrite (proj2 (Z.eqb_neq b 0)) by set_solver.
  f_equal. apply IH. set_solver.
Qed.

Lemma command_ends line cursor l path w :
  holds_line line cursor l -> (cursor < MAX_CMD_LEN)%nat -> decode_utf8 l = Some path -> 0 ∉ l -> line !! cursor = Some 0 ->
  k_found (w_k w) < 0 ->
  exists w', ends (run_command arch debug_str utf8_error line cursor) w (-4) w' /\
    k_execs (w_k w') = k_execs (w_k w) ++ [l] /\ k_waits (w_k w') = k_waits (w_k w) /\
    w_screen w' = w_screen w ++ text [P (lit "command not found: "); Debug (debug_str path); P [10]].
Proof.
  intros (Hlen & -> & Ht) Hc Hd H0 Hz Hneg. unfold run_command. rewrite Ht, Hd.
  destruct (place_ends line w) as (w1 & a & E1 & (S1 & K1 & X1) & M1).
  set (w2 := set_kernel (mkKernel (k_forks (w_k w1)) (k_exits (w_k w1)) (k_found (w_k w1)) (k_waits (w_k w1)) (k_execs (w_k w1) ++ [l])) w1).
  assert (ends (exec arch (a, Z.of_nat (length l))) w1 (k_found (w_k w1)) w2) as E2.
  { apply ends_event. simpl. unfold answered. rewrite <- Hlen, M1.
    rewrite <- (take_drop_middle _ _ _ Hz), Ht, cstr_app by done. by destruct arch. }
  destruct (print_ends (ln [P (lit "command not found: "); Debug (debug_str path)]) w2) as (w3 & E3 & S3 & K3 & X3).
  exists w3. split_and!.
  - eapply ends_bind; [apply ends_ret|]. eapply ends_bind; [exact E1|]. eapply ends_bind; [exact E2|].
    rewrite X1, (proj2 (Z.ltb_lt _ _)) by done. eapply ends_bind; [exact E3|]. apply ends_ret.
  - rewrite X3. simpl. by rewrite X1.
  - rewrite X3. simpl. by rewrite X1.
  - rewrite S3. simpl. rewrite S1, app_nil_r. done.
Qed.

(** *** A line that the parent sees through

    The keys of a line and the one that ends it, and what the kernel answers: the
    number of the child and its status.  Nothing is asked for an empty line. *)
Record session_line : Type := mkLine { l_keys : list Z; l_end : Z; l_pid : Z; l_status : Z }.
Definition keys_ok (ks : list Z) (e : Z) : Prop :=
  LF ∉ ks /\ CR ∉ ks /\ (forall n, length (typed (take n ks)) < MAX_CMD_LEN)%nat /\ (e = LF \/ e = CR).
Definition line_ok (l : session_line) : Prop :=
  keys_ok (l_keys l) (l_end l) /\ l_pid l <> 0 /\ is_i64 (l_pid l) /\ is_i32 (l_status l).
Definition asked {A} (x : session_line -> A) (l : session_line) : list A :=
  if bool_decide (typed (l_keys l) = []) then [] else [x l].
Definition line_screen (l : session_line) : list Z :=
  echoes [] (l_keys l) ++ [10] ++
  List.concat (asked (fun l => text [P (lit "Shell: Process "); Int (l_pid l); P (lit " exited with code "); Int (l_status l); P [10]]) l) ++
  lit ">> ".

(** The end key of a line, at the parent. *)
Lemma newline_ends line cursor (l : session_line) w rest_f rest_e :
  line_ok l -> holds_line line cursor (typed (l_keys l)) ->
  k_forks (w_k w) = asked l_pid l ++ rest_f -> k_exits (w_k w) = asked (fun l => (l_pid l, l_status l)) l ++ rest_e ->
  exists line' w', ends (shell_key line cursor (l_end l)) w (inl (line', 0%nat)) w' /\ length line' = MAX_CMD_LEN /\
    w_keys w' = w_keys w /\
    w_screen w' = w_screen w ++ [10] ++
      List.concat (asked (fun l => text [P (lit "Shell: Process "); Int (l_pid l); P (lit " exited with code "); Int (l_status l); P [10]]) l) ++ lit ">> " /\
    w_k w' = mkKernel rest_f rest_e (k_found (w_k w)) (k_waits (w_k w) ++ asked l_pid l) (k_execs (w_k w)).
Proof.
  intros ((_ & _ & Hmax & He) & Hp & Hi & Hs) (Hlen & Hcur & Ht) Hf Hx. unfold asked in *.
  specialize (Hmax (length (l_keys l))). rewrite firstn_all in Hmax.
  assert ((l_end l =? LF) || (l_end l =? CR) = true) as Ee by (by destruct He as [->| ->]).
  unfold UserShell.shell_key. rewrite Ee. destruct (print_ends (ln []) w) as (w1 & E1 & S1 & K1 & X1).
  case_bool_decide as Hne.
  - rewrite Hne in Hcur. subst cursor. destruct (print_ends [P (lit ">> ")] w1) as (w2 & E2 & S2 & K2 & X2).
    exists line, w2. split_and!; [|done|congruence|by rewrite S2, S1, <- app_assoc|].
    + eapply ends_bind; [exact E1|]. eapply ends_bind; [exact E2|]. apply ends_ret.
    + simpl in Hf, Hx. rewrite app_nil_r, X2, X1. destruct (w_k w). simpl in *. congruence.
  - assert (0 < cursor < MAX_CMD_LEN)%nat as Hc by (subst cursor; destruct (typed (l_keys l)); [done|simpl in *; lia]).
    destruct (fork_ends w1 (l_pid l) rest_f) as (w2 & E2 & K2 & S2 & X2); [by rewrite X1|].
    destruct (waitpid_ends w2 (l_pid l) 0 (l_pid l) (l_status l) rest_e Hi Hs) as (w3 & E3 & K3 & S3 & X3);
      [by rewrite X2, X1|].
    destruct (print_ends (ln [P (lit "Shell: Process "); Int (l_pid l); P (lit " exited with code "); Int (l_status l)]) w3)
      as (w4 & E4 & S4 & K4 & X4).
    destruct (print_ends [P (lit ">> ")] w4) as (w5 & E5 & S5 & K5 & X5).
    exists (<[cursor := 0]> line), w5. split_and!; [|by rewrite length_insert|congruence| |].
    + eapply ends_bind; [exact E1|]. rewrite (proj2 (Nat.ltb_lt 0 cursor)) by lia.
      unfold set_at. rewrite (proj2 (Nat.ltb_lt cursor _)) by lia. eapply ends_bind; [apply ends_ret|].
      eapply ends_bind; [exact E2|]. rewrite (proj2 (Z.eqb_neq (l_pid l) 0)) by done.
      eapply ends_bind; [exact E3|]. cbn beta iota.
      eapply ends_bind; [unfold assert_equal; rewrite Z.eqb_refl; apply ends_ret|].
      eapply ends_bind; [exact E4|]. eapply ends_bind; [exact E5|]. apply ends_ret.
    + rewrite S5, S4, S3, S2, S1, <- !app_assoc. simpl. by rewrite app_nil_r.
    + rewrite X5, X4, X3, X2, X1. done.
Qed.

(** Whole lines of the parent. *)
Lemma lines_end rest rest_f ls : forall line w,
  length line = MAX_CMD_LEN -> Forall line_ok ls ->
  w_keys w = List.concat (List.map (fun l => l_keys l ++ [l_end l]) ls) ++ rest ->
  k_forks (w_k w) = List.concat (List.map (asked l_pid) ls) ++ rest_f ->
  k_exits (w_k w) = List.concat (List.map (asked (fun l => (l_pid l, l_status l))) ls) ->
  exists line' w', length line' = MAX_CMD_LEN /\ w_keys w' = rest /\
    w_screen w' = w_screen w ++ List.concat (List.map line_screen ls) /\
    w_k w' = mkKernel rest_f [] (k_found (w_k w)) (k_waits (w_k w) ++ List.concat (List.map (asked l_pid) ls)) (k_execs (w_k w)) /\
    forall r w2, ends (shell_loop (line', 0%nat)) w' r w2 -> ends (shell_loop (line, 0%nat)) w r w2.
Proof.
  induction ls as [|l ls IH]; intros line w Hlen Hok Hk Hf Hx; simpl in *.
  - exists line, w. split_and!; [done..|by rewrite app_nil_r|rewrite app_nil_r; destruct (w_k w); simpl in *; congruence|auto].
  - apply Forall_cons in Hok as [Hl Hok]. pose proof Hl as ((Hlf & Hcr & Hn & _) & _).
    rewrite <- (app_assoc (_ ++ _)), <- app_assoc in Hk. rewrite <- app_assoc in Hf.
    destruct (keys_end ([l_end l] ++ List.concat (List.map (fun l => l_keys l ++ [l_end l]) ls) ++ rest) (l_keys l) line 0 [] w)
      as (line1 & cursor1 & w1 & Hl1 & K1 & S1 & X1 & Hgo); [by split_and!|done|done|exact Hn|exact Hk|]. fold (typed (l_keys l)) in Hl1.
    destruct (getchar_ends w1 _ _ K1) as (w2 & E2 & K2 & S2 & X2).
    edestruct (newline_ends line1 cursor1 l w2) as (line3 & w3 & E3 & Hlen3 & K3 & S3 & X3);
      [exact Hl|exact Hl1|rewrite X2, X1; exact Hf|rewrite X2, X1; exact Hx|].
    destruct (IH line3 w3) as (line4 & w4 & Hlen4 & K4 & S4 & X4 & Hgo'); [done|done|congruence|by rewrite X3|by rewrite X3|].
    exists line4, w4. split_and!; [done|done| | |].
    + rewrite S4, S3, S2, S1. unfold line_screen at 2. by rewrite <- !app_assoc.
    + rewrite X4, X3, X2, X1. simpl. by rewrite <- app_assoc.
    + intros r w5 He. apply Hgo. eapply ends_again; [|by apply Hgo']. eapply ends_bind; [exact E2|exact E3].
Qed.

End World.
