(* ===== verification/UserRun.v ===== *)
(** * Programs on the machine

    The user programs as what the threads of the machine run.  A system is a
    machine with the program that each of its threads still has to run: a step
    performs the next event of one thread, or gives a turn to a thread that is in
    the kernel.  Every step is made of steps of the machine, so what runs of the
    machine keep, these programs cannot break. *)

From stdpp Require Import base list gmap option strings relations.
From Stdlib Require Import ZArith Lia.
From ITree Require Import ITree.
From S2P Require Import Prelude Text Bytes AddrSpace Ptr.
From S2P Require Import Pipe TimeStat TimeConv FdTable Path Mount.
From S2P Require Import Dirent Futex Io Mmap Process Clone Signal.
From S2P Require Import Loader Files Open Syscall Entry.
From S2P Require Import Machine MachineInv MachineRun UserLib.
Import ListNotations.

(** The registers as user code sees them: the three arguments of a trap, the stack
    pointer, and where the linker has put the statics. *)
Class UserRegs (TF : Type) : Type := {
  r_set_args : Z -> Z -> Z -> TF -> TF;
  r_sp : TF -> Z;
  r_static : var -> Z
}.

(** What a thread does next: its program, or what its program does with the answer
    of the trap. *)
Inductive status : Type := Running (p : prog void) | InKernel (k : Z -> prog void).

Section UserRun.
Context {PS T AS WQ SG SA SI CW W UC TF ACT KSA SS DK FH DH CON BR U V ADDR E L X : Type}.
Abbreviation K := (KState PS T AS WQ SG SA CW).
Abbreviation Y := (Machine PS T AS WQ SG SA CW W UC TF DK FH DH CON BR U V).
Context `{AxProcess PS} `{FlattenObjectsOk T nat} `{WaitQueue WQ} `{AxSignal SG SA SI}
  `{ErrorConv, MemoryAddr, MappingFlags} `{AddrSpace AS} `{AddrSpaceClone AS} `{AddrSpaceLoad AS} `{WeakMap W}
  `{UserContext TF UC} `{CloneConsts} `{WaitConsts} `{SignalManager SG SA SI ACT KSA SS TF} `{SignalConsts}
  `{Pod KSA, Pod SS, Pod SI} `{AxFs (DK * CW)} `{AxOpen (DK * CW) FH DH} `{AxFops DK FH} `{Console CON}
  `{AxNet U V ADDR} `{OpenFlags} `{FileModes} `{Pod stat, Pod statx} `{CallConsts} `{DirTypes} `{MmapConsts}
  `{Elf E L X} `{FileStore (DK * CW)} `{LoadConfig} `{KernelConsts} `{KernelEnv PS K WQ AS UC TF DK FH DH CON BR}
  `{UserRegs TF}.

Record System : Type := mkSys { s_y : Y; s_progs : gmap Z status }.

(** The memory of a thread. *)
Definition mem_of (h : UThread UC TF) (y : Y) : option umem :=
  d ← k_pdata (y_k y) !! th_process h; u ← k_spaces (y_k y) !! aspace d; Some (us_mem u).

(** A thread writes its memory. *)
Definition stores (t a : Z) (bs : list Z) (h : UThread UC TF) (y : Y) : option Y :=
  m ← mem_of h y; compute t (mem_write m a bs) (th_tf h) y.

(** The next event of the thread [t]; [a] is the address of a new variable, and
    [id] the number of a new task.  A new thread goes on where its maker does. *)
Definition perform (fuel : nat) (id a t : Z) (h : UThread UC TF) {R} (e : userE R) : (R -> prog void) -> System -> option System :=
  match e in userE R return (R -> prog void) -> System -> option System with
  | Trap num a0 a1 a2 => fun k s =>
      m ← mem_of h (s_y s);
      y1 ← compute t m (r_set_args a0 a1 a2 (th_tf h)) (s_y s);
      y2 ← trap fuel id t num y1;
      let progs := <[t := InKernel k]> (s_progs s) in
      Some (mkSys y2 (match y_threads y2 !! as_u32 id with Some _ => <[as_u32 id := InKernel k]> progs | None => progs end))
  | Data bs => fun k s => y ← stores t a bs h (s_y s); Some (mkSys y (<[t := Running (k a)]> (s_progs s)))
  | Load b n => fun k s => m ← mem_of h (s_y s); Some (mkSys (s_y s) (<[t := Running (k (mem_read m b n))]> (s_progs s)))
  | Store b bs => fun k s => y ← stores t b bs h (s_y s); Some (mkSys y (<[t := Running (k tt)]> (s_progs s)))
  | Static v => fun k s => Some (mkSys (s_y s) (<[t := Running (k (r_static v))]> (s_progs s)))
  | Fetch_add v n => fun k s =>
      m ← mem_of h (s_y s);
      let x := le_dec (mem_read m (r_static v) 8) in
      y ← stores t (r_static v) (le_enc 8 (as_usize (x + n))) h (s_y s);
      Some (mkSys y (<[t := Running (k x)]> (s_progs s)))
  | Get_sp => fun k s => Some (mkSys (s_y s) (<[t := Running (k (r_sp (th_tf h)))]> (s_progs s)))
  | Beyond => fun _ _ => None
  end.

(** A step of the thread [t]; a thread that has ended leaves the system. *)
Definition user_step (fuel : nat) (id a t : Z) (s : System) : option System :=
  p ← s_progs s !! t;
  match y_threads (s_y s) !! t, p with
  | None, _ => Some (mkSys (s_y s) (delete t (s_progs s)))
  | Some h, InKernel k =>
      match th_wait h with
      | None => Some (mkSys (s_y s) (<[t := Running (k (as_isize (tf_retval (th_tf h))))]> (s_progs s)))
      | Some _ => y ← resume t (s_y s); Some (mkSys y (s_progs s))
      end
  | Some h, Running p =>
      match th_wait h, observe p with
      | Some _, _ => None
      | None, RetF v => match v with end
      | None, TauF p => Some (mkSys (s_y s) (<[t := Running p]> (s_progs s)))
      | None, VisF e k => perform fuel id a t h e k s
      end
  end.

(** Steps of a system: one of its threads with a number that is free, or what comes
    from outside. *)
Inductive sys_step (s : System) : System -> Prop :=
| sys_user fuel id a t s' :
    y_threads (s_y s) !! as_u32 id = None -> k_pdata (y_k (s_y s)) !! as_u32 id = None ->
    user_step fuel id a t s = Some s' -> sys_step s s'
| sys_outside wall mono con socks : sys_step s (mkSys (outside wall mono con socks (s_y s)) (s_progs s)).

(** ** Every step is one of the machine *)

Lemma compute_shape t m tf (y y' : Y) h : y_threads y !! t = Some h -> compute t m tf y = Some y' ->
  k_pdata (y_k y') = k_pdata (y_k y) /\ y_threads y' = alter (th_set_tf tf) t (y_threads y).
Proof.
  intros Ht. unfold compute. rewrite Ht. simpl. destruct (k_pdata (y_k y) !! th_process h); [|done]. simpl.
  destruct (k_spaces _ !! _); [|done]. by intros [= <-].
Qed.

Lemma perform_runs fuel id a t h R (e : userE R) k s s' :
  y_threads (s_y s) !! t = Some h -> th_wait h = None ->
  y_threads (s_y s) !! as_u32 id = None -> k_pdata (y_k (s_y s)) !! as_u32 id = None ->
  perform fuel id a t h e k s = Some s' -> rtc machine_step (s_y s) (s_y s').
Proof.
  intros Ht Hw Hid Hp. assert (in_user t (s_y s)) as Hu by (by exists h).
  assert (forall b bs y, stores t b bs h (s_y s) = Some y -> rtc machine_step (s_y s) y) as Hst.
  { intros b bs y. unfold stores. destruct (mem_of h (s_y s)) as [m|]; [|done]. simpl. intros Hc.
    apply rtc_once. exists t. by eapply step_compute. }
  destruct e as [num a0 a1 a2|bs|b n|b bs|v|v n| |]; simpl.
  - destruct (mem_of h (s_y s)) as [m|]; [|done]. simpl. destruct (compute _ _ _ _) as [y1|] eqn:Ec; [|done]. simpl.
    destruct (compute_shape _ _ _ _ _ _ Ht Ec) as [Ep Et].
    destruct (trap _ _ _ _ y1) as [y2|] eqn:Et2; [|done]. simpl. intros [= <-]. simpl.
    eapply rtc_l; [exists t; by eapply step_compute|]. apply rtc_once. exists t. eapply step_trap; [..|exact Et2].
    + eexists. split; [by rewrite Et, lookup_alter_eq, Ht|done].
    + rewrite Et, lookup_alter_ne; [done|]. intros ->. congruence.
    + by rewrite Ep.
  - destruct (stores _ _ _ _ _) as [y|] eqn:Es; [|done]. intros [= <-]. by eapply Hst.
  - destruct (mem_of _ _); [|done]. by intros [= <-].
  - destruct (stores _ _ _ _ _) as [y|] eqn:Es; [|done]. intros [= <-]. by eapply Hst.
  - by intros [= <-].
  - destruct (mem_of _ _); [|done]. simpl. destruct (stores _ _ _ _ _) as [y|] eqn:Es; [|done]. intros [= <-]. by eapply Hst.
  - by intros [= <-].
  - done.
Qed.

Lemma user_step_runs fuel id a t s s' :
  y_threads (s_y s) !! as_u32 id = None -> k_pdata (y_k (s_y s)) !! as_u32 id = None ->
  user_step fuel id a t s = Some s' -> rtc machine_step (s_y s) (s_y s').
Proof.
  intros Hid Hp. unfold user_step. destruct (s_progs s !! t) as [p|]; [|done]. simpl.
  destruct (y_threads (s_y s) !! t) as [h|] eqn:Ht; [|by intros [= <-]]. destruct p as [p|k].
  - destruct (th_wait h) eqn:Hw; [done|]. destruct (observe p) as [[]|p'|R e k]; [by intros [= <-]|]. by eapply perform_runs.
  - destruct (th_wait h); [|by intros [= <-]]. destruct (resume t (s_y s)) as [y|] eqn:Er; [|done]. intros [= <-]. simpl.
    apply rtc_once. exists t. by apply step_resume.
Qed.

(** A run of programs is a run of the machine: whatever holds of all runs of the machine
    holds of it. *)
Lemma sys_runs s s' : rtc sys_step s s' -> rtc machine_step (s_y s) (s_y s').
Proof.
  induction 1 as [|s1 s2 s3 Hs _ IH]; [done|]. etrans; [|exact IH]. destruct Hs as [fuel id a t s2 Hid Hp Hs|wall mono con socks].
  - by eapply user_step_runs.
  - apply rtc_once. exists 0. apply step_outside.
Qed.
End UserRun.
