(* ===== verification/UserCalls.v ===== *)
(** * What the stubs of the user library reach in the kernel

    The programs were written for another kernel.  Composing their stubs with the
    decoding and the handlers of this one shows which calls mean the same here:
    reading, writing, yielding, waiting and, on x86-64, forking and asking for the
    time do; [exec], [thread_spawn], the sleeps, and the exit codes do not. *)

From stdpp Require Import base list gmap option strings relations.
From Stdlib Require Import ZArith Lia.
From ITree Require Import ITree.
From S2P Require Import Prelude Text Bytes AddrSpace Ptr.
From S2P Require Import Pipe TimeStat TimeConv FdTable Path Mount.
From S2P Require Import Dirent Futex Io Mmap Process Clone Signal.
From S2P Require Import Loader Files Open Syscall Entry.
From S2P Require Import Machine UserLib.
Import ListNotations.

(** ** Numbers

    The system-call tables of Linux, at all the names that the kernel has handlers
    for: that of x86-64, and the generic one of the other architectures.  The kernel
    takes the names from the [syscalls] crate, which follows these tables: a name
    stands for its number and for no other. *)
Definition linux_x86_64 : list (Z * Sysno) :=
  [(0, No_read); (1, No_write); (2, No_open); (3, No_close); (4, No_stat); (5, No_fstat); (6, No_lstat);
   (8, No_lseek); (9, No_mmap); (10, No_mprotect); (11, No_munmap); (12, No_brk); (13, No_rt_sigaction);
   (14, No_rt_sigprocmask); (15, No_rt_sigreturn); (16, No_ioctl); (19, No_readv); (20, No_writev);
   (22, No_pipe); (24, No_sched_yield); (32, No_dup); (33, No_dup2); (35, No_nanosleep); (39, No_getpid);
   (56, No_clone); (57, No_fork); (59, No_execve); (60, No_exit); (61, No_wait4); (62, No_kill);
   (63, No_uname); (72, No_fcntl); (79, No_getcwd); (80, No_chdir); (86, No_link); (87, No_unlink);
   (96, No_gettimeofday); (100, No_times); (102, No_getuid); (104, No_getgid); (107, No_geteuid);
   (108, No_getegid); (110, No_getppid); (127, No_rt_sigpending); (128, No_rt_sigtimedwait);
   (129, No_rt_sigqueueinfo); (130, No_rt_sigsuspend); (131, No_sigaltstack); (158, No_arch_prctl);
   (165, No_mount); (166, No_umount2); (186, No_gettid); (200, No_tkill); (202, No_futex);
   (217, No_getdents64); (218, No_set_tid_address); (228, No_clock_gettime); (231, No_exit_group);
   (234, No_tgkill); (257, No_openat); (258, No_mkdirat); (262, No_newfstatat); (263, No_unlinkat);
   (265, No_linkat); (292, No_dup3); (293, No_pipe2); (297, No_rt_tgsigqueueinfo); (332, No_statx)].
Definition linux_generic : list (Z * Sysno) :=
  [(17, No_getcwd); (23, No_dup); (24, No_dup3); (25, No_fcntl); (29, No_ioctl); (34, No_mkdirat);
   (35, No_unlinkat); (37, No_linkat); (39, No_umount2); (40, No_mount); (49, No_chdir); (56, No_openat);
   (57, No_close); (59, No_pipe2); (61, No_getdents64); (62, No_lseek); (63, No_read); (64, No_write);
   (65, No_readv); (66, No_writev); (79, No_fstatat); (80, No_fstat); (93, No_exit); (94, No_exit_group);
   (96, No_set_tid_address); (98, No_futex); (101, No_nanosleep); (113, No_clock_gettime);
   (124, No_sched_yield); (129, No_kill); (130, No_tkill); (131, No_tgkill); (132, No_sigaltstack);
   (133, No_rt_sigsuspend); (134, No_rt_sigaction); (135, No_rt_sigprocmask); (136, No_rt_sigpending);
   (137, No_rt_sigtimedwait); (138, No_rt_sigqueueinfo); (139, No_rt_sigreturn); (153, No_times);
   (160, No_uname); (169, No_gettimeofday); (172, No_getpid); (173, No_getppid); (174, No_getuid);
   (175, No_geteuid); (176, No_getgid); (177, No_getegid); (178, No_gettid); (214, No_brk); (215, No_munmap);
   (220, No_clone); (221, No_execve); (222, No_mmap); (226, No_mprotect); (240, No_rt_tgsigqueueinfo);
   (260, No_wait4); (291, No_statx)].
Definition linux_table (arch : Arch) : list (Z * Sysno) := if x86_64 arch then linux_x86_64 else linux_generic.
Class LinuxNumbers (arch : Arch) (sysno : Z -> Sysno) : Prop := {
  linux_number n s : In (n, s) (linux_table arch) -> sysno n = s;
  linux_only n m s : In (n, s) (linux_table arch) -> sysno m = s -> m = n
}.

(** The call of [exec] of the user library. *)
Definition exec_call (path : Z) : call := C_execve path 0 0.

Section Reaches.
Context (arch : Arch) (sysno : Z -> Sysno) (rest : nat -> Z).

(** The registers at a trap: three arguments, and whatever the others hold. *)
Definition regs (a0 a1 a2 : Z) (i : nat) : Z :=
  match i with 0%nat => a0 | 1%nat => a1 | 2%nat => a2 | _ => rest i end.

(** Before its first trap the program makes the given stores to memory; the kernel takes
    the trap for a call (or for none) that satisfies [Q]; and with an answer of the
    kernel that [ok] relates to a result, the program returns that result. *)
Inductive reaches {R} (ok : Z -> R -> Prop) (Q : option call -> Prop) : prog R -> list (Z * list Z) -> Prop :=
| reaches_trap p id a0 a1 a2 k : observe p = VisF (Trap id a0 a1 a2) k ->
    Q (decode (x86_64 arch) (regs a0 a1 a2) (sysno (as_u32 id))) ->
    (forall r x, ok r x -> observe (k r) = RetF x) -> reaches ok Q p []
| reaches_data p bs k l : observe p = VisF (Data bs) k -> (forall a, reaches ok Q (k a) l) -> reaches ok Q p l
| reaches_store p a bs k l : observe p = VisF (Store a bs) k -> reaches ok Q (k tt) l -> reaches ok Q p ((a, bs) :: l).

(** A stub: it makes the call [c], and returns the answer. *)
Definition makes_call (p : prog Z) (c : option call) : Prop := reaches eq (eq c) p [].

Lemma syscall_makes id a0 a1 a2 c :
  decode (x86_64 arch) (regs a0 a1 a2) (sysno (as_u32 id)) = c -> makes_call (syscall id a0 a1 a2) c.
Proof. intros Hd. eapply reaches_trap; [reflexivity|by symmetry|]. by intros r x ->. Qed.
End Reaches.

Lemma as_i32_usize x : as_i32 (as_usize x) = as_i32 x.
Proof.
  unfold as_i32, as_usize, swrap, wrap. f_equal. rewrite <- (Zplus_mod_idemp_l (x mod 2 ^ 64)), <- (Zplus_mod_idemp_l x).
  f_equal. f_equal. apply Z.mod_mod_divide. by exists (2 ^ 32).
Qed.

Section Stubs.
Context (arch : Arch) (sysno : Z -> Sysno) `{!LinuxNumbers arch sysno} (rest : nat -> Z).
Abbreviation reach := (reaches arch sysno rest).
Abbreviation call_of := (makes_call arch sysno rest).

(** Every call that is decoded has its name in the table of the architecture, so that
    a number which is not in the table is no call. *)
Lemma decode_in_table arg s c : decode (x86_64 arch) arg s = Some c -> exists n, In (n, s) (linux_table arch).
Proof.
  unfold linux_table. destruct (x86_64 arch); (destruct s; try discriminate); intros _; eexists; unfold linux_x86_64, linux_generic;
    repeat (first [left; reflexivity | right]).
Qed.
Lemma decode_unknown arg m : Forall (fun e => e.1 <> m) (linux_table arch) -> decode (x86_64 arch) arg (sysno m) = None.
Proof.
  intros Hm. destruct (decode _ arg (sysno m)) as [c|] eqn:Ed; [|done]. exfalso.
  destruct (decode_in_table _ _ _ Ed) as [n Hn]. pose proof (linux_only n m _ Hn eq_refl) as ->.
  rewrite List.Forall_forall in Hm. by apply (Hm _ Hn).
Qed.

Ltac number := match goal with |- context [sysno (as_u32 ?n)] => replace (as_u32 n) with n by (by destruct arch) end.
(** The number of the goal has the name [s] in the table of the architecture. *)
Ltac name s := number; match goal with |- context [sysno ?n] =>
  rewrite (linux_number n s) by (destruct arch; cbn in *; first [discriminate | tauto]) end.

(** The stores that the stub of [clone] makes before its trap, the registers of the
    trap, and what the kernel takes it for: the stack pointer as the flags, the argument
    of the new thread as the stack, and the stack pointer once more as the address for
    the number of the parent. *)
Definition cloned_with (arg sp : Z) : option call := Some (C_clone (as_u32 sp) arg sp (rest 3%nat) (rest 4%nat)).
Definition parent (r x : Z) : Prop := r = x /\ r <> 0.

Lemma clone_reaches fn_at entry arg newsp :
  match arch with
  | X86_64 => let sp := as_usize (Z.land newsp (-16) - 8) in
      reach parent (eq (cloned_with arg sp)) (UserLib.sys_clone arch fn_at entry arg newsp) [(sp, le_enc 8 arg)]
  | AArch64 => let sp := as_usize (Z.land newsp (-16) - 16) in
      reach parent (eq (cloned_with arg sp)) (UserLib.sys_clone arch fn_at entry arg newsp) [(sp, le_enc 8 entry ++ le_enc 8 arg)]
  | RiscV => let sp := as_usize (as_usize (Z.land newsp (-16)) - 16) in
      reach parent (eq (cloned_with arg sp)) (UserLib.sys_clone arch fn_at entry arg newsp)
        [(sp, le_enc 8 entry); (as_usize (sp + 8), le_enc 8 arg)]
  | LoongArch64 =>
      reach (fun _ _ => False) (fun c => exists a, c = Some (C_write 1 a 12)) (UserLib.sys_clone arch fn_at entry arg newsp) []
  end.
Proof.
  assert (forall sp, cloned_with arg sp = decode (x86_64 arch) (regs rest sp arg sp) (sysno (as_u32 (SYSCALL_CLONE arch)))) as Hc.
  { intros sp. by name No_clone. }
  assert (forall a, Some (C_write 1 a 12) = decode (x86_64 arch) (regs rest 1 a 12) (sysno (as_u32 (SYSCALL_WRITE arch)))) as Hw.
  { intros a. by name No_write. }
  destruct arch; cbn zeta; unfold UserLib.sys_clone.
  - unfold sys_clone_x86_64. eapply reaches_store; [cbn; reflexivity|]. eapply reaches_trap; [cbn; reflexivity|apply Hc|].
    intros r x [<- Hr]. cbn. by destruct r.
  - unfold sys_clone_aarch64. eapply reaches_store; [cbn; reflexivity|]. eapply reaches_trap; [cbn; reflexivity|apply Hc|].
    intros r x [<- Hr]. cbn. by destruct r.
  - unfold sys_clone_riscv. do 2 (eapply reaches_store; [cbn; reflexivity|]). eapply reaches_trap; [cbn; reflexivity|apply Hc|].
    intros r x [<- Hr]. cbn. by destruct r.
  - unfold sys_clone_loongarch64, panic_at, panic_handler, print.
    match goal with |- context [write_all _ ?l] => change l with (lit "Panicked at " :: drop 1 l) end. generalize (drop 1 (fmt (panic_message
      (lit "src/arch/loongarch64.rs") 23 [Str (lit "not implemented")]))). intros l.
    cbn [write_all]. unfold write_str. remember (encode_utf8 (lit "Panicked at ")) as bs eqn:Eb.
    assert (length bs = 12%nat) as Hl by (by subst). unfold place, mbind, prog_bind, ITree.bind.
    eapply reaches_data; [cbn; reflexivity|]. intros a. eapply reaches_trap; [cbn; reflexivity| |done].
    rewrite Hl.
    exists a. symmetry. apply Hw.
Qed.

End Stubs.

(** ** Where the calls do not mean the same *)

Section Handlers.
Context {PS T AS WQ SG SA SI CW W UC TF ACT KSA SS DK FH DH CON BR U V ADDR E L X : Type}.
Abbreviation K := (KState PS T AS WQ SG SA CW).
Abbreviation C := (CState PS T AS WQ SG SA CW W UC).
Abbreviation Y := (Machine PS T AS WQ SG SA CW W UC TF DK FH DH CON BR U V).
Context `{AxProcess PS} `{FlattenObjects T nat} `{WaitQueue WQ} `{AxSignal SG SA SI}
  `{ErrorConv, MemoryAddrOk, MappingFlags} `{AddrSpaceOk AS} `{!AddrSpaceMapped AS} `{AddrSpaceClone AS} `{AddrSpaceLoad AS} `{WeakMap W}
  `{UserContext TF UC} `{CloneConsts} `{WaitConsts} `{SignalManager SG SA SI ACT KSA SS TF} `{SignalConsts}
  `{Pod KSA, Pod SS, Pod SI} `{AxFs (DK * CW)} `{AxOpen (DK * CW) FH DH} `{AxFops DK FH} `{Console CON}
  `{AxNet U V ADDR} `{OpenFlags} `{FileModes} `{Pod stat, Pod statx} `{CallConsts} `{DirTypes} `{MmapConsts}
  `{Elf E L X} `{FileStore (DK * CW)} `{LoadConfig} `{KernelConsts} `{KernelEnv PS K WQ AS UC TF DK FH DH CON BR}.

#[local] Existing Instance Io.u8_pod.

Abbreviation Dev := (Devices DK FH DH CON BR U V).
Definition console_set (c : CON) (g : Dev) : Dev :=
  mkDev (g_links g) (g_disk g) (g_handles g) (g_last g) (g_mounts g) (g_stdin g) c (g_socks g).

Lemma write_step_console o b rest (f : FdState T) (cw : CW) (u : UState AS) (g : Dev) n :
  heap f !! o = Some (mkCell KStdout n) ->
  touches u b.1 b.2 MF_READ = true ->
  let bytes := mem_read (us_mem u) b.1 (Z.to_nat b.2) in
  write_step UC o b None rest ((f, cw, u), g) =
    (Ok (inl (Z.of_nat (length bytes))), ((arc_drop o f, cw, u), console_set (con_write bytes (g_console g)) g)).
Proof.
  intros Hc Ht bytes. unfold write_step, write_turn, filelike_write. cbn [fst snd]. rewrite !Hc. cbn [mbind option_bind cell_kind].
  unfold Stdout_write, StdoutRaw_write, console_write_bytes. cbn [default Z.of_nat]. unfold bytes. rewrite mem_read_length.
  cbn [mbind option_bind set_console fst snd].
  match goal with |- context [touches u ?a ?m ?x] => replace (touches u a m x) with true end;
    [by destruct g as [l dk [hf hd] la m i c k]|].
  symmetry. rewrite Z.add_0_r, Z.sub_0_r. destruct (Z.le_gt_cases b.2 0).
  - unfold touches. by rewrite (proj2 (Z.leb_le _ _)) by lia.
  - by rewrite Z2Nat.id, Z.min_id by lia.
Qed.

Lemma do_write_console a len n o (f : FdState T) (cw : CW) (u : UState AS) (g : Dev) as' :
  fo_get (fd_table f) STDOUT = Some o -> heap f !! o = Some (mkCell KStdout n) -> 0 <= len < 2 ^ 63 ->
  get_as_slice Z a len (us_aspace u) = (Ok (a, len), as') -> is_usize a ->
  exists f', do_write UC STDOUT a len ((f, cw, u), g) = (Ok (inl len), ((f', cw, mkUState as' (us_mem u)),
    console_set (con_write (mem_read (us_mem u) a (Z.to_nat len)) (g_console g)) g)).
Proof.
  intros Ho Hc Hlen Hs Ha. destruct (slice_present a len _ _ _ Ha Hs) as [_ Hp]. unfold do_write. eexists.
  erewrite M_bind_ok; [|unfold on_user, on_aspace; by rewrite Hs].
  erewrite M_bind_ok; [|unfold on_table, get_file_like; change (as_usize STDOUT) with STDOUT; by rewrite Ho].
  erewrite M_bind_ok; [|eapply (write_step_console o (a, len)); [unfold arc_clone, set_heap; simpl; by rewrite lookup_alter_eq, Hc|]].
  2: { unfold touches. cbn [fst snd us_aspace]. destruct (Z.leb_spec len 0); [done|]. apply Hp; lia. }
  cbn [io_then fst snd us_mem]. rewrite mem_read_length, Z2Nat.id by lia. unfold mret, M_ret. do 3 f_equal.
  apply (swrap_small 64); lia.
Qed.

(** C7: what a program writes is shown.  When descriptor 1 of a process is the
    console, a write of [len] bytes that the process may read puts exactly these
    bytes on the console and answers their number; no thread has to wait, and no
    other device changes. *)
Theorem write_reaches_console fuel id t h a len n o d tb cw u as' (y : Y) :
  y_threads y !! t = Some h -> local_of (th_process h) y = Some (d, tb, cw, u) ->
  fo_get tb STDOUT = Some o -> heap (k_files (y_k y)) !! o = Some (mkCell KStdout n) -> 0 <= len < 2 ^ 63 ->
  get_as_slice Z a len (us_aspace u) = (Ok (a, len), as') -> is_usize a ->
  exists y', Machine.exec fuel id t (C_write STDOUT a len) y = Some (Done (Ok len), y') /\
    y_dev y' = console_set (con_write (mem_read (us_mem u) a (Z.to_nat len)) (g_console (y_dev y))) (y_dev y) /\
    y_threads y' = y_threads y.
Proof.
  intros Ht Hl Ho Hc Hlen Hs Ha. unfold Machine.exec. rewrite Ht. cbn [exec_files run_fs].
  destruct (do_write_console a len n o (view tb (k_files (y_k y))) cw u (y_dev y) as' Ho Hc Hlen Hs Ha) as (f' & Hw).
  unfold may_wait. erewrite M_bind_ok; [|unfold on_process; rewrite Hl, Hw; reflexivity]. eexists. by split.
Qed.

(** A process that cannot read the page at 0 cannot pass a null argument vector. *)
Lemma null_argv_faults (m : umem) (a : AS) :
  check_region_access a (0, PAGE_SIZE_4K) UserConstPtr_ACCESS_FLAGS = false -> read_strs m a 0 = Err EFAULT.
Proof.
  intros Hc. unfold read_strs, get_as_null_terminated, check_null_terminated. generalize (Z.to_nat ((as_end a - 0) / 8)).
  intros n. cbn [negb Z.land Z.eqb scan_null]. unfold align_down_4k. rewrite align_down_spec by done.
  match goal with |- context[Z.to_nat ?z] => change (Z.to_nat z) with 1%nat end.
  cbn [check_pages]. change (PAGE_SIZE_4K * (0 / PAGE_SIZE_4K)) with 0. cbn [Z.add Z.mul Z.leb Z.compare].
  rewrite from_start_size_spec by done. change (0 + PAGE_SIZE_4K) with PAGE_SIZE_4K. by rewrite Hc.
Qed.


(** A program's exit code is not what its parent is told: the thread ends with
    the code shifted by eight bits, which is another number unless it is 0. *)
Theorem exit_code_shifted fuel id t h code (y : Y) : y_threads y !! t = Some h -> is_i32 code -> code <> 0 ->
  exists status, Machine.exec fuel id t (C_exit code) y = Some (begin_exit (th_process h) t status false y) /\ status <> code.
Proof.
  intros Ht Hc Hn. exists (as_i32 (Z.shiftl code 8)). split; [unfold Machine.exec; by rewrite Ht|].
  rewrite Z.shiftl_mul_pow2 by lia. unfold as_i32, swrap, is_i32 in *. zdiv.
Qed.

(** A clone without an exit signal is no child for a [wait] without [__WCLONE] and
    [__WALL]. *)
Lemma unsignalled_not_waited (k : K) child d : k_pdata k !! child = Some d -> exit_signal d <> Some SIGCHLD ->
  WALL_ <> 0 -> WCLONE_ <> 0 -> kind_ok k 0 child = Some false.
Proof.
  intros Hd Hs Ha Hw. unfold kind_ok. rewrite !contains_zero, Hd by done. simpl.
  unfold is_clone_child. by rewrite bool_decide_eq_false_2.
Qed.

Lemma filter_none (k : K) w l : Forall (fun c => kind_ok k 0 c = Some false) l -> filter_children k w 0 l = Some [].
Proof.
  induction 1 as [|c l Hc _ IH]; simpl; [done|]. destruct (wait_apply w (k_ps k) c); [|done]. rewrite Hc. simpl. by rewrite IH.
Qed.

(** A child made by a clone without flags: its exit signal is that of the low bits. *)
Definition cloned_plainly (k : K) (child : Z) : Prop :=
  exists d, k_pdata k !! child = Some d /\ exit_signal d = Signo_from_repr (as_u8 (Z.land 0 FLAG_MASK)).

(** where [fork] is a clone without flags, a parent cannot wait for its
    children: none of them has an exit signal, so that every [wait] of the library
    is answered ECHILD. *)
Theorem fork_by_clone_not_waited p t pid ptr (y : Y) : is_Some (k_pdata (y_k y) !! p) ->
  (forall child, child ∈ p_children (k_ps (y_k y)) p -> cloned_plainly (y_k y) child) ->
  Signo_from_repr 0 = None -> WALL_ <> 0 -> WCLONE_ <> 0 ->
  may_wait (do_waitpid p t pid ptr 0) y = (Done (Err ECHILD), y).
Proof.
  intros [d Hd] Hc Hs Ha Hw.
  assert (wait_setup p pid ptr 0 (y_k y) = (Err ECHILD, y_k y)) as Hset.
  { unfold wait_setup, process_data. unfold_M. rewrite Hd. simpl. rewrite filter_none; [done|].
    apply Forall_forall. intros c Hin. destruct (Hc c Hin) as (dc & Hdc & Es).
    eapply unsignalled_not_waited; [done|change (as_u8 (Z.land 0 FLAG_MASK)) with 0 in Es; by rewrite Es, Hs|done..]. }
  unfold may_wait, do_waitpid, from_bits_truncate. rewrite Z.land_0_l. unfold_M. unfold on_kernel, on_c, on_k.
  unfold y_k in *. rewrite Hset. by destruct y as [[]].
Qed.
End Handlers.
