(* ===== verification/UserSample.v ===== *)
(** * Programs that run

    The user programs on the machine of [MachineSample], one event at a time and
    thread by thread in turn, and the theorems about programs at concrete inputs.
    The runs are computed by the definitions themselves. *)

From stdpp Require Import base list gmap option strings relations.
From Stdlib Require Import ZArith Lia.
From ITree Require Import ITree.
From S2P Require Import Prelude Text Bytes AddrSpace Ptr.
From S2P Require Import Pipe TimeStat TimeConv FdTable Path Mount.
From S2P Require Import Dirent Futex Io Mmap Process Clone Signal.
From S2P Require Import Loader Files Open Syscall Entry.
From S2P Require Import Machine MachineInv MachineRun MachineSample.
From S2P Require Import UserLib UserApps UserMatrix UserShell UserRun UserCalls.
Import ListNotations.

Module UserSample.
Import SimpleMem FutexSample FdTable.Sample ProcessSample CloneSample SignalSample LoaderSample PathSample OpenSample
  FilesSample SyscallSample MachineSample.
#[local] Existing Instances Ptr.Sample.sample_conv SyscallSample.statx_pod MmapSample.linux_mmap DirSample.linux_types
  masked_signal masked_manager Signal.set_pod rooted_fs rooted_open rooted_fops rooted_store linux_kernel screen sample_env.

#[local] Instance sample_regs : UserRegs Z := {|
  r_set_args a b c _ := a + Z.shiftl b 64 + Z.shiftl c 128; r_sp _ := 8000; r_static _ := 8064
|}.
Abbreviation Sys := (System (PS := tree) (T := table) (AS := simple_aspace) (WQ := list Z) (SG := signals) (SA := Z) (CW := str)
  (W := gmap Z Z) (UC := list Z) (TF := Z) (DK := disk) (FH := str) (DH := str) (CON := terminal) (BR := unit) (U := unit) (V := unit)).

(** A number greater than all others. *)
Definition next_id (s : Sys) : Z :=
  1 + foldr Z.max 0 ((fst <$> map_to_list (k_pdata (y_k (s_y s)))) ++ (fst <$> map_to_list (y_threads (s_y s)))).
(** The threads take turns; variables get the addresses of the page in turn. *)
Definition tick (n : nat) (s : Sys) : Sys :=
  let ts := fst <$> map_to_list (s_progs s) in
  let id := next_id s in
  match ts !! (n mod length ts)%nat with
  | Some t =>
      if bool_decide (y_threads (s_y s) !! as_u32 id = None) && bool_decide (k_pdata (y_k (s_y s)) !! as_u32 id = None)
      then default s (user_step 0 id (4096 + 64 * Z.of_nat (n mod 60)) t s) else s
  | None => s
  end.
Fixpoint ticks (n : nat) (s : Sys) : Sys := match n with O => s | S n => ticks n (tick n s) end.

Lemma tick_steps n s : rtc sys_step s (tick n s).
Proof.
  unfold tick. destruct (_ !! _) as [t|]; [|done]. destruct (_ && _) eqn:Hf; [|done].
  apply andb_prop in Hf as [H1%bool_decide_eq_true H2%bool_decide_eq_true].
  destruct (user_step _ _ _ t s) as [s'|] eqn:Hs; [|done]. simpl. apply rtc_once. by eapply sys_user.
Qed.
Lemma ticks_steps n : forall s, rtc sys_step s (ticks n s).
Proof. induction n as [|n IH]; intros s; simpl; [done|]. etrans; [apply tick_steps|apply IH]. Qed.

(** A machine whose first thread runs [main]. *)
Definition system_of (main : prog Z) : Sys := mkSys boot {[2 := Running (UserLib.start X86_64 main)]}.
Definition shown (s : Sys) : list Z := (g_console (y_dev (s_y s))).2.
Definition run (n : nat) (main : prog Z) : Sys := ticks n (system_of main).

Example hello_world_runs : shown (run 30 (hello_world_main X86_64)) = lit "Hello world from user mode program!" ++ [10].
Proof. by vm_compute. Qed.
Example yield_runs : let s := run 200 (yield_main X86_64) in
  s_progs s = ∅ /\ drop (length (shown s) - 14) (shown s) = lit "yield passed!" ++ [10].
Proof. by vm_compute. Qed.
(** Thirty children run and are waited for; in the end every descriptor is closed
    and every object gone. *)
Example forktest_runs : let s := run (Z.to_nat 6000) (forktest_main X86_64) in
  s_progs s = ∅ /\ heap (k_files (y_k (s_y s))) = ∅ /\ drop (length (shown s) - 17) (shown s) = lit "forktest passed!" ++ [10].
Proof. by vm_compute. Qed.
(** The test of exit codes panics: the parent sees the child's code shifted. *)
Example exit_test_panics : let s := run 800 (exit_main X86_64) in
  s_progs s = ∅ /\ drop (length (shown s) - 66) (shown s) =
    lit "Panicked at src/bin/exit.rs:26, assertion failed: xstate == MAGIC" ++ [10].
Proof. by vm_compute. Qed.

(** ** Witnesses *)

(** The names of the numbers, by the table of x86-64. *)
Definition names (n : Z) : Sysno := default (No_other n) (list_to_map (M := gmap Z Sysno) linux_x86_64 !! n).
#[local] Instance sysno_eq : EqDecision Sysno.
Proof. solve_decision. Defined.
#[local] Instance sample_numbers : LinuxNumbers X86_64 names.
Proof.
  assert (NoDup linux_x86_64.*1 /\ NoDup linux_x86_64.*2) as [Hn Hs] by (split; by apply (bool_decide_unpack _); vm_compute).
  split; unfold linux_table, names; cbn [x86_64].
  - intros n s Hin. by rewrite (elem_of_list_to_map_1 _ n s) by (try done; by apply list_elem_of_In).
  - intros n m s Hin. destruct (list_to_map linux_x86_64 !! m) as [s'|] eqn:Em.
    + apply elem_of_list_to_map_2 in Em. apply list_elem_of_In in Hin. intros Hs'. change (s' = s) in Hs'. subst s'.
      apply list_elem_of_lookup in Em as [i Hi], Hin as [j Hj].
      assert (i = j) as ->; [|congruence].
      eapply (NoDup_lookup linux_x86_64.*2); [done|by rewrite list_lookup_fmap, Hi|by rewrite list_lookup_fmap, Hj].
    + intros <-. exfalso. unfold linux_x86_64 in Hin. cbn [In] in Hin. by repeat destruct Hin as [[=]|Hin].
Qed.

(** The console of the sample, with a text in memory. *)
Definition texted : YS := default boot (compute 2 (mem_write ∅ 4096 [72; 105]) 0 boot).
Lemma write_reaches_console_witness : exists y',
  Machine.exec 0 9 2 (C_write STDOUT 4096 2) texted = Some (Done (Ok 2), y') /\ (g_console (y_dev y')).2 = [72; 105].
Proof.
  destruct (write_reaches_console 0 9 2 (mkThread 2 [] 0 ts_new None) 4096 2 1 1 (data 0 []) (fd_table booted) []
    (mkUState (mkSimple 4096 8192 3) (mem_write ∅ 4096 [72; 105])) (mkSimple 4096 8192 3) texted) as (y' & He & Hd & _);
    [by vm_compute..|done|by vm_compute|done|].
  exists y'. split; [exact He|]. rewrite Hd. by vm_compute.
Defined.

Definition named : YS := default boot (compute 2 (mem_write ∅ 4096 [108; 115; 0]) 0 boot).

Lemma exit_code_shifted_witness : exists status,
  Machine.exec 0 9 2 (C_exit MAGIC) boot = Some (begin_exit 2 2 status false boot) /\ status <> MAGIC.
Proof. apply (exit_code_shifted 0 9 2 (mkThread 2 [] 0 ts_new None) MAGIC boot); [by vm_compute|by vm_compute|done]. Defined.

(** A child of process 2 that was cloned without an exit signal. *)
Definition cloned : YS := call_of 2 56 0 3 boot.
Lemma fork_by_clone_not_waited_witness : may_wait (do_waitpid 2 2 (-1) 0 0) cloned = (Done (Err ECHILD), cloned).
Proof.
  refine (fork_by_clone_not_waited 2 2 (-1) 0 cloned _ _ eq_refl _ _); [| |done|done].
  { vm_compute. by eexists. }
  assert (p_children (k_ps (y_k cloned)) 2 = [3]) as -> by (vm_compute; reflexivity).
  intros child ->%list_elem_of_singleton. eexists. split; vm_compute; reflexivity.
Defined.

(** The lines [a], for which the child 7 ends with 2, and the empty one; then [lx], a
    backspace, and [s]. *)
Definition quote (s : str) : list str := [[34]; s; [34]].
Definition seen : list session_line := [mkLine (lit "a") 10 7 2; mkLine [] 13 1 0].
Definition desk : world := mkWorld ∅ 4096 (lit "a" ++ [10; 13] ++ lit "lx" ++ [127; 115; 10]) []
  (mkKernel [7; 0] [(7, 2)] (-14) [] []).
Lemma lines_bounded (ks : list Z) e : (length ks < 256)%nat -> bool_decide (LF ∉ ks) && bool_decide (CR ∉ ks) && ((e =? LF) || (e =? CR)) = true ->
  keys_ok ks e.
Proof.
  intros Hl [[H1%bool_decide_eq_true H2%bool_decide_eq_true]%andb_prop He]%andb_prop. split_and!; [done|done| |].
  - intros n. assert (forall ks l, length (fold_left edit ks l) <= length l + length ks)%nat as Hb.
    { clear. induction ks as [|c ks IH]; intros l; simpl; [lia|]. etrans; [apply IH|]. unfold edit.
      destruct (_ || _); [|rewrite length_app; simpl; lia]. rewrite removelast_firstn_len, length_take. lia. }
    specialize (Hb (take n ks) []). rewrite length_take, Nat.add_0_l in Hb. unfold UserShell.typed, MAX_CMD_LEN. lia.
  - apply orb_prop in He as [->%Z.eqb_eq| ->%Z.eqb_eq]; auto.
Qed.
End UserSample.
