(* ===== verification/Build.v ===== *)
(** * The build script

    [build.rs]: it lists the programs of a test case in the assembly file
    [link_app.S], which has a table of their names and contents.  The first part is
    the script on the files of the build machine; the second says what the
    directives of the text mean to the assembler, so that the theorem can speak of
    the bytes that the table leads to. *)

From stdpp Require Import base list gmap option sorting strings.
From Stdlib Require Import ZArith Lia.
From S2P Require Import Prelude Text Bytes.
Import ListNotations.

(** ** The script *)

(** The build machine: the environment variables that hold valid text, the value
    of [option_env!], the entries of a directory (each an error or the bytes of a
    name; [None] when it cannot be read), whether a file can be created, how many
    characters of a failing write still reach the file ([None] when it succeeds),
    and whether the script is compiled with overflow checks.  The standard output
    of a build script is a pipe that Cargo reads: writing to it succeeds. *)
Class BuildHost : Type := {
  env_var : str -> option str;
  AX_TESTCASE : option str;
  read_dir : str -> option (list (option (list Z)));
  can_create : str -> bool;
  write_stops : str -> str -> str -> option nat;
  overflow_checks : bool }.

Record build : Type := mkBuild { stdout : str; files : gmap str str }.
Abbreviation io := (M build unit).

Section Script.
Context `{BuildHost}.

Definition println (s : str) : io unit := modify (fun b => mkBuild (stdout b ++ s ++ [10]) (files b)).

(** [File::create] truncates; the handle is the path. *)
Definition File_create (path : str) : io str :=
  if can_create path
  then modify (fun b => mkBuild (stdout b) (<[path := []]> (files b)));; mret path
  else fail tt.
Definition writeln (f text : str) : io unit := fun b =>
  let old := default [] (files b !! f) in
  let put n := mkBuild (stdout b) (<[f := old ++ n]> (files b)) in
  match write_stops f old (text ++ [10]) with
  | None => (Ok tt, put (text ++ [10]))
  | Some n => (Err tt, put (take n (text ++ [10])))
  end.

(** [PathBuf::join]. *)
Definition path_join (a b : str) : str :=
  if starts_with_char b SLASH then b
  else if bool_decide (a = []) || ends_with_char a SLASH then a ++ b else a ++ SLASH :: b.

(** The order of strings: bytewise on UTF-8, which is the order of code points. *)
Fixpoint str_leb (a b : str) : bool :=
  match a, b with
  | [], _ => true
  | _, [] => false
  | x :: a, y :: b => if x =? y then str_leb a b else x <? y
  end.
Definition str_le (a b : str) : Prop := Is_true (str_leb a b).
#[global] Instance str_le_dec a b : Decision (str_le a b) := Is_true_dec _.

(** [dir_entry.unwrap().file_name().into_string().unwrap()], for each entry. *)
Fixpoint collect_names (dir : list (option (list Z))) : outcome unit (list str) :=
  match dir with
  | [] => Ok []
  | entry :: dir =>
      name ← unwrap_opt entry; app ← unwrap_opt (decode_utf8 name);
      apps ← collect_names dir; Ok (app :: apps)
  end.

Definition shown (i : nat) : str := digits 10 (Z.of_nat i).
Definition header (n : nat) : str :=
  [10] ++ lit ".section .data" ++ [10] ++ lit ".balign 8" ++ [10] ++ lit ".global _app_count" ++ [10]
  ++ lit "_app_count:" ++ [10] ++ lit "    .quad " ++ shown n.

Fixpoint write_quads (f : str) (i : nat) (apps : list str) : io unit :=
  match apps with
  | [] => mret tt
  | _ :: apps =>
      writeln f (lit "    .quad app_" ++ shown i ++ lit "_name");;
      writeln f (lit "    .quad app_" ++ shown i ++ lit "_start");;
      write_quads f (S i) apps
  end.

Definition app_block (idx : nat) (app path : str) : str :=
  [10] ++ lit "app_" ++ shown idx ++ lit "_name:" ++ [10]
  ++ lit "    .string " ++ [34] ++ app ++ [34; 10]
  ++ lit ".balign 8" ++ [10]
  ++ lit "app_" ++ shown idx ++ lit "_start:" ++ [10]
  ++ lit "    .incbin " ++ [34] ++ path ++ [34; 10]
  ++ lit "app_" ++ shown idx ++ lit "_end:".
Fixpoint write_apps (f app_path : str) (idx : nat) (apps : list str) : io unit :=
  match apps with
  | [] => mret tt
  | app :: apps =>
      println (lit "app_" ++ shown idx ++ lit ": " ++ path_join app_path app);;
      writeln f (app_block idx app (path_join app_path app));;
      write_apps f app_path (S idx) apps
  end.

(** [apps.len() - 1], shown: without overflow checks the index of the last program
    of an empty list wraps. *)
Definition last_index (apps : list str) : outcome unit str :=
  match length apps with
  | O => if overflow_checks then Panic else Ok (digits 10 (2 ^ 64 - 1))
  | S n => Ok (shown n)
  end.

Definition apps_dir (arch : str) : str :=
  let testcase := default (lit "nimbos") AX_TESTCASE in
  lit "apps/" ++ testcase ++ lit "/build/" ++ arch.
Definition link_app_data (arch : str) : io unit :=
  let app_path := apps_dir arch in
  out ← lift (unwrap_opt (env_var (lit "OUT_DIR")));
  let link_app_path := path_join out (lit "link_app.S") in
  match read_dir app_path with
  | Some dir =>
      apps ← lift (collect_names dir);
      let apps := merge_sort str_le apps in
      f ← File_create link_app_path;
      writeln f (header (length apps));;
      write_quads f 0 apps;;
      last ← lift (last_index apps);
      writeln f (lit "    .quad app_" ++ last ++ lit "_end");;
      write_apps f app_path 0 apps
  | None =>
      f ← File_create link_app_path;
      writeln f (header 0)
  end.

(** [r.unwrap()] of an action. *)
Definition unwrap_io {A} (m : io A) : io A := fun b => let '(r, b') := m b in (unwrap r, b').

Definition build_main : io unit :=
  println (lit "cargo:rerun-if-changed=./apps/c/src");;
  println (lit "cargo:rerun-if-changed=./apps/rust/src");;
  println (lit "cargo:rerun-if-changed=.makeargs");;
  arch ← lift (unwrap_opt (env_var (lit "CARGO_CFG_TARGET_ARCH")));
  unwrap_io (link_app_data arch).
End Script.

(** ** What the text means

    The directives that the script uses, as the manual of the GNU assembler
    documents them, for one section that starts at an aligned address. *)

Inductive operand : Type := Num (n : Z) | Sym (s : str).
Inductive stmt : Type :=
| Blank | Section_ (name : str) | Balign (n : nat) | Global (s : str) | Label (s : str)
| Quad (o : operand) | String_ (s : str) | Incbin (path : str).

Fixpoint strip_prefix (p s : str) : option str :=
  match p, s with
  | [], _ => Some s
  | x :: p, y :: s => if x =? y then strip_prefix p s else None
  | _ :: _, [] => None
  end.
Definition strip_suffix (s p : str) : option str := rev (A:=Z) <$> strip_prefix (rev p) (rev s).
(** Text without line ends, quotes and escapes. *)
Definition plain (s : str) : bool := forallb (fun c => negb ((c =? 10) || (c =? 34) || (c =? 92))) s.
(** A quoted operand without escapes. *)
Definition unquote (s : str) : option str :=
  r ← strip_prefix [34] s; r ← strip_suffix r [34]; if plain r then Some r else None.
Definition parse_operand (s : str) : operand := if forallb is_digit s then Num (number s) else Sym s.

Fixpoint first_of {A} (l : list (option A)) : option A :=
  match l with [] => None | Some a :: _ => Some a | None :: l => first_of l end.
Definition parse_line (l : str) : option stmt :=
  let l := drop_while (Z.eqb 32) l in
  if bool_decide (l = []) then Some Blank
  else first_of [
    Section_ <$> strip_prefix (lit ".section ") l;
    (fun d => Balign (Z.to_nat (number d))) <$> strip_prefix (lit ".balign ") l;
    Global <$> strip_prefix (lit ".global ") l;
    (fun o => Quad (parse_operand o)) <$> strip_prefix (lit ".quad ") l;
    strip_prefix (lit ".string ") l ≫= fun q => String_ <$> unquote q;
    strip_prefix (lit ".incbin ") l ≫= fun q => Incbin <$> unquote q;
    Label <$> strip_suffix l [58]].

Section Assembler.
(** The files that [.incbin] finds. *)
Variable incbin : str -> option (list Z).

Definition emit (sym : str -> option nat) (pos : nat) (s : stmt) : option (list Z) :=
  match s with
  | Quad (Num n) => Some (le_enc 8 n)
  | Quad (Sym s) => (fun a => le_enc 8 (Z.of_nat a)) <$> sym s
  | String_ s => Some (encode_utf8 s ++ [0])
  | Incbin p => incbin p
  | Balign n => Some (repeat 0 ((n - pos mod n) mod n)%nat)
  | Blank | Section_ _ | Global _ | Label _ => Some []
  end.
Fixpoint emit_all (sym : str -> option nat) (pos : nat) (l : list stmt) : option (list Z) :=
  match l with
  | [] => Some []
  | s :: l => bs ← emit sym pos s; r ← emit_all sym (pos + length bs) l; Some (bs ++ r)
  end.

(** The size of a statement does not depend on the symbols. *)
Definition size (pos : nat) (s : stmt) : nat := length (default [] (emit (fun _ => Some O) pos s)).
Fixpoint labels (pos : nat) (l : list stmt) : list (str * nat) :=
  match l with
  | [] => []
  | Label s :: l => (s, pos) :: labels pos l
  | s :: l => labels (pos + size pos s) l
  end.

(** A label defined twice and an undefined symbol are errors. *)
Definition assemble (text : str) : option (gmap str nat * list Z) :=
  prog ← mapM parse_line (split text 10);
  let ls := labels 0 prog in
  if bool_decide (NoDup ls.*1) then
    let syms : gmap str nat := list_to_map ls in
    img ← emit_all (fun s => syms !! s) 0 prog; Some (syms, img)
  else None.
End Assembler.

(** The [k]th word of an image, and the bytes between two addresses. *)
Definition quad (img : list Z) (k : nat) : Z := le_dec (take 8 (drop (8 * k) img)).
Definition bytes_between (img : list Z) (a b : Z) : list Z := take (Z.to_nat (b - a)) (drop (Z.to_nat a) img).

(** ** The text of the script *)

Definition app_sym (i : nat) (suffix : str) : str := lit "app_" ++ shown i ++ suffix.
Fixpoint quads (i : nat) (apps : list str) : list operand :=
  match apps with
  | [] => []
  | _ :: apps => Sym (app_sym i (lit "_name")) :: Sym (app_sym i (lit "_start")) :: quads (S i) apps
  end.
Fixpoint blocks (dir : str) (i : nat) (apps : list str) : list stmt :=
  match apps with
  | [] => []
  | app :: apps =>
      [Blank; Label (app_sym i (lit "_name")); String_ app; Balign 8; Label (app_sym i (lit "_start"));
       Incbin (path_join dir app); Label (app_sym i (lit "_end"))] ++ blocks dir (S i) apps
  end.
Definition table (apps : list str) : list operand :=
  Num (Z.of_nat (length apps)) :: quads 0 apps ++ [Sym (app_sym (length apps - 1) (lit "_end"))].
Definition preamble : list stmt :=
  [Blank; Section_ (lit ".data"); Balign 8; Global (lit "_app_count"); Label (lit "_app_count")].
Definition program (dir : str) (apps : list str) : list stmt :=
  preamble ++ map Quad (table apps) ++ blocks dir 0 apps.

Definition render (s : stmt) : str :=
  match s with
  | Blank => []
  | Section_ n => lit ".section " ++ n
  | Balign n => lit ".balign " ++ shown n
  | Global s => lit ".global " ++ s
  | Label s => s ++ [58]
  | Quad (Num n) => lit "    .quad " ++ digits 10 n
  | Quad (Sym s) => lit "    .quad " ++ s
  | String_ s => lit "    .string " ++ [34] ++ s ++ [34]
  | Incbin s => lit "    .incbin " ++ [34] ++ s ++ [34]
  end.
Definition unlines (l : list stmt) : str := concat (map (fun s => render s ++ [10]) l).

Lemma unlines_app l1 l2 : unlines (l1 ++ l2) = unlines l1 ++ unlines l2.
Proof. unfold unlines. rewrite map_app. apply concat_app. Qed.
Lemma unlines_cons s l : unlines (s :: l) = render s ++ 10 :: unlines l.
Proof. unfold unlines. cbn [map concat]. rewrite <- app_assoc. reflexivity. Qed.

(** *** Reading it back *)

Lemma strip_prefix_app p s : strip_prefix p (p ++ s) = Some s.
Proof. induction p as [|x p IH]; [reflexivity|]. cbn. rewrite Z.eqb_refl. exact IH. Qed.
Lemma strip_suffix_app s p : strip_suffix (s ++ p) p = Some s.
Proof. unfold strip_suffix. rewrite rev_app_distr, strip_prefix_app. cbn. rewrite rev_involutive. reflexivity. Qed.

Definition readable (s : stmt) : Prop := parse_line (render s) = Some s /\ 10 ∉ render s.

Lemma not_in_forallb (f : Z -> bool) c s : forallb f s = true -> f c = false -> c ∉ s.
Proof. intros Hs Hc Hin. apply list_elem_of_In in Hin. rewrite forallb_forall in Hs. specialize (Hs _ Hin). congruence. Qed.
Lemma plain_no_newline s : plain s = true -> 10 ∉ s.
Proof. intros H. eapply not_in_forallb; [exact H|reflexivity]. Qed.
Lemma shown_no_newline i : 10 ∉ shown i.
Proof. eapply not_in_forallb; [apply digits_all|reflexivity]. Qed.

Lemma unquote_quoted s : plain s = true -> unquote ([34] ++ s ++ [34]) = Some s.
Proof. intros Hs. unfold unquote. rewrite strip_prefix_app. cbn [mbind option_bind]. rewrite strip_suffix_app. cbn. rewrite Hs. reflexivity. Qed.

Lemma split_line l r : 10 ∉ l -> split (l ++ 10 :: r) 10 = l :: split r 10.
Proof.
  induction l as [|c l IH]; intros Hl; [reflexivity|]. apply not_elem_of_cons in Hl as [Hc Hl].
  cbn [app split]. rewrite (proj2 (Z.eqb_neq c 10)) by congruence. rewrite IH by done. reflexivity.
Qed.

Lemma unlines_read l :
  Forall readable l -> mapM parse_line (split (unlines l) 10) = Some (l ++ [Blank]).
Proof.
  induction 1 as [|s l [Hs Hn] Hl IH]; [reflexivity|].
  rewrite unlines_cons, split_line by exact Hn. cbn [mapM]. rewrite Hs. cbn. rewrite IH. reflexivity.
Qed.

Lemma app_sym_no_newline i suffix : 10 ∉ suffix -> 10 ∉ app_sym i suffix.
Proof. intros Hs. unfold app_sym. rewrite !not_elem_of_app. split; [|split; [apply shown_no_newline|exact Hs]].
  apply (bool_decide_unpack _). reflexivity. Qed.

Lemma parse_quad s : parse_line (lit "    .quad " ++ s) = Some (Quad (parse_operand s)).
Proof. reflexivity. Qed.
Lemma parse_string q s : unquote q = Some s -> parse_line (lit "    .string " ++ q) = Some (String_ s).
Proof.
  intros Hq.
  change (first_of [String_ <$> unquote q; None; Label <$> strip_suffix (lit ".string " ++ q) [58]] = Some (String_ s)).
  rewrite Hq. reflexivity.
Qed.
Lemma parse_incbin q s : unquote q = Some s -> parse_line (lit "    .incbin " ++ q) = Some (Incbin s).
Proof.
  intros Hq. change (first_of [Incbin <$> unquote q; Label <$> strip_suffix (lit ".incbin " ++ q) [58]] = Some (Incbin s)).
  rewrite Hq. reflexivity.
Qed.
Lemma parse_label c s : c <> 46 -> c <> 32 -> parse_line (c :: s ++ [58]) = Some (Label (c :: s)).
Proof.
  intros Hd Hs. unfold parse_line. cbn [drop_while]. rewrite (proj2 (Z.eqb_neq 32 c)) by congruence.
  rewrite bool_decide_eq_false_2 by done.
  assert (Hp : forall p, hd 0 p = 46 -> strip_prefix p (c :: s ++ [58]) = None).
  { intros [|x p] Hx; cbn in Hx; [discriminate|]. subst x. cbn [strip_prefix].
    rewrite (proj2 (Z.eqb_neq 46 c)) by congruence. reflexivity. }
  rewrite !Hp by reflexivity. cbn [fmap option_fmap option_map mbind option_bind first_of].
  change (c :: s ++ [58]) with ((c :: s) ++ [58]). rewrite strip_suffix_app. reflexivity.
Qed.

Lemma readable_num n : Z.of_nat n < 10 ^ 64 -> readable (Quad (Num (Z.of_nat n))).
Proof.
  intros Hn. split; cbn [render].
  - rewrite parse_quad. unfold parse_operand. rewrite digits_all, number_digits by lia. reflexivity.
  - rewrite not_elem_of_app. split; [|exact (shown_no_newline n)]. apply (bool_decide_unpack _). reflexivity.
Qed.
Lemma readable_sym i suffix : 10 ∉ suffix -> readable (Quad (Sym (app_sym i suffix))).
Proof.
  intros Hs. split; cbn [render]; [apply parse_quad|].
  rewrite not_elem_of_app. split; [|by apply app_sym_no_newline]. apply (bool_decide_unpack _). reflexivity.
Qed.
Lemma readable_label i suffix : 10 ∉ suffix -> readable (Label (app_sym i suffix)).
Proof.
  intros Hs. split; cbn [render]; [apply parse_label; discriminate|].
  rewrite not_elem_of_app. split; [by apply app_sym_no_newline|]. apply (bool_decide_unpack _). reflexivity.
Qed.
Lemma quoted_no_newline p s : 10 ∉ p -> plain s = true -> 10 ∉ p ++ [34] ++ s ++ [34].
Proof.
  intros Hp Hs. rewrite !not_elem_of_app. pose proof (plain_no_newline s Hs).
  repeat split; auto; apply (bool_decide_unpack _); reflexivity.
Qed.
Lemma readable_string s : plain s = true -> readable (String_ s).
Proof.
  intros Hs. split; [apply parse_string, unquote_quoted, Hs|]. apply quoted_no_newline; [|exact Hs].
  apply (bool_decide_unpack _). reflexivity.
Qed.
Lemma readable_incbin s : plain s = true -> readable (Incbin s).
Proof.
  intros Hs. split; [apply parse_incbin, unquote_quoted, Hs|]. apply quoted_no_newline; [|exact Hs].
  apply (bool_decide_unpack _). reflexivity.
Qed.

Lemma readable_blocks dir i apps :
  Forall (fun app => plain app = true /\ plain (path_join dir app) = true) apps ->
  Forall readable (blocks dir i apps).
Proof.
  intros H. revert i. induction H as [|p apps [Ha Hp] _ IH]; intros i; cbn [blocks app]; [constructor|].
  repeat apply Forall_cons_2; auto using readable_string, readable_incbin.
  2,4,5: apply readable_label.
  all: try split; try reflexivity; apply (bool_decide_unpack _); reflexivity.
Qed.
Lemma readable_quads i apps : Forall readable (map Quad (quads i apps)).
Proof.
  revert i. induction apps as [|p apps IH]; intros i; cbn [quads map]; [constructor|].
  repeat apply Forall_cons_2; [..|apply IH]; apply readable_sym; apply (bool_decide_unpack _); reflexivity.
Qed.
Lemma readable_program dir apps :
  Z.of_nat (length apps) < 10 ^ 64 ->
  Forall (fun app => plain app = true /\ plain (path_join dir app) = true) apps ->
  Forall readable (program dir apps).
Proof.
  intros Hn Hp. unfold program, table, preamble. cbn [map app]. rewrite map_app.
  repeat apply Forall_cons_2.
  1-5: split; [reflexivity|apply (bool_decide_unpack _); reflexivity].
  - by apply readable_num.
  - apply Forall_app. split; [|by apply readable_blocks]. apply Forall_app. split; [apply readable_quads|].
    constructor; [|constructor]. apply readable_sym. apply (bool_decide_unpack _). reflexivity.
Qed.

(** *** Symbols *)

Lemma underscore_split (a b s t : str) : 95 ∉ a -> 95 ∉ b -> a ++ 95 :: s = b ++ 95 :: t -> a = b /\ s = t.
Proof.
  revert b. induction a as [|x a IH]; intros [|y b] Ha Hb E; cbn in E.
  - naive_solver.
  - injection E as <- _. exfalso. apply Hb. left.
  - injection E as -> _. exfalso. apply Ha. left.
  - injection E as <- E. apply not_elem_of_cons in Ha as [_ Ha], Hb as [_ Hb].
    destruct (IH b Ha Hb E) as [-> ->]. done.
Qed.
Lemma app_sym_inj i j s t :
  Z.of_nat i < 10 ^ 64 -> Z.of_nat j < 10 ^ 64 -> app_sym i (95 :: s) = app_sym j (95 :: t) -> i = j /\ s = t.
Proof.
  intros Hi Hj E. unfold app_sym in E. apply app_inv_head in E.
  assert (Hu : forall k, 95 ∉ shown k) by (intros k; eapply not_in_forallb; [apply digits_all|reflexivity]).
  apply underscore_split in E as [E Es]; [|apply Hu..]. apply digits_inj in E; lia || (split; [lia|exact Es]).
Qed.

(** *** Addresses *)

Section Layout.
Variable incbin : str -> option (list Z).
Variable dir : str.
Definition binary (p : str) : list Z := default [] (incbin (path_join dir p)).
Definition cstring (p : str) : list Z := encode_utf8 p ++ [0].
Definition padding (pos : nat) : list Z := repeat 0 ((8 - pos mod 8) mod 8)%nat.
(** Where the contents of a program start and end when its name is at [pos]. *)
Definition start_at (pos : nat) (p : str) : nat :=
  let q := (pos + length (cstring p))%nat in (q + length (padding q))%nat.
Definition end_at (pos : nat) (p : str) : nat := (start_at pos p + length (binary p))%nat.

Lemma start_at_aligned pos p : (start_at pos p mod 8 = 0)%nat.
Proof.
  unfold start_at, padding. rewrite repeat_length. set (q := (pos + _)%nat).
  pose proof (Nat.mod_upper_bound q 8 ltac:(lia)). pose proof (Nat.div_mod_eq q 8) as Hq.
  destruct (Nat.eq_dec (q mod 8) 0) as [E|E]; [rewrite E; cbn; rewrite Nat.add_0_r; exact E|].
  rewrite (Nat.mod_small (8 - q mod 8) 8) by lia. replace (q + _)%nat with ((q / 8 + 1) * 8)%nat by lia.
  apply Nat.Div0.mod_mul.
Qed.

Lemma labels_blocks pos i p apps :
  labels incbin pos (blocks dir i (p :: apps)) =
  (app_sym i (lit "_name"), pos) :: (app_sym i (lit "_start"), start_at pos p)
  :: (app_sym i (lit "_end"), end_at pos p) :: labels incbin (end_at pos p) (blocks dir (S i) apps).
Proof. cbn [blocks app labels]. unfold size. cbn [emit default length]. rewrite !Nat.add_0_r. reflexivity. Qed.

Lemma emit_blocks sym pos i p apps :
  is_Some (incbin (path_join dir p)) ->
  emit_all incbin sym pos (blocks dir i (p :: apps)) =
  r ← emit_all incbin sym (end_at pos p) (blocks dir (S i) apps);
  Some ((cstring p ++ padding (pos + length (cstring p)) ++ binary p) ++ r).
Proof.
  intros [bs Hb]. unfold end_at, start_at, binary. rewrite Hb. cbn [blocks app emit_all emit mbind option_bind length].
  rewrite !Nat.add_0_r, Hb. cbn [mbind option_bind default]. unfold cstring, padding.
  rewrite Nat.add_0_r. destruct (emit_all _ _ _ _); [|reflexivity]. cbn [mbind option_bind]. rewrite <- !app_assoc. reflexivity.
Qed.

(** Where the [k]th program is, in the bytes [bs] that are emitted from [pos] on. *)
Record placed (ls : list (str * nat)) (pos : nat) (bs : list Z) (i : nat) (p : str) (a s e : nat) : Prop := {
  pl_name : (app_sym i (lit "_name"), a) ∈ ls;
  pl_start : (app_sym i (lit "_start"), s) ∈ ls;
  pl_end : (app_sym i (lit "_end"), e) ∈ ls;
  pl_order : (pos <= a <= s /\ s <= e <= pos + length bs)%nat;
  pl_aligned : (s mod 8 = 0)%nat;
  pl_cstring : cstring p = take (length (cstring p)) (drop (a - pos) bs);
  pl_binary : binary p = take (e - s) (drop (s - pos) bs) }.

Lemma drop_past (a b : list Z) n : (length a <= n)%nat -> drop n (a ++ b) = drop (n - length a) b.
Proof. intros H. rewrite drop_app, (drop_ge a) by exact H. reflexivity. Qed.

Lemma placed_here pos i p apps r :
  let bs := (cstring p ++ padding (pos + length (cstring p)) ++ binary p) ++ r in
  placed (labels incbin pos (blocks dir i (p :: apps))) pos bs i p pos (start_at pos p) (end_at pos p).
Proof.
  intros bs. pose proof (start_at_aligned pos p) as Hal. rewrite labels_blocks. split.
  1-3: set_solver.
  - unfold bs, end_at, start_at. rewrite !length_app. lia.
  - exact Hal.
  - rewrite Nat.sub_diag. unfold bs. rewrite drop_0, <- app_assoc, take_app_length. reflexivity.
  - unfold bs, end_at. rewrite <- !app_assoc. unfold start_at. set (c := cstring p). set (q := padding _).
    rewrite (app_assoc c q), drop_past by (rewrite length_app; lia).
    replace (_ - length (c ++ q))%nat with 0%nat by (rewrite length_app; lia). rewrite drop_0.
    replace (_ - _)%nat with (length (binary p)) by lia. rewrite take_app_length. reflexivity.
Qed.

Lemma placed_later ls ls' pos q pre bs i p a s e :
  placed ls q bs i p a s e -> (forall x, x ∈ ls -> x ∈ ls') -> (q = pos + length pre)%nat ->
  placed ls' pos (pre ++ bs) i p a s e.
Proof.
  intros [Hn Hs He Ho Ha Hc Hb] Hsub ->. split; auto.
  - rewrite length_app. lia.
  - rewrite drop_past by lia. replace (_ - _ - _)%nat with (a - (pos + length pre))%nat by lia. exact Hc.
  - rewrite drop_past by lia. replace (s - _ - _)%nat with (s - (pos + length pre))%nat by lia. exact Hb.
Qed.

(** The name of the next program is where the contents of this one end. *)
Lemma blocks_placed sym pos i apps :
  Forall (fun p => is_Some (incbin (path_join dir p))) apps ->
  exists bs, emit_all incbin sym pos (blocks dir i apps) = Some bs /\
    forall k p, apps !! k = Some p -> exists a s e,
      placed (labels incbin pos (blocks dir i apps)) pos bs (i + k) p a s e /\
      ((S k < length apps)%nat -> (app_sym (S (i + k)) (lit "_name"), e) ∈ labels incbin pos (blocks dir i apps)).
Proof.
  intros Hf. revert pos i. induction Hf as [|p apps Hp Hf IH]; intros pos i; [by exists []|].
  destruct (IH (end_at pos p) (S i)) as (r & Hr & Hk). rewrite emit_blocks, Hr by exact Hp.
  eexists. split; [reflexivity|]. intros [|k] p' Hl; cbn in Hl.
  - injection Hl as <-. rewrite Nat.add_0_r. do 3 eexists. split; [apply placed_here|].
    intros Hlt. rewrite labels_blocks. destruct apps as [|p2 apps]; [cbn in Hlt; lia|].
    rewrite labels_blocks. set_solver.
  - destruct (Hk k p' Hl) as (a & s & e & Hpl & Hnext). exists a, s, e.
    replace (i + S k)%nat with (S i + k)%nat by lia. rewrite labels_blocks. split.
    + eapply placed_later; [exact Hpl|set_solver|]. unfold end_at, start_at. rewrite !length_app. lia.
    + intros Hlt. cbn in Hlt. assert (S k < length apps)%nat as Hlt' by lia. specialize (Hnext Hlt'). set_solver.
Qed.
(** *** The table *)

Definition value (sym : str -> option nat) (o : operand) : option Z :=
  match o with Num n => Some n | Sym s => Z.of_nat <$> sym s end.

Lemma labels_quads pos qs l :
  labels incbin pos (map Quad qs ++ l) = labels incbin (pos + 8 * length qs) l.
Proof.
  revert pos. induction qs as [|q qs IH]; intros pos; cbn [map app labels length]; [f_equal; lia|].
  rewrite IH. f_equal. assert (size incbin pos (Quad q) = 8)%nat as -> by (destruct q; reflexivity). lia.
Qed.

Lemma emit_quads sym pos qs vs l :
  Forall2 (fun q v => value sym q = Some v) qs vs ->
  emit_all incbin sym pos (map Quad qs ++ l) =
  r ← emit_all incbin sym (pos + 8 * length qs) l; Some (concat (map (le_enc 8) vs) ++ r).
Proof.
  intros H. revert pos. induction H as [|q v qs vs Hq H IH]; intros pos; cbn [map app emit_all length concat].
  - replace (pos + 8 * 0)%nat with pos by lia. by destruct (emit_all _ _ _ _).
  - assert (emit incbin sym pos (Quad q) = Some (le_enc 8 v)) as ->.
    { destruct q as [n|s]; cbn in Hq |- *; [congruence|]. destruct (sym s); cbn in *; congruence. }
    cbn [mbind option_bind]. rewrite le_enc_length, IH.
    replace (pos + 8 + 8 * length qs)%nat with (pos + 8 * S (length qs))%nat by lia.
    destruct (emit_all _ _ _ _); [|reflexivity]. cbn [mbind option_bind]. rewrite <- app_assoc. reflexivity.
Qed.

Lemma words_length vs : length (concat (map (le_enc 8) vs)) = (8 * length vs)%nat.
Proof. induction vs as [|v vs IH]; [reflexivity|]. cbn [map concat length]. rewrite length_app, le_enc_length, IH. lia. Qed.

Lemma quad_word vs r k v :
  vs !! k = Some v -> 0 <= v < 2 ^ 64 -> quad (concat (map (le_enc 8) vs) ++ r) k = v.
Proof.
  unfold quad. intros Hk Hv. revert k Hk. induction vs as [|w vs IH]; intros [|k] Hk; cbn in Hk; try discriminate.
  - injection Hk as ->. cbn [map concat]. rewrite <- app_assoc. cbn [Nat.mul Nat.add]. rewrite drop_0.
    rewrite <- (le_enc_length 8 v) at 1. rewrite take_app_length. apply le_dec_enc_small. exact Hv.
  - cbn [map concat]. rewrite <- app_assoc, drop_past by (rewrite le_enc_length; lia). rewrite le_enc_length.
    replace (8 * S k - 8)%nat with (8 * k)%nat by lia. apply IH, Hk.
Qed.

Lemma quads_lookup i apps l k p :
  apps !! k = Some p ->
  (quads i apps ++ l) !! (2 * k)%nat = Some (Sym (app_sym (i + k) (lit "_name"))) /\
  (quads i apps ++ l) !! (2 * k + 1)%nat = Some (Sym (app_sym (i + k) (lit "_start"))).
Proof.
  revert i k. induction apps as [|p' apps IH]; intros i [|k] Hk; cbn in Hk; try discriminate.
  - cbn [quads app]. rewrite Nat.add_0_r. done.
  - replace (2 * S k)%nat with (S (S (2 * k))) by lia. replace (S (S (2 * k)) + 1)%nat with (S (S (2 * k + 1))) by lia.
    replace (i + S k)%nat with (S i + k)%nat by lia. cbn [quads app lookup list_lookup]. apply IH, Hk.
Qed.
Lemma quads_length i apps : length (quads i apps) = (2 * length apps)%nat.
Proof. revert i. induction apps as [|p apps IH]; intros i; [reflexivity|]. cbn [quads length]. rewrite IH. lia. Qed.

(** A symbol of the table is defined by a block. *)
Lemma quads_defined pos i apps s :
  Sym s ∈ quads i apps -> s ∈ (labels incbin pos (blocks dir i apps)).*1.
Proof.
  revert pos i. induction apps as [|p apps IH]; intros pos i; cbn [quads]; [intros H; inversion H|].
  rewrite labels_blocks. cbn [fmap list_fmap fst]. rewrite !elem_of_cons.
  intros [E|[E|E]]; [injection E as ->; auto..|]. do 3 right. apply IH, E.
Qed.

(** *** Labels are defined once *)

Lemma labels_later pos i apps s :
  s ∈ (labels incbin pos (blocks dir i apps)).*1 ->
  exists j u, (i <= j < i + length apps)%nat /\ s = app_sym j (95 :: u).
Proof.
  revert pos i. induction apps as [|p apps IH]; intros pos i; [intros H; inversion H|].
  rewrite labels_blocks. cbn [fmap list_fmap fst length]. rewrite !elem_of_cons. intros [E|[E|[E|E]]].
  1-3: exists i; eexists; split; [lia|exact E].
  destruct (IH _ _ E) as (j & u & Hj & Hs). exists j, u. split; [lia|exact Hs].
Qed.
Lemma labels_nodup pos i apps :
  Z.of_nat (i + length apps) < 10 ^ 64 -> NoDup (labels incbin pos (blocks dir i apps)).*1.
Proof.
  revert pos i. induction apps as [|p apps IH]; intros pos i Hn; [constructor|]. cbn [length] in Hn.
  rewrite labels_blocks. cbn [fmap list_fmap fst].
  assert (Hno : forall u, app_sym i (95 :: u) ∉ (labels incbin (end_at pos p) (blocks dir (S i) apps)).*1).
  { intros u E. destruct (labels_later _ _ _ _ E) as (j & w & Hj & Hs). apply app_sym_inj in Hs; lia. }
  assert (Hne : forall u w, u <> w -> app_sym i (95 :: u) <> app_sym i (95 :: w)).
  { intros u w Hd E. apply app_sym_inj in E as [_ E]; [done|lia..]. }
  repeat apply NoDup_cons_2; rewrite ?not_elem_of_cons; repeat split; try (apply Hno); try (apply Hne; discriminate).
  apply IH. lia.
Qed.

(** *** The image *)

Lemma labels_blank pos l : labels incbin pos (l ++ [Blank]) = labels incbin pos l.
Proof.
  revert pos. induction l as [|s l IH]; intros pos; [reflexivity|]. cbn [app labels]. rewrite !IH. by destruct s.
Qed.
Lemma emit_blank sym pos l : emit_all incbin sym pos (l ++ [Blank]) = emit_all incbin sym pos l.
Proof.
  revert pos. induction l as [|s l IH]; intros pos; [reflexivity|]. cbn [app emit_all].
  destruct (emit _ _ _ _); [|reflexivity]. cbn [mbind option_bind]. rewrite IH. reflexivity.
Qed.

Lemma emit_preamble sym l : emit_all incbin sym 0 (preamble ++ l) = emit_all incbin sym 0 l.
Proof.
  unfold preamble. cbn [app emit_all emit mbind option_bind length Nat.add].
  change (repeat 0 _) with (@nil Z). cbn [length Nat.add]. by destruct (emit_all incbin sym 0 l).
Qed.

(** What a reader of the image relies on: the count, and for each program the
    words that give its name, its aligned contents, and their end. *)
Definition leads_to (img : list Z) (apps : list str) : Prop :=
  quad img 0 = Z.of_nat (length apps) /\
  forall i p, apps !! i = Some p ->
    let name := quad img (2 * i + 1) in
    let start := quad img (2 * i + 2) in
    let fin := quad img (2 * i + 3) in
    bytes_between img name (name + Z.of_nat (length (cstring p))) = cstring p /\
    start mod 8 = 0 /\ bytes_between img start fin = binary p.

Context (apps : list str).
Hypothesis Hsome : (0 < length apps)%nat.
Hypothesis Hlen : Z.of_nat (length apps) < 10 ^ 64.
Hypothesis Hfiles : Forall (fun p => is_Some (incbin (path_join dir p))) apps.
Definition table_end : nat := (8 * length (table apps))%nat.
Definition all_labels : list (str * nat) := (lit "_app_count", O) :: labels incbin table_end (blocks dir 0 apps).
Definition symbols : gmap str nat := list_to_map all_labels.

Lemma program_labels : labels incbin 0 (program dir apps) = all_labels.
Proof.
  change (labels incbin 0 (program dir apps))
    with ((lit "_app_count", O) :: labels incbin 0 (map Quad (table apps) ++ blocks dir 0 apps)).
  rewrite labels_quads. reflexivity.
Qed.
Lemma all_labels_nodup : NoDup all_labels.*1.
Proof.
  unfold all_labels. cbn [fmap list_fmap fst]. apply NoDup_cons_2; [|apply labels_nodup; lia].
  intros H. destruct (labels_later _ _ _ _ H) as (j & u & _ & E). discriminate E.
Qed.
Lemma symbols_lookup s a : (s, a) ∈ labels incbin table_end (blocks dir 0 apps) -> symbols !! s = Some a.
Proof. intros H. apply elem_of_list_to_map_1; [exact all_labels_nodup|]. right. exact H. Qed.

Lemma last_placed : exists p, apps !! (length apps - 1)%nat = Some p.
Proof. apply lookup_lt_is_Some_2. lia. Qed.

Lemma table_values : exists vs, Forall2 (fun q v => value (fun s => symbols !! s) q = Some v) (table apps) vs.
Proof.
  destruct (blocks_placed (fun s => symbols !! s) table_end 0 apps Hfiles) as (bs & _ & Hk).
  destruct last_placed as [p Hp]. destruct (Hk _ _ Hp) as (a & s & e & Hpl & _). cbn [Nat.add] in Hpl.
  assert (Hall : Forall (fun q => is_Some (value (fun s => symbols !! s) q)) (table apps)).
  { unfold table. apply Forall_cons_2; [by eexists|]. apply Forall_app. split.
    - apply Forall_forall. intros q Hq. destruct q as [n|x]; [by eexists|].
      pose proof (quads_defined table_end 0 apps x Hq) as Hx. apply list_elem_of_fmap in Hx as ([y b] & -> & Hin).
      cbn [value fst]. rewrite (symbols_lookup _ _ Hin). by eexists.
    - constructor; [|constructor]. cbn [value]. rewrite (symbols_lookup _ _ (pl_end _ _ _ _ _ _ _ _ Hpl)). by eexists. }
  clear -Hall. induction Hall as [|q qs [v Hv] _ [vs IH]]; [exists []; constructor|]. exists (v :: vs). by constructor.
Qed.

Lemma table_lookup i p :
  apps !! i = Some p ->
  table apps !! (2 * i + 1)%nat = Some (Sym (app_sym i (lit "_name"))) /\
  table apps !! (2 * i + 2)%nat = Some (Sym (app_sym i (lit "_start"))) /\
  table apps !! (2 * i + 3)%nat =
    Some (Sym (if bool_decide (S i < length apps)%nat then app_sym (S i) (lit "_name")
               else app_sym i (lit "_end"))).
Proof.
  intros Hi. unfold table. destruct (quads_lookup 0 apps [Sym (app_sym (length apps - 1) (lit "_end"))] i p Hi) as [Hn Hs].
  replace (2 * i + 1)%nat with (S (2 * i)) by lia. replace (2 * i + 2)%nat with (S (2 * i + 1)) by lia.
  replace (2 * i + 3)%nat with (S (2 * S i)) by lia.
  assert (Hc : forall q (l : list operand) n, (q :: l) !! S n = l !! n) by reflexivity. rewrite !Hc. do 2 (split; [assumption|]).
  case_bool_decide as Hl.
  - destruct (lookup_lt_is_Some_2 apps (S i) Hl) as [p' Hp'].
    exact (proj1 (quads_lookup 0 apps [Sym (app_sym (length apps - 1) (lit "_end"))] (S i) p' Hp')).
  - apply lookup_lt_Some in Hi. assert (length apps = S i) as E by lia.
    rewrite lookup_app_r; rewrite quads_length, E; [|lia].
    replace (2 * S i - 2 * S i)%nat with O by lia. replace (S i - 1)%nat with i by lia. reflexivity.
Qed.

Lemma image_read (vs : list Z) (bs : list Z) :
  Forall2 (fun q v => value (fun s => symbols !! s) q = Some v) (table apps) vs ->
  emit_all incbin (fun s => symbols !! s) table_end (blocks dir 0 apps) = Some bs ->
  let img := concat (map (le_enc 8) vs) ++ bs in
  Z.of_nat (length img) < 2 ^ 64 -> leads_to img apps.
Proof.
  intros Hvs Hbs img Himg. pose proof (Forall2_length _ _ _ Hvs) as Hl.
  assert (Hw : length (concat (map (le_enc 8) vs)) = table_end) by (rewrite words_length, <- Hl; reflexivity).
  assert (Hte : (table_end = 8 * (2 * length apps + 2))%nat).
  { unfold table_end, table. cbn [length]. rewrite length_app, quads_length. cbn [length]. lia. }
  assert (Hli : length img = (table_end + length bs)%nat) by (unfold img; rewrite length_app, Hw; reflexivity).
  assert (Hq : forall k s a, table apps !! k = Some (Sym s) -> symbols !! s = Some a -> (a <= length img)%nat ->
                 quad img k = Z.of_nat a).
  { intros k s a Hk Ha Hb. destruct (Forall2_lookup_l _ _ _ _ _ Hvs Hk) as (v & Hv & Hval).
    cbn [value] in Hval. rewrite Ha in Hval. injection Hval as <-. apply (quad_word vs bs k _ Hv). lia. }
  split.
  { destruct (Forall2_lookup_l _ _ _ 0%nat (Num (Z.of_nat (length apps))) Hvs eq_refl) as (v & Hv & Hval).
    injection Hval as <-. apply (quad_word vs bs 0 _ Hv). lia. }
  intros i p Hi name start fin. destruct (table_lookup i p Hi) as (Hn & Hs & Hf).
  destruct (blocks_placed (fun s => symbols !! s) table_end 0 apps Hfiles) as (bs' & Hbs' & Hk).
  rewrite Hbs in Hbs'. injection Hbs' as <-. destruct (Hk i p Hi) as (a & s & e & Hpl & Hnext). cbn [Nat.add] in *.
  destruct Hpl as [Pn Ps Pe Po Pa Pc Pb]. apply symbols_lookup in Pn, Ps, Pe.
  assert (name = Z.of_nat a) as -> by (apply (Hq _ _ a Hn Pn); lia).
  assert (start = Z.of_nat s) as -> by (apply (Hq _ _ s Hs Ps); lia).
  assert (fin = Z.of_nat e) as ->.
  { apply (Hq _ _ e Hf); [|lia]. case_bool_decide as Hlt; [|exact Pe]. apply symbols_lookup, Hnext, Hlt. }
  unfold bytes_between, img. rewrite !drop_past by lia. rewrite Hw.
  repeat split.
  - rewrite Pc at 2. f_equal; [lia|]. f_equal. lia.
  - change 8 with (Z.of_nat 8). rewrite <- Nat2Z.inj_mod, Pa. reflexivity.
  - rewrite Pb. f_equal; [lia|]. f_equal. lia.
Qed.

Lemma assemble_program :
  Forall readable (program dir apps) ->
  exists img, assemble incbin (unlines (program dir apps)) = Some (symbols, img) /\
    (Z.of_nat (length img) < 2 ^ 64 -> leads_to img apps).
Proof.
  intros Hr. destruct table_values as [vs Hvs].
  destruct (blocks_placed (fun s => symbols !! s) table_end 0 apps Hfiles) as (bs & Hbs & _).
  exists (concat (map (le_enc 8) vs) ++ bs). split; [|by apply image_read].
  unfold assemble. rewrite unlines_read by exact Hr. cbn [mbind option_bind]. rewrite labels_blank, program_labels.
  rewrite bool_decide_eq_true_2 by exact all_labels_nodup. fold symbols. rewrite emit_blank.
  unfold program. rewrite emit_preamble, (emit_quads _ _ _ _ _ Hvs). change (0 + 8 * length (table apps))%nat with table_end. rewrite Hbs. reflexivity.
Qed.
End Layout.

(** ** The script writes that text *)

#[global] Instance str_le_total : Total str_le.
Proof.
  unfold str_le. intros x. induction x as [|a x IH]; intros [|b y]; cbn; auto.
  destruct (Z.eqb_spec a b) as [->|Hn]; [rewrite Z.eqb_refl; apply IH|].
  rewrite (proj2 (Z.eqb_neq b a)) by congruence. destruct (Z.ltb_spec a b); [by left|right].
  rewrite (proj2 (Z.ltb_lt b a)) by lia. exact I.
Qed.

Section Writes.
Context `{BuildHost}.
Hypothesis Hwrites : forall f old s, write_stops f old s = None.

Definition contents (f : str) (b : build) : str := default [] (files b !! f).
(** An action succeeds and adds lines to the file [f]. *)
Definition adds (f : str) (m : io unit) (l : list stmt) : Prop :=
  forall b, exists b', m b = (Ok tt, b') /\ contents f b' = contents f b ++ unlines l.

Lemma adds_writeln f s l : s ++ [10] = unlines l -> adds f (writeln f s) l.
Proof.
  intros Hs b. eexists. split; [unfold writeln; rewrite Hwrites; reflexivity|].
  unfold contents. cbn [files]. rewrite lookup_insert_eq. cbn. rewrite Hs. reflexivity.
Qed.
Lemma adds_println f s : adds f (println s) [].
Proof. intros b. eexists. split; [reflexivity|]. unfold contents, unlines. cbn. rewrite app_nil_r. reflexivity. Qed.
Lemma adds_ret f : adds f (mret tt) [].
Proof. intros b. eexists. split; [reflexivity|]. unfold unlines. cbn. rewrite app_nil_r. reflexivity. Qed.
Lemma adds_seq f (m1 m2 : io unit) l1 l2 : adds f m1 l1 -> adds f m2 l2 -> adds f (m1;; m2) (l1 ++ l2).
Proof.
  intros H1 H2 b. destruct (H1 b) as (b1 & E1 & C1). destruct (H2 b1) as (b2 & E2 & C2). exists b2. split.
  - unfold mbind, M_bind. rewrite E1. exact E2.
  - rewrite C2, C1, unlines_app, app_assoc. reflexivity.
Qed.

Lemma adds_quads f i apps : adds f (write_quads f i apps) (map Quad (quads i apps)).
Proof.
  revert i. induction apps as [|p apps IH]; intros i; [apply adds_ret|]. cbn [write_quads quads map].
  apply (adds_seq f _ _ [_]); [|apply (adds_seq f _ _ [_]); [|apply IH]]; apply adds_writeln.
  all: unfold unlines; cbn [map concat render]; unfold app_sym; rewrite app_nil_r, <- !app_assoc; reflexivity.
Qed.
Lemma block_text dir i p :
  app_block i p (path_join dir p) ++ [10] = unlines (blocks dir i [p]).
Proof.
  unfold app_block, unlines, app_sym. cbn [blocks app map concat render].
  change (shown 8) with (lit "8"). unfold app_sym. repeat (rewrite <- app_assoc; cbn [app]). reflexivity.
Qed.
Lemma blocks_cons dir i p apps : blocks dir i (p :: apps) = blocks dir i [p] ++ blocks dir (S i) apps.
Proof. reflexivity. Qed.
Lemma adds_apps f dir i apps : adds f (write_apps f dir i apps) (blocks dir i apps).
Proof.
  revert i. induction apps as [|p apps IH]; intros i; [apply adds_ret|]. rewrite blocks_cons. cbn [write_apps].
  apply (adds_seq f _ _ [] (blocks dir i [p] ++ _)); [apply adds_println|].
  apply (adds_seq f _ _ (blocks dir i [p])); [|apply IH]. apply adds_writeln, block_text.
Qed.
Lemma header_text n : header n ++ [10] = unlines (preamble ++ [Quad (Num (Z.of_nat n))]).
Proof.
  unfold header, unlines, preamble. cbn [app map concat render]. change (shown 8) with (lit "8"). fold (shown n).
  repeat (rewrite <- app_assoc; cbn [app]). reflexivity.
Qed.

(** The part of [link_app_data] after the file is created. *)
Lemma adds_program f dir apps :
  (0 < length apps)%nat ->
  adds f (writeln f (header (length apps));; write_quads f 0 apps;;
          last ← lift (last_index apps);
          writeln f (lit "    .quad app_" ++ last ++ lit "_end");; write_apps f dir 0 apps)
    (program dir apps).
Proof.
  intros Hn. unfold program, table. cbn [map app]. rewrite map_app, <- app_assoc.
  change (preamble ++ ?q :: ?l) with (preamble ++ [q] ++ l). rewrite app_assoc.
  apply adds_seq; [apply adds_writeln, header_text|]. apply adds_seq; [apply adds_quads|].
  unfold last_index. destruct (length apps) as [|n] eqn:E; [lia|]. intros b.
  apply (adds_seq f (writeln f (lit "    .quad app_" ++ shown n ++ lit "_end")) (write_apps f dir 0 apps)).
  - apply adds_writeln. unfold unlines. cbn [map concat render]. unfold app_sym.
    replace (S n - 1)%nat with n by lia. rewrite app_nil_r, <- !app_assoc. reflexivity.
  - apply adds_apps.
Qed.
Variables (arch out : str).
Abbreviation link_app := (path_join out (lit "link_app.S")).
Hypothesis Hout : env_var (lit "OUT_DIR") = Some out.
Hypothesis Hcreate : can_create link_app = true.

Lemma link_app_data_names dir names b :
  read_dir (apps_dir arch) = Some dir -> collect_names dir = Ok names -> (0 < length names)%nat ->
  exists b', link_app_data arch b = (Ok tt, b') /\
    contents link_app b' = unlines (program (apps_dir arch) (merge_sort str_le names)).
Proof.
  intros Hd Hc Hn. unfold link_app_data. rewrite Hout. cbn [unwrap_opt]. unfold lift at 1. unfold mbind at 1, M_bind at 1.
  rewrite Hd, Hc. unfold lift at 1. unfold mbind at 1, M_bind at 1. cbn zeta. unfold File_create. rewrite Hcreate.
  set (b1 := mkBuild (stdout b) (<[link_app := []]> (files b))).
  destruct (adds_program link_app (apps_dir arch) (merge_sort str_le names)) with (b := b1) as (b' & E & C).
  { rewrite merge_sort_Permutation. exact Hn. }
  exists b'. split; [exact E|]. rewrite C. unfold contents at 1, b1. cbn [files]. rewrite lookup_insert_eq. reflexivity.
Qed.

Lemma link_app_data_empty dir b :
  read_dir (apps_dir arch) = Some dir -> collect_names dir = Ok [] ->
  exists b', link_app_data arch b = (if overflow_checks then Panic else Ok tt, b') /\
    contents link_app b' =
    unlines (preamble ++ map Quad (Num 0 :: if overflow_checks then [] else
                           [Sym (lit "app_" ++ digits 10 (2 ^ 64 - 1) ++ lit "_end")])).
Proof.
  intros Hd Hc. unfold link_app_data. rewrite Hout. cbn [unwrap_opt]. unfold lift at 1. unfold mbind at 1, M_bind at 1.
  rewrite Hd, Hc. unfold lift at 1. unfold mbind at 1, M_bind at 1. cbn zeta. unfold File_create. rewrite Hcreate.
  change (merge_sort str_le []) with (@nil str). set (b1 := mkBuild (stdout b) (<[link_app := []]> (files b))).
  assert (contents link_app b1 = []) as H1 by (unfold contents, b1; cbn [files]; rewrite lookup_insert_eq; reflexivity).
  destruct (adds_writeln link_app (header 0) _ (header_text 0) b1) as (b2 & E2 & C2).
  unfold last_index. cbn [length]. destruct overflow_checks.
  - exists b2. split; [|rewrite C2, H1; reflexivity].
    change ((writeln link_app (header 0);; panic (A:=unit)) b1 = (Panic, b2)). unfold mbind, M_bind. rewrite E2. reflexivity.
  - destruct (adds_writeln link_app (lit "    .quad app_" ++ digits 10 (2 ^ 64 - 1) ++ lit "_end")
                [Quad (Sym (lit "app_" ++ digits 10 (2 ^ 64 - 1) ++ lit "_end"))]) with (b := b2) as (b3 & E3 & C3).
    { unfold unlines. cbn [map concat render]. rewrite app_nil_r, <- !app_assoc. reflexivity. }
    exists b3. split; [|rewrite C3, C2, H1, app_nil_l, <- unlines_app; reflexivity].
    change ((writeln link_app (header 0);;
             writeln link_app (lit "    .quad app_" ++ digits 10 (2 ^ 64 - 1) ++ lit "_end");; mret tt) b1 = (Ok tt, b3)).
    unfold mbind, M_bind. rewrite E2, E3. reflexivity.
Qed.

Lemma link_app_data_missing b :
  read_dir (apps_dir arch) = None ->
  exists b', link_app_data arch b = (Ok tt, b') /\
    contents link_app b' = unlines (preamble ++ [Quad (Num 0)]).
Proof.
  intros Hd. unfold link_app_data. rewrite Hout, Hd. unfold mbind, M_bind, lift, File_create. cbn [unwrap_opt].
  cbn zeta. rewrite Hcreate. set (b1 := mkBuild (stdout b) (<[link_app := []]> (files b))).
  destruct (adds_writeln link_app (header 0) _ (header_text 0) b1) as (b2 & E2 & C2).
  exists b2. split; [exact E2|]. rewrite C2. unfold contents, b1. cbn [files]. rewrite lookup_insert_eq. reflexivity.
Qed.
End Writes.

(** ** The theorems *)

(** C40: When the directory of the test case has programs whose names and paths are
    plain text and whose files the assembler finds, and the files can be written,
    [link_app_data] succeeds, and the file it writes assembles: no label is missing
    or defined twice.  The image starts with the number of programs; the programs
    are in order; the words of the table lead to the name of each, ended by a zero,
    to its aligned contents, and to the end of these, so that the bytes between the
    two words are the program. *)
Theorem app_table_leads_to_programs `{BuildHost} incbin arch out dir names b :
  (forall f old s, write_stops f old s = None) ->
  env_var (lit "OUT_DIR") = Some out ->
  can_create (path_join out (lit "link_app.S")) = true ->
  read_dir (apps_dir arch) = Some dir ->
  collect_names dir = Ok names ->
  0 < Z.of_nat (length names) < 2 ^ 64 ->
  Forall (fun p => plain p = true /\ plain (path_join (apps_dir arch) p) = true) names ->
  Forall (fun p => is_Some (incbin (path_join (apps_dir arch) p))) names ->
  exists b' apps syms img,
    link_app_data arch b = (Ok tt, b') /\
    assemble incbin (contents (path_join out (lit "link_app.S")) b') = Some (syms, img) /\
    apps ≡ₚ names /\ Sorted str_le apps /\
    syms !! lit "_app_count" = Some O /\
    (Z.of_nat (length img) < 2 ^ 64 -> leads_to incbin (apps_dir arch) img apps).
Proof.
  intros Hw Ho Hc Hd Hn Hl Hp Hf.
  destruct (link_app_data_names Hw arch out Ho Hc dir names b Hd Hn ltac:(lia)) as (b' & E & C).
  set (apps := merge_sort str_le names) in *.
  assert (Hperm : apps ≡ₚ names) by apply merge_sort_Permutation.
  assert (Hlen : length apps = length names) by (rewrite Hperm; reflexivity).
  destruct (assemble_program incbin (apps_dir arch) apps) as (img & Ha & Hi).
  - lia.
  - rewrite Hlen. lia.
  - rewrite Hperm. exact Hf.
  - apply readable_program; [lia|]. rewrite Hperm. exact Hp.
  - exists b', apps, (symbols incbin (apps_dir arch) apps), img. rewrite C.
    do 3 (split; [first [exact E|exact Ha|exact Hperm]|]). split; [apply Sorted_merge_sort; apply _|].
    split; [|exact Hi]. unfold symbols, all_labels. cbn [list_to_map foldr fst snd]. apply lookup_insert_eq.
Qed.

(** Without programs: a missing directory gives a table of zero programs, but an
    empty one ends the script with a panic, or, without overflow checks, gives a
    text that does not assemble, because the last word of the table names a program
    that is not there. *)
Theorem no_programs `{BuildHost} incbin arch out b :
  (forall f old s, write_stops f old s = None) ->
  env_var (lit "OUT_DIR") = Some out ->
  can_create (path_join out (lit "link_app.S")) = true ->
  (read_dir (apps_dir arch) = None ->
   exists b' syms, link_app_data arch b = (Ok tt, b') /\
     assemble incbin (contents (path_join out (lit "link_app.S")) b') = Some (syms, le_enc 8 0)) /\
  (read_dir (apps_dir arch) = Some [] ->
   exists b', link_app_data arch b = (if overflow_checks then Panic else Ok tt, b') /\
     (overflow_checks = false ->
      assemble incbin (contents (path_join out (lit "link_app.S")) b') = None)).
Proof.
  intros Hw Ho Hc. split; intros Hd.
  - destruct (link_app_data_missing Hw arch out Ho Hc b Hd) as (b' & E & C). exists b'. eexists.
    split; [exact E|]. rewrite C. vm_compute. reflexivity.
  - destruct (link_app_data_empty Hw arch out Ho Hc [] b Hd eq_refl) as (b' & E & C). exists b'.
    split; [exact E|]. intros Hoc. rewrite C, Hoc. vm_compute. reflexivity.
Qed.

(** ** A sample *)

Module BuildSample.
#[export] Instance host : BuildHost := {
  env_var k := if bool_decide (k = lit "OUT_DIR") then Some (lit "/out")
               else if bool_decide (k = lit "CARGO_CFG_TARGET_ARCH") then Some (lit "x86_64") else None;
  AX_TESTCASE := None;
  read_dir p := if bool_decide (p = lit "apps/nimbos/build/x86_64")
                then Some [Some (lit "yield"); Some (lit "hello")] else None;
  can_create _ := true;
  write_stops _ _ _ := None;
  overflow_checks := true }.
Definition incbin (p : str) : option (list Z) :=
  if bool_decide (p = lit "apps/nimbos/build/x86_64/hello") then Some [1; 2; 3]
  else if bool_decide (p = lit "apps/nimbos/build/x86_64/yield") then Some [4; 5] else None.

Definition text : str := default [] (files (snd (build_main (mkBuild [] ∅))) !! lit "/out/link_app.S").
Example assembled :
  snd <$> assemble incbin text =
  Some (le_enc 8 2 ++ le_enc 8 48 ++ le_enc 8 56 ++ le_enc 8 59 ++ le_enc 8 72 ++ le_enc 8 74
        ++ lit "hello" ++ [0; 0; 0; 1; 2; 3] ++ lit "yield" ++ repeat 0 8 ++ [4; 5]).
Proof. vm_compute. reflexivity. Qed.

Lemma app_table_leads_to_programs_witness :
  exists b' apps syms img,
    link_app_data (lit "x86_64") (mkBuild [] ∅) = (Ok tt, b') /\
    assemble incbin (contents (path_join (lit "/out") (lit "link_app.S")) b') = Some (syms, img) /\
    apps ≡ₚ [lit "yield"; lit "hello"] /\ Sorted str_le apps /\
    syms !! lit "_app_count" = Some O /\
    (Z.of_nat (length img) < 2 ^ 64 -> leads_to incbin (apps_dir (lit "x86_64")) img apps).
Proof.
  apply (app_table_leads_to_programs incbin (lit "x86_64") (lit "/out") [Some (lit "yield"); Some (lit "hello")]).
  - reflexivity.
  - vm_compute. reflexivity.
  - reflexivity.
  - vm_compute. reflexivity.
  - vm_compute. reflexivity.
  - cbn. lia.
  - repeat constructor; vm_compute; reflexivity.
  - repeat constructor; vm_compute; eexists; reflexivity.
Defined.
End BuildSample.
